(* ===== verification/_CoqProject ===== *)
-Q . S2P
Prelude.v
Text.v
Base.v
Receiver.v
Transport.v
TcpThreads.v
Link.v
EtcdText.v
Discovery.v
EtcdBackend.v
EtcdWatch.v
Routing.v
Messaging.v
IpcNode.v
Redis.v
Lease.v
Account.v
Storage.v
Directory.v
Repository.v
Protocol.v
Session.v
Persistence.v
GameLogin.v
GateTables.v
Connection.v
Client.v
Gate.v
GateLogin.v
LoginSystem.v
Application.v
Config.v
Loader.v
Console.v
NodeStatus.v
GameConsole.v
GateConsole.v
SimClient.v
SimConsole.v
