(* ===== verification/Prelude.v ===== *)
(** * some-server: a verification library

    The repository is a game server made of three kinds of processes: [gate]
    (clients connect to it), [game] (owns the players) and [relay] (forwards
    messages between them).  Every process loads services from a dynamic
    library; the services talk to the services of other processes through the
    inter-process communication (IPC) framework under [src/framework/ipc].
    This library translates that framework and the services on top of it into
    Rocq and proves what makes them correct.

    ** How the parts interact

    A process registers itself with a lease in etcd ([Discovery]), reads the
    members of the other services there and connects to some of them over TCP
    ([Transport]).  Over a new connection both sides exchange a hello and its
    acknowledgement ([Link]); afterwards the link is active.  A message is
    addressed to a receiver (a process, a service or a player); the directory
    ([Receiver]) knows which process owns it, the policy ([Routing]) picks the
    next hop from members and links, and the messenger ([Messaging]) delivers
    the message to a local host or hands it to the transport.  [IpcNode] is the
    service of a process that owns all these objects, runs their background
    threads and recovers from failures of etcd.

    ** The files

    - [Prelude]: integers of fixed width, the state monad, record update, the
      class [MapOrder] (the unspecified order of a [std::unordered_map]), the
      tactics [run_st] and [cases];
    - [Text]: decimal digits ([std::to_string], [std::stoull]) and string lemmas;
    - [Base]: [framework/ipc/base]: [Result], process identities, receiver
      addresses, envelopes, and the class [Codec] with its law [CodecLaw] for
      the Protobuf messages, whose wire format is generated code;
    - [Receiver]: [receiver/local_receiver_directory.cpp] and
      [receiver_registry.cpp];
    - [Transport]: [transport/frame.h] and [tcp_transport.cpp]: the bytes of a
      frame header, [ReadExact]/[WriteExact] over a socket that fragments as it
      likes, and the connection table;
    - [TcpThreads]: [tcp_transport.cpp] with its sockets and threads; [turn] is a step
      of the acceptor, of a reader or of a call, [start] begins a call, and
      [TcpRuns.run] executes runs;
    - [Link]: [link/control_codec.cpp] and [link_manager.cpp]; [Handshake.step]
      lets two managers exchange their frames in every order;
    - [EtcdText]: the text the etcd backend and the discovery exchange
      ([etcd_sdk_discovery_backend.cpp], [etcd_discovery.cpp]): Base64, JSON
      escapes, the range end of a prefix;
    - [Discovery]: [discovery.cpp] and [etcd_discovery.cpp];
    - [EtcdBackend]: [etcd_sdk_discovery_backend.cpp], its calls over gRPC ([Grpc],
      [EtcdLaw]) and what discoveries find in etcd through it; [ExampleEtcd] is a
      server that obeys the law and a JSON reader;
    - [EtcdWatch]: its watch ([Watch]) under the watch thread of [EtcdDiscovery] and
      the owner that stops it ([WatchSystem]);
    - [Routing]: [routing/relay_first_policy.cpp], [router.cpp] and
      [common/ipc/first_phase_topology_policy.h], against the classes
      [IMembershipView] and [ILinkView], which [Discovery] and [Link] implement;
    - [Messaging]: [messaging/*.cpp] and the dispatchers of [common/protocol];
    - [IpcNode]: [common/ipc/ipc_node_service_base.cpp] with the three role
      services ([game], [gate], [relay]) and their receiver hosts;
    - [Redis]: the connection helpers of [framework/storage] and the class of
      the hiredis calls, with the documented behaviour of the commands used;
    - [Lease]: [game/services/player_lease_service.cpp]; [LeaseSystem] runs the
      services of several games on one database;
    - [Account]: [gate/services/account_directory_service.cpp];
    - [Storage]: [framework/storage/resolved_configuration.cpp] and [service.cpp]
      on Redis and on the class [Maria]; [ExampleServers] is a pair of servers
      that obeys the laws, down to parsing the statements;
    - [Directory]: [game/services/player_directory_service.cpp];
      [DirectoryMachine] cuts its calls of Redis apart and interleaves those of
      several games;
    - [Repository]: [game/services/player_repository.cpp] on the storage service
      and [player_runtime_service.cpp];
    - [Session]: [game/services/player_session_service.cpp]; the record [game]
      holds the services of a game process, [on_lease] and its like lift their
      operations to it; the class [GameIpc] is what the sessions need of
      [IpcNode], which implements it ([node_ipc_law]);
    - [Persistence]: [game/services/player_persistence_service.cpp] next to its
      game;
    - [Protocol]: the messages of [proto/ipc] between processes and of [proto/game]
      with the clients, as records, and the class [ProcessSender] of what sends
      them;
    - [GameLogin]: [game/services/player_login_service.cpp] and
      [player_message_service.cpp], what a game does for the gates;
    - [GateTables]: [gate/services/session_service.cpp], [routing_service.cpp] and
      [auth_service.cpp];
    - [Connection]: [gate/services/connection_service.cpp]: the connections of the
      clients, their sockets ([Sockets]) and their thread, whose turns call the
      handlers that the gate sets;
    - [Client]: [gate/services/client_protocol_service.cpp];
    - [Gate]: [gate/services/login_service.cpp], [player_message_service.cpp] and the
      wiring of [gate/application.cpp]; the record [gate] holds the services;
    - [GateLogin]: the invariant of a running gate and its theorems;
    - [LoginSystem]: a gate and a game together;
    - [Application]: [framework/application]: the services of a process and the
      stages of its life cycle;
    - [Config]: [loader/config.cpp], [loader/logging.cpp] and the command line;
    - [Loader]: [loader/loader.cpp] and [command_registry.cpp]: the application thread
      and the main thread of a process;
    - [Console]: what the console commands have in common;
    - [NodeStatus]: the counters of the receiver hosts and the status snapshots of the
      IPC services;
    - [GameConsole]: the commands of [game/application.cpp] on the services of a game;
    - [GateConsole]: those of [gate/application.cpp] and [relay/application.cpp];
    - [SimClient] and [SimConsole]: [sim_client], the client that operators and tests
      drive: its connection with a reading thread, its messages, scenarios and commands.

    An operation [C::f] of the source is the definition [C.f] (or [f] where the
    file models one class), a function of the object's state; a field keeps its
    name.  Methods that return a [Result] return the pair of the result and the
    new state, and change the state on their error paths as the source does.

    ** What the theorems show

    - round trips: frames through fragmented reads and writes
      ([frames_survive_fragmentation]), envelopes ([data_envelope_roundtrip]),
      Base64 with JSON escapes ([base64_roundtrip]), descriptors through etcd
      ([snapshot_roundtrip]), from one process to the others
      ([registered_processes_found]);
    - protocols: the handshake terminates in agreement in every interleaving
      ([handshake_agreement]), connections are announced once
      ([connection_events_once]), a message travels over a relay unchanged
      ([relay_path_delivers]);
    - refinement: the directory with printed keys implements one keyed by
      addresses ([local_directory_refines_spec]); the events of a snapshot are
      exactly its difference to the previous one ([snapshot_events_replay]);
    - the threads of the transport: tables and sockets agree
      ([transport_tables_agree]), socket set-up is all or nothing
      ([setup_all_or_nothing]);
    - the watch of etcd: its threads are safe in every interleaving
      ([watch_threads_safe]) and stopping it ends once the stream can be cancelled
      ([stop_watch_returns]);
    - functional correctness of routing plans and of the prefix range
      ([broadcast_plan_exact], [single_target_plan], [prefix_range_exact]);
    - invariants of the node and of the membership ([node_flags_consistent],
      [membership_find_all_agree]), its behaviour in the degraded state, leases
      after a failure, bindings of players;
    - players and accounts on Redis: a player is held by one game
      ([lease_mutual_exclusion], [foreign_leases_untouched],
      [renewal_round_confirms]), ids are unique under every interleaving
      ([directory_ids_unique], [resolve_refines_machine]), accounts are bound and
      removed as asked ([account_bind_and_remove]);
    - storage: [configuration_all_or_nothing], coherence of the cache
      ([entries_read_and_written]), [connection_status_accurate]; players in
      memory agree with it ([clean_means_saved], [player_data_survives]);
    - sessions: the tables of a game agree ([session_tables_agree]), the newest
      gate session wins ([newest_gate_session_wins]), nothing is released unsaved
      ([release_saves_first]);
    - requests: only the owner of a player serves them ([requests_served_by_owner]);
    - gates: sockets, connections and sessions agree ([gate_tables_agree]), client
      frames survive fragmentation ([client_frames_roundtrip]), a lost connection is
      cleaned up ([disconnect_cleans_up]);
    - gate and game: a login joins both ends ([login_joins_both_ends]), the end of a
      connection detaches its own player only ([disconnect_detaches_own_session]);
    - processes: services are loaded in order ([services_loaded_in_order]) and
      started all or none ([start_all_or_rollback]), stopping reaches all
      ([stop_reaches_every_service]); the stages of the life cycle are called in
      order ([lifecycle_in_order]) and the process ends ([process_ends]);
      configuration files are merged and checked ([merge_overlays],
      [configuration_checked]);
    - operators: no command but [ipc_bind_player_local] makes the tables of a game
      disagree ([console_keeps_tables]), and none ends a gate ([gate_process_ends]);
    - the simulation client: every command comes back and no socket is lost
      ([client_always_answers]), the gate reads what is asked
      ([client_requests_understood]), its answers are shown ([gate_answers_shown]),
      scenarios send what they should ([scenario_counts]);
    - saving: [flush_round_outcome], [dirty_player_saved_in_time],
      [retry_delay_bounds];
    - theorems about behaviour that the documentation excludes or that loses
      service: [failed_registration_never_retried], [lost_link_not_reconnected],
      [relays_bounce_envelope], [acknowledged_link_with_unknown_peer],
      [watch_lost_without_stop], [stop_watch_hangs], [expired_lease_kept_alive],
      [hang_up_terminates_process], [closing_deadlocks], [reader_takes_foreign_frame],
      [connection_survives_shutdown],
      [lost_renewal_locks_out],
      [account_bind_hides_error], [account_removal_race],
      [failed_cache_update_is_stale], [counter_reset_duplicates],
      [lost_lease_strands_player], [busy_player_never_saved],
      [late_login_binds_dead_session], [stale_entry_kicks_stranger],
      [concurrent_logins_both_active], [rotation_mode_misread],
      [failed_start_never_unloads], [mistyped_number_ends_process].

    ** Bounds and fuel

    Integers are [Z]; wrap-around is written with [u8], [u16], [u32], [u64], and
    a statement that needs a field to be in range says so ([in_u64] and the
    [wf_] predicates).  [ReadExact] and [WriteExact] recurse with the number of
    missing bytes as fuel, as each successful call moves at least one byte.
    [ReaderLoop] takes the number of frames it may read; every larger number
    gives the same result.  [SendEnvelope] recurses through broadcast hops with
    fuel 2, proved to be enough for all inputs.  The loop of [ResolveOrCreate]
    may turn for ever when Redis fails; its fuel is the number of turns, and one
    is enough when Redis answers ([resolve_refines_machine]).  The reader of a client
    whose socket is closed ends within four steps ([client_always_answers]).  The loop of
    [ComputeRetryDelayMs] reaches its bound of eight in three turns.  The printing of a number uses
    its bits as fuel, more than its digits.

    ** Parameters

    Code that is not under [src/] is a class: [Grpc] for the calls to
    etcd (the discovery sees any [IEtcdDiscoveryBackend]), [Glaze] for the JSON library, [Codec] for Protobuf,
    [Redis] and [Maria] for the two database clients,
    [ITransport] for the transport as the node sees it, [Sockets] for the POSIX
    calls of the gate and [ClientSockets] for those of the client, [ClientCodecs] and [MessageCodec] for the messages with the
    clients, [MapOrder] for the
    iteration order of hash maps.  Laws assumed of them are the round trips
    ([CodecLaw], the hypotheses of [snapshot_roundtrip]) and the documented
    behaviour of commands and statements, whose replies may be lost ([EtcdLaw], [RedisLaw],
    [MariaLaw]); they are instantiated by
    concrete functions where a theorem is applied in an example.

    ** What is not modelled

    Name resolution (the addresses are numeric), log lines other than the
    answers of commands, the text of [--help] and the generated Protobuf code.  *)

From Stdlib Require Export ZArith Lia.
From stdpp Require Export base numbers option strings gmap.
From stdpp Require Export list.

Declare Scope server_scope.
Delimit Scope server_scope with srv.
#[global] Open Scope Z_scope.
#[global] Open Scope server_scope.

(** ** Fixed-width unsigned integers, written as [Z] with their wrap-around *)

Definition u8 (z : Z) : Z := z mod 256.
Definition u16 (z : Z) : Z := z mod 65536.
Definition u32 (z : Z) : Z := z mod 4294967296.
Definition u64 (z : Z) : Z := z mod 18446744073709551616.

Definition in_u8 (z : Z) : Prop := 0 <= z < 256.
Definition in_u16 (z : Z) : Prop := 0 <= z < 65536.
Definition in_u32 (z : Z) : Prop := 0 <= z < 4294967296.
Definition in_u64 (z : Z) : Prop := 0 <= z < 18446744073709551616.

(** ** State passing: an operation of an object is a function of its state *)

Definition St (S A : Type) : Type := S -> A * S.
Definition ret {S A : Type} (a : A) : St S A := fun s => (a, s).
Definition bind {S A B : Type} (m : St S A) (k : A -> St S B) : St S B :=
  fun s => let '(a, s') := m s in k a s'.
Definition get {S : Type} : St S S := fun s => (s, s).
Definition gets {S A : Type} (f : S -> A) : St S A := fun s => (f s, s).
Definition modify {S : Type} (f : S -> S) : St S unit := fun s => (tt, f s).

(** [zoom] runs an operation of a part of the state on the whole state. *)
Definition zoom {S T A : Type} (view : S -> T) (put : T -> S -> S) (m : St T A) : St S A :=
  fun s => let '(a, t) := m (view s) in (a, put t s).

Notation "x <- m ;; k" := (bind m (fun x => k))
  (at level 100, m at next level, right associativity) : server_scope.
Notation "m ;;; k" := (bind m (fun _ => k))
  (at level 100, right associativity) : server_scope.

(** [when b m]: the C++ statement [if (b) { m }]. *)
Definition when {S : Type} (b : bool) (m : St S unit) : St S unit :=
  if b then m else ret tt.

(** ** Field updates: [s <| field := v |>]

    A record type declares how it is rebuilt from its fields ([Eta]); the update
    of one field is found by abstracting that field's projection there. *)

Class Eta (R : Type) : Type := eta : R -> R.
Class Update {R A : Type} (proj : R -> A) : Type := update : A -> R -> R.
Arguments update {R A} proj {_} v s / : simpl nomatch.

Ltac derive_update proj :=
  lazymatch type of proj with
  | ?R -> ?A =>
      let rebuild := constr:(_ : Eta R) in
      let rebuild := (let r := eval red in rebuild in r) in
      lazymatch eval pattern proj in rebuild with
      | ?F proj => let F := eval cbv beta in (fun (v : A) (s : R) => F (fun _ => v) s) in exact F
      end
  end.
#[export] Hint Extern 1 (Update ?proj) => derive_update proj : typeclass_instances.

Notation "s <| proj := v |>" := (update proj v s)
  (at level 1, left associativity, proj at level 99, v at level 99, format "s  <| proj  :=  v |>") : server_scope.

(** ** Iteration order of [std::unordered_map]

    The standard leaves the order of iteration unspecified.  A definition that
    iterates over an unordered map takes the order from this class: any
    enumeration of the entries.  [map_to_list] is the instance on which the
    concrete examples are evaluated. *)

Class MapOrder (K : Type) `{Countable K} : Type := {
  entries : forall V : Type, gmap K V -> list (K * V);
  entries_perm : forall (V : Type) (m : gmap K V), Permutation (entries V m) (map_to_list m)
}.
Arguments entries {K _ _ _ V} m.
Arguments entries_perm {K _ _ _ V} m.

(** The order used by concrete evaluations. *)
Definition canonical_order (K : Type) `{Countable K} : MapOrder K :=
  {| entries := fun V m => map_to_list m;
     entries_perm := fun V m => Permutation_refl (map_to_list m) |}.

Definition order_Z : MapOrder Z := canonical_order Z.

(** ** Lemmas and automation *)

Lemma u8_range z : in_u8 (u8 z).
Proof. apply Z.mod_pos_bound. lia. Qed.

Lemma u16_range z : in_u16 (u16 z).
Proof. apply Z.mod_pos_bound. lia. Qed.

Lemma u32_range z : in_u32 (u32 z).
Proof. apply Z.mod_pos_bound. lia. Qed.

Lemma u64_range z : in_u64 (u64 z).
Proof. apply Z.mod_pos_bound. lia. Qed.

Lemma u8_id z : in_u8 z -> u8 z = z.
Proof. apply Z.mod_small. Qed.

Lemma u16_id z : in_u16 z -> u16 z = z.
Proof. apply Z.mod_small. Qed.

Lemma u32_id z : in_u32 z -> u32 z = z.
Proof. apply Z.mod_small. Qed.

Lemma u64_id z : in_u64 z -> u64 z = z.
Proof. apply Z.mod_small. Qed.

Create HintDb width.
Create Rewrite HintDb width.
#[export] Hint Resolve u8_range u16_range u32_range u64_range : width.
#[export] Hint Rewrite u8_id u16_id u32_id u64_id using (unfold in_u8, in_u16, in_u32, in_u64 in *; lia) : width.

Lemma elem_of_entries {K V : Type} `{Countable K} {mo : MapOrder K} (m : gmap K V) (k : K) (v : V) :
  (k, v) ∈ entries m <-> m !! k = Some v.
Proof. by rewrite (entries_perm m), elem_of_map_to_list. Qed.

Lemma NoDup_entries {K V : Type} `{Countable K} {mo : MapOrder K} (m : gmap K V) :
  NoDup (entries m).*1.
Proof. rewrite (entries_perm m). apply NoDup_fst_map_to_list. Qed.

Lemma length_entries {K V : Type} `{Countable K} {mo : MapOrder K} (m : gmap K V) :
  length (entries m) = size m.
Proof. by rewrite (entries_perm m), length_map_to_list. Qed.

Lemma list_find_Some_elem {A : Type} (P : A -> Prop) `{forall x, Decision (P x)} (l : list A) i x :
  list_find P l = Some (i, x) -> x ∈ l /\ P x.
Proof. intros (Hl & HP & _)%list_find_Some. split; [|done]. by eapply list_elem_of_lookup_2. Qed.

(** A [match] on the answer "OK" of a server looks at nothing else. *)
Lemma match_OK (x : string) :
  x = "OK" \/ forall (A : Type) (a b : A), match x with "OK" => a | _ => b end = b.
Proof.
  do 2 (destruct x as [|[[] [] [] [] [] [] [] []] x]; try (right; reflexivity)).
  destruct x; [left|right]; reflexivity.
Qed.

(** Unfolds the state-passing combinators and computes. *)
Ltac run_st :=
  unfold bind, ret, get, gets, modify, zoom, when in *; simpl in *.

(** Case analysis on every [match] and [if] of the goal or of a hypothesis. *)
Ltac cases := repeat case_match; simplify_eq/=; try done.
