(* ===== verification/Text.v ===== *)
(** * Text: the parts of the C++ standard library's text handling the sources use

    [std::to_string] on unsigned values, [std::stoul]/[std::stoull]/[std::stoll]
    ([None] is a thrown exception), [std::getline] on a string stream with a
    delimiter, and word extraction with [operator>>]. *)

From S2P Require Import Prelude.
From Stdlib Require Import Ascii.

(** ** Characters *)

Definition digit_char (d : Z) : ascii := ascii_of_N (Z.to_N (48 + d)).

Definition digit_value (c : ascii) : option Z :=
  let n := Z.of_N (N_of_ascii c) in
  if (48 <=? n) && (n <=? 57) then Some (n - 48) else None.

Definition is_space (c : ascii) : bool :=
  let n := Z.of_N (N_of_ascii c) in (n =? 32) || ((9 <=? n) && (n <=? 13)).

Fixpoint str_forall (P : ascii -> bool) (s : string) : bool :=
  match s with
  | EmptyString => true
  | String c s' => P c && str_forall P s'
  end.

Definition lacks (c : ascii) (s : string) : bool := str_forall (fun x => negb (Ascii.eqb x c)) s.

Definition is_digit (c : ascii) : bool := match digit_value c with Some _ => true | None => false end.

(** ** [std::to_string] of an unsigned value *)

Fixpoint to_string_aux (fuel : nat) (n : Z) (acc : string) : string :=
  match fuel with
  | O => acc
  | S fuel' =>
      if n <? 10 then String (digit_char n) acc
      else to_string_aux fuel' (n / 10) (String (digit_char (n mod 10)) acc)
  end.

(** One step per binary digit is more than one per decimal digit. *)
Definition to_string (n : Z) : string := to_string_aux (S (Z.to_nat (Z.log2 n))) n "".

(** ** [std::stoull], [std::stoul] (64-bit [unsigned long]) and [std::stoll] *)

Fixpoint skip_space (s : string) : string :=
  match s with
  | String c s' => if is_space c then skip_space s' else s
  | EmptyString => EmptyString
  end.

(** Value of the leading digits and whether there is one. *)
Fixpoint read_digits (s : string) (acc : Z) (seen : bool) : Z * bool :=
  match s with
  | String c s' =>
      match digit_value c with
      | Some d => read_digits s' (10 * acc + d) true
      | None => (acc, seen)
      end
  | EmptyString => (acc, seen)
  end.

Definition read_sign (s : string) : bool * string :=
  match s with
  | String "-" s' => (true, s')
  | String "+" s' => (false, s')
  | _ => (false, s)
  end.

Definition stoull (s : string) : option Z :=
  let '(negative, s) := read_sign (skip_space s) in
  let '(v, seen) := read_digits s 0 false in
  if negb seen then None
  else if 18446744073709551615 <? v then None
  else Some (if negative then u64 (- v) else v).

Definition stoul (s : string) : option Z := stoull s.

Definition stoll (s : string) : option Z :=
  let '(negative, s) := read_sign (skip_space s) in
  let '(v, seen) := read_digits s 0 false in
  let v := if negative then - v else v in
  if negb seen then None
  else if (v <? -9223372036854775808) || (9223372036854775807 <? v) then None
  else Some v.

(** ** [std::getline(stream, text, delimiter)]

    A stream is [Some rest] while it is good and [None] once the end of the
    input has been reached.  A call on a stream that is not good, or one that
    extracts no character, fails. *)

Fixpoint split_at (c : ascii) (s : string) : string * option string :=
  match s with
  | EmptyString => (EmptyString, None)
  | String x s' =>
      if Ascii.eqb x c then (EmptyString, Some s')
      else let '(a, b) := split_at c s' in (String x a, b)
  end.

Definition getline (stream : option string) (c : ascii) : option (string * option string) :=
  match stream with
  | None => None
  | Some EmptyString => None
  | Some s => Some (split_at c s)
  end.

(** ** Word extraction with [stream >> text] *)

Fixpoint take_word (s : string) : string * string :=
  match s with
  | EmptyString => (EmptyString, EmptyString)
  | String c s' =>
      if is_space c then (EmptyString, s)
      else let '(w, rest) := take_word s' in (String c w, rest)
  end.

Fixpoint words_aux (fuel : nat) (s : string) : list string :=
  match fuel with
  | O => []
  | S fuel' =>
      match skip_space s with
      | EmptyString => []
      | s' => let '(w, rest) := take_word s' in w :: words_aux fuel' rest
      end
  end.

(** Each word consumes a character, so the length of the input is enough fuel. *)
Definition words (s : string) : list string := words_aux (String.length s) s.

(** ** Decimal printing is read back by the parsers *)

Lemma digit_value_char d : 0 <= d < 10 -> digit_value (digit_char d) = Some d.
Proof.
  intros Hd. unfold digit_value, digit_char.
  rewrite N_ascii_embedding by lia. rewrite Z2N.id by lia.
  replace (48 <=? 48 + d) with true by lia.
  replace (48 + d <=? 57) with true by lia. simpl. f_equal. lia.
Qed.

Lemma is_digit_char d : 0 <= d < 10 -> is_digit (digit_char d) = true.
Proof. intros. unfold is_digit. by rewrite digit_value_char. Qed.

Lemma log2_div10 n : 10 <= n -> (Z.to_nat (Z.log2 (n / 10)) < Z.to_nat (Z.log2 n))%nat.
Proof.
  intros Hn.
  assert (Z.log2 (n / 10) < Z.log2 n); [|pose proof (Z.log2_nonneg (n/10)); lia].
  assert (1 <= n / 10) by (apply Z.div_le_lower_bound; lia).
  assert (Z.log2 (2 * (n / 10)) = Z.succ (Z.log2 (n / 10))) as E by (apply Z.log2_double; lia).
  assert (Z.log2 (2 * (n / 10)) <= Z.log2 n); [|lia].
  apply Z.log2_le_mono. pose proof (Z.mul_div_le n 10). lia.
Qed.

Lemma read_digits_aux fuel n acc v seen :
  0 <= n -> (Z.to_nat (Z.log2 n) < fuel)%nat ->
  exists k, 0 <= k /\ n < 10 ^ k /\
    read_digits (to_string_aux fuel n acc) v seen = read_digits acc (10 ^ k * v + n) true.
Proof.
  revert n acc. induction fuel as [|fuel IH]; intros n acc Hn Hf; [lia|]. simpl.
  destruct (Z.ltb_spec n 10) as [Hs|Hb].
  - exists 1. split; [lia|]. split; [lia|]. simpl.
    rewrite digit_value_char by lia. f_equal.
  - destruct (IH (n / 10) (String (digit_char (n mod 10)) acc)) as (k & Hk & Hlt & E).
    { apply Z.div_pos; lia. }
    { pose proof (log2_div10 n ltac:(lia)). lia. }
    exists (k + 1). rewrite Z.pow_add_r by lia. change (10 ^ 1) with 10.
    pose proof (Z.div_mod n 10 ltac:(lia)). pose proof (Z.mod_pos_bound n 10 ltac:(lia)).
    split; [lia|]. split; [lia|]. rewrite E. simpl.
    rewrite digit_value_char by lia. f_equal. lia.
Qed.

Lemma read_digits_to_string n : 0 <= n -> read_digits (to_string n) 0 false = (n, true).
Proof.
  intros Hn. unfold to_string.
  destruct (read_digits_aux (S (Z.to_nat (Z.log2 n))) n "" 0 false) as (k & _ & _ & E); [lia..|].
  rewrite E. simpl. f_equal. lia.
Qed.

Lemma to_string_aux_digits fuel n acc :
  0 <= n -> str_forall is_digit acc = true -> str_forall is_digit (to_string_aux fuel n acc) = true.
Proof.
  revert n acc. induction fuel as [|fuel IH]; intros n acc Hn Hacc; [done|]. simpl.
  destruct (Z.ltb_spec n 10).
  - simpl. by rewrite is_digit_char by lia.
  - apply IH; [apply Z.div_pos; lia|]. simpl.
    pose proof (Z.mod_pos_bound n 10 ltac:(lia)). by rewrite is_digit_char by lia.
Qed.

Lemma to_string_digits n : 0 <= n -> str_forall is_digit (to_string n) = true.
Proof. intros. by apply to_string_aux_digits. Qed.

Lemma str_forall_impl (P Q : ascii -> bool) s :
  (forall c, P c = true -> Q c = true) -> str_forall P s = true -> str_forall Q s = true.
Proof.
  intros HPQ. induction s as [|c s IH]; simpl; [done|].
  intros [Hc Hs]%andb_true_iff. by rewrite HPQ, IH.
Qed.

Lemma digits_lack c s : is_digit c = false -> str_forall is_digit s = true -> lacks c s = true.
Proof.
  intros Hc. apply str_forall_impl. intros x Hx.
  destruct (Ascii.eqb_spec x c); [by subst; rewrite Hc in Hx|done].
Qed.

Lemma to_string_lacks_colon n : 0 <= n -> lacks ":" (to_string n) = true.
Proof. intros. apply digits_lack; [done|by apply to_string_digits]. Qed.

Lemma to_string_nonempty n : to_string n <> "".
Proof.
  unfold to_string. intros E. cbn [to_string_aux] in E. destruct (n <? 10); [done|].
  assert (forall fuel m c acc, to_string_aux fuel m (String c acc) <> "") as Hne.
  { intros fuel. induction fuel as [|fuel IH]; intros m c acc; simpl; [done|].
    destruct (m <? 10); [done|]. apply IH. }
  by apply Hne in E.
Qed.

(** A string of digits has no leading space and no sign. *)
Lemma digits_plain s : str_forall is_digit s = true -> read_sign (skip_space s) = (false, s).
Proof.
  destruct s as [|c s]; [done|]. simpl. intros [Hc _]%andb_true_iff.
  destruct c as [[] [] [] [] [] [] [] []]; vm_compute in Hc; try discriminate Hc; done.
Qed.

Lemma stoull_to_string n : in_u64 n -> stoull (to_string n) = Some n.
Proof.
  unfold in_u64. intros Hn. unfold stoull.
  rewrite digits_plain by (apply to_string_digits; lia).
  rewrite read_digits_to_string by lia. simpl.
  by replace (18446744073709551615 <? n) with false by lia.
Qed.

Lemma stoul_to_string n : in_u64 n -> stoul (to_string n) = Some n.
Proof. apply stoull_to_string. Qed.

Lemma stoll_to_string n : 0 <= n <= 9223372036854775807 -> stoll (to_string n) = Some n.
Proof.
  intros Hn. unfold stoll.
  rewrite digits_plain by (apply to_string_digits; lia).
  rewrite read_digits_to_string by lia. simpl.
  by replace (n <? -9223372036854775808) with false by lia; replace (9223372036854775807 <? n) with false by lia.
Qed.

Lemma to_string_inj n m : 0 <= n -> 0 <= m -> to_string n = to_string m -> n = m.
Proof.
  intros Hn Hm E. pose proof (read_digits_to_string n Hn) as En.
  rewrite E, (read_digits_to_string m Hm) in En. congruence.
Qed.

(** ** Splitting at a delimiter *)

Lemma split_at_app c a b :
  lacks c a = true -> split_at c (a +:+ String c b) = (a, Some b).
Proof.
  induction a as [|x a IH]; simpl.
  - by rewrite Ascii.eqb_refl.
  - intros [Hx Ha]%andb_true_iff. apply negb_true_iff in Hx. rewrite Hx.
    fold (lacks c a) in Ha. by rewrite IH.
Qed.

Lemma split_at_lacks c a : lacks c a = true -> split_at c a = (a, None).
Proof.
  induction a as [|x a IH]; simpl; [done|].
  intros [Hx Ha]%andb_true_iff. apply negb_true_iff in Hx. rewrite Hx.
  fold (lacks c a) in Ha. by rewrite IH.
Qed.

Lemma getline_field c a b :
  lacks c a = true -> getline (Some (a +:+ String c b)) c = Some (a, Some b).
Proof.
  intros Ha. assert (a +:+ String c b <> "") as Hne by (by destruct a).
  unfold getline. destruct (a +:+ String c b) eqn:E; [done|].
  rewrite <- E. by rewrite split_at_app.
Qed.

Lemma getline_last c a : lacks c a = true -> a <> "" -> getline (Some a) c = Some (a, None).
Proof. intros Ha Hne. unfold getline. destruct a eqn:E; [done|]. rewrite <- E in *. by rewrite split_at_lacks. Qed.

Lemma lacks_app c a b : lacks c (a +:+ b) = lacks c a && lacks c b.
Proof. induction a as [|x a IH]; simpl; [done|]. unfold lacks in *. simpl. rewrite IH. by rewrite andb_assoc. Qed.

Lemma string_app_assoc (a b c : string) : (a +:+ b) +:+ c = a +:+ (b +:+ c).
Proof. induction a as [|x a IH]; [done|]. by apply (f_equal (String x)). Qed.

Lemma string_app_cons x (a b : string) : String x a +:+ b = String x (a +:+ b).
Proof. done. Qed.

Lemma string_app_nil_l (a : string) : "" +:+ a = a.
Proof. done. Qed.

Lemma colon_cons (a : string) : ":" +:+ a = String ":" a.
Proof. done. Qed.

(** Two texts with the same first field, the field being delimited, agree on it
    and on the rest. *)
Lemma field_inj c a a' b b' :
  lacks c a = true -> lacks c a' = true ->
  a +:+ String c b = a' +:+ String c b' -> a = a' /\ b = b'.
Proof.
  intros Ha Ha' E. pose proof (split_at_app c a b Ha) as E1.
  rewrite E, (split_at_app c a' b' Ha') in E1. by simplify_eq.
Qed.

Create HintDb text.
#[export] Hint Resolve to_string_lacks_colon to_string_nonempty to_string_digits : text.
