(* ===== verification/Base.v ===== *)
(** * Base types of the IPC framework (src/framework/ipc/base)

    Process identities, receiver addresses, envelopes and the uniform
    success/error result used by every layer. *)

From S2P Require Import Prelude.

(** ** result.h *)

Record Result := mkResult { ok : bool; message : string }.

Definition Success : Result := {| ok := true; message := "" |}.
Definition Failure (error : string) : Result := {| ok := false; message := error |}.

(** ** types.h *)

Definition ByteBuffer : Type := list Z.
Definition StringMap : Type := list (string * string).

(** ** process.h *)

Record ProcessId := mkProcessId { service_type : Z; instance_id : Z }.
Record ProcessRef := mkProcessRef { process_id : ProcessId; incarnation_id : Z }.
Record Endpoint := mkEndpoint { host : string; port : Z }.

Record ProcessDescriptor := mkProcessDescriptor {
  process : ProcessRef;
  service_name : string;
  listen_endpoint : Endpoint;
  protocol_version : Z;
  start_time_unix_ms : Z;
  labels : StringMap;
  relay_capabilities : list Z
}.

(** ** receiver.h: the enumeration is a 16-bit integer, any value of which a
    cast can produce *)

Definition ReceiverType : Type := Z.
Definition rt_process : ReceiverType := 1.
Definition rt_player : ReceiverType := 2.
Definition rt_system : ReceiverType := 3.
Definition rt_service : ReceiverType := 4.
Definition rt_group : ReceiverType := 5.

Record ReceiverAddress := mkReceiverAddress { rtype : ReceiverType; key_hi : Z; key_lo : Z }.

Inductive ReceiverLocationKind := rl_local | rl_single_process | rl_multi_process | rl_unresolved.

Record ReceiverLocation := mkReceiverLocation {
  rl_kind : ReceiverLocationKind;
  processes : list ProcessRef;
  version : Z
}.

Record BroadcastScope := mkBroadcastScope {
  bs_service_type : option Z;
  required_labels : StringMap;
  include_local : bool
}.

(** ** envelope.h *)

Inductive DeliverySemantic := direct | broadcast.

Record EnvelopeHeader := mkEnvelopeHeader {
  source_process : ProcessRef;
  semantic : DeliverySemantic;
  target_receiver : ReceiverAddress;
  resolved_target_process : option ProcessRef;
  request_id : Z;
  flags : Z
}.

Record Envelope := mkEnvelope {
  header : EnvelopeHeader;
  broadcast_scope : BroadcastScope;
  payload_type_url : string;
  payload_bytes : ByteBuffer
}.

(** Default member initialisers of the structures. *)
Definition default_process_id : ProcessId := mkProcessId 0 0.
Definition default_process_ref : ProcessRef := mkProcessRef default_process_id 0.
Definition default_location : ReceiverLocation := mkReceiverLocation rl_unresolved [] 0.
Definition default_scope : BroadcastScope := mkBroadcastScope None [] true.

(** ** Decidable equality (the [operator==] of the structures) and well-formed widths *)

#[global] Instance result_eq_dec : EqDecision Result.
Proof. solve_decision. Defined.
#[global] Instance process_id_eq_dec : EqDecision ProcessId.
Proof. solve_decision. Defined.
#[global] Instance process_ref_eq_dec : EqDecision ProcessRef.
Proof. solve_decision. Defined.
#[global] Instance endpoint_eq_dec : EqDecision Endpoint.
Proof. solve_decision. Defined.
#[global] Instance process_descriptor_eq_dec : EqDecision ProcessDescriptor.
Proof. solve_decision. Defined.
#[global] Instance receiver_address_eq_dec : EqDecision ReceiverAddress.
Proof. solve_decision. Defined.
#[global] Instance delivery_semantic_eq_dec : EqDecision DeliverySemantic.
Proof. solve_decision. Defined.
#[global] Instance location_kind_eq_dec : EqDecision ReceiverLocationKind.
Proof. solve_decision. Defined.

Definition wf_process_id (p : ProcessId) : Prop := in_u32 (service_type p) /\ in_u32 (instance_id p).
Definition wf_process_ref (p : ProcessRef) : Prop :=
  wf_process_id (process_id p) /\ in_u64 (incarnation_id p).
Definition wf_receiver (r : ReceiverAddress) : Prop :=
  in_u16 (rtype r) /\ in_u64 (key_hi r) /\ in_u64 (key_lo r).

(** ** Protobuf messages

    The wire format is the protobuf library's and the generated code's.  A
    message type comes with its serialiser and parser as parameters; what the
    sources rely on is that parsing a serialised message gives the message back,
    for messages whose integer fields fit their declared widths. *)

Class Codec (M : Type) : Type := {
  serialize : M -> ByteBuffer;
  parse : ByteBuffer -> option M
}.

Class CodecLaw (M : Type) `{Codec M} (fits : M -> Prop) : Prop :=
  parse_serialize : forall m : M, fits m -> parse (serialize m) = Some m.

(** A codec of any countable message type, for the concrete examples: one
    "byte" holds the whole code. *)
Definition example_codec (M : Type) `{Countable M} : Codec M := {|
  serialize := fun m => [Zpos (encode m)];
  parse := fun b => match b with [Zpos p] => decode p | _ => None end
|}.

Lemma example_codec_law (M : Type) `{Countable M} (fits : M -> Prop) : @CodecLaw M (example_codec M) fits.
Proof. intros m _. apply decode_encode. Qed.

#[global] Instance process_id_countable : Countable ProcessId.
Proof.
  refine (inj_countable' (fun p => (service_type p, instance_id p)) (fun '(a, b) => mkProcessId a b) _).
  by intros [].
Defined.
#[global] Instance process_ref_countable : Countable ProcessRef.
Proof.
  refine (inj_countable' (fun p => (process_id p, incarnation_id p)) (fun '(a, b) => mkProcessRef a b) _).
  by intros [].
Defined.
#[global] Instance receiver_address_countable : Countable ReceiverAddress.
Proof.
  refine (inj_countable' (fun p => (rtype p, key_hi p, key_lo p)) (fun '(a, b, c) => mkReceiverAddress a b c) _).
  by intros [].
Defined.
