(* ===== verification/Receiver.v ===== *)
(** * Receivers (src/framework/ipc/receiver)

    [Directory] is the interface [IReceiverDirectory] with the contract its
    clients rely on; [LocalReceiverDirectory] implements it with a map keyed by
    a printed address; [ReceiverRegistry] is the table of dispatch targets. *)

From S2P Require Import Prelude Text Base.

(** ** receiver_directory.h: the interface *)

Class IReceiverDirectory (D : Type) : Type := {
  dir_resolve : D -> ReceiverAddress -> ReceiverLocation;
  dir_bind : ReceiverAddress -> ProcessRef -> St D Result;
  dir_rebind : ReceiverAddress -> ProcessRef -> ProcessRef -> St D Result;
  dir_invalidate : ReceiverAddress -> ProcessRef -> Z -> St D Result
}.

(** The view a client has of a directory: the owner and version of an address. *)
Definition location_of (binding : option (ProcessRef * Z)) : ReceiverLocation :=
  match binding with
  | Some (owner, v) => mkReceiverLocation rl_single_process [owner] v
  | None => default_location
  end.

(** The contract of the interface for the addresses whose fields fit their
    widths: each operation acts on the binding of its own address only. *)
Class DirectoryContract (D : Type) `{IReceiverDirectory D} : Type := {
  binding_of : D -> ReceiverAddress -> option (ProcessRef * Z);
  resolve_binding : forall d r, wf_receiver r -> dir_resolve d r = location_of (binding_of d r);
  bind_fresh : forall d r o, wf_receiver r -> binding_of d r = None ->
    (dir_bind r o d).1 = Success /\ binding_of (dir_bind r o d).2 r = Some (o, 1);
  bind_taken : forall d r o o' v, wf_receiver r -> binding_of d r = Some (o', v) -> v <> 0 -> o <> o' ->
    ok (dir_bind r o d).1 = false /\ binding_of (dir_bind r o d).2 r = Some (o', v);
  bind_frame : forall d r r' o, wf_receiver r -> wf_receiver r' -> r <> r' ->
    binding_of (dir_bind r o d).2 r' = binding_of d r';
  invalidate_match : forall d r o v, wf_receiver r -> binding_of d r = Some (o, v) ->
    (dir_invalidate r o v d).1 = Success /\ binding_of (dir_invalidate r o v d).2 r = None;
  invalidate_frame : forall d r r' o v, wf_receiver r -> wf_receiver r' -> r <> r' ->
    binding_of (dir_invalidate r o v d).2 r' = binding_of d r'
}.

(** ** local_receiver_directory.{h,cpp} *)

Module LocalReceiverDirectory.

Record Entry := mkEntry { owner : ProcessRef; entry_version : Z }.

Abbreviation t := (gmap string Entry).

Definition default_entry : Entry := mkEntry default_process_ref 0.

Definition MakeKey (receiver : ReceiverAddress) : string :=
  to_string (u16 (rtype receiver)) +:+ ":" +:+ to_string (key_hi receiver) +:+ ":" +:+
  to_string (key_lo receiver).

Definition Resolve (mEntries : t) (receiver : ReceiverAddress) : ReceiverLocation :=
  match mEntries !! MakeKey receiver with
  | None => default_location
  | Some it => mkReceiverLocation rl_single_process [owner it] (entry_version it)
  end.

(** [mEntries[key]] creates a default entry when the key is absent. *)
Definition Bind (receiver : ReceiverAddress) (new_owner : ProcessRef) : St t Result :=
  fun mEntries =>
    let key := MakeKey receiver in
    let entry := default default_entry (mEntries !! key) in
    if negb (entry_version entry =? 0) && negb (bool_decide (owner entry = new_owner)) then
      (Failure "receiver already bound to another owner", <[key := entry]> mEntries)
    else
      let v := if entry_version entry =? 0 then 1 else entry_version entry in
      (Success, <[key := mkEntry new_owner v]> mEntries).

Definition Rebind (receiver : ReceiverAddress) (old_owner new_owner : ProcessRef) : St t Result :=
  fun mEntries =>
    let key := MakeKey receiver in
    match mEntries !! key with
    | None => (Failure "receiver is not bound", mEntries)
    | Some it =>
        if negb (bool_decide (owner it = old_owner)) then (Failure "receiver owner mismatch", mEntries)
        else (Success, <[key := mkEntry new_owner (u64 (entry_version it + 1))]> mEntries)
    end.

Definition Invalidate (receiver : ReceiverAddress) (expected_owner : ProcessRef) (v : Z) : St t Result :=
  fun mEntries =>
    let key := MakeKey receiver in
    match mEntries !! key with
    | None => (Failure "receiver is not bound", mEntries)
    | Some it =>
        if negb (bool_decide (owner it = expected_owner)) then (Failure "receiver owner mismatch", mEntries)
        else if negb (entry_version it =? v) then (Failure "receiver version mismatch", mEntries)
        else (Success, delete key mEntries)
    end.

Definition Clear : St t unit := fun _ => (tt, ∅).

#[global] Instance directory : IReceiverDirectory t := {|
  dir_resolve := Resolve;
  dir_bind := Bind;
  dir_rebind := Rebind;
  dir_invalidate := Invalidate
|}.

(** *** The printed key identifies the address *)

Lemma MakeKey_inj r r' : wf_receiver r -> wf_receiver r' -> MakeKey r = MakeKey r' -> r = r'.
Proof.
  destruct r as [t1 h1 l1], r' as [t2 h2 l2]. unfold wf_receiver, in_u16, in_u64. simpl.
  intros (Ht1 & Hh1 & Hl1) (Ht2 & Hh2 & Hl2). unfold MakeKey. simpl.
  rewrite !u16_id by (unfold in_u16; lia). rewrite !colon_cons. intros E.
  apply field_inj in E as [Et E]; [|apply to_string_lacks_colon; lia..].
  apply field_inj in E as [Eh El]; [|apply to_string_lacks_colon; lia..].
  apply to_string_inj in Et; [|lia..]. apply to_string_inj in Eh; [|lia..].
  apply to_string_inj in El; [|lia..]. congruence.
Qed.

Lemma MakeKey_ne r r' : wf_receiver r -> wf_receiver r' -> r <> r' -> MakeKey r <> MakeKey r'.
Proof. intros Hr Hr' Hne E. by apply Hne, MakeKey_inj. Qed.

(** The binding an entry stands for. *)
Definition binding (mEntries : t) (r : ReceiverAddress) : option (ProcessRef * Z) :=
  (fun e => (owner e, entry_version e)) <$> mEntries !! MakeKey r.

Lemma binding_Some d r o v : binding d r = Some (o, v) <-> d !! MakeKey r = Some (mkEntry o v).
Proof. unfold binding. rewrite fmap_Some. split; [intros ([] & -> & ?); by simplify_eq/=|eauto]. Qed.

Lemma binding_None d r : binding d r = None <-> d !! MakeKey r = None.
Proof. apply fmap_None. Qed.

Lemma binding_insert_eq d r e : binding (<[MakeKey r := e]> d) r = Some (owner e, entry_version e).
Proof. unfold binding. by rewrite lookup_insert_eq. Qed.

Lemma binding_insert_ne d r r' e :
  wf_receiver r -> wf_receiver r' -> r <> r' -> binding (<[MakeKey r := e]> d) r' = binding d r'.
Proof. intros. unfold binding. rewrite lookup_insert_ne; [done|by apply MakeKey_ne]. Qed.

Lemma Bind_frame d r r' o :
  wf_receiver r -> wf_receiver r' -> r <> r' -> binding (Bind r o d).2 r' = binding d r'.
Proof. intros. unfold Bind. case_match; by apply binding_insert_ne. Qed.

Lemma Invalidate_frame d r r' o v :
  wf_receiver r -> wf_receiver r' -> r <> r' -> binding (Invalidate r o v d).2 r' = binding d r'.
Proof.
  intros. unfold Invalidate. cases. unfold binding. rewrite lookup_delete_ne; [done|by apply MakeKey_ne].
Qed.

#[global] Instance contract : DirectoryContract t.
Proof.
  refine {| binding_of := binding |}.
  - intros d r _. simpl. unfold Resolve, location_of, binding. by destruct (d !! MakeKey r).
  - intros d r o _ Hd%binding_None. simpl. unfold Bind. rewrite Hd. simpl. split; [done|].
    by rewrite binding_insert_eq.
  - intros d r o o' v _ Hd%binding_Some Hv Hne. simpl. unfold Bind. rewrite Hd. simpl.
    rewrite bool_decide_eq_false_2 by done. replace (v =? 0) with false by lia. simpl.
    by rewrite binding_insert_eq.
  - apply Bind_frame.
  - intros d r o v _ Hd%binding_Some. simpl. unfold Invalidate. rewrite Hd. simpl.
    rewrite bool_decide_eq_true_2 by done. rewrite Z.eqb_refl. simpl. split; [done|].
    apply binding_None, lookup_delete_eq.
  - apply Invalidate_frame.
Defined.

End LocalReceiverDirectory.

(** ** receiver_registry.{h,cpp} *)

Module ReceiverRegistry.

Section registry.
(** [H] is the type of host pointers; [W] the state the hosts act on. *)
Context {H W : Type} `{EqDecision H}.
Variable CanHandle : H -> ReceiverType -> bool.
Variable HostDispatch : H -> ReceiverAddress -> Envelope -> St W Result.

Definition kMaxReceiverTypes : nat := 8.

(** The array [mHosts]; [None] is the null pointer. *)
Abbreviation t := (list (option H)).

Definition empty : t := replicate kMaxReceiverTypes None.

Definition Register (host : H) (type : ReceiverType) : St t Result :=
  fun mHosts =>
    let index := Z.to_nat type in
    if (length mHosts <=? index)%nat then (Failure "receiver type out of range", mHosts)
    else if negb (CanHandle host type) then
      (Failure "receiver host cannot handle requested type", mHosts)
    else match mHosts !! index with
         | Some (Some h) =>
             if bool_decide (h = host) then (Success, <[index := Some host]> mHosts)
             else (Failure "receiver host already registered", mHosts)
         | _ => (Success, <[index := Some host]> mHosts)
         end.

Definition Dispatch (mHosts : t) (target : ReceiverAddress) (envelope : Envelope) : St W Result :=
  let index := Z.to_nat (rtype target) in
  if (length mHosts <=? index)%nat then ret (Failure "receiver type out of range")
  else match mHosts !! index with
       | Some (Some h) => HostDispatch h target envelope
       | _ => ret (Failure "receiver host not registered")
       end.

Definition Clear : St t unit := fun mHosts => (tt, replicate (length mHosts) None).

(** The table keeps eight slots, and a host sits only in a slot it can handle. *)
Definition wf (mHosts : t) : Prop :=
  length mHosts = kMaxReceiverTypes /\
  forall i h, mHosts !! i = Some (Some h) -> CanHandle h (Z.of_nat i) = true.

Lemma wf_empty : wf empty.
Proof. split; [done|]. intros i h. by intros [? _]%lookup_replicate. Qed.

Lemma wf_Register host type m : 0 <= type -> wf m -> wf (Register host type m).2.
Proof.
  intros Ht [Hlen Hh]. unfold Register. destruct (Nat.leb_spec (length m) (Z.to_nat type)); [done|].
  destruct (CanHandle host type) eqn:Hc; [|done]. simpl.
  assert (wf (<[Z.to_nat type := Some host]> m)) as Hins.
  { split; [by rewrite length_insert|]. intros i h.
    destruct (decide (i = Z.to_nat type)) as [->|Hne].
    - rewrite list_lookup_insert_eq by lia. intros [= ->]. by rewrite Z2Nat.id by lia.
    - rewrite list_lookup_insert_ne by done. apply Hh. }
  destruct (m !! Z.to_nat type) as [[h|]|] eqn:E; [|done|done].
  by destruct (bool_decide (h = host)).
Qed.

Lemma Register_Dispatch host type m target env w :
  0 <= type -> wf m -> (Register host type m).1 = Success -> rtype target = type ->
  Dispatch (Register host type m).2 target env w = HostDispatch host target env w.
Proof.
  intros Ht [Hlen _] Hok <-. unfold Register in *.
  destruct (Nat.leb_spec (length m) (Z.to_nat (rtype target))); [done|].
  destruct (CanHandle host (rtype target)); [simpl in *|done].
  assert (forall m', m' = <[Z.to_nat (rtype target) := Some host]> m ->
    Dispatch m' target env w = HostDispatch host target env w) as Hd.
  { intros m' ->. unfold Dispatch. rewrite length_insert.
    destruct (Nat.leb_spec (length m) (Z.to_nat (rtype target))); [lia|].
    by rewrite list_lookup_insert_eq by lia. }
  destruct (m !! Z.to_nat (rtype target)) as [[h|]|] eqn:E; [|by apply Hd|by apply Hd].
  destruct (bool_decide (h = host)); [by apply Hd|done].
Qed.

End registry.

End ReceiverRegistry.

(** ** The directory refines a partial map from addresses to bindings *)

Module DirectorySpec.

(** The specification: each address has at most one binding. *)
Definition t : Type := ReceiverAddress -> option (ProcessRef * Z).

Definition update (d : t) (r : ReceiverAddress) (b : option (ProcessRef * Z)) : t :=
  fun r' => if decide (r = r') then b else d r'.

Inductive op :=
| OpBind (r : ReceiverAddress) (owner : ProcessRef)
| OpRebind (r : ReceiverAddress) (old_owner new_owner : ProcessRef)
| OpInvalidate (r : ReceiverAddress) (owner : ProcessRef) (v : Z)
| OpClear.

Definition step (o : op) (d : t) : Result * t :=
  match o with
  | OpBind r own =>
      match d r with
      | Some (own', v) =>
          if decide (own' = own) then (Success, update d r (Some (own, v)))
          else (Failure "receiver already bound to another owner", d)
      | None => (Success, update d r (Some (own, 1)))
      end
  | OpRebind r old new =>
      match d r with
      | Some (own', v) =>
          if decide (own' = old) then (Success, update d r (Some (new, v + 1)))
          else (Failure "receiver owner mismatch", d)
      | None => (Failure "receiver is not bound", d)
      end
  | OpInvalidate r own v =>
      match d r with
      | Some (own', v') =>
          if decide (own' = own) then
            if decide (v' = v) then (Success, update d r None)
            else (Failure "receiver version mismatch", d)
          else (Failure "receiver owner mismatch", d)
      | None => (Failure "receiver is not bound", d)
      end
  | OpClear => (Success, fun _ => None)
  end.

(** The implementation of each operation ([Clear] returns nothing in C++). *)
Definition impl (o : op) (m : gmap string LocalReceiverDirectory.Entry)
    : Result * gmap string LocalReceiverDirectory.Entry :=
  match o with
  | OpBind r own => LocalReceiverDirectory.Bind r own m
  | OpRebind r old new => LocalReceiverDirectory.Rebind r old new m
  | OpInvalidate r own v => LocalReceiverDirectory.Invalidate r own v m
  | OpClear => (Success, (LocalReceiverDirectory.Clear m).2)
  end.

Definition op_wf (o : op) : Prop :=
  match o with
  | OpBind r _ | OpRebind r _ _ | OpInvalidate r _ _ => wf_receiver r
  | OpClear => True
  end.

Fixpoint run {S : Type} (f : op -> S -> Result * S) (ops : list op) (s : S) : list Result * S :=
  match ops with
  | [] => ([], s)
  | o :: ops' => let '(r, s1) := f o s in let '(rs, s2) := run f ops' s1 in (r :: rs, s2)
  end.

(** Same bindings, and versions that stay below the wrap for [n] more steps. *)
Definition agree (n : nat) (m : gmap string LocalReceiverDirectory.Entry) (d : t) : Prop :=
  forall r, wf_receiver r -> LocalReceiverDirectory.binding m r = d r /\
    forall o v, d r = Some (o, v) -> 1 <= v < 18446744073709551616 - Z.of_nat n.

Lemma agree_update n m d r e :
  wf_receiver r -> agree (S n) m d ->
  1 <= LocalReceiverDirectory.entry_version e < 18446744073709551616 - Z.of_nat n ->
  agree n (<[LocalReceiverDirectory.MakeKey r := e]> m)
    (update d r (Some (LocalReceiverDirectory.owner e, LocalReceiverDirectory.entry_version e))).
Proof.
  intros Hr Ha Hv r' Hr'. unfold update. destruct (decide (r = r')) as [<-|Hne].
  - rewrite LocalReceiverDirectory.binding_insert_eq. split; [done|]. intros o v [= <- <-]. done.
  - rewrite LocalReceiverDirectory.binding_insert_ne by done. destruct (Ha r' Hr') as [-> Hb].
    split; [done|]. intros o v H. specialize (Hb o v H). lia.
Qed.

Lemma agree_weaken n m d : agree (S n) m d -> agree n m d.
Proof. intros Ha r Hr. destruct (Ha r Hr) as [E Hb]. split; [done|]. intros o v H. specialize (Hb o v H). lia. Qed.

Lemma agree_delete n m d r :
  wf_receiver r -> agree n m d -> agree n (delete (LocalReceiverDirectory.MakeKey r) m) (update d r None).
Proof.
  intros Hr Ha r' Hr'. unfold update. destruct (decide (r = r')) as [<-|Hne].
  - split; [apply LocalReceiverDirectory.binding_None, lookup_delete_eq|done].
  - destruct (Ha r' Hr') as [<- Hb]. split; [|done]. unfold LocalReceiverDirectory.binding.
    rewrite lookup_delete_ne; [done|by apply LocalReceiverDirectory.MakeKey_ne].
Qed.

Lemma agree_lookup n m d r :
  wf_receiver r -> agree n m d ->
  (exists o v, m !! LocalReceiverDirectory.MakeKey r = Some (LocalReceiverDirectory.mkEntry o v) /\
     d r = Some (o, v) /\ 1 <= v < 18446744073709551616 - Z.of_nat n) \/
  (m !! LocalReceiverDirectory.MakeKey r = None /\ d r = None).
Proof.
  intros Hr Ha. destruct (Ha r Hr) as [E Hb]. destruct (d r) as [[o v]|].
  - left. exists o, v. split; [by apply LocalReceiverDirectory.binding_Some|]. eauto.
  - right. by apply LocalReceiverDirectory.binding_None in E.
Qed.

Lemma step_agree n m d o :
  op_wf o -> agree (S n) m d -> Z.of_nat n < 18446744073709551615 ->
  (impl o m).1 = (step o d).1 /\ agree n (impl o m).2 (step o d).2.
Proof.
  intros Hwf Ha Hn. destruct o as [r own|r old new|r own v|]; simpl in *.
  - unfold LocalReceiverDirectory.Bind.
    destruct (agree_lookup _ _ _ _ Hwf Ha) as [(o & v & E & Ed & Hv)|[E Ed]]; rewrite E, Ed; simpl.
    + replace (v =? 0) with false by lia. simpl.
      destruct (decide (o = own)) as [->|Hne].
      * rewrite bool_decide_eq_true_2 by done. simpl. split; [done|].
        apply (agree_update n m d r (LocalReceiverDirectory.mkEntry own v)); simpl; (done || lia).
      * rewrite bool_decide_eq_false_2 by done. simpl. split; [done|].
        rewrite insert_id by done. by apply agree_weaken.
    + split; [done|]. apply (agree_update n m d r (LocalReceiverDirectory.mkEntry own 1)); simpl; (done || lia).
  - unfold LocalReceiverDirectory.Rebind.
    destruct (agree_lookup _ _ _ _ Hwf Ha) as [(o & v & E & Ed & Hv)|[E Ed]]; rewrite E, Ed; simpl;
      [|split; [done|by apply agree_weaken]].
    destruct (decide (o = old)) as [->|Hne].
    + rewrite bool_decide_eq_true_2 by done. simpl. split; [done|].
      rewrite u64_id by (unfold in_u64; lia).
      apply (agree_update n m d r (LocalReceiverDirectory.mkEntry new (v + 1))); simpl; (done || lia).
    + rewrite bool_decide_eq_false_2 by done. split; [done|by apply agree_weaken].
  - unfold LocalReceiverDirectory.Invalidate.
    destruct (agree_lookup _ _ _ _ Hwf Ha) as [(o & w & E & Ed & Hv)|[E Ed]]; rewrite E, Ed; simpl;
      [|split; [done|by apply agree_weaken]].
    destruct (decide (o = own)) as [->|Hne].
    + rewrite bool_decide_eq_true_2 by done. simpl.
      destruct (decide (w = v)) as [->|Hvne].
      * rewrite Z.eqb_refl. simpl. split; [done|]. by apply agree_delete, agree_weaken.
      * replace (w =? v) with false by lia. split; [done|by apply agree_weaken].
    + rewrite bool_decide_eq_false_2 by done. split; [done|by apply agree_weaken].
  - split; [done|]. intros r Hr. split; [by apply LocalReceiverDirectory.binding_None|done].
Qed.

End DirectorySpec.

(** C29: over every sequence of operations, [LocalReceiverDirectory] (keyed by the
    printed address) returns the results of the abstract directory keyed by the
    address itself, and ends with the same owner and version for every address. *)
Theorem local_directory_refines_spec ops :
  Forall DirectorySpec.op_wf ops -> Z.of_nat (length ops) < 18446744073709551615 ->
  (DirectorySpec.run DirectorySpec.impl ops ∅).1 = (DirectorySpec.run DirectorySpec.step ops (fun _ => None)).1 /\
  forall r, wf_receiver r ->
    LocalReceiverDirectory.Resolve (DirectorySpec.run DirectorySpec.impl ops ∅).2 r =
    location_of ((DirectorySpec.run DirectorySpec.step ops (fun _ => None)).2 r).
Proof.
  intros Hwf Hlen.
  assert (forall m d, DirectorySpec.agree (length ops) m d ->
    (DirectorySpec.run DirectorySpec.impl ops m).1 = (DirectorySpec.run DirectorySpec.step ops d).1 /\
    DirectorySpec.agree 0 (DirectorySpec.run DirectorySpec.impl ops m).2 (DirectorySpec.run DirectorySpec.step ops d).2) as H.
  { clear -Hwf Hlen. induction Hwf as [|o ops Ho _ IH]; intros m d Ha; [done|]. simpl in *.
    destruct (DirectorySpec.step_agree (length ops) m d o Ho Ha) as [E1 E2]; [lia|].
    destruct (DirectorySpec.impl o m) as [r m1], (DirectorySpec.step o d) as [r' d1]; simpl in *.
    destruct (IH ltac:(lia) m1 d1 E2) as [E3 E4].
    destruct (DirectorySpec.run DirectorySpec.impl ops m1), (DirectorySpec.run DirectorySpec.step ops d1); simpl in *.
    by subst. }
  destruct (H ∅ (fun _ => None)) as [E Ha].
  { intros r Hr. split; [by apply LocalReceiverDirectory.binding_None, lookup_empty|done]. }
  split; [done|]. intros r Hr. destruct (Ha r Hr) as [<- _].
  unfold LocalReceiverDirectory.Resolve, location_of, LocalReceiverDirectory.binding.
  by destruct ((DirectorySpec.run DirectorySpec.impl ops ∅).2 !! LocalReceiverDirectory.MakeKey r).
Qed.

Definition witness_receiver : ReceiverAddress := mkReceiverAddress rt_player 100000 0.
Definition witness_owner : ProcessRef := mkProcessRef (mkProcessId 10 1) 1.
Definition witness_owner2 : ProcessRef := mkProcessRef (mkProcessId 10 2) 1.

Lemma local_directory_refines_spec_witness :
  (DirectorySpec.run DirectorySpec.impl
    [DirectorySpec.OpBind witness_receiver witness_owner; DirectorySpec.OpBind witness_receiver witness_owner2;
     DirectorySpec.OpRebind witness_receiver witness_owner witness_owner2] ∅).1 =
  [Success; Failure "receiver already bound to another owner"; Success].
Proof.
  etransitivity; [apply local_directory_refines_spec|].
  - repeat constructor; vm_compute; (reflexivity || discriminate).
  - simpl. lia.
  - vm_compute. reflexivity.
Defined.
