(* ===== verification/Transport.v ===== *)
(** * Transport (src/framework/ipc/transport)

    The frame header codec, exact reads and writes over a byte stream whose
    chunks the peer and the kernel choose, the reader loop of a connection, and
    the connection table of [TcpTransport].  Its threads are [TcpThreads]. *)

From S2P Require Import Prelude Base.

(** ** frame.h *)

(** [FrameKind] is a 16-bit enumeration; the wire can carry any value. *)
Definition FrameKind : Type := Z.
Definition fk_control : FrameKind := 1.
Definition fk_data : FrameKind := 2.

Definition kFrameMagic : Z := 1397313603.
Definition kFrameVersion : Z := 1.
Definition kFrameHeaderSize : nat := 12.

Record FrameHeader := mkFrameHeader { magic : Z; fversion : Z; kind : FrameKind; flength : Z }.

Definition default_frame_header : FrameHeader := mkFrameHeader kFrameMagic kFrameVersion fk_control 0.

Record RawFrame := mkRawFrame { connection_id : Z; fheader : FrameHeader; payload : ByteBuffer }.

(** [memcpy] of an unsigned integer of [n] bytes on a little-endian host. *)
Fixpoint le_bytes (n : nat) (z : Z) : ByteBuffer :=
  match n with
  | O => []
  | S n' => u8 z :: le_bytes n' (z / 256)
  end.

Fixpoint of_le_bytes (bytes : ByteBuffer) : Z :=
  match bytes with
  | [] => 0
  | b :: rest => b + 256 * of_le_bytes rest
  end.

Definition SerializeFrameHeader (h : FrameHeader) : ByteBuffer :=
  le_bytes 4 (magic h) ++ le_bytes 2 (fversion h) ++ le_bytes 2 (kind h) ++ le_bytes 4 (flength h).

(** [None] is the null data pointer; the size is the length of the bytes.  The
    header is an output parameter, untouched when the size check fails. *)
Definition DeserializeFrameHeader (data : option ByteBuffer) (h : FrameHeader) : bool * FrameHeader :=
  match data with
  | None => (false, h)
  | Some bytes =>
      if (length bytes <? kFrameHeaderSize)%nat then (false, h)
      else
        let h' := mkFrameHeader (of_le_bytes (take 4 bytes)) (of_le_bytes (take 2 (drop 4 bytes)))
                    (of_le_bytes (take 2 (drop 6 bytes))) (of_le_bytes (take 4 (drop 8 bytes))) in
        (magic h' =? kFrameMagic, h')
  end.

Definition wf_frame_header (h : FrameHeader) : Prop :=
  in_u32 (magic h) /\ in_u16 (fversion h) /\ in_u16 (kind h) /\ in_u32 (flength h).

(** ** Byte streams

    The bytes still to arrive on a socket, cut into the chunks successive calls
    of [recv] find; the empty list is an orderly shutdown (a result of 0) and an
    empty chunk an error. *)

Definition Stream : Type := list ByteBuffer.

(** [recv(fd, cursor, n, 0)] for [n > 0]: the bytes it stores. *)
Definition recv (n : nat) (s : Stream) : ByteBuffer * Stream :=
  match s with
  | [] => ([], [])
  | chunk :: s' =>
      (take n chunk, match drop n chunk with [] => s' | rest => rest :: s' end)
  end.

(** The loop of [ReadExact]: every successful [recv] stores at least one byte,
    so the size is enough fuel. *)
Fixpoint ReadExact_loop (fuel : nat) (size : nat) (buffer : ByteBuffer) (s : Stream)
    : bool * ByteBuffer * Stream :=
  match fuel with
  | O => (bool_decide (size <= length buffer)%nat, buffer, s)
  | S fuel' =>
      if (length buffer <? size)%nat then
        let '(got, s') := recv (size - length buffer) s in
        match got with
        | [] => (false, buffer, s')
        | _ => ReadExact_loop fuel' size (buffer ++ got) s'
        end
      else (true, buffer, s)
  end.

Definition ReadExact (size : nat) (s : Stream) : bool * ByteBuffer * Stream :=
  ReadExact_loop size size [] s.

(** [send] accepts the number of bytes the kernel decides: [accept] lists the
    results of successive calls ([<= 0] is an error).  The result is whether
    everything was written and the bytes that went out. *)
Fixpoint WriteExact (bytes : ByteBuffer) (accept : list Z) : bool * ByteBuffer :=
  match bytes, accept with
  | [], _ => (true, [])
  | _, [] => (false, [])
  | _, rc :: accept' =>
      if rc <=? 0 then (false, [])
      else
        let n := Z.to_nat rc in
        let '(done, out) := WriteExact (drop n bytes) accept' in (done, take n bytes ++ out)
  end.

(** ** The reader loop of one connection: the frames it hands to the handler *)

Fixpoint ReaderLoop (fuel : nat) (id : Z) (s : Stream) : list RawFrame :=
  match fuel with
  | O => []
  | S fuel' =>
      let '(ok_header, header_bytes, s1) := ReadExact kFrameHeaderSize s in
      if negb ok_header then []
      else
        let '(ok_magic, h) := DeserializeFrameHeader (Some header_bytes) default_frame_header in
        if negb ok_magic then []
        else
          let '(ok_payload, body, s2) :=
            if 0 <? flength h then ReadExact (Z.to_nat (flength h)) s1 else (true, [], s1) in
          if negb ok_payload then []
          else mkRawFrame id h body :: ReaderLoop fuel' id s2
  end.

(** The bytes [Send] writes for a frame. *)
Definition frame_bytes (f : RawFrame) : ByteBuffer := SerializeFrameHeader (fheader f) ++ payload f.

(** ** tcp_transport.{h,cpp}: the connection table *)

Inductive ConnectionEventType := ce_connected | ce_disconnected.
#[global] Instance connection_event_type_eq_dec : EqDecision ConnectionEventType.
Proof. solve_decision. Defined.
Record ConnectionEvent := mkConnectionEvent { ce_type : ConnectionEventType; ce_connection_id : Z }.

Module TcpTransport.

Record Connection := mkConnection { socket_fd : Z; closed : bool }.

Record t := mk {
  mListening : bool;
  mListenSocket : Z;
  mConnections : gmap Z Connection;
  mNextConnectionId : Z;
  (** descriptors passed to [::close], in order *)
  closed_fds : list Z;
  (** events delivered to the connection-event handler, in order *)
  events : list ConnectionEvent
}.

Definition initial : t := mk false (-1) ∅ 1 [] [].

Definition set_connections (m : gmap Z Connection) (s : t) : t :=
  mk (mListening s) (mListenSocket s) m (mNextConnectionId s) (closed_fds s) (events s).
Definition close_fd (fd : Z) (s : t) : t :=
  mk (mListening s) (mListenSocket s) (mConnections s) (mNextConnectionId s) (closed_fds s ++ [fd]) (events s).

Definition NotifyConnectionEvent (type : ConnectionEventType) (id : Z) : St t unit :=
  modify (fun s => mk (mListening s) (mListenSocket s) (mConnections s) (mNextConnectionId s) (closed_fds s)
                      (events s ++ [mkConnectionEvent type id])).

(** [emplace] keeps an existing entry; the identifiers handed out are fresh. *)
Definition AddConnection (fd : Z) : St t Z :=
  fun s =>
    let id := mNextConnectionId s in
    let m := match mConnections s !! id with
             | Some _ => mConnections s
             | None => <[id := mkConnection fd false]> (mConnections s)
             end in
    (id, mk (mListening s) (mListenSocket s) m (u64 (id + 1)) (closed_fds s) (events s)).

(** The tail of [Connect] and of an iteration of [AcceptLoop], once the kernel
    has returned a connected socket. *)
Definition Established (fd : Z) : St t unit :=
  id <- AddConnection fd ;; NotifyConnectionEvent ce_connected id.

Definition HandleDisconnect (id : Z) (notify : bool) : St t unit :=
  fun s =>
    match mConnections s !! id with
    | None => (tt, s)
    | Some c =>
        if closed c then (tt, s)
        else
          let s1 := if 0 <=? socket_fd c then close_fd (socket_fd c) s else s in
          let s2 := set_connections (delete id (mConnections s1)) s1 in
          if notify then NotifyConnectionEvent ce_disconnected id s2 else (tt, s2)
    end.

Definition Close (id : Z) : St t Result := HandleDisconnect id true ;;; ret Success.

(** [Send]: [accept_header] and [accept_payload] are the kernel's answers, [err]
    the text of [strerror(errno)]; the bytes that left are returned as well. *)
Definition Send (f : RawFrame) (accept_header accept_payload : list Z) (err : string)
    : St t (Result * ByteBuffer) :=
  fun s =>
    match mConnections s !! connection_id f with
    | None => ((Failure "connection not found", []), s)
    | Some c =>
        if closed c then ((Failure "connection not found", []), s)
        else
          let '(ok_header, out_header) := WriteExact (SerializeFrameHeader (fheader f)) accept_header in
          if negb ok_header then
            let s' := (HandleDisconnect (connection_id f) true s).2 in
            ((Failure ("send header: " +:+ err), out_header), s')
          else
            let '(ok_payload, out_payload) :=
              match payload f with [] => (true, []) | _ => WriteExact (payload f) accept_payload end in
            if negb ok_payload then
              let s' := (HandleDisconnect (connection_id f) true s).2 in
              ((Failure ("send payload: " +:+ err), out_header ++ out_payload), s')
            else ((Success, out_header ++ out_payload), s)
    end.

(** The locked part of [Shutdown]; joining the threads changes no state. *)
Definition Shutdown {mo : MapOrder Z} : St t unit :=
  fun s =>
    let fds := (if 0 <=? mListenSocket s then [mListenSocket s] else []) ++
               filter (fun fd => 0 <= fd) (socket_fd <$> (entries (mConnections s)).*2) in
    (tt, mk false (if 0 <=? mListenSocket s then -1 else mListenSocket s) ∅ (mNextConnectionId s)
            (closed_fds s ++ fds) (events s)).

End TcpTransport.

(** ** Lemmas *)

Lemma length_le_bytes n z : length (le_bytes n z) = n.
Proof. revert z. induction n; intros; simpl; [done|]. by rewrite IHn. Qed.

Lemma of_le_bytes_le_bytes n z : of_le_bytes (le_bytes n z) = z mod 256 ^ Z.of_nat n.
Proof.
  revert z. induction n as [|n IH]; intros z; [by rewrite Z.mod_1_r|].
  change (le_bytes (S n) z) with (u8 z :: le_bytes n (z / 256)). simpl of_le_bytes.
  rewrite IH. unfold u8. rewrite Nat2Z.inj_succ, Z.pow_succ_r by lia.
  rewrite Z.rem_mul_r by lia. lia.
Qed.

Lemma of_le_bytes_2 z : in_u16 z -> of_le_bytes (le_bytes 2 z) = z.
Proof. intros. rewrite of_le_bytes_le_bytes. by apply Z.mod_small. Qed.

Lemma of_le_bytes_4 z : in_u32 z -> of_le_bytes (le_bytes 4 z) = z.
Proof. intros. rewrite of_le_bytes_le_bytes. by apply Z.mod_small. Qed.

Lemma length_SerializeFrameHeader h : length (SerializeFrameHeader h) = kFrameHeaderSize.
Proof. unfold SerializeFrameHeader. by rewrite !length_app, !length_le_bytes. Qed.

Lemma header_roundtrip h h0 :
  wf_frame_header h ->
  DeserializeFrameHeader (Some (SerializeFrameHeader h)) h0 = (magic h =? kFrameMagic, h).
Proof.
  intros (Hm & Hv & Hk & Hl).
  change (DeserializeFrameHeader (Some (SerializeFrameHeader h)) h0) with
    (of_le_bytes (le_bytes 4 (magic h)) =? kFrameMagic,
     mkFrameHeader (of_le_bytes (le_bytes 4 (magic h))) (of_le_bytes (le_bytes 2 (fversion h)))
       (of_le_bytes (le_bytes 2 (kind h))) (of_le_bytes (le_bytes 4 (flength h)))).
  rewrite !of_le_bytes_2, !of_le_bytes_4 by done. by destruct h.
Qed.

(** A stream whose chunks all carry bytes: no error and no early shutdown. *)
Definition healthy (s : Stream) : Prop := Forall (fun c => c <> []) s.

Lemma recv_healthy n s :
  (0 < n)%nat -> healthy s -> s <> [] ->
  exists got s', recv n s = (got, s') /\ got <> [] /\ (length got <= n)%nat /\
    concat s = got ++ concat s' /\ healthy s'.
Proof.
  intros Hn Hs Hne. destruct s as [|c s]; [done|]. inversion_clear Hs as [|? ? Hc Hrest].
  exists (take n c), (match drop n c with [] => s | rest => rest :: s end). split; [done|].
  split; [destruct c, n; (done || lia)|].
  split; [rewrite length_take; lia|].
  rewrite <- (take_drop n c) at 1. simpl.
  destruct (drop n c) as [|b d] eqn:E; split; simpl; rewrite ?app_nil_r, <-?app_assoc; try done.
  by constructor.
Qed.

Lemma ReadExact_loop_ok fuel size buffer s :
  (length buffer <= size)%nat -> (size - length buffer <= fuel)%nat ->
  (size - length buffer <= length (concat s))%nat -> healthy s ->
  exists s', ReadExact_loop fuel size buffer s
      = (true, buffer ++ take (size - length buffer) (concat s), s') /\
    concat s' = drop (size - length buffer) (concat s) /\ healthy s'.
Proof.
  revert buffer s. induction fuel as [|fuel IH]; intros buffer s Hb Hf Hlen Hs; simpl.
  - exists s. replace (size - length buffer)%nat with 0%nat by lia. rewrite take_0, drop_0, app_nil_r.
    by rewrite bool_decide_eq_true_2 by lia.
  - destruct (Nat.ltb_spec (length buffer) size) as [Hlt|Hge].
    + destruct (recv_healthy (size - length buffer) s) as (got & s' & -> & Hg & Hgl & Hc & Hs');
        [lia|done|intros ->; simpl in Hlen; lia|].
      destruct got as [|g got]; [done|]. set (gs := g :: got) in *.
      assert (0 < length gs)%nat by (simpl; lia).
      destruct (IH (buffer ++ gs) s') as (s'' & -> & Hc' & Hs'');
        rewrite ?length_app; [lia|lia|rewrite Hc, length_app in Hlen; lia|done|].
      exists s''. rewrite length_app in Hc'. rewrite Hc.
      replace (size - (length buffer + length gs))%nat with ((size - length buffer) - length gs)%nat in * by lia.
      rewrite take_app_ge, drop_app_ge by lia. by rewrite app_assoc.
    + exists s. replace (size - length buffer)%nat with 0%nat by lia. by rewrite take_0, drop_0, app_nil_r.
Qed.

Lemma ReadExact_ok size s :
  healthy s -> (size <= length (concat s))%nat ->
  exists s', ReadExact size s = (true, take size (concat s), s') /\
    concat s' = drop size (concat s) /\ healthy s'.
Proof.
  intros Hs Hl. destruct (ReadExact_loop_ok size size [] s) as (s' & E); simpl in *; rewrite ?Nat.sub_0_r in *;
    [lia|lia|done|done|]. by exists s'.
Qed.

Lemma ReadExact_loop_short fuel size buffer s :
  (length buffer <= size)%nat -> (length (concat s) < size - length buffer)%nat -> healthy s ->
  (size - length buffer <= fuel)%nat -> (ReadExact_loop fuel size buffer s).1.1 = false.
Proof.
  revert buffer s. induction fuel as [|fuel IH]; intros buffer s Hb Hlen Hs Hf; simpl; [lia|].
  destruct (Nat.ltb_spec (length buffer) size) as [Hlt|Hge]; [|lia].
  destruct s as [|c s0] eqn:Es; [done|]. rewrite <- Es in *.
  destruct (recv_healthy (size - length buffer) s) as (got & s' & -> & Hg & Hgl & Hc & Hs');
    [lia|done|by rewrite Es|].
  destruct got as [|g got]; [done|].
  rewrite Hc, length_app in Hlen. simpl in *.
  apply IH; rewrite ?length_app; simpl; (done || lia).
Qed.

Lemma ReadExact_short size s :
  healthy s -> (length (concat s) < size)%nat -> (ReadExact size s).1.1 = false.
Proof. intros. apply ReadExact_loop_short; simpl; rewrite ?Nat.sub_0_r; (done || lia). Qed.

(** A frame the sender produces: magic and widths in order, and the length field
    the size of the payload. *)
Definition sendable (id : Z) (f : RawFrame) : Prop :=
  connection_id f = id /\ wf_frame_header (fheader f) /\ magic (fheader f) = kFrameMagic /\
  flength (fheader f) = Z.of_nat (length (payload f)).

Lemma ReaderLoop_frames fuel id frames s :
  Forall (sendable id) frames -> healthy s -> concat s = concat (frame_bytes <$> frames) ->
  (length frames < fuel)%nat -> ReaderLoop fuel id s = frames.
Proof.
  intros Hf. revert fuel s. induction Hf as [|f frames (Hid & Hwf & Hm & Hlen) _ IH];
    intros fuel s Hs Hc Hfuel; (destruct fuel as [|fuel]; [simpl in *; lia|]).
  - cbn [ReaderLoop]. pose proof (ReadExact_short kFrameHeaderSize s Hs) as Hshort.
    rewrite Hc in Hshort. destruct (ReadExact kFrameHeaderSize s) as [[? ?] ?]; simpl in *.
    rewrite Hshort; [done|unfold kFrameHeaderSize; lia].
  - cbn [ReaderLoop].
    change (concat s = (SerializeFrameHeader (fheader f) ++ payload f) ++ concat (frame_bytes <$> frames)) in Hc.
    rewrite <- app_assoc in Hc.
    destruct (ReadExact_ok kFrameHeaderSize s) as (s1 & -> & Hc1 & Hs1);
      [done|rewrite Hc, length_app, length_SerializeFrameHeader; lia|].
    rewrite Hc, drop_app_length' in Hc1 by (by rewrite length_SerializeFrameHeader).
    rewrite Hc, take_app_length' by (by rewrite length_SerializeFrameHeader). cbn [negb].
    rewrite header_roundtrip by done. rewrite Hm, Z.eqb_refl. cbn [negb].
    rewrite Hlen, Nat2Z.id.
    destruct (Z.ltb_spec 0 (Z.of_nat (length (payload f)))) as [Hp|Hp].
    + destruct (ReadExact_ok (length (payload f)) s1) as (s2 & -> & Hc2 & Hs2);
        [done|rewrite Hc1, length_app; lia|]. cbn [negb].
      rewrite Hc1, drop_app_length in Hc2. rewrite Hc1, take_app_length.
      rewrite IH; [by destruct f; simpl in *; subst|done|done|simpl in *; lia].
    + destruct (payload f) as [|b p] eqn:Ep; [|simpl in *; lia]. cbn [negb].
      rewrite IH; [by destruct f; simpl in *; subst|done|done|simpl in *; lia].
Qed.

Lemma WriteExact_prefix bytes accept :
  exists rest, bytes = (WriteExact bytes accept).2 ++ rest /\
    ((WriteExact bytes accept).1 = true -> rest = []).
Proof.
  revert bytes. induction accept as [|rc accept IH]; intros [|b bytes];
    try (exists []; done); [by exists (b :: bytes)|].
  cbn [WriteExact]. destruct (rc <=? 0); [by exists (b :: bytes)|].
  destruct (IH (drop (Z.to_nat rc) (b :: bytes))) as (rest & E & Hr).
  destruct (WriteExact (drop (Z.to_nat rc) (b :: bytes)) accept) as [done out]; simpl in *.
  exists rest. by rewrite <- app_assoc, <- E, take_drop.
Qed.

Lemma WriteExact_done bytes accept :
  (WriteExact bytes accept).1 = true -> (WriteExact bytes accept).2 = bytes.
Proof.
  intros Hd. destruct (WriteExact_prefix bytes accept) as (rest & E & Hr).
  rewrite (Hr Hd), app_nil_r in E. done.
Qed.

(** ** Properties *)

(** The outcome of sending a list of frames, each with the kernel's answers to
    its header and payload writes, over a connection in state [s]. *)
Definition send_all (s : TcpTransport.t) (sends : list (RawFrame * list Z * list Z)) : list (Result * ByteBuffer) :=
  (fun '(f, accept_header, accept_payload) => (TcpTransport.Send f accept_header accept_payload "" s).1) <$> sends.

Definition frames_of (sends : list (RawFrame * list Z * list Z)) : list RawFrame := sends.*1.*1.

Lemma Send_ok_bytes f ah ap err s :
  ok (TcpTransport.Send f ah ap err s).1.1 = true -> (TcpTransport.Send f ah ap err s).1.2 = frame_bytes f.
Proof.
  unfold TcpTransport.Send. destruct (TcpTransport.mConnections s !! connection_id f) as [c|]; [|done].
  destruct (TcpTransport.closed c); [done|].
  pose proof (WriteExact_done (SerializeFrameHeader (fheader f)) ah) as Hh.
  destruct (WriteExact (SerializeFrameHeader (fheader f)) ah) as [okh outh]; simpl in Hh.
  destruct okh; [|done]. cbn [negb]. rewrite (Hh eq_refl). unfold frame_bytes.
  destruct (payload f) as [|b p]; [done|].
  pose proof (WriteExact_done (b :: p) ap) as Hp.
  destruct (WriteExact (b :: p) ap) as [okp outp]; simpl in Hp. destruct okp; [|done].
  intros _. by rewrite (Hp eq_refl).
Qed.

(** C4: frames written by successful [TcpTransport::Send] calls are handed by the
    peer's [ReaderLoop] to its handler unchanged, in order and without merging,
    however the sending and the receiving kernel fragment the byte stream. *)
Theorem frames_survive_fragmentation id s sends stream fuel :
  Forall (fun f => sendable id f) (frames_of sends) ->
  Forall (fun r => ok r.1 = true) (send_all s sends) ->
  healthy stream -> concat stream = concat (send_all s sends).*2 ->
  (length sends < fuel)%nat ->
  ReaderLoop fuel id stream = frames_of sends.
Proof.
  intros Hf Hok Hs Hc Hfuel. apply ReaderLoop_frames; [done|done| |by unfold frames_of; rewrite !length_fmap].
  rewrite Hc. f_equal. clear -Hok. induction sends as [|[[f ah] ap] sends IH]; [done|].
  apply Forall_cons in Hok as [H Hok]. cbn [send_all fmap list_fmap frames_of fst snd].
  f_equal; [by apply Send_ok_bytes|by apply IH].
Qed.

Definition witness_table : TcpTransport.t := (TcpTransport.Established 5 TcpTransport.initial).2.
Definition witness_frame : RawFrame :=
  mkRawFrame 1 (mkFrameHeader kFrameMagic kFrameVersion fk_data 3) [7; 8; 9].
Definition witness_sends : list (RawFrame * list Z * list Z) :=
  [(witness_frame, [5; 7], [1; 2]); (witness_frame, [12], [3])].
Definition witness_stream : Stream :=
  [[67; 80; 73; 83; 1]; [0; 2; 0; 3; 0; 0; 0; 7]; [8; 9; 67; 80]; [73; 83; 1; 0; 2; 0; 3; 0; 0; 0; 7; 8; 9]].

Lemma frames_survive_fragmentation_witness : ReaderLoop 3 1 witness_stream = [witness_frame; witness_frame].
Proof.
  apply (frames_survive_fragmentation 1 witness_table witness_sends witness_stream 3).
  - repeat apply Forall_cons_2; try apply Forall_nil_2; repeat split; vm_compute; first [reflexivity | discriminate].
  - repeat apply Forall_cons_2; try apply Forall_nil_2; reflexivity.
  - repeat apply Forall_cons_2; try apply Forall_nil_2; discriminate.
  - vm_compute. reflexivity.
  - simpl. lia.
Defined.
