(* ===== verification/TcpThreads.v ===== *)
(** * The threads of the TCP transport (src/framework/ipc/transport/tcp_transport.cpp)

    [TcpTransport] with its sockets and every thread that works on it: the
    acceptor, one reader for each connection, and the callers of [Connect],
    [Send], [Close] and [Shutdown].  A step is a critical section of the
    transport's mutex, a call of the kernel, or a call of a handler; the handler
    of data frames takes the mutex of the node, which a caller may hold. *)

From S2P Require Import Prelude Text Base Transport.

Module TcpThreads.
Import TcpTransport.

(** ** Sockets and the answers of the kernel *)

(** An open socket: the bytes that arrive on it, and whether the peer has closed. *)
Record socket := mkSocket { incoming : Stream; hung_up : bool }.
#[export] Instance eta_socket : Eta socket := fun k => mkSocket (incoming k) (hung_up k).

(** What the calls of [Listen] and [Connect] return; [strerror] is the text of [errno]. *)
Record answers := mkAnswers {
  socket_rc : Z; setsockopt_rc : Z; inet_pton_rc : Z; bind_rc : Z; listen_rc : Z; connect_rc : Z; strerror : string
}.

(** The transport: [table] has its mutex-protected fields, [stored] the connections
    whose [reader_thread] has been assigned, [added] counts the connections. *)
Record transport := mkTransport {
  table : TcpTransport.t; mListeningEndpoint : option Endpoint; stored : gset Z; sockets : gmap Z socket;
  handled : list RawFrame; added : nat; terminated : bool
}.
#[export] Instance eta_transport : Eta transport := fun s =>
  mkTransport (table s) (mListeningEndpoint s) (stored s) (sockets s) (handled s) (added s) (terminated s).

Definition initial : transport := mkTransport TcpTransport.initial None ∅ ∅ [] 0 false.

Definition connections (s : transport) : gmap Z Connection := mConnections (table s).
Definition open_socket (fd : Z) (s : transport) : transport := s <| sockets := <[fd := mkSocket [] false]> (sockets s) |>.
Definition close_socket (fd : Z) (s : transport) : transport := s <| sockets := delete fd (sockets s) |>.

(** ** The threads *)

Inductive adding_pc := stores (id : Z) | announces (id : Z).
Inductive acceptor_pc := a_checks | a_accepts | a_adds (p : adding_pc).
Inductive reader_pc := r_loops | r_receives (fd : Z) | r_handles (frame : RawFrame) | r_leaves | r_notifies.
Inductive caller_pc := c_adds (p : adding_pc) | c_joins (id : Z) | c_notifies (id : Z) | c_shuts (acceptor : bool) (readers : list Z).

(** A caller may hold the mutex of the node throughout its call. *)
Inductive thread :=
| Acceptor (p : acceptor_pc)
| Reader (id : Z) (p : reader_pc)
| Caller (node_mutex : bool) (p : caller_pc).

(** The threads that run; one that has returned is no longer listed. *)
Abbreviation pool := (list thread).

Definition is_reader (id : Z) (th : thread) : bool := match th with Reader i _ => i =? id | _ => false end.
Definition is_acceptor (th : thread) : bool := match th with Acceptor _ => true | _ => false end.
Definition node_locked (threads : pool) : bool := existsb (fun th => match th with Caller true _ => true | _ => false end) threads.

(** ** The sections of the transport *)

(** The first section of [AddConnection] and the start of the reader thread. *)
Definition add (fd : Z) (s : transport) : Z * transport :=
  let '(id, tab) := AddConnection fd (table s) in (id, (open_socket fd s) <| table := tab |> <| added := S (added s) |>).

(** Its second section: the thread object is moved into the connection.  When the
    connection is gone, the object is destroyed while it is joinable. *)
Definition store (id : Z) (s : transport) : transport :=
  match connections s !! id with
  | Some _ => s <| stored := {[id]} ∪ stored s |>
  | None => s <| terminated := true |>
  end.

Definition notify (type : ConnectionEventType) (id : Z) (s : transport) : transport :=
  s <| table := (NotifyConnectionEvent type id (table s)).2 |>.

(** The section of [HandleDisconnect]: whether the connection was there and whether
    its reader thread could be detached or joined. *)
Definition disconnect (id : Z) (s : transport) : option (bool * transport) :=
  match connections s !! id with
  | None => None
  | Some c =>
      if closed c then None
      else
        let s' := if 0 <=? socket_fd c then close_socket (socket_fd c) s else s in
        Some (bool_decide (id ∈ stored s),
              s' <| table := (HandleDisconnect id false (table s)).2 |> <| stored := stored s ∖ {[id]} |>)
  end.

(** The section of [Shutdown] closes the listener and all connections. *)
Definition shut (s : transport) : transport :=
  let fds := (if 0 <=? mListenSocket (table s) then [mListenSocket (table s)] else []) ++ (socket_fd <$> (map_to_list (connections s)).*2) in
  s <| table := (@Shutdown order_Z (table s)).2 |> <| sockets := foldl (fun m fd => delete fd m) (sockets s) fds |> <| stored := ∅ |>.

(** One frame from a socket: the header, its check, the payload; [None] when a
    read or the check fails. *)
Definition read_frame (id : Z) (s : Stream) : option (RawFrame * Stream) :=
  let '(ok_header, header_bytes, s1) := ReadExact kFrameHeaderSize s in
  if negb ok_header then None
  else
    let '(ok_magic, h) := DeserializeFrameHeader (Some header_bytes) default_frame_header in
    if negb ok_magic then None
    else
      let '(ok_payload, body, s2) := if 0 <? flength h then ReadExact (Z.to_nat (flength h)) s1 else (true, [], s1) in
      if negb ok_payload then None else Some (mkRawFrame id h body, s2).

(** Without a whole frame the reader waits for more bytes, unless the peer has
    closed or what it sent is not a frame. *)
Definition not_a_frame (s : Stream) : bool :=
  let '(ok_header, header_bytes, _) := ReadExact kFrameHeaderSize s in
  ok_header && negb (DeserializeFrameHeader (Some header_bytes) default_frame_header).1.

(** ** Listen and Connect *)

Definition SocketFailure (operation : string) (k : answers) : Result := Failure (operation +:+ ": " +:+ strerror k).

Definition bad_endpoint (endpoint : Endpoint) : bool := String.eqb (host endpoint) "" || (port endpoint =? 0).

(** The end of [Listen]; the acceptor is started by the caller of this definition. *)
Definition listening (endpoint : Endpoint) (fd : Z) (s : transport) : transport :=
  let tab := table s in
  s <| mListeningEndpoint := Some endpoint |>
    <| table := TcpTransport.mk true fd (mConnections tab) (mNextConnectionId tab) (closed_fds tab) (events tab) |>.

(** [socket] succeeds with a descriptor that is not in use. *)
Definition Listen (endpoint : Endpoint) (k : answers) (s : transport) : Result * transport :=
  if bad_endpoint endpoint then (Failure "invalid endpoint", s)
  else if mListening (table s) then (Failure "transport is already listening", s)
  else if socket_rc k <? 0 then (SocketFailure "socket" k, s)
  else
    let fd := socket_rc k in
    let s := open_socket fd s in
    if negb (setsockopt_rc k =? 0) then (SocketFailure "setsockopt" k, close_socket fd s)
    else if negb (inet_pton_rc k =? 1) then (Failure "invalid listen host", close_socket fd s)
    else if negb (bind_rc k =? 0) then (SocketFailure "bind" k, close_socket fd s)
    else if negb (listen_rc k =? 0) then (SocketFailure "listen" k, close_socket fd s)
    else (Success, listening endpoint fd s).

(** [Connect] up to the second section of [AddConnection]: the connection added. *)
Definition Connect (endpoint : Endpoint) (k : answers) (s : transport) : Result * option Z * transport :=
  if bad_endpoint endpoint then (Failure "invalid endpoint", None, s)
  else if socket_rc k <? 0 then (SocketFailure "socket" k, None, s)
  else
    let fd := socket_rc k in
    let s := open_socket fd s in
    if negb (inet_pton_rc k =? 1) then (Failure "invalid remote host", None, close_socket fd s)
    else if negb (connect_rc k =? 0) then (SocketFailure "connect" k, None, close_socket fd s)
    else let '(id, s) := add fd s in (Success, Some id, s).

(** ** Turns *)

(** What a thread is told when it runs: a connection was accepted on this
    descriptor, [accept] failed, a whole frame was read, reading failed. *)
Inductive answer := accepted (fd : Z) | accept_failed | frame_read | read_failed | no_answer.

(** A turn of a thread: the transport after it, what becomes of the thread, and
    the thread it starts; [None]: it is blocked. *)
Definition turn (th : thread) (a : answer) (threads : pool) (s : transport) : option (transport * list thread * list thread) :=
  match th with
  | Acceptor a_checks =>
      if mListening (table s) && (0 <=? mListenSocket (table s)) then Some (s, [Acceptor a_accepts], []) else Some (s, [], [])
  | Acceptor a_accepts =>
      match a with
      | accepted fd =>
          if (0 <=? fd) && bool_decide (sockets s !! fd = None) then
            let '(id, s) := add fd s in Some (s, [Acceptor (a_adds (stores id))], [Reader id r_loops])
          else None
      | accept_failed => Some (s, [Acceptor a_checks], [])
      | _ => None
      end
  | Acceptor (a_adds (stores id)) => Some (store id s, [Acceptor (a_adds (announces id))], [])
  | Acceptor (a_adds (announces id)) => Some (notify ce_connected id s, [Acceptor a_checks], [])
  | Caller l (c_adds (stores id)) => Some (store id s, [Caller l (c_adds (announces id))], [])
  | Caller l (c_adds (announces id)) => Some (notify ce_connected id s, [], [])
  | Caller l (c_joins id) => if existsb (is_reader id) threads then None else Some (s, [Caller l (c_notifies id)], [])
  | Caller l (c_notifies id) => Some (notify ce_disconnected id s, [], [])
  | Caller l (c_shuts acceptor readers) =>
      if acceptor && existsb is_acceptor threads then None
      else if existsb (fun id => existsb (is_reader id) threads) readers then None
      else Some (s, [], [])
  | Reader id r_loops =>
      match connections s !! id with
      | Some c => if closed c then Some (s, [], []) else Some (s, [Reader id (r_receives (socket_fd c))], [])
      | None => Some (s, [], [])
      end
  | Reader id (r_receives fd) =>
      match a with
      | frame_read =>
          socket ← sockets s !! fd;
          '(frame, rest) ← read_frame id (incoming socket);
          Some (s <| sockets := <[fd := socket <| incoming := rest |>]> (sockets s) |>, [Reader id (r_handles frame)], [])
      | read_failed =>
          let fails :=
            match sockets s !! fd with
            | None => true
            | Some socket => (hung_up socket && bool_decide (read_frame id (incoming socket) = None)) || not_a_frame (incoming socket)
            end in
          (* A read that was blocked when the connection was closed is woken. *)
          if fails || bool_decide (connections s !! id = None) then Some (s, [Reader id r_leaves], []) else None
      | _ => None
      end
  | Reader id (r_handles frame) =>
      if (kind (fheader frame) =? fk_data) && node_locked threads then None
      else Some (s <| handled := handled s ++ [frame] |>, [Reader id r_loops], [])
  | Reader id r_leaves =>
      match disconnect id s with
      | Some (_, s) => Some (s, [Reader id r_notifies], [])
      | None => Some (s, [], [])
      end
  | Reader id r_notifies => Some (notify ce_disconnected id s, [], [])
  end.

(** A call of the transport; [node_mutex]: the caller holds the mutex of the node. *)
Inductive call := call_Listen (endpoint : Endpoint) (k : answers) | call_Connect (endpoint : Endpoint) (k : answers)
  | call_Close (id : Z) | call_Shutdown.

(** [Close], and [Send] when a write has failed. *)
Definition start (c : call) (node_mutex : bool) (threads : pool) (s : transport) : Result * transport * list thread :=
  match c with
  | call_Listen endpoint k =>
      let '(result, s) := Listen endpoint k s in (result, s, if ok result then [Acceptor a_checks] else [])
  | call_Connect endpoint k =>
      let '(result, added, s) := Connect endpoint k s in
      (result, s, match added with Some id => [Caller node_mutex (c_adds (stores id)); Reader id r_loops] | None => [] end)
  | call_Close id =>
      match disconnect id s with
      | Some (joins, s) => (Success, s, [Caller node_mutex (if joins then c_joins id else c_notifies id)])
      | None => (Success, s, [])
      end
  | call_Shutdown =>
      (Success, shut s, [Caller node_mutex (c_shuts (existsb is_acceptor threads) (elements (stored s)))])
  end.

(** [socket] and [accept] return descriptors that are not in use. *)
Definition fresh_fd (c : call) (s : transport) : Prop :=
  match c with
  | call_Listen _ k | call_Connect _ k => 0 <= socket_rc k -> sockets s !! socket_rc k = None
  | _ => True
  end.

(** Steps of a process that has not been terminated. *)
Inductive step : transport * pool -> transport * pool -> Prop :=
| step_turn s before th behind a s' after spawned :
    terminated s = false -> turn th a (before ++ th :: behind) s = Some (s', after, spawned) ->
    step (s, before ++ th :: behind) (s', before ++ after ++ behind ++ spawned)
| step_call s threads c node_mutex :
    terminated s = false -> fresh_fd c s -> (node_mutex = true -> node_locked threads = false) ->
    step (s, threads) ((start c node_mutex threads s).1.2, threads ++ (start c node_mutex threads s).2)
| step_arrives s threads fd socket chunk :
    terminated s = false -> sockets s !! fd = Some socket -> hung_up socket = false -> chunk <> [] ->
    step (s, threads) (s <| sockets := <[fd := socket <| incoming := incoming socket ++ [chunk] |>]> (sockets s) |>, threads)
| step_hangs_up s threads fd socket :
    terminated s = false -> sockets s !! fd = Some socket ->
    step (s, threads) (s <| sockets := <[fd := socket <| hung_up := true |>]> (sockets s) |>, threads).

Definition reachable (s : transport) (threads : pool) : Prop := rtc step (initial, []) (s, threads).

(** The connections an event of the given type has been delivered for. *)
Definition notified (type : ConnectionEventType) (evs : list ConnectionEvent) : list Z :=
  ce_connection_id <$> filter (fun e => ce_type e = type) evs.

End TcpThreads.

(** ** Lemmas *)

Module TcpThreadsProofs.
Import TcpTransport TcpThreads.

#[local] Arguments notified _ _ : simpl never.

Definition limit : Z := 18446744073709551615.

(** Connections that are being announced, or whose end is; readers that still
    watch their connection. *)
Definition adding (th : thread) : option Z :=
  match th with Acceptor (a_adds (stores id | announces id)) | Caller _ (c_adds (stores id | announces id)) => Some id | _ => None end.
Definition leaving (th : thread) : option Z :=
  match th with Reader id r_notifies | Caller _ (c_joins id | c_notifies id) => Some id | _ => None end.
Definition watching (th : thread) : option Z :=
  match th with Reader id (r_loops | r_receives _ | r_handles _ | r_leaves) => Some id | _ => None end.

(** The sockets of the table: every connection is open and has its own socket and
    reader, and no other socket but the listener's is open. *)
Record sockets_inv (s : transport) (threads : pool) : Prop := {
  sockets_table : forall id c, connections s !! id = Some c ->
    1 <= id <= Z.of_nat (added s) /\ closed c = false /\ 0 <= socket_fd c /\ is_Some (sockets s !! socket_fd c) /\
    id ∈ omap watching threads;
  sockets_inj : forall id id' c c', connections s !! id = Some c -> connections s !! id' = Some c' ->
    socket_fd c = socket_fd c' -> id = id';
  sockets_listener : if mListening (table s)
    then 0 <= mListenSocket (table s) /\ is_Some (sockets s !! mListenSocket (table s)) /\
         forall id c, connections s !! id = Some c -> socket_fd c <> mListenSocket (table s)
    else mListenSocket (table s) < 0;
  sockets_open : forall fd, is_Some (sockets s !! fd) ->
    (exists id c, connections s !! id = Some c /\ socket_fd c = fd) \/ (mListening (table s) = true /\ mListenSocket (table s) = fd);
  sockets_stored : forall id, id ∈ stored s -> is_Some (connections s !! id)
}.

(** Every connection is announced once, and its end after it has left the table. *)
Record events_inv (s : transport) (threads : pool) : Prop := {
  events_next : mNextConnectionId (table s) = 1 + Z.of_nat (added s);
  events_up : NoDup (notified ce_connected (events (table s)) ++ omap adding threads);
  events_up_range : forall id, id ∈ notified ce_connected (events (table s)) ++ omap adding threads -> id <= Z.of_nat (added s);
  events_down : NoDup (notified ce_disconnected (events (table s)) ++ omap leaving threads);
  events_down_range : forall id, id ∈ notified ce_disconnected (events (table s)) ++ omap leaving threads ->
    id <= Z.of_nat (added s) /\ connections s !! id = None
}.

Definition inv (s : transport) (threads : pool) : Prop :=
  Z.of_nat (added s) < limit -> sockets_inv s threads /\ events_inv s threads.

Lemma inv_perm s threads threads' : Permutation threads threads' -> inv s threads -> inv s threads'.
Proof.
  intros Hp Hinv Hl. destruct (Hinv Hl) as [Hs He]. split.
  - destruct Hs as [H1 H2 H3 H4 H5]. split; try done. intros id c Hc. rewrite <- Hp. by apply H1.
  - destruct He as [H1 H2 H3 H4 H5]. split; [done| |intros id| |intros id]; rewrite <- Hp; [done|apply H3|done|apply H5].
Qed.

(** *** Reading *)

(** The loop of [ReaderLoop] over a stream is this reading of frames. *)
Lemma ReaderLoop_frames_read fuel id stream :
  ReaderLoop (S fuel) id stream = match read_frame id stream with Some (frame, rest) => frame :: ReaderLoop fuel id rest | None => [] end.
Proof.
  cbn [ReaderLoop]. unfold read_frame. destruct (ReadExact kFrameHeaderSize stream) as [[ok_header bytes] s1]. destruct ok_header; [|done]. cbn [negb].
  destruct (DeserializeFrameHeader (Some bytes) default_frame_header) as [ok_magic h]. destruct ok_magic; [|done]. cbn [negb].
  destruct (if 0 <? flength h then ReadExact (Z.to_nat (flength h)) s1 else (true, [], s1)) as [[ok_payload body] s2]. by destruct ok_payload.
Qed.

(** *** What the sections change *)

Lemma notified_same type evs id : notified type (evs ++ [mkConnectionEvent type id]) = notified type evs ++ [id].
Proof. unfold notified. rewrite filter_app, fmap_app, filter_cons_True by done. done. Qed.

Lemma notified_other type type' evs id : type <> type' -> notified type (evs ++ [mkConnectionEvent type' id]) = notified type evs.
Proof. intros Hne. unfold notified. rewrite filter_app, fmap_app, filter_cons_False by (simpl; congruence). simpl. by rewrite app_nil_r. Qed.

(** Steps that leave the table as it is. *)
Lemma transport_inv_same s s' threads threads' :
  table s' = table s -> stored s' = stored s -> added s' = added s ->
  (forall fd, is_Some (sockets s' !! fd) <-> is_Some (sockets s !! fd)) ->
  omap adding threads' = omap adding threads -> omap leaving threads' = omap leaving threads ->
  (forall id, is_Some (connections s !! id) -> id ∈ omap watching threads -> id ∈ omap watching threads') ->
  inv s threads -> inv s' threads'.
Proof.
  intros Et Es Ea Ek Eup Edown Hw Hinv Hl. rewrite Ea in Hl. destruct (Hinv Hl) as [[H1 H2 H3 H4 H5] [E1 E2 E3 E4 E5]]. split.
  - unfold connections in *. split; unfold connections; rewrite ?Et, ?Es, ?Ea; try done.
    + intros id c Hc. destruct (H1 id c Hc) as (? & ? & ? & ? & ?). rewrite Ek. repeat (split; [done|]). apply Hw; [by eexists|done].
    + destruct (mListening (table s)); [|done]. by rewrite Ek.
    + intros fd. rewrite Ek. apply H4.
  - unfold connections in *. split; unfold connections; rewrite ?Et, ?Ea, ?Eup, ?Edown; done.
Qed.

(** Adding a connection: its id is new. *)
Lemma add_inv fd s threads th :
  inv s threads -> 0 <= fd -> sockets s !! fd = None ->
  adding th = Some (add fd s).1 -> leaving th = None -> watching th = None ->
  inv (add fd s).2 (th :: Reader (add fd s).1 r_loops :: threads).
Proof.
  intros Hinv Hfd Hfree Ha Hlv Hw Hlim. unfold add, AddConnection in *. cbn in Ha, Hlim |- *. unfold limit in *.
  destruct (Hinv ltac:(unfold limit; lia)) as [[H1 H2 H3 H4 H5] [E1 E2 E3 E4 E5]]. unfold connections in *.
  assert (mConnections (table s) !! mNextConnectionId (table s) = None) as Hnew.
  { destruct (mConnections (table s) !! _) as [c|] eqn:E; [|done]. apply H1 in E. lia. }
  assert (forall id c, mConnections (table s) !! id = Some c -> socket_fd c <> fd) as Hne.
  { intros id c Hc E. apply H1 in Hc as (_ & _ & _ & [x Hx] & _). congruence. }
  rewrite Hnew. split.
  - split; unfold connections; cbn; rewrite ?Hw.
    + intros id c [[<- <-]|[Hi Hc]]%lookup_insert_Some.
      * cbn. split; [lia|]. do 2 (split; [done|]). rewrite lookup_insert_eq. split; [done|]. apply list_elem_of_here.
      * destruct (H1 id c Hc) as (? & ? & ? & ? & ?). split; [lia|]. do 2 (split; [done|]).
        rewrite lookup_insert_ne by (intros E; by eapply Hne). split; [done|]. by apply list_elem_of_further.
    + intros id id' c c' [[<- <-]|[Hi Hc]]%lookup_insert_Some [[<- <-]|[Hi' Hc']]%lookup_insert_Some; cbn; try done; intros E;
        [by exfalso; eapply Hne|by exfalso; eapply Hne|by eapply H2].
    + destruct (mListening (table s)); [|done]. destruct H3 as (? & [x Hx] & Hl). split; [done|].
      rewrite lookup_insert_ne by (intros E; congruence). split; [by eexists|].
      intros id c [[<- <-]|[Hi Hc]]%lookup_insert_Some; [cbn; congruence|by eapply Hl].
    + intros fd' [x [[<- _]|[Hi Hx]]%lookup_insert_Some].
      * left. eexists _, _. split; [apply lookup_insert_eq|done].
      * destruct (H4 fd') as [(id & c & Hc & E)|?]; [by eexists| |by right]. left. exists id, c. split; [|done].
        rewrite lookup_insert_ne; [done|]. intros <-. congruence.
    + intros id Hi. destruct (H5 id Hi) as [c Hc]. destruct (decide (mNextConnectionId (table s) = id)) as [<-|]; [rewrite lookup_insert_eq; by eexists|].
      rewrite lookup_insert_ne by done. by eexists.
  - assert (forall id, id ∈ notified ce_connected (events (table s)) ++ omap adding threads -> id <> mNextConnectionId (table s)) as Hold
      by (intros id Hi%E3; lia).
    split; unfold connections; cbn; rewrite ?Ha, ?Hlv; cbn.
    + rewrite u64_id by (unfold in_u64; lia). lia.
    + rewrite <- Permutation_middle. apply NoDup_cons. split; [|done]. intros Hi%Hold. done.
    + intros id. rewrite <- Permutation_middle, elem_of_cons. intros [->|Hi%E3]; lia.
    + done.
    + intros id Hi. destruct (E5 id Hi) as [? Hc]. split; [lia|]. rewrite lookup_insert_ne; [done|]. lia.
Qed.

(** A thread in place of another that is announcing, leaving and watching the same. *)
Definition alike (th th' : thread) : Prop := adding th' = adding th /\ leaving th' = leaving th /\ watching th' = watching th.

Lemma alike_omap th th' threads :
  alike th th' -> omap adding (th' :: threads) = omap adding (th :: threads) /\ omap leaving (th' :: threads) = omap leaving (th :: threads) /\
    omap watching (th' :: threads) = omap watching (th :: threads).
Proof. intros (E1 & E2 & E3). cbn. by rewrite E1, E2, E3. Qed.

Lemma inv_alike s s' th th' threads :
  alike th th' -> table s' = table s -> stored s' = stored s -> added s' = added s ->
  (forall fd, is_Some (sockets s' !! fd) <-> is_Some (sockets s !! fd)) -> inv s (th :: threads) -> inv s' (th' :: threads).
Proof.
  intros (E1 & E2 & E3)%(alike_omap _ _ threads) ? ? ? ?. apply transport_inv_same; try done. intros id _. by rewrite E3.
Qed.

Lemma store_inv id s th th' threads : alike th th' -> inv s (th :: threads) -> inv (store id s) (th' :: threads).
Proof.
  intros Hth Hinv. unfold store. destruct (connections s !! id) as [c|] eqn:Ec; [|by apply (inv_alike s _ th)].
  intros Hl. destruct (inv_alike s s th th' threads Hth eq_refl eq_refl eq_refl (fun _ => iff_refl _) Hinv Hl) as [[H1 H2 H3 H4 H5] He].
  split; [|by destruct He]. split; try done. intros j. cbn. rewrite elem_of_union, elem_of_singleton. intros [->|Hj]; [by eexists|by apply H5].
Qed.

Lemma announce_inv id s th after threads :
  adding th = Some id -> leaving th = None -> watching th = None ->
  omap adding after = [] -> omap leaving after = [] -> omap watching after = [] ->
  inv s (th :: threads) -> inv (notify ce_connected id s) (after ++ threads).
Proof.
  intros A1 A2 A3 B1 B2 B3 Hinv Hl. destruct (Hinv Hl) as [[H1 H2 H3 H4 H5] [E1 E2 E3 E4 E5]]. cbn in *. rewrite ?A1, ?A2, ?A3 in *. split.
  - split; try done. intros j c Hc. rewrite omap_app, B3. by apply H1.
  - split; cbn; rewrite ?omap_app, ?B1, ?B2; cbn; try done.
    + rewrite notified_same, <- app_assoc. by rewrite (Permutation_app_comm [id]), app_assoc, <- (Permutation_cons_append _ id), Permutation_middle.
    + intros j. rewrite notified_same, <- app_assoc. apply E3.
    + by rewrite notified_other.
    + intros j. rewrite notified_other by done. apply E5.
Qed.

Lemma ended_inv id s th threads :
  leaving th = Some id -> adding th = None -> watching th = None -> inv s (th :: threads) -> inv (notify ce_disconnected id s) threads.
Proof.
  intros A1 A2 A3 Hinv Hl. destruct (Hinv Hl) as [[H1 H2 H3 H4 H5] [E1 E2 E3 E4 E5]]. cbn in *. rewrite ?A1, ?A2, ?A3 in *. split.
  - by split.
  - split; cbn; try done.
    + by rewrite notified_other.
    + intros j. rewrite notified_other by done. apply E3.
    + by rewrite notified_same, <- app_assoc.
    + intros j. rewrite notified_same, <- app_assoc. apply E5.
Qed.

(** What [HandleDisconnect] finds and leaves behind. *)
Lemma disconnect_spec id s b s' :
  disconnect id s = Some (b, s') ->
  exists c, connections s !! id = Some c /\ closed c = false /\ connections s' = delete id (connections s) /\
    sockets s' = (if 0 <=? socket_fd c then delete (socket_fd c) (sockets s) else sockets s) /\
    stored s' = stored s ∖ {[id]} /\ added s' = added s /\ events (table s') = events (table s) /\
    mNextConnectionId (table s') = mNextConnectionId (table s) /\ mListening (table s') = mListening (table s) /\
    mListenSocket (table s') = mListenSocket (table s).
Proof.
  unfold disconnect, HandleDisconnect, connections. destruct (mConnections (table s) !! id) as [c|] eqn:Ec; [|done].
  destruct (closed c) eqn:Ed; [done|]. intros Hd. simplify_eq. exists c.
  split; [done|]. split; [done|]. cbn. by destruct (0 <=? socket_fd c).
Qed.

Lemma disconnect_inv id s b s' old th threads :
  disconnect id s = Some (b, s') -> omap adding old = [] -> omap leaving old = [] -> (forall j, j ∈ omap watching old -> j = id) ->
  leaving th = Some id -> adding th = None -> watching th = None -> inv s (old ++ threads) -> inv s' (th :: threads).
Proof.
  intros (c & Hc & Hcl & Em & Ek & Es & Ea & Ee & En & El & Els)%disconnect_spec O1 O2 O3 T1 T2 T3 Hinv Hl. rewrite Ea in Hl.
  destruct (Hinv Hl) as [[H1 H2 H3 H4 H5] [E1 E2 E3 E4 E5]]. rewrite ?omap_app, ?O1, ?O2 in *. cbn in *.
  destruct (H1 id c Hc) as (Hr & _ & Hfd & _). replace (0 <=? socket_fd c) with true in Ek by lia. split.
  - split; rewrite ?Em, ?Ek, ?Es, ?El, ?Els, ?Ea.
    + intros j cj [Hne Hj]%lookup_delete_Some. destruct (H1 j cj Hj) as (? & ? & ? & Hs & Hw). do 3 (split; [done|]). split.
      * rewrite lookup_delete_ne; [done|]. intros E. by apply Hne, (H2 id j c cj).
      * cbn. rewrite T3. apply elem_of_app in Hw as [Hw%O3|Hw]; [by subst|done].
    + intros j j' cj cj' [_ Hj]%lookup_delete_Some [_ Hj']%lookup_delete_Some. by eapply H2.
    + destruct (mListening (table s)); [|done]. destruct H3 as (? & Hs & Hn). split; [done|]. split.
      * rewrite lookup_delete_ne by by eapply Hn. done.
      * intros j cj [_ Hj]%lookup_delete_Some. by eapply Hn.
    + intros fd [x [Hne Hx]%lookup_delete_Some]. destruct (H4 fd ltac:(by eexists)) as [(j & cj & Hj & E)|?]; [|by right].
      left. exists j, cj. split; [|done]. rewrite lookup_delete_ne; [done|]. intros <-. congruence.
    + intros j. rewrite elem_of_difference, elem_of_singleton. intros [[x Hx]%H5 Hne]. exists x. by rewrite lookup_delete_ne.
  - assert (id ∉ notified ce_disconnected (events (table s)) ++ omap leaving threads) as Hnew by (intros Hi%E5; destruct Hi; congruence).
    split; cbn; rewrite ?Ee, ?En, ?Ea, ?T1, ?T2; cbn; try done.
    + rewrite <- Permutation_middle. by apply NoDup_cons.
    + intros j. rewrite <- Permutation_middle, elem_of_cons, Em. intros [->|Hj]; [split; [lia|apply lookup_delete_eq]|].
      destruct (E5 j Hj) as [? ?]. split; [done|]. by apply lookup_delete_None; right.
Qed.

Lemma lookup_foldl_delete (fds : list Z) (m : gmap Z socket) fd :
  is_Some (foldl (fun m fd => delete fd m) m fds !! fd) -> is_Some (m !! fd) /\ fd ∉ fds.
Proof.
  revert m. induction fds as [|x fds IH]; intros m; cbn; [intros ?; split; [done|]; apply not_elem_of_nil|].
  intros [[y [Hne Hy]%lookup_delete_Some] Hn]%IH. split; [by eexists|]. apply not_elem_of_cons. by split.
Qed.

Lemma shut_inv s th threads :
  adding th = None -> leaving th = None -> inv s threads -> inv (shut s) (th :: threads).
Proof.
  intros T1 T2 Hinv Hl. destruct (Hinv Hl) as [[H1 H2 H3 H4 H5] [E1 E2 E3 E4 E5]]. split.
  - assert (mListening (table (shut s)) = false) as E by done. split; unfold connections; rewrite ?E; cbn; try done.
    + destruct (0 <=? mListenSocket (table s)) eqn:El; lia.
    + intros fd [Hs Hn]%lookup_foldl_delete. exfalso. apply Hn, elem_of_app. destruct (H4 fd Hs) as [(id & c & Hc & <-)|[Elis <-]].
      * right. apply list_elem_of_fmap. exists c. split; [done|]. apply list_elem_of_fmap. exists (id, c). split; [done|]. by apply elem_of_map_to_list.
      * left. rewrite Elis in H3. destruct H3 as (? & _). replace (0 <=? mListenSocket (table s)) with true by lia. apply list_elem_of_here.
  - split; cbn; rewrite ?T1, ?T2; try done. intros id Hi. split; [|done]. by apply E5.
Qed.

(** What [Listen] and [Connect] leave when they fail. *)
Lemma close_open fd s : sockets s !! fd = None -> close_socket fd (open_socket fd s) = s.
Proof. intros E. destruct s. unfold close_socket, open_socket. cbn in *. f_equal. by apply delete_insert_id. Qed.

Lemma Listen_cases endpoint k s :
  (0 <= socket_rc k -> sockets s !! socket_rc k = None) ->
  (ok (Listen endpoint k s).1 = false /\ (Listen endpoint k s).2 = s) \/
  ((Listen endpoint k s).1 = Success /\ 0 <= socket_rc k /\ mListening (table s) = false /\
   (Listen endpoint k s).2 = listening endpoint (socket_rc k) (open_socket (socket_rc k) s)).
Proof.
  intros Hf. unfold Listen. destruct (bad_endpoint endpoint); [by left|]. destruct (mListening (table s)); [by left|].
  destruct (Z.ltb_spec (socket_rc k) 0) as [|H0]; [by left|]. specialize (Hf H0).
  destruct (negb (setsockopt_rc k =? 0)); [left; by rewrite close_open|]. destruct (negb (inet_pton_rc k =? 1)); [left; by rewrite close_open|].
  destruct (negb (bind_rc k =? 0)); [left; by rewrite close_open|]. destruct (negb (listen_rc k =? 0)); [left; by rewrite close_open|].
  right. done.
Qed.

Lemma Connect_cases endpoint k s :
  (0 <= socket_rc k -> sockets s !! socket_rc k = None) ->
  (ok (Connect endpoint k s).1.1 = false /\ (Connect endpoint k s).1.2 = None /\ (Connect endpoint k s).2 = s) \/
  ((Connect endpoint k s).1.1 = Success /\ 0 <= socket_rc k /\
   (Connect endpoint k s).1.2 = Some (add (socket_rc k) s).1 /\ (Connect endpoint k s).2 = (add (socket_rc k) s).2).
Proof.
  intros Hf. unfold Connect. destruct (bad_endpoint endpoint); [by left|].
  destruct (Z.ltb_spec (socket_rc k) 0) as [|H0]; [by left|]. specialize (Hf H0).
  destruct (negb (inet_pton_rc k =? 1)); [left; by rewrite close_open|]. destruct (negb (connect_rc k =? 0)); [left; by rewrite close_open|].
  right. unfold add. cbn. split; [done|]. split; [done|]. split; [done|]. by rewrite insert_insert_eq.
Qed.

Lemma listening_inv endpoint fd s th threads :
  adding th = None -> leaving th = None -> watching th = None -> 0 <= fd -> sockets s !! fd = None -> mListening (table s) = false ->
  inv s threads -> inv (listening endpoint fd (open_socket fd s)) (th :: threads).
Proof.
  intros T1 T2 T3 Hfd Hfree El Hinv Hl. destruct (Hinv Hl) as [[H1 H2 H3 H4 H5] [E1 E2 E3 E4 E5]]. unfold connections in *. split.
  - split; unfold connections; cbn; rewrite ?T3; try done.
    + intros id c Hc. destruct (H1 id c Hc) as (? & ? & ? & [x Hx] & ?). do 3 (split; [done|]). split; [|done].
      rewrite lookup_insert_ne by congruence. by eexists.
    + split; [done|]. rewrite lookup_insert_eq. split; [done|]. intros id c Hc. destruct (H1 id c Hc) as (_ & _ & _ & [x Hx] & _). congruence.
    + intros fd' [x [[<- _]|[_ Hx]]%lookup_insert_Some]; [by right|]. destruct (H4 fd' ltac:(by eexists)) as [?|[? _]]; [by left|congruence].
  - by split; unfold connections; cbn; rewrite ?T1, ?T2.
Qed.

(** A thread that is neither announcing nor leaving returns: its connection is
    not in the table. *)
Lemma returns_inv s th threads :
  adding th = None -> leaving th = None -> (forall id, watching th = Some id -> Z.of_nat (added s) < limit -> connections s !! id = None) ->
  inv s (th :: threads) -> inv s threads.
Proof.
  intros T1 T2 Hw Hinv Hl. specialize (Hinv Hl). revert Hl. cut (inv s threads); [done|].
  intros Hl. pose proof (Hw) as Hw'. destruct Hinv as [[H1 H2 H3 H4 H5] [E1 E2 E3 E4 E5]]. cbn in *. rewrite ?T1, ?T2 in *. split; [|by split].
  split; try done. intros id c Hc. destruct (H1 id c Hc) as (? & ? & ? & ? & Hin). do 4 (split; [done|]).
  destruct (watching th) as [j|] eqn:Ej; [|done]. apply elem_of_cons in Hin as [->|Hin]; [|done]. by rewrite (Hw j eq_refl Hl) in Hc.
Qed.

Lemma sockets_update fd k k' (m : gmap Z socket) :
  m !! fd = Some k -> forall fd', is_Some (<[fd := k']> m !! fd') <-> is_Some (m !! fd').
Proof.
  intros E fd'. destruct (decide (fd = fd')) as [<-|]; [rewrite lookup_insert_eq, E|by rewrite lookup_insert_ne]. split; by eexists.
Qed.

Lemma turn_inv th a threads rest s s' after spawned :
  turn th a threads s = Some (s', after, spawned) -> inv s (th :: rest) -> inv s' (after ++ spawned ++ rest).
Proof.
  intros Ht Hinv.
  assert (forall th', alike th th' -> inv s (th' :: rest)) as Hlike by (intros th' Hth; by apply (inv_alike s s th)).
  assert (adding th = None -> leaving th = None -> watching th = None -> inv s rest) as Hret by (intros ? ? E; apply (returns_inv s th); [done..| |done]; congruence).
  unfold turn in Ht. destruct th as [[| |[id|id]]|id [|fd|frame| |]|l [[id|id]|id|id|joins ids]].
  - destruct (_ && _); simplify_eq; [by apply Hlike|by apply Hret].
  - destruct a as [fd| | | |]; [|simplify_eq; by apply Hlike|done..].
    destruct ((0 <=? fd) && _) eqn:Ec; [|done]. apply andb_true_iff in Ec as [Ec1 Ec2%bool_decide_eq_true].
    pose proof (add_inv fd s rest (Acceptor (a_adds (stores (add fd s).1)))) as Hadd. destruct (add fd s) as [id s1]. simplify_eq. apply Hadd; auto. lia.
  - simplify_eq. by apply (store_inv id s (Acceptor (a_adds (stores id)))).
  - simplify_eq. by apply (announce_inv id s (Acceptor (a_adds (announces id))) [Acceptor a_checks]).
  - destruct (connections s !! id) as [c|] eqn:Ec; [destruct (closed c) eqn:Ed|]; simplify_eq; [|by apply Hlike|]; (apply (returns_inv _ (Reader id r_loops)); [done..| |done]); cbn; intros j [= <-] Hl; [|done].
    exfalso. destruct (Hinv Hl) as [[H1 _ _ _ _] _]. destruct (H1 id c Ec) as (_ & ? & _). congruence.
  - destruct a; try done.
    + destruct (sockets s !! fd) as [k|] eqn:Ek; [|done]. cbn in Ht. destruct (read_frame id (incoming k)) as [[frame rs]|]; [|done]. cbn in Ht. simplify_eq.
      apply (inv_alike s _ (Reader id (r_receives fd))); try done. cbn. by apply (sockets_update fd k).
    + destruct (_ || _); simplify_eq. by apply Hlike.
  - destruct (_ && _); simplify_eq. by apply (inv_alike s _ (Reader id (r_handles frame))).
  - destruct (disconnect id s) as [[b s1]|] eqn:Ed; simplify_eq.
    + apply (disconnect_inv id s b s' [Reader id r_leaves]); try done. intros j. cbn. by intros ?%list_elem_of_singleton.
    + apply (returns_inv _ (Reader id r_leaves)); [done..| |done]. cbn. intros j [= <-] Hl. unfold disconnect in Ed.
      destruct (connections s' !! id) as [c|] eqn:Ec; [|done]. destruct (Hinv Hl) as [[H1 _ _ _ _] _]. destruct (H1 id c Ec) as (_ & E & _). by rewrite E in Ed.
  - simplify_eq. by apply (ended_inv id s (Reader id r_notifies)).
  - simplify_eq. by apply (store_inv id s (Caller l (c_adds (stores id)))).
  - simplify_eq. by apply (announce_inv id s (Caller l (c_adds (announces id))) []).
  - destruct (existsb _ _); simplify_eq. by apply Hlike.
  - simplify_eq. by apply (ended_inv id s (Caller l (c_notifies id))).
  - destruct (_ && _); [done|]. destruct (existsb _ _); simplify_eq. by apply Hret.
Qed.

Lemma start_inv c l threads s :
  fresh_fd c s -> inv s threads -> inv (start c l threads s).1.2 (threads ++ (start c l threads s).2).
Proof.
  intros Hf Hinv. destruct c as [endpoint k|endpoint k|id|].
  - cbn. destruct (Listen_cases endpoint k s Hf) as [[Eo Es]|(Eo & Hk & El & Es)]; destruct (Listen endpoint k s) as [r s1]; cbn in *; subst.
    + by rewrite Eo, app_nil_r.
    + apply (inv_perm _ (Acceptor a_checks :: threads)); [apply Permutation_cons_append|]. apply listening_inv; auto.
  - cbn. destruct (Connect_cases endpoint k s Hf) as [(Eo & Ea & Es)|(Eo & Hk & Ea & Es)]; destruct (Connect endpoint k s) as [[r ad] s1]; cbn in *; subst.
    + by rewrite app_nil_r.
    + apply (inv_perm _ (Caller l (c_adds (stores (add (socket_rc k) s).1)) :: Reader (add (socket_rc k) s).1 r_loops :: threads)); [by rewrite Permutation_app_comm|].
      apply add_inv; auto.
  - cbn. destruct (disconnect id s) as [[b s1]|] eqn:Ed; cbn; [|by rewrite app_nil_r].
    eapply inv_perm; [apply Permutation_cons_append|]. apply (disconnect_inv id s b s1 []); [done..|by intros j ?%elem_of_nil|by destruct b|by destruct b|by destruct b|done].
  - cbn. eapply inv_perm; [apply Permutation_cons_append|]. by apply shut_inv.
Qed.

Lemma transport_step_inv s threads s' threads' : step (s, threads) (s', threads') -> inv s threads -> inv s' threads'.
Proof.
  intros Hs. remember (s, threads) as x eqn:Ex. remember (s', threads') as y eqn:Ey. intros Hinv.
  destruct Hs as [s0 before th behind a s1 after spawned _ Ht|s0 th0 c l _ Hf _|s0 th0 fd k chunk _ Ek _ _|s0 th0 fd k _ Ek]; simplify_eq.
  - apply (inv_perm _ (after ++ spawned ++ (before ++ behind))).
    + solve_Permutation.
    + eapply turn_inv; [done|]. by apply (inv_perm _ (before ++ th :: behind)); [by rewrite Permutation_middle|].
  - by apply start_inv.
  - apply (transport_inv_same s _ threads); try done. cbn. by apply (sockets_update fd k).
  - apply (transport_inv_same s _ threads); try done. cbn. by apply (sockets_update fd k).
Qed.

Lemma transport_initial_inv : inv initial [].
Proof.
  intros _. split; split; cbn; try done; try (by constructor).
  - intros fd [x Hx]. done.
  - intros id Hi. by apply elem_of_nil in Hi.
  - intros id Hi. by apply elem_of_nil in Hi.
Qed.

Lemma transport_reachable_inv s threads : reachable s threads -> inv s threads.
Proof.
  unfold reachable. intros Hr. remember (s, threads) as y eqn:Ey. revert s threads Ey. remember (initial, [] : pool) as x eqn:Ex.
  assert (inv x.1 x.2) as Hx by (subst; apply transport_initial_inv). clear Ex.
  induction Hr as [[s0 t0]|[s0 t0] [s1 t1] z Hs _ IH]; intros s threads Ey; [by simplify_eq|]. apply IH; [|done]. by apply (transport_step_inv s0 t0).
Qed.
End TcpThreadsProofs.

(** ** Runs *)

Module TcpRuns.
Import TcpTransport TcpThreads.

(** A move names a step: the turn of the thread at a position, a call, what
    happens on a socket. *)
Inductive move := m_turn (position : nat) (a : answer) | m_call (c : call) (node_mutex : bool)
  | m_arrives (fd : Z) (chunk : ByteBuffer) | m_hangs_up (fd : Z).

Definition fresh (c : call) (s : transport) : bool :=
  match c with
  | call_Listen _ k | call_Connect _ k => (socket_rc k <? 0) || bool_decide (sockets s !! socket_rc k = None)
  | _ => true
  end.

Definition next (m : move) (x : transport * pool) : option (transport * pool) :=
  let '(s, threads) := x in
  if terminated s then None
  else match m with
  | m_turn n a =>
      th ← threads !! n;
      '(s', after, spawned) ← turn th a threads s;
      Some (s', take n threads ++ after ++ drop (S n) threads ++ spawned)
  | m_call c l =>
      if fresh c s && negb (l && node_locked threads) then Some ((start c l threads s).1.2, threads ++ (start c l threads s).2) else None
  | m_arrives fd chunk =>
      k ← sockets s !! fd;
      if hung_up k || bool_decide (chunk = []) then None
      else Some (s <| sockets := <[fd := k <| incoming := incoming k ++ [chunk] |>]> (sockets s) |>, threads)
  | m_hangs_up fd =>
      k ← sockets s !! fd;
      Some (s <| sockets := <[fd := k <| hung_up := true |>]> (sockets s) |>, threads)
  end.

Fixpoint run (moves : list move) (x : transport * pool) : option (transport * pool) :=
  match moves with
  | [] => Some x
  | m :: rest => y ← next m x; run rest y
  end.

Lemma next_step m x y : next m x = Some y -> step x y.
Proof.
  destruct x as [s threads]. unfold next. destruct (terminated s) eqn:Et; [done|]. destruct m as [n a|c l|fd chunk|fd].
  - destruct (threads !! n) as [th|] eqn:En; [|done]. cbn. destruct (turn th a threads s) as [[[s' after] spawned]|] eqn:Eturn; [|done].
    cbn. intros [= <-]. rewrite <- (take_drop_middle threads n th En) in Eturn |- * at 1. by apply (step_turn _ _ _ _ a).
  - destruct (fresh c s) eqn:Ef; [|done]. cbn [andb]. destruct (l && node_locked threads) eqn:El; [done|]. intros [= <-]. apply step_call; [done| |].
    + destruct c; cbn in *; try done; intros Hk; apply orb_true_iff in Ef as [Ef|Ef%bool_decide_eq_true]; try done; lia.
    + intros ->. done.
  - destruct (sockets s !! fd) as [k|] eqn:Ek; [|done]. unfold mbind, option_bind. destruct (_ || _) eqn:Eb; [done|].
    apply orb_false_iff in Eb as [Eh Ec%bool_decide_eq_false]. intros [= <-]. exact (step_arrives s threads fd k chunk Et Ek Eh Ec).
  - destruct (sockets s !! fd) as [k|] eqn:Ek; [|done]. unfold mbind, option_bind. intros [= <-]. exact (step_hangs_up s threads fd k Et Ek).
Qed.

Lemma run_steps moves x y : run moves x = Some y -> rtc step x y.
Proof.
  revert x. induction moves as [|m rest IH]; intros x; cbn; [by intros [= ->]|].
  destruct (next m x) as [z|] eqn:Em; [|done]. cbn. intros Hr. eapply rtc_l; [by eapply next_step|by apply IH].
Qed.

(** An answer of the kernel with which a call succeeds. *)
Definition all_well (fd : Z) : answers := mkAnswers fd 0 1 0 0 0 "".
Definition here : Endpoint := mkEndpoint "127.0.0.1" 7000.

(** A transport that listens on descriptor 3 and waits for connections. *)
Definition listens : list move := [m_call (call_Listen here (all_well 3)) false; m_turn 0 no_answer].

(** The bytes of a data frame without payload. *)
Definition data_bytes : ByteBuffer := [67; 80; 73; 83; 1; 0; 2; 0; 0; 0; 0; 0].

(** *** Waiting for a thread that waits for the mutex of the node *)

Definition waits_for (id : Z) (p : caller_pc) : Prop :=
  match p with c_joins i => i = id | c_shuts _ ids => id ∈ ids | _ => False end.

Record deadlock (threads : pool) (id : Z) (p : caller_pc) (frame : RawFrame) : Prop := {
  deadlock_caller : Caller true p ∈ threads;
  deadlock_waits : waits_for id p;
  deadlock_reader : Reader id (r_handles frame) ∈ threads;
  deadlock_data : kind (fheader frame) = fk_data
}.

Lemma existsb_elem (f : thread -> bool) th threads : th ∈ threads -> f th = true -> existsb f threads = true.
Proof. intros Hin Hf. apply existsb_exists. exists th. by rewrite <- list_elem_of_In. Qed.

Lemma deadlock_blocked threads id p frame a s :
  deadlock threads id p frame ->
  turn (Caller true p) a threads s = None /\ turn (Reader id (r_handles frame)) a threads s = None.
Proof.
  intros [Hc Hw Hr Hd]. assert (existsb (is_reader id) threads = true) as Hin by (eapply existsb_elem; [exact Hr|apply Z.eqb_refl]). split.
  - destruct p as [|i| |b ids]; cbn in Hw; try done; cbn.
    + subst i. by rewrite Hin.
    + destruct (b && _); [done|]. replace (existsb _ ids) with true; [done|]. symmetry. apply existsb_exists. exists id.
      by rewrite <- list_elem_of_In.
  - cbn. rewrite Hd. unfold node_locked. by rewrite (existsb_elem _ _ _ Hc).
Qed.

Lemma deadlock_step s threads s' threads' id p frame :
  deadlock threads id p frame -> step (s, threads) (s', threads') -> deadlock threads' id p frame.
Proof.
  intros Hdl Hs. inversion Hs as [s0 before th behind a s1 after spawned _ Ht|s0 th0 c l _ _ _|s0 th0 fd k chunk _ _ _ _|s0 th0 fd k _ _]; subst; try done.
  - destruct (deadlock_blocked _ _ _ _ a s Hdl) as [Hbc Hbr].
    assert (forall x, x ∈ before ++ th :: behind -> turn x a (before ++ th :: behind) s = None -> x ∈ before ++ after ++ behind ++ spawned) as Hstay.
    { intros x. rewrite !elem_of_app, elem_of_cons. intros [Hx|[->|Hx]] Hb; [by left|congruence|auto]. }
    destruct Hdl as [Hc Hw Hr Hd]. split; auto.
  - destruct Hdl as [Hc Hw Hr Hd]. split; try done; apply elem_of_app; by left.
Qed.

Lemma deadlock_forever s threads x id p frame :
  deadlock threads id p frame -> rtc step (s, threads) x -> deadlock x.2 id p frame.
Proof.
  intros Hdl Hr. remember (s, threads) as y eqn:Ey. revert s threads Ey Hdl. induction Hr as [y|y [s1 t1] z Hs _ IH]; intros s threads -> Hdl; [done|].
  apply (IH s1 t1 eq_refl). by eapply deadlock_step.
Qed.
End TcpRuns.

(** ** Properties *)

Import TcpTransport TcpThreads TcpThreadsProofs TcpRuns.

(** C11: in every interleaving of the acceptor, the readers, the callers of
    [Listen], [Connect], [Close], failing [Send]s and [Shutdown], and the network,
    until the 64-bit ids wrap: every connection in the table is open, has a socket
    of its own that is not the listener's, and a reader that still watches it; and
    every open socket is that of a connection or of the listener, so none leaks. *)
Theorem transport_tables_agree s threads :
  reachable s threads -> Z.of_nat (added s) < limit ->
  (forall id c, connections s !! id = Some c ->
     closed c = false /\ is_Some (sockets s !! socket_fd c) /\ (mListening (table s) = true -> socket_fd c <> mListenSocket (table s)) /\
     (forall id' c', connections s !! id' = Some c' -> socket_fd c' = socket_fd c -> id' = id) /\
     exists p, Reader id p ∈ threads /\ p <> r_notifies) /\
  (forall fd, is_Some (sockets s !! fd) ->
     (exists id c, connections s !! id = Some c /\ socket_fd c = fd) \/ (mListening (table s) = true /\ mListenSocket (table s) = fd)).
Proof.
  intros Hr Hl. destruct (transport_reachable_inv s threads Hr Hl) as [[H1 H2 H3 H4 _] _]. split; [|done]. intros id c Hc.
  destruct (H1 id c Hc) as (_ & ? & ? & ? & (th & Hth & Hw)%list_elem_of_omap). split; [done|]. split; [done|]. split; [|split].
  - intros E. rewrite E in H3. by eapply H3.
  - intros id' c' Hc' E. by eapply H2.
  - destruct th as [p|i p|l p]; cbn in Hw; [done| |done]. destruct p; simplify_eq; by eexists.
Qed.

(** In every interleaving no connection is announced as connected or as
    disconnected twice, and one that was announced as disconnected is no longer
    in the table. *)
Theorem connection_events_once s threads :
  reachable s threads -> Z.of_nat (added s) < limit ->
  NoDup (notified ce_connected (events (table s))) /\ NoDup (notified ce_disconnected (events (table s))) /\
  forall id, id ∈ notified ce_disconnected (events (table s)) -> connections s !! id = None.
Proof.
  intros Hr Hl. destruct (transport_reachable_inv s threads Hr Hl) as [_ [_ H2 _ H4 H5]].
  apply NoDup_app in H2 as [H2 _]. apply NoDup_app in H4 as [H4 _]. split; [done|]. split; [done|].
  intros id Hid. apply H5. apply elem_of_app. by left.
Qed.

(** [Listen] and [Connect] that fail, whichever call fails, leave the transport as
    it was, with no socket left open; when they succeed there is one socket more,
    the listener's or that of a new connection. *)
Theorem setup_all_or_nothing endpoint k s :
  (0 <= socket_rc k -> sockets s !! socket_rc k = None) ->
  (if ok (Listen endpoint k s).1
   then mListening (table s) = false /\ mListening (table (Listen endpoint k s).2) = true /\
        mListenSocket (table (Listen endpoint k s).2) = socket_rc k /\
        sockets (Listen endpoint k s).2 = <[socket_rc k := mkSocket [] false]> (sockets s)
   else (Listen endpoint k s).2 = s) /\
  (if ok (Connect endpoint k s).1.1
   then (Connect endpoint k s).1.2 = Some (mNextConnectionId (table s)) /\
        sockets (Connect endpoint k s).2 = <[socket_rc k := mkSocket [] false]> (sockets s)
   else (Connect endpoint k s).2 = s).
Proof.
  intros Hf. destruct (Listen_cases endpoint k s Hf) as [[-> ->]|(-> & _ & El & ->)], (Connect_cases endpoint k s Hf) as [(-> & _ & ->)|(-> & _ & -> & ->)]; done.
Qed.

(** A peer ends the process: while the acceptor waits for connections, a peer that
    connects and closes at once can be found gone by its reader before
    [AddConnection] has stored the reader's thread object, which is then destroyed
    while joinable ([std::terminate]). *)
Theorem hang_up_terminates_process s before behind fd :
  reachable s (before ++ Acceptor a_accepts :: behind) -> terminated s = false -> Z.of_nat (added s) < limit - 1 ->
  0 <= fd -> sockets s !! fd = None ->
  exists s' threads', rtc step (s, before ++ Acceptor a_accepts :: behind) (s', threads') /\ terminated s' = true.
Proof.
  intros Hr Ht Hlim Hfd Hfree. destruct (transport_reachable_inv s _ Hr ltac:(lia)) as [[H1 _ _ _ H5] [Hn _ _ _ _]].
  set (id := mNextConnectionId (table s)). set (s1 := (add fd s).2).
  assert (connections s1 !! id = Some (mkConnection fd false)) as Hc.
  { unfold s1, add, AddConnection, connections. cbn. destruct (mConnections (table s) !! mNextConnectionId (table s)) as [c|] eqn:E; [|apply lookup_insert_eq].
    apply H1 in E. unfold id in *. lia. }
  assert (sockets s1 !! fd = Some (mkSocket [] false)) as Hk by (unfold s1, add; cbn; apply lookup_insert_eq).
  set (s2 := s1 <| sockets := <[fd := (mkSocket [] false) <| hung_up := true |>]> (sockets s1) |>).
  assert (disconnect id s2 = Some (bool_decide (id ∈ stored s2), (close_socket fd s2) <| table := (HandleDisconnect id false (table s2)).2 |> <| stored := stored s2 ∖ {[id]} |>)) as Hd.
  { unfold disconnect. change (connections s2) with (connections s1). rewrite Hc. cbn. by replace (0 <=? fd) with true by lia. }
  set (s3 := (close_socket fd s2) <| table := _ |> <| stored := _ |>) in Hd.
  assert (connections s3 !! id = None) as Hgone.
  { apply disconnect_spec in Hd as (_ & _ & _ & Em & _). rewrite Em. apply lookup_delete_eq. }
  exists (store id s3), (before ++ [Acceptor (a_adds (announces id))] ++ (behind ++ [Reader id r_notifies]) ++ []).
  split; [|unfold store; by rewrite Hgone].
  eapply rtc_l. { apply (step_turn s before (Acceptor a_accepts) behind (accepted fd) s1 [Acceptor (a_adds (stores id))] [Reader id r_loops]); [done|].
    cbn. replace (0 <=? fd) with true by lia. rewrite bool_decide_eq_true_2 by done. done. }
  set (front := before ++ [Acceptor (a_adds (stores id))] ++ behind).
  replace (before ++ [Acceptor (a_adds (stores id))] ++ behind ++ [Reader id r_loops]) with (front ++ Reader id r_loops :: []) by (unfold front; by rewrite <- !app_assoc).
  eapply rtc_l. { apply (step_turn s1 front (Reader id r_loops) [] no_answer s1 [Reader id (r_receives fd)] []); [done|]. cbn [turn]. rewrite Hc. done. }
  eapply rtc_l. { apply (step_hangs_up s1 _ fd (mkSocket [] false)); done. }
  eapply rtc_l. { apply (step_turn s2 front (Reader id (r_receives fd)) [] read_failed s2 [Reader id r_leaves] []); [done|]. cbn [turn].
    unfold s2 at 1. cbn. rewrite lookup_insert_eq. done. }
  eapply rtc_l. { apply (step_turn s2 front (Reader id r_leaves) [] no_answer s3 [Reader id r_notifies] []); [done|]. cbn [turn]. by rewrite Hd. }
  replace (front ++ [Reader id r_notifies] ++ [] ++ []) with (before ++ Acceptor (a_adds (stores id)) :: behind ++ [Reader id r_notifies]) by (unfold front; by rewrite <- !app_assoc).
  eapply rtc_l; [|apply rtc_refl].
  apply (step_turn s3 before (Acceptor (a_adds (stores id))) (behind ++ [Reader id r_notifies]) no_answer (store id s3) [Acceptor (a_adds (announces id))] []); done.
Qed.

(** A socket descriptor is used again before the reader of a closed connection has
    called [recv]: the reader then takes the frame of another connection and
    delivers it under the id of its own. *)
Theorem reader_takes_foreign_frame :
  exists s threads frame c, reachable s threads /\ Reader 1 (r_handles frame) ∈ threads /\ connection_id frame = 1 /\
    connections s !! 1 = None /\ connections s !! 2 = Some c /\ sockets s !! socket_fd c = Some (mkSocket [] false).
Proof.
  destruct (run (listens ++ [m_turn 0 (accepted 5); m_turn 0 no_answer; m_turn 0 no_answer; m_turn 0 no_answer; m_turn 1 no_answer;
    m_call (call_Close 1) false; m_turn 0 (accepted 5); m_arrives 5 data_bytes; m_turn 1 frame_read]) (initial, [])) as [[s threads]|] eqn:E;
    [|vm_compute in E; discriminate E].
  pose proof (run_steps _ _ _ E) as Hr. vm_compute in E. injection E as <- <-. eexists _, _, _, _.
  split; [exact Hr|]. split; [apply list_elem_of_further, list_elem_of_here|]. done.
Qed.

(** A connection accepted while [Shutdown] closes the others is left behind:
    [Shutdown] has returned and nothing accepts any more, but the connection is open. *)
Theorem connection_survives_shutdown :
  exists s threads c, reachable s threads /\ mListening (table s) = false /\ connections s !! 1 = Some c /\
    is_Some (sockets s !! socket_fd c) /\ Forall (fun th => exists p, th = Reader 1 p) threads.
Proof.
  destruct (run (listens ++ [m_call call_Shutdown false; m_turn 0 (accepted 5); m_turn 0 no_answer; m_turn 0 no_answer; m_turn 0 no_answer; m_turn 0 no_answer])
    (initial, [])) as [[s threads]|] eqn:E; [|vm_compute in E; discriminate E].
  pose proof (run_steps _ _ _ E) as Hr. vm_compute in E. injection E as <- <-. eexists _, _, _.
  split; [exact Hr|]. split; [done|]. split; [done|]. split; [by eexists|]. repeat constructor; by eexists.
Qed.

(** Closing a connection with the mutex of the node held can hang for ever: [Close]
    (or a [Send] that fails) joins the reader of the connection, which waits for
    that mutex to hand over a data frame.  [Shutdown], which the node calls with
    its mutex held when it is unloaded, hangs in the same way. *)
Theorem closing_deadlocks (c : call) :
  c = call_Close 1 \/ c = call_Shutdown ->
  exists s threads s1 threads1 p frame, reachable s threads /\ step (s, threads) (s1, threads1) /\
    s1 = (start c true threads s).1.2 /\
    forall s2 threads2, rtc step (s1, threads1) (s2, threads2) ->
      Caller true p ∈ threads2 /\ Reader 1 (r_handles frame) ∈ threads2.
Proof.
  intros Hc.
  destruct (run (listens ++ [m_turn 0 (accepted 5); m_turn 0 no_answer; m_turn 0 no_answer; m_turn 1 no_answer;
    m_arrives 5 data_bytes; m_turn 1 frame_read]) (initial, [])) as [[s threads]|] eqn:E; [|vm_compute in E; discriminate E].
  pose proof (run_steps _ _ _ E) as Hr. vm_compute in E. injection E as Es Et.
  destruct (next (m_call c true) (s, threads)) as [[s1 threads1]|] eqn:E1; [|by destruct Hc as [-> | ->]; subst s threads].
  pose proof (next_step _ _ _ E1) as Hs.
  assert (exists p frame, deadlock threads1 1 p frame /\ s1 = (start c true threads s).1.2) as (p & frame & Hdl & Es1).
  { destruct Hc as [-> | ->]; subst s threads; vm_compute in E1; injection E1 as <- <-; eexists _, _; (split; [|vm_compute; reflexivity]); split;
      [apply list_elem_of_further, list_elem_of_further, list_elem_of_here| |apply list_elem_of_further, list_elem_of_here|
       |apply list_elem_of_further, list_elem_of_further, list_elem_of_here| |apply list_elem_of_further, list_elem_of_here|]; cbn; try done; apply list_elem_of_here. }
  exists s, threads, s1, threads1, p, frame. split; [exact Hr|]. split; [done|]. split; [done|].
  intros s2 threads2 Hrun. destruct (deadlock_forever _ _ _ _ _ _ Hdl Hrun) as [H1 _ H2 _]. done.
Qed.

(** ** A concrete run *)

Module ExampleTransport.

(** Two connections, one of which has been closed. *)
Definition moves : list move :=
  listens ++ [m_turn 0 (accepted 5); m_turn 0 no_answer; m_turn 0 no_answer; m_call (call_Connect here (all_well 6)) true; m_turn 2 no_answer; m_turn 2 no_answer;
    m_call (call_Close 1) false; m_turn 1 no_answer; m_turn 2 no_answer; m_turn 2 no_answer].

Definition example_run : transport * pool := default (initial, []) (run moves (initial, [])).

Lemma example_reached : reachable example_run.1 example_run.2.
Proof. apply (run_steps moves). vm_compute. reflexivity. Qed.

Lemma transport_tables_agree_witness :
  is_Some (connections example_run.1 !! 2) /\ (exists p, Reader 2 p ∈ example_run.2 /\ p <> r_notifies).
Proof.
  destruct (transport_tables_agree example_run.1 example_run.2 example_reached ltac:(vm_compute; reflexivity)) as [Hc _].
  assert (connections example_run.1 !! 2 = Some (mkConnection 6 false)) as E by (vm_compute; reflexivity).
  split; [rewrite E; by eexists|]. apply (Hc 2 _ E).
Defined.

Lemma connection_events_once_witness :
  notified ce_disconnected (events (table example_run.1)) = [1] /\ connections example_run.1 !! 1 = None.
Proof.
  assert (notified ce_disconnected (events (table example_run.1)) = [1]) as E by (vm_compute; reflexivity). split; [exact E|].
  apply (connection_events_once example_run.1 example_run.2 example_reached ltac:(vm_compute; reflexivity)). rewrite E. apply list_elem_of_here.
Defined.

Lemma setup_all_or_nothing_witness :
  (Listen here (mkAnswers 3 0 1 (-1) 0 0 "Address already in use") initial).1 = Failure "bind: Address already in use" /\
  (Listen here (mkAnswers 3 0 1 (-1) 0 0 "Address already in use") initial).2 = initial.
Proof. split; [reflexivity|]. apply (setup_all_or_nothing here (mkAnswers 3 0 1 (-1) 0 0 "Address already in use") initial). done. Defined.

Definition waiting_run : transport * pool := default (initial, []) (run listens (initial, [])).

Lemma hang_up_terminates_process_witness :
  exists s' threads', rtc step (waiting_run.1, [Acceptor a_accepts]) (s', threads') /\ terminated s' = true.
Proof.
  apply (hang_up_terminates_process waiting_run.1 [] [] 5); [|vm_compute; reflexivity..|lia|vm_compute; reflexivity].
  apply (run_steps listens). vm_compute. reflexivity.
Defined.

Lemma closing_deadlocks_witness :
  exists s threads s1 threads1 p frame, reachable s threads /\ step (s, threads) (s1, threads1) /\
    s1 = (start call_Shutdown true threads s).1.2 /\
    forall s2 threads2, rtc step (s1, threads1) (s2, threads2) ->
      Caller true p ∈ threads2 /\ Reader 1 (r_handles frame) ∈ threads2.
Proof. apply (closing_deadlocks call_Shutdown). by right. Defined.

End ExampleTransport.
