(* ===== verification/Link.v ===== *)
(** * Links (src/framework/ipc/link)

    The control messages of the handshake with their codec, and [LinkManager],
    which turns transport events and control frames into logical links. *)

From S2P Require Import Prelude Base Transport.

(** ** The protobuf control message (proto/ipc/control.proto), with the fields the
    sources read or write; [has_self] is presence in the option *)

Record Hello := mkHello {
  hello_self : option ProcessRef;
  hello_protocol_version : Z;
  hello_min_supported : Z
}.

Record HelloAck := mkHelloAck {
  ack_result : Z;
  ack_self : option ProcessRef;
  ack_protocol_version : Z
}.

Inductive ControlMessage :=
| BODY_NOT_SET
| kHello (h : Hello)
| kHelloAck (a : HelloAck)
| kPing
| kPong
| kClose.

Definition RESULT_UNSPECIFIED : Z := 0.
Definition RESULT_OK : Z := 1.
Definition RESULT_INCOMPATIBLE_VERSION : Z := 2.

#[global] Instance hello_eq_dec : EqDecision Hello.
Proof. solve_decision. Defined.
#[global] Instance hello_ack_eq_dec : EqDecision HelloAck.
Proof. solve_decision. Defined.
#[global] Instance control_message_eq_dec : EqDecision ControlMessage.
Proof. solve_decision. Defined.

#[global] Instance hello_countable : Countable Hello.
Proof.
  refine (inj_countable' (fun h => (hello_self h, hello_protocol_version h, hello_min_supported h))
    (fun '(a, b, c) => mkHello a b c) _). by intros [].
Defined.
#[global] Instance hello_ack_countable : Countable HelloAck.
Proof.
  refine (inj_countable' (fun h => (ack_result h, ack_self h, ack_protocol_version h))
    (fun '(a, b, c) => mkHelloAck a b c) _). by intros [].
Defined.
#[global] Instance control_message_countable : Countable ControlMessage.
Proof.
  refine (inj_countable'
    (fun m => match m with
      | BODY_NOT_SET => inl 0 | kPing => inl 1 | kPong => inl 2 | kClose => inl 3
      | kHello h => inr (inl h) | kHelloAck a => inr (inr a) end : Z + (Hello + HelloAck))
    (fun x => match x with
      | inl n => if n =? 0 then BODY_NOT_SET else if n =? 1 then kPing else if n =? 2 then kPong else kClose
      | inr (inl h) => kHello h | inr (inr a) => kHelloAck a end) _).
  by intros [].
Defined.

(** The widths of the declared fields. *)
Definition control_fits (m : ControlMessage) : Prop :=
  match m with
  | kHello h => from_option wf_process_ref True (hello_self h) /\ in_u32 (hello_protocol_version h) /\
                in_u32 (hello_min_supported h)
  | kHelloAck a => from_option wf_process_ref True (ack_self a) /\ in_u32 (ack_protocol_version a)
  | _ => True
  end.

(** ** control_codec.{h,cpp} *)

Inductive ControlMessageType := cmt_hello | cmt_hello_ack | cmt_ping | cmt_pong | cmt_close.

Record HelloInfo := mkHelloInfo {
  hi_process_ref : ProcessRef;
  hi_protocol_version : Z;
  hi_min_supported : Z
}.

Definition EncodeHello `{Codec ControlMessage} (self : ProcessRef) (pv : Z) : ByteBuffer :=
  serialize (kHello (mkHello (Some self) pv pv)).

Definition EncodeHelloAck `{Codec ControlMessage} (self : ProcessRef) (pv : Z) (result : Z) : ByteBuffer :=
  serialize (kHelloAck (mkHelloAck result (Some self) pv)).

Definition EncodePong `{Codec ControlMessage} : ByteBuffer := serialize kPong.

Definition DecodeControlMessage `{Codec ControlMessage} (bytes : ByteBuffer) : option ControlMessage :=
  parse bytes.

Definition GetControlMessageType (m : ControlMessage) : ControlMessageType :=
  match m with
  | kHello _ => cmt_hello
  | kHelloAck _ => cmt_hello_ack
  | kPing => cmt_ping
  | kPong => cmt_pong
  | kClose => cmt_close
  | BODY_NOT_SET => cmt_close
  end.

Definition ExtractHelloInfo (m : ControlMessage) : Result * option HelloInfo :=
  match m with
  | kHello (mkHello (Some self) pv minpv) => (Success, Some (mkHelloInfo self pv minpv))
  | _ => (Failure "hello message missing process identity", None)
  end.

Definition ExtractHelloAckResult (m : ControlMessage) (result : Z) : Result * Z :=
  match m with
  | kHelloAck a => (Success, ack_result a)
  | _ => (Failure "hello_ack message missing result", result)
  end.

(** ** link.h, link_manager.{h,cpp} *)

Inductive LinkState := ls_idle | ls_handshaking | ls_active | ls_closed.
#[global] Instance link_state_eq_dec : EqDecision LinkState.
Proof. solve_decision. Defined.

Record Link := mkLink { link_connection_id : Z; remote_process : ProcessRef; link_state : LinkState }.
Definition default_link : Link := mkLink 0 default_process_ref ls_idle.

Module LinkManager.

Record t := mk {
  mSelf : ProcessRef;
  mProtocolVersion : Z;
  mLinks : gmap Z Link;
  mOutboundFrames : list RawFrame
}.

Definition create (self : ProcessRef) (pv : Z) : t := mk self pv ∅ [].

Definition set_links (m : gmap Z Link) (s : t) : t := mk (mSelf s) (mProtocolVersion s) m (mOutboundFrames s).

Section operations.
Context `{Codec ControlMessage} {mo : MapOrder Z}.

Definition QueueFrame (id : Z) (k : FrameKind) (body : ByteBuffer) : St t unit :=
  modify (fun s => mk (mSelf s) (mProtocolVersion s) (mLinks s)
    (mOutboundFrames s ++
       [mkRawFrame id (mkFrameHeader kFrameMagic kFrameVersion k (u32 (Z.of_nat (length body)))) body])).

(** [mLinks[id]] creates a default link when there is none. *)
Definition OnConnectionEvent (e : ConnectionEvent) : St t unit :=
  fun s =>
    match ce_type e with
    | ce_connected =>
        let id := ce_connection_id e in
        let link := default default_link (mLinks s !! id) in
        QueueFrame id fk_control (EncodeHello (mSelf s) (mProtocolVersion s))
          (set_links (<[id := mkLink id (remote_process link) ls_handshaking]> (mLinks s)) s)
    | ce_disconnected => (tt, set_links (delete (ce_connection_id e) (mLinks s)) s)
    end.

Definition IsProtocolCompatible (s : t) (hello : HelloInfo) : bool :=
  if hi_protocol_version hello =? 0 then false
  else if hi_protocol_version hello <? mProtocolVersion s then false
  else if mProtocolVersion s <? hi_min_supported hello then false
  else true.

Definition HandleHello (id : Z) (body : ByteBuffer) : St t Result :=
  fun s =>
    match DecodeControlMessage body with
    | None => (Failure "invalid hello control message", s)
    | Some message =>
        match ExtractHelloInfo message with
        | (Success, Some hello) =>
            if negb (IsProtocolCompatible s hello) then
              let s1 := set_links (<[id := mkLink id (hi_process_ref hello) ls_closed]> (mLinks s)) s in
              (Failure "incompatible protocol version",
               (QueueFrame id fk_control
                  (EncodeHelloAck (mSelf s) (mProtocolVersion s) RESULT_INCOMPATIBLE_VERSION) s1).2)
            else
              let s1 := set_links (<[id := mkLink id (hi_process_ref hello) ls_active]> (mLinks s)) s in
              (Success,
               (QueueFrame id fk_control (EncodeHelloAck (mSelf s) (mProtocolVersion s) RESULT_OK) s1).2)
        | (extracted, _) => (extracted, s)
        end
    end.

Definition OnFrame (f : RawFrame) : St t Result :=
  fun s =>
    if negb (kind (fheader f) =? fk_control) then (Failure "unsupported frame kind", s)
    else
      match DecodeControlMessage (payload f) with
      | None => (Failure "invalid control message", s)
      | Some message =>
          match GetControlMessageType message with
          | cmt_hello => HandleHello (connection_id f) (payload f) s
          | cmt_hello_ack =>
              match mLinks s !! connection_id f with
              | None => (Failure "link not found", s)
              | Some link =>
                  let '(extracted, result) := ExtractHelloAckResult message RESULT_UNSPECIFIED in
                  if negb (ok extracted) then (extracted, s)
                  else if negb (result =? RESULT_OK) then
                    (Failure "hello_ack rejected",
                     set_links (<[connection_id f :=
                       mkLink (link_connection_id link) (remote_process link) ls_closed]> (mLinks s)) s)
                  else
                    (Success,
                     set_links (<[connection_id f :=
                       mkLink (link_connection_id link) (remote_process link) ls_active]> (mLinks s)) s)
              end
          | cmt_ping => (Success, (QueueFrame (connection_id f) fk_control EncodePong s).2)
          | cmt_pong | cmt_close => (Success, s)
          end
      end.

Definition is_active (link : Link) : bool := bool_decide (link_state link = ls_active).

Definition HasHealthyDirectLink (s : t) (target : ProcessRef) : bool :=
  existsb (fun '(_, link) => is_active link && bool_decide (remote_process link = target)) (entries (mLinks s)).

Definition GetHealthyLinks (s : t) : list ProcessRef :=
  (fun '(_, link) => remote_process link) <$>
    filter (fun '(_, link) => is_active link = true) (entries (mLinks s)).

Definition FindConnection (s : t) (target : ProcessRef) : option Z :=
  fst <$> find (fun '(_, link) => is_active link && bool_decide (remote_process link = target)) (entries (mLinks s)).

Definition DrainOutboundFrames : St t (list RawFrame) :=
  fun s => (mOutboundFrames s, mk (mSelf s) (mProtocolVersion s) (mLinks s) []).

End operations.
End LinkManager.

(** ** The handshake of two link managers over one connection

    Two processes share a TCP connection, known to them as [cA] and [cB].  The
    transport starts the reader thread of a connection before it delivers the
    [connected] event, so a frame of the peer can be handled before the local
    event: the steps below interleave freely.  Each handler ends by flushing the
    link frames to the transport, as [IpcNodeServiceBase] does. *)

Module Handshake.
Import LinkManager.

Record pair := mkPair {
  pA : t; pB : t;
  upA : bool; upB : bool;
  wireAB : list ByteBuffer; wireBA : list ByteBuffer
}.

(** The part of [FlushLinkFrames] that concerns connection [c]. *)
Definition flush (c : Z) (s : t) : list ByteBuffer * t :=
  let '(frames, s') := DrainOutboundFrames s in
  (payload <$> filter (fun f => connection_id f = c) frames, s').

Definition control_frame (c : Z) (body : ByteBuffer) : RawFrame :=
  mkRawFrame c (mkFrameHeader kFrameMagic kFrameVersion fk_control (u32 (Z.of_nat (length body)))) body.

Section pair_steps.
Context `{Codec ControlMessage}.
Variables cA cB : Z.

Definition on_connected (c : Z) (s : t) : list ByteBuffer * t :=
  flush c (OnConnectionEvent (mkConnectionEvent ce_connected c) s).2.
Definition on_control (c : Z) (body : ByteBuffer) (s : t) : list ByteBuffer * t :=
  flush c (OnFrame (control_frame c body) s).2.

Inductive step : pair -> pair -> Prop :=
| step_up_a a b ub ab ba :
    step (mkPair a b false ub ab ba)
         (mkPair (on_connected cA a).2 b true ub (ab ++ (on_connected cA a).1) ba)
| step_up_b a b ua ab ba :
    step (mkPair a b ua false ab ba)
         (mkPair a (on_connected cB b).2 ua true ab (ba ++ (on_connected cB b).1))
| step_recv_a a b ua ub ab m ba :
    step (mkPair a b ua ub ab (m :: ba))
         (mkPair (on_control cA m a).2 b ua ub (ab ++ (on_control cA m a).1) ba)
| step_recv_b a b ua ub m ab ba :
    step (mkPair a b ua ub (m :: ab) ba)
         (mkPair a (on_control cB m b).2 ua ub ab (ba ++ (on_control cB m b).1)).

End pair_steps.

(** *** The abstract handshake: per side, whether the peer is known and the link
    state; in flight, hellos and acknowledgements *)

Inductive msg := m_hello | m_ack (accepted : bool).
Definition alink : Type := option (bool * LinkState).
Record astate := mkA { aA : alink; aB : alink; uA : bool; uB : bool; qAB : list msg; qBA : list msg }.

#[global] Instance msg_eq_dec : EqDecision msg.
Proof. solve_decision. Defined.
#[global] Instance astate_eq_dec : EqDecision astate.
Proof. solve_decision. Defined.

Definition verdict (compatible : bool) : LinkState := if compatible then ls_active else ls_closed.

Definition a_up (l : alink) : alink := Some (default false (fst <$> l), ls_handshaking).
Definition a_recv (compatible : bool) (m : msg) (l : alink) : alink * list msg :=
  match m with
  | m_hello => (Some (true, verdict compatible), [m_ack compatible])
  | m_ack r => (match l with None => None | Some (k, _) => Some (k, verdict r) end, [])
  end.

Definition successors (compatible : bool) (s : astate) : list astate :=
  (if uA s then [] else [mkA (a_up (aA s)) (aB s) true (uB s) (qAB s ++ [m_hello]) (qBA s)]) ++
  (if uB s then [] else [mkA (aA s) (a_up (aB s)) (uA s) true (qAB s) (qBA s ++ [m_hello])]) ++
  (match qBA s with
   | [] => []
   | m :: q => [mkA (a_recv compatible m (aA s)).1 (aB s) (uA s) (uB s)
                    (qAB s ++ (a_recv compatible m (aA s)).2) q]
   end) ++
  (match qAB s with
   | [] => []
   | m :: q => [mkA (aA s) (a_recv compatible m (aB s)).1 (uA s) (uB s) q
                    (qBA s ++ (a_recv compatible m (aB s)).2)]
   end).

Definition a_initial : astate := mkA None None false false [] [].
Definition level (compatible : bool) (n : nat) : list astate :=
  Nat.iter n (fun l => remove_dups (l ≫= successors compatible)) [a_initial].

Definition a_final (compatible : bool) : astate :=
  mkA (Some (true, verdict compatible)) (Some (true, verdict compatible)) true true [] [].

(** Every run takes exactly six steps and ends in the same state. *)
Lemma level_six compatible : level compatible 6 = [a_final compatible].
Proof. by destruct compatible; vm_compute. Qed.

Lemma level_no_stuck compatible n :
  (n < 6)%nat -> Forall (fun s => successors compatible s <> []) (level compatible n).
Proof.
  intros Hn. assert (forallb (fun s => match successors compatible s with [] => false | _ => true end)
    (level compatible n) = true) as Hb.
  { destruct compatible; (do 6 (destruct n as [|n]; [vm_compute; reflexivity|])); exfalso; lia. }
  apply Forall_forall. intros s Hs. rewrite forallb_forall in Hb.
  apply list_elem_of_In in Hs. apply Hb in Hs. by destruct (successors compatible s).
Qed.

Lemma level_seven compatible : successors compatible (a_final compatible) = [].
Proof. by destruct compatible. Qed.

(** *** Simulation *)

Section simulation.
Context `{Codec ControlMessage} {law : CodecLaw ControlMessage control_fits}.
Variables (cA cB : Z) (A0 B0 : t).
Hypothesis selfA_wf : wf_process_ref (mSelf A0).
Hypothesis selfB_wf : wf_process_ref (mSelf B0).
Hypothesis vA_wf : in_u32 (mProtocolVersion A0).
Hypothesis vB_wf : in_u32 (mProtocolVersion B0).
Hypothesis freshA : mLinks A0 !! cA = None.
Hypothesis freshB : mLinks B0 !! cB = None.
Hypothesis drainedA : mOutboundFrames A0 = [].
Hypothesis drainedB : mOutboundFrames B0 = [].

Definition compatible : bool :=
  negb (mProtocolVersion A0 =? 0) && (mProtocolVersion A0 =? mProtocolVersion B0).

Definition enc_msg (s0 : t) (m : msg) : ByteBuffer :=
  match m with
  | m_hello => EncodeHello (mSelf s0) (mProtocolVersion s0)
  | m_ack r => EncodeHelloAck (mSelf s0) (mProtocolVersion s0)
                 (if r then RESULT_OK else RESULT_INCOMPATIBLE_VERSION)
  end.

Definition enc_link (c : Z) (peer : ProcessRef) (l : alink) : option Link :=
  (fun '(k, st) => mkLink c (if k : bool then peer else default_process_ref) st) <$> l.

Record side (c : Z) (s0 : t) (peer : ProcessRef) (l : alink) (s : t) : Prop := {
  side_self : mSelf s = mSelf s0;
  side_version : mProtocolVersion s = mProtocolVersion s0;
  side_out : mOutboundFrames s = [];
  side_link : mLinks s !! c = enc_link c peer l;
  side_others : forall c', c' <> c -> mLinks s !! c' = mLinks s0 !! c'
}.

Record sim (a : astate) (p : pair) : Prop := {
  sim_a : side cA A0 (mSelf B0) (aA a) (pA p);
  sim_b : side cB B0 (mSelf A0) (aB a) (pB p);
  sim_ua : upA p = uA a;
  sim_ub : upB p = uB a;
  sim_ab : wireAB p = enc_msg A0 <$> qAB a;
  sim_ba : wireBA p = enc_msg B0 <$> qBA a
}.

(** The other links of a side: a write at [c] leaves them. *)
Ltac side_other :=
  match goal with
  | Hoth : forall c', c' <> _ -> _ |- _ => intros c' Hne; simpl; rewrite lookup_insert_ne by done; by apply Hoth
  end.

Lemma side_up c s0 peer l s :
  side c s0 peer l s ->
  (on_connected c s).1 = [enc_msg s0 m_hello] /\ side c s0 peer (a_up l) (on_connected c s).2.
Proof.
  intros [Hs Hv Ho Hl Hoth]. unfold on_connected, flush, OnConnectionEvent. simpl.
  rewrite Ho. simpl. rewrite filter_cons_True by done. simpl. rewrite Hs, Hv. split; [done|].
  split; simpl; try done.
  - rewrite lookup_insert_eq, Hl. by destruct l as [[[] ?]|].
  - side_other.
Qed.

Lemma side_recv c s0 s1 l m s compat :
  wf_process_ref (mSelf s1) -> in_u32 (mProtocolVersion s1) ->
  compat = (negb (mProtocolVersion s1 =? 0) && (mProtocolVersion s0 =? mProtocolVersion s1)) ->
  side c s0 (mSelf s1) l s ->
  (on_control c (enc_msg s1 m) s).1 = enc_msg s0 <$> (a_recv compat m l).2 /\
  side c s0 (mSelf s1) (a_recv compat m l).1 (on_control c (enc_msg s1 m) s).2.
Proof.
  intros Hwf Hv1 Hcompat [Hs Hv Ho Hl Hoth]. unfold on_control, OnFrame, control_frame; cbn [fheader kind].
  rewrite Z.eqb_refl. cbn [negb payload connection_id].
  destruct m as [|r]; cbn [enc_msg]; unfold DecodeControlMessage, EncodeHello, EncodeHelloAck.
  - rewrite (law (kHello _)) by (simpl; tauto). cbn [GetControlMessageType].
    unfold HandleHello, DecodeControlMessage. rewrite (law (kHello _)) by (simpl; tauto). simpl.
    assert (IsProtocolCompatible s (mkHelloInfo (mSelf s1) (mProtocolVersion s1) (mProtocolVersion s1)) = compat) as ->.
    { unfold IsProtocolCompatible; simpl. rewrite Hv, Hcompat.
      destruct (Z.eqb_spec (mProtocolVersion s1) 0), (Z.ltb_spec (mProtocolVersion s1) (mProtocolVersion s0)),
        (Z.ltb_spec (mProtocolVersion s0) (mProtocolVersion s1)), (Z.eqb_spec (mProtocolVersion s0) (mProtocolVersion s1));
        (done || lia). }
    destruct compat; unfold flush; simpl; rewrite Ho; simpl; rewrite filter_cons_True by done; simpl;
      rewrite Hs, Hv; (split; [done|]);
      (split; [done..|by simpl; rewrite lookup_insert_eq|side_other]).
  - rewrite (law (kHelloAck _)) by (simpl; tauto). cbn [GetControlMessageType]. rewrite Hl.
    destruct l as [[k st]|]; simpl; [|by unfold flush; simpl; rewrite Ho].
    destruct r; unfold flush; simpl; rewrite Ho; (split; [done|]);
      (split; [done..|by simpl; rewrite lookup_insert_eq|side_other]).
Qed.

Lemma compatible_sym :
  compatible = negb (mProtocolVersion B0 =? 0) && (mProtocolVersion A0 =? mProtocolVersion B0) /\
  compatible = negb (mProtocolVersion A0 =? 0) && (mProtocolVersion B0 =? mProtocolVersion A0).
Proof.
  unfold compatible. rewrite (Z.eqb_sym (mProtocolVersion B0) (mProtocolVersion A0)).
  destruct (Z.eqb_spec (mProtocolVersion A0) (mProtocolVersion B0)) as [E|]; [by rewrite E|].
  by rewrite !andb_false_r.
Qed.

Ltac sim_fields := cbn [aA aB uA uB qAB qBA pA pB upA upB wireAB wireBA].

Lemma sim_step a p p' :
  sim a p -> step cA cB p p' -> exists a', a' ∈ successors compatible a /\ sim a' p'.
Proof.
  intros [Ha Hb Hua Hub Hab Hba] Hstep. unfold successors.
  destruct compatible_sym as [Ec1 Ec2].
  destruct Hstep; cbn [pA pB upA upB wireAB wireBA] in *; subst.
  - rewrite <- Hua. destruct (side_up _ _ _ _ _ Ha) as [E Hs]. eexists. split; [by apply elem_of_cons; left|].
    split; sim_fields; rewrite ?E, ?fmap_app; done.
  - rewrite <- Hub. destruct (side_up _ _ _ _ _ Hb) as [E Hs]. eexists.
    split; [apply elem_of_app; right; by apply elem_of_cons; left|].
    split; sim_fields; rewrite ?E, ?fmap_app; done.
  - destruct (qBA a) as [|m0 q]; [done|]. rewrite fmap_cons in Hba. injection Hba as -> ->.
    destruct (side_recv cA A0 B0 (aA a) m0 a0 compatible selfB_wf vB_wf Ec1 Ha) as [E Hs].
    eexists. split; [do 2 (apply elem_of_app; right); by apply elem_of_cons; left|].
    split; sim_fields; rewrite ?E, ?fmap_app; done.
  - destruct (qAB a) as [|m0 q]; [done|]. rewrite fmap_cons in Hab. injection Hab as -> ->.
    destruct (side_recv cB B0 A0 (aB a) m0 b compatible selfA_wf vA_wf Ec2 Hb) as [E Hs].
    eexists. split; [do 3 (apply elem_of_app; right); by apply elem_of_cons; left|].
    split; sim_fields; rewrite ?E, ?fmap_app; done.
Qed.

Lemma sim_initial : sim a_initial (mkPair A0 B0 false false [] []).
Proof. by repeat split. Qed.

Lemma sim_run n p :
  nsteps (step cA cB) n (mkPair A0 B0 false false [] []) p ->
  exists a, a ∈ level compatible n /\ sim a p.
Proof.
  revert p. induction n as [|n IH]; intros p Hr.
  - inversion Hr; subst. exists a_initial. split; [by apply list_elem_of_singleton|apply sim_initial].
  - apply nsteps_inv_r in Hr as (q & Hr & Hs). apply IH in Hr as (a & Ha & Hsim).
    destruct (sim_step a q p Hsim Hs) as (a' & Ha' & Hsim'). exists a'. split; [|done].
    simpl. apply elem_of_remove_dups, list_elem_of_bind. by exists a.
Qed.

(** An abstract successor is matched by a step. *)
Lemma sim_progress a p : sim a p -> successors compatible a <> [] -> exists p', step cA cB p p'.
Proof.
  intros [Ha Hb Hua Hub Hab Hba] Hne. destruct p as [a0 b0 ua ub ab ba]; simpl in *; subst.
  unfold successors in Hne.
  destruct (uA a) eqn:E1; [|eexists; apply step_up_a].
  destruct (uB a) eqn:E2; [|eexists; apply step_up_b].
  destruct (qBA a) as [|m q] eqn:E3; [|eexists; apply step_recv_a].
  destruct (qAB a) as [|m q] eqn:E4; [done|eexists; apply step_recv_b].
Qed.

End simulation.
End Handshake.

(** ** Properties *)

(** C3: whatever the interleaving of the two [connected] events and of the
    control frames, the handshake of two fresh links takes six steps, can always
    be continued until then, and ends with both sides agreeing: both links know
    the peer and are active if the two protocol versions are equal and not zero,
    both are closed otherwise; no other link of either manager is touched. *)
Theorem handshake_agreement `{Codec ControlMessage} {law : CodecLaw ControlMessage control_fits}
    (cA cB : Z) (A0 B0 : LinkManager.t) (n : nat) (p : Handshake.pair) :
  wf_process_ref (LinkManager.mSelf A0) -> wf_process_ref (LinkManager.mSelf B0) ->
  in_u32 (LinkManager.mProtocolVersion A0) -> in_u32 (LinkManager.mProtocolVersion B0) ->
  LinkManager.mLinks A0 !! cA = None -> LinkManager.mLinks B0 !! cB = None ->
  LinkManager.mOutboundFrames A0 = [] -> LinkManager.mOutboundFrames B0 = [] ->
  nsteps (Handshake.step cA cB) n (Handshake.mkPair A0 B0 false false [] []) p ->
  (n <= 6)%nat /\
  ((n < 6)%nat -> exists p', Handshake.step cA cB p p') /\
  (n = 6%nat ->
   let outcome := if negb (LinkManager.mProtocolVersion A0 =? 0) &&
                     (LinkManager.mProtocolVersion A0 =? LinkManager.mProtocolVersion B0)
                  then ls_active else ls_closed in
   LinkManager.mLinks (Handshake.pA p) = <[cA := mkLink cA (LinkManager.mSelf B0) outcome]> (LinkManager.mLinks A0) /\
   LinkManager.mLinks (Handshake.pB p) = <[cB := mkLink cB (LinkManager.mSelf A0) outcome]> (LinkManager.mLinks B0)).
Proof.
  intros HwA HwB HvA HvB HfA HfB HoA HoB Hrun.
  pose proof (fun m q => Handshake.sim_run cA cB A0 B0 HwA HwB HvA HvB HfA HfB HoA HoB m q) as Hsim.
  split; [|split].
  - destruct (le_lt_dec n 6) as [|Hgt]; [done|exfalso].
    replace n with (6 + S (n - 7))%nat in Hrun by lia.
    apply nsteps_add_inv in Hrun as (q & H6 & Hrest). inversion Hrest as [|? ? r ? Hs _]; subst.
    destruct (Hsim _ _ H6) as (a & Ha & Hq). rewrite Handshake.level_six, list_elem_of_singleton in Ha. subst a.
    destruct (Handshake.sim_step cA cB A0 B0 HwA HwB HvA HvB _ _ _ Hq Hs) as (a' & Ha' & _).
    rewrite Handshake.level_seven in Ha'. by apply elem_of_nil in Ha'.
  - intros Hn. destruct (Hsim _ _ Hrun) as (a & Ha & Hq).
    eapply Handshake.sim_progress; [done|].
    pose proof (Handshake.level_no_stuck (Handshake.compatible A0 B0) n Hn) as Hns.
    rewrite Forall_forall in Hns. by apply Hns.
  - intros ->. destruct (Hsim _ _ Hrun) as (a & Ha & [Hsa Hsb _ _ _ _]).
    rewrite Handshake.level_six, list_elem_of_singleton in Ha. subst a.
    destruct Hsa as [_ _ _ Hl Ho], Hsb as [_ _ _ Hl' Ho']. simpl in *.
    split; apply map_eq; intros c;
      [destruct (decide (c = cA)) as [->|]|destruct (decide (c = cB)) as [->|]];
      rewrite ?lookup_insert_eq, ?lookup_insert_ne by done; auto.
Qed.


Definition control_codec_example : Codec ControlMessage := example_codec ControlMessage.
Definition process_1 : ProcessRef := mkProcessRef (mkProcessId 10 1) 100.
Definition process_2 : ProcessRef := mkProcessRef (mkProcessId 20 1) 200.

(** One run of the handshake, by the order in which the four kinds of step are
    taken. *)
Definition run_step `{Codec ControlMessage} (cA cB : Z) (choice : nat) (p : Handshake.pair) : Handshake.pair :=
  match choice, Handshake.wireAB p, Handshake.wireBA p with
  | 0%nat, ab, ba =>
      Handshake.mkPair (Handshake.on_connected cA (Handshake.pA p)).2 (Handshake.pB p) true (Handshake.upB p)
        (ab ++ (Handshake.on_connected cA (Handshake.pA p)).1) ba
  | 1%nat, ab, ba =>
      Handshake.mkPair (Handshake.pA p) (Handshake.on_connected cB (Handshake.pB p)).2 (Handshake.upA p) true
        ab (ba ++ (Handshake.on_connected cB (Handshake.pB p)).1)
  | 2%nat, ab, m :: ba =>
      Handshake.mkPair (Handshake.on_control cA m (Handshake.pA p)).2 (Handshake.pB p)
        (Handshake.upA p) (Handshake.upB p) (ab ++ (Handshake.on_control cA m (Handshake.pA p)).1) ba
  | 3%nat, m :: ab, ba =>
      Handshake.mkPair (Handshake.pA p) (Handshake.on_control cB m (Handshake.pB p)).2
        (Handshake.upA p) (Handshake.upB p) ab (ba ++ (Handshake.on_control cB m (Handshake.pB p)).1)
  | _, _, _ => p
  end.

Definition pair_0 (v1 v2 : Z) : Handshake.pair :=
  Handshake.mkPair (LinkManager.create process_1 v1) (LinkManager.create process_2 v2) false false [] [].

Definition pair_at (v1 v2 : Z) (choices : list nat) : Handshake.pair :=
  fold_left (fun p c => @run_step control_codec_example 7 9 c p) choices (pair_0 v1 v2).

Lemma pair_at_step v1 v2 l c p :
  p = pair_at v1 v2 l ->
  (match c with 0%nat => Handshake.upA p = false | 1%nat => Handshake.upB p = false
   | 2%nat => Handshake.wireBA p <> [] | 3%nat => Handshake.wireAB p <> [] | _ => False end) ->
  @Handshake.step control_codec_example 7 9 p (pair_at v1 v2 (l ++ [c])).
Proof.
  intros -> Hc. unfold pair_at. rewrite fold_left_app. cbn [fold_left]. fold (pair_at v1 v2 l).
  destruct (pair_at v1 v2 l) as [a b ua ub ab ba].
  destruct c as [|[|[|[|c]]]]; cbn [Handshake.upA Handshake.upB Handshake.wireAB Handshake.wireBA] in Hc; [| | | |done].
  - subst ua. apply Handshake.step_up_a.
  - subst ub. apply Handshake.step_up_b.
  - destruct ba as [|m ba]; [done|]. apply Handshake.step_recv_a.
  - destruct ab as [|m ab]; [done|]. apply Handshake.step_recv_b.
Qed.

(** A run in which A's acknowledgement arrives before A's own event. *)
Lemma witness_run : nsteps (@Handshake.step control_codec_example 7 9) 6 (pair_0 1 1) (pair_at 1 1 [0;3;1;2;2;3]%nat).
Proof.
  eapply nsteps_l; [apply (pair_at_step 1 1 [] 0%nat); reflexivity|].
  eapply nsteps_l; [apply (pair_at_step 1 1 [0]%nat 3%nat); [reflexivity|vm_compute; discriminate]|].
  eapply nsteps_l; [apply (pair_at_step 1 1 [0;3]%nat 1%nat); reflexivity|].
  eapply nsteps_l; [apply (pair_at_step 1 1 [0;3;1]%nat 2%nat); [reflexivity|vm_compute; discriminate]|].
  eapply nsteps_l; [apply (pair_at_step 1 1 [0;3;1;2]%nat 2%nat); [reflexivity|vm_compute; discriminate]|].
  eapply nsteps_l; [apply (pair_at_step 1 1 [0;3;1;2;2]%nat 3%nat); [reflexivity|vm_compute; discriminate]|].
  apply nsteps_O.
Qed.

Lemma handshake_agreement_witness :
  LinkManager.mLinks (Handshake.pA (pair_at 1 1 [0;3;1;2;2;3]%nat)) = <[7 := mkLink 7 process_2 ls_active]> ∅.
Proof.
  pose proof (@handshake_agreement control_codec_example (example_codec_law ControlMessage control_fits) 7 9
    (LinkManager.create process_1 1) (LinkManager.create process_2 1) 6 (pair_at 1 1 [0;3;1;2;2;3]%nat)) as H.
  destruct H as (_ & _ & H); [by vm_compute|by vm_compute|by vm_compute|by vm_compute|done..|exact witness_run|].
  exact (proj1 (H eq_refl)).
Defined.

(** The handshake does not guarantee that the peer is known when the
    acknowledgement arrives, as the comment on that branch of [OnFrame] says: the
    peer acknowledges a hello that it receives before it delivers its own
    [connected] event, and the link then is reported healthy with the default
    process reference of all zeros. *)
Theorem acknowledged_link_with_unknown_peer :
  exists p, rtc (@Handshake.step control_codec_example 7 9) (pair_0 1 1) p /\
    LinkManager.mLinks (Handshake.pA p) !! 7 = Some (mkLink 7 default_process_ref ls_active) /\
    @LinkManager.GetHealthyLinks order_Z (Handshake.pA p) = [default_process_ref].
Proof.
  exists (pair_at 1 1 [0;3;2]%nat). split.
  - eapply rtc_l; [apply (pair_at_step 1 1 [] 0%nat); reflexivity|].
    eapply rtc_l; [apply (pair_at_step 1 1 [0]%nat 3%nat); [reflexivity|vm_compute; discriminate]|].
    eapply rtc_l; [apply (pair_at_step 1 1 [0;3]%nat 2%nat); [reflexivity|vm_compute; discriminate]|].
    apply rtc_refl.
  - split; vm_compute; reflexivity.
Qed.
