(* ===== verification/EtcdText.v ===== *)
(** * Text handling of the etcd discovery (src/framework/ipc/discovery)

    Base64 in both directions, JSON escaping, the rendered range response and the
    range end of a key prefix. *)

From S2P Require Import Prelude Text.
From Stdlib Require Import Ascii.

Definition byte_of (c : ascii) : Z := Z.of_N (N_of_ascii c).
Definition char_of (z : Z) : ascii := ascii_of_N (Z.to_N (u8 z)).

(** A 32-bit [int]: shifts and sums wrap around (C++20). *)
Definition i32 (z : Z) : Z := (z + 2147483648) mod 4294967296 - 2147483648.

(** ** Base64Encode (etcd_sdk_discovery_backend.cpp) *)

Definition kAlphabet : string := "ABCDEFGHIJKLMNOPQRSTUVWXYZabcdefghijklmnopqrstuvwxyz0123456789+/".
Definition alphabet (i : Z) : ascii := default "A"%char (String.get (Z.to_nat i) kAlphabet).

Fixpoint Base64Encode (value : string) : string :=
  match value with
  | String ca (String cb (String cc rest)) =>
      let '(a, b, c) := (byte_of ca, byte_of cb, byte_of cc) in
      String (alphabet (Z.land (Z.shiftr a 2) 63))
        (String (alphabet (Z.lor (Z.shiftl (Z.land a 3) 4) (Z.land (Z.shiftr b 4) 15)))
          (String (alphabet (Z.lor (Z.shiftl (Z.land b 15) 2) (Z.land (Z.shiftr c 6) 3)))
            (String (alphabet (Z.land c 63)) (Base64Encode rest))))
  | String ca (String cb EmptyString) =>
      let '(a, b) := (byte_of ca, byte_of cb) in
      String (alphabet (Z.land (Z.shiftr a 2) 63))
        (String (alphabet (Z.lor (Z.shiftl (Z.land a 3) 4) (Z.land (Z.shiftr b 4) 15)))
          (String (alphabet (Z.shiftl (Z.land b 15) 2)) "="))
  | String ca EmptyString =>
      let a := byte_of ca in
      String (alphabet (Z.land (Z.shiftr a 2) 63))
        (String (alphabet (Z.shiftl (Z.land a 3) 4)) "==")
  | EmptyString => EmptyString
  end.

(** ** Base64Decode (etcd_discovery.cpp) *)

Definition kDecodeTable (ch : ascii) : Z :=
  let n := byte_of ch in
  if (65 <=? n) && (n <=? 90) then n - 65
  else if (97 <=? n) && (n <=? 122) then n - 97 + 26
  else if (48 <=? n) && (n <=? 57) then n - 48 + 52
  else if n =? 43 then 62
  else if n =? 47 then 63
  else -1.

(** The loop; the characters pushed to the result. *)
Fixpoint decode_loop (encoded : string) (val valb : Z) : string :=
  match encoded with
  | EmptyString => EmptyString
  | String ch rest =>
      if Ascii.eqb ch "=" then EmptyString
      else
        let d := kDecodeTable ch in
        if d =? -1 then decode_loop rest val valb
        else
          let val := i32 (Z.shiftl val 6) + d in
          let valb := valb + 6 in
          if 0 <=? valb then
            String (char_of (Z.land (Z.shiftr val valb) 255)) (decode_loop rest val (valb - 8))
          else decode_loop rest val valb
  end.

Definition Base64Decode (encoded : string) : string := decode_loop encoded 0 (-8).

(** ** JsonEscape *)

Definition backslash : ascii := ascii_of_N 92.
Definition quote : ascii := ascii_of_N 34.
Definition hex_digit (d : Z) : ascii := ascii_of_N (Z.to_N (if d <? 10 then 48 + d else 55 + d)).

(** The text appended for one character: the escapes of backslash and quote, the
    five named ones ([\b \f \n \r \t]) and [\uXXXX] for the other controls. *)
Definition escape_char (ch : ascii) : string :=
  let n := byte_of ch in
  if n =? 92 then String backslash (String backslash "")
  else if n =? 34 then String backslash (String quote "")
  else if n =? 8 then String backslash "b"
  else if n =? 12 then String backslash "f"
  else if n =? 10 then String backslash "n"
  else if n =? 13 then String backslash "r"
  else if n =? 9 then String backslash "t"
  else if n <? 32 then
    String backslash (String "u" (String "0" (String "0" (String (hex_digit (n / 16))
      (String (hex_digit (n mod 16)) "")))))
  else String ch "".

Fixpoint JsonEscape (value : string) : string :=
  match value with
  | EmptyString => EmptyString
  | String ch rest => escape_char ch +:+ JsonEscape rest
  end.

(** ** PrefixRangeEnd: the loop from the last character down *)

Fixpoint range_end_loop (index : nat) (prefix : string) : string :=
  match index with
  | O => String (ascii_of_N 0) ""
  | S i =>
      match String.get i prefix with
      | Some ch =>
          if negb (byte_of ch =? 255) then String.substring 0 i prefix +:+ String (char_of (byte_of ch + 1)) ""
          else range_end_loop i prefix
      | None => range_end_loop i prefix
      end
  end.

Definition PrefixRangeEnd (prefix : string) : string := range_end_loop (String.length prefix) prefix.

(** ** The text [EtcdSdkDiscoveryBackend::GetPrefix] renders for a range response *)

Definition render_kv (kv : string * string) : string :=
  String "{" (String quote ("key" +:+ String quote (":" +:+ String quote (JsonEscape (Base64Encode kv.1) +:+
  String quote ("," +:+ String quote ("value" +:+ String quote (":" +:+ String quote
  (JsonEscape (Base64Encode kv.2) +:+ String quote "}")))))))).

Fixpoint render_kvs (first : bool) (kvs : list (string * string)) : string :=
  match kvs with
  | [] => ""
  | kv :: rest => (if first then "" else ",") +:+ render_kv kv +:+ render_kvs false rest
  end.

Definition RenderRangeResponse (kvs : list (string * string)) : string :=
  String "{" (String quote ("kvs" +:+ String quote (":[" +:+ render_kvs true kvs +:+ "]}"))).

(** ** Lemmas: bytes and small ranges *)

Definition below (n : nat) : list Z := Z.of_nat <$> seq 0 n.

Lemma below_forallb (P : Z -> bool) n z :
  forallb P (below n) = true -> 0 <= z < Z.of_nat n -> P z = true.
Proof.
  intros HP Hz. rewrite forallb_forall in HP. apply HP. apply list_elem_of_In, list_elem_of_fmap.
  exists (Z.to_nat z). split; [lia|]. apply elem_of_seq. lia.
Qed.

Lemma byte_of_range c : 0 <= byte_of c < 256.
Proof. unfold byte_of. pose proof (N_ascii_bounded c). lia. Qed.

Lemma char_of_byte c : char_of (byte_of c) = c.
Proof.
  unfold char_of. rewrite u8_id by apply byte_of_range. unfold byte_of.
  rewrite N2Z.id. apply ascii_N_embedding.
Qed.

Lemma byte_of_inj c d : byte_of c = byte_of d -> c = d.
Proof. intros E. by rewrite <- (char_of_byte c), E, char_of_byte. Qed.

(** ** The alphabet and the decode table are inverse *)

Lemma decode_alphabet i :
  0 <= i < 64 -> kDecodeTable (alphabet i) = i /\ Ascii.eqb (alphabet i) "=" = false.
Proof.
  intros Hi.
  assert ((kDecodeTable (alphabet i) =? i) && negb (Ascii.eqb (alphabet i) "=") = true) as H.
  { apply (below_forallb (fun i => (kDecodeTable (alphabet i) =? i) && negb (Ascii.eqb (alphabet i) "=")) 64);
      [by vm_compute|done]. }
  apply andb_true_iff in H as [H1%Z.eqb_eq H2%negb_true_iff]. done.
Qed.

(** Reading one sextet. *)
Lemma decode_sextet i rest val valb :
  0 <= i < 64 ->
  decode_loop (String (alphabet i) rest) val valb =
  let val' := i32 (Z.shiftl val 6) + i in
  if 0 <=? valb + 6 then
    String (char_of (Z.land (Z.shiftr val' (valb + 6)) 255)) (decode_loop rest val' (valb + 6 - 8))
  else decode_loop rest val' (valb + 6).
Proof.
  intros Hi. destruct (decode_alphabet i Hi) as [E1 E2]. cbn [decode_loop]. rewrite E2, E1.
  by replace (i =? -1) with false by lia.
Qed.

Lemma i32_mod_small z k : 0 <= k <= 32 -> i32 z mod 2 ^ k = z mod 2 ^ k.
Proof.
  intros Hk. unfold i32.
  assert (4294967296 = 2 ^ (32 - k) * 2 ^ k) as E by (rewrite <- Z.pow_add_r by lia; by replace (32 - k + k) with 32 by lia).
  pose proof (Z.div_mod (z + 2147483648) 4294967296 ltac:(lia)) as D.
  replace ((z + 2147483648) mod 4294967296 - 2147483648)
    with (z + (- ((z + 2147483648) / 4294967296) * 2 ^ (32 - k)) * 2 ^ k)
    by (rewrite <- (Z.mul_assoc _ (2 ^ (32 - k))), <- E; lia).
  apply Z.mod_add. lia.
Qed.

(** A pushed byte looks at [valb + 8] low bits of the accumulator only. *)
Lemma pushed_byte v k : 0 <= k -> Z.land (Z.shiftr v k) 255 = (v mod 2 ^ (k + 8)) / 2 ^ k.
Proof.
  intros Hk. change 255 with (Z.ones 8). rewrite Z.land_ones, Z.shiftr_div_pow2 by lia.
  rewrite Z.pow_add_r by lia. rewrite Z.rem_mul_r by lia.
  rewrite Z.add_comm, Z.mul_comm, Z.div_add_l by lia.
  rewrite (Z.div_small (v mod 2 ^ k)); [lia|]. apply Z.mod_pos_bound. lia.
Qed.

Lemma accumulate v i k : 0 <= k <= 12 -> (i32 (Z.shiftl v 6) + i) mod 2 ^ k = (v * 64 + i) mod 2 ^ k.
Proof.
  intros Hk. rewrite Z.add_mod, i32_mod_small, <- Z.add_mod by lia.
  by rewrite Z.shiftl_mul_pow2 by lia.
Qed.

(** The accumulator after two sextets, as far as a pushed byte sees it. *)
Lemma accumulate_two v i j k :
  0 <= k <= 12 ->
  (i32 (Z.shiftl (i32 (Z.shiftl v 6) + i) 6) + j) mod 2 ^ k = (v * 4096 + i * 64 + j) mod 2 ^ k.
Proof.
  intros Hk. rewrite accumulate by done.
  rewrite Z.add_mod, Z.mul_mod, accumulate, <- Z.mul_mod, <- Z.add_mod by lia. f_equal. lia.
Qed.

(** ** Encoding and decoding *)

Definition sextet_1 (a : Z) : Z := Z.land (Z.shiftr a 2) 63.
Definition sextet_2 (a b : Z) : Z := Z.lor (Z.shiftl (Z.land a 3) 4) (Z.land (Z.shiftr b 4) 15).
Definition sextet_3 (b c : Z) : Z := Z.lor (Z.shiftl (Z.land b 15) 2) (Z.land (Z.shiftr c 6) 3).

Lemma byte_pairs (P : Z -> Z -> bool) n m a b :
  forallb (fun a => forallb (P a) (below m)) (below n) = true ->
  0 <= a < Z.of_nat n -> 0 <= b < Z.of_nat m -> P a b = true.
Proof. intros HP Ha Hb. apply (below_forallb (P a) m); [|done]. by apply (below_forallb (fun a => forallb (P a) (below m)) n). Qed.

(** Linear arithmetic with division and remainder. *)
Local Ltac euclid := Z.to_euclidean_division_equations; lia.

(** Two disjoint groups of bits side by side. *)
Lemma join_bits a b :
  0 <= a < 16 -> 0 <= b < 16 ->
  (a < 4 -> Z.lor (Z.shiftl a 4) b = a * 16 + b) /\ (b < 4 -> Z.lor (Z.shiftl a 2) b = a * 4 + b).
Proof.
  intros Ha Hb.
  assert (((4 <=? a) || (Z.lor (Z.shiftl a 4) b =? a * 16 + b)) && ((4 <=? b) || (Z.lor (Z.shiftl a 2) b =? a * 4 + b)) = true); [|lia].
  by apply (byte_pairs (fun a b => ((4 <=? a) || (Z.lor (Z.shiftl a 4) b =? a * 16 + b)) &&
    ((4 <=? b) || (Z.lor (Z.shiftl a 2) b =? a * 4 + b))) 16 16).
Qed.

Lemma low_bits a k : 0 <= k -> Z.land a (Z.ones k) = a mod 2 ^ k.
Proof. apply Z.land_ones. Qed.

Lemma sextet_1_div a : 0 <= a < 256 -> sextet_1 a = a / 4.
Proof.
  intros Ha. unfold sextet_1. change 63 with (Z.ones 6). rewrite low_bits, Z.shiftr_div_pow2 by lia.
  change (2 ^ 2) with 4. change (2 ^ 6) with 64. apply Z.mod_small. euclid.
Qed.

Lemma sextet_2_sum a b : 0 <= a < 256 -> 0 <= b < 256 -> sextet_2 a b = a mod 4 * 16 + b / 16.
Proof.
  intros Ha Hb. unfold sextet_2. change 3 with (Z.ones 2). change 15 with (Z.ones 4).
  rewrite !low_bits, Z.shiftr_div_pow2 by lia. change (2 ^ 2) with 4. change (2 ^ 4) with 16.
  rewrite (Z.mod_small (b / 16)) by euclid. apply join_bits; euclid.
Qed.

Lemma sextet_3_sum b c : 0 <= b < 256 -> 0 <= c < 256 -> sextet_3 b c = b mod 16 * 4 + c / 64.
Proof.
  intros Hb Hc. unfold sextet_3. change 3 with (Z.ones 2). change 15 with (Z.ones 4).
  rewrite !low_bits, Z.shiftr_div_pow2 by lia. change (2 ^ 2) with 4. change (2 ^ 4) with 16. change (2 ^ 6) with 64.
  rewrite (Z.mod_small (c / 64)) by euclid. apply join_bits; euclid.
Qed.

Lemma sextet_1_range a : 0 <= a < 256 -> 0 <= sextet_1 a < 64.
Proof. intros Ha. rewrite sextet_1_div by done. euclid. Qed.

Lemma sextet_2_spec a b :
  0 <= a < 256 -> 0 <= b < 256 ->
  0 <= sextet_2 a b < 64 /\ (sextet_1 a * 64 + sextet_2 a b) / 16 = a /\ sextet_2 a b mod 16 = b / 16.
Proof. intros Ha Hb. rewrite sextet_1_div, sextet_2_sum by done. euclid. Qed.

Lemma sextet_3_spec b c :
  0 <= b < 256 -> 0 <= c < 256 ->
  0 <= sextet_3 b c < 64 /\ sextet_3 b c / 4 = b mod 16 /\ sextet_3 b c mod 4 = c / 64.
Proof. intros Hb Hc. rewrite sextet_3_sum by done. euclid. Qed.

Lemma sextet_4_spec c : 0 <= c < 256 -> 0 <= Z.land c 63 < 64 /\ Z.land c 63 = c mod 64.
Proof. intros Hc. change 63 with (Z.ones 6). rewrite Z.land_ones by lia. change (2 ^ 6) with 64.
  pose proof (Z.mod_pos_bound c 64 ltac:(lia)). lia.
Qed.

Lemma mod_absorb v x m k : 0 < m -> k mod m = 0 -> (v * k + x) mod m = x mod m.
Proof.
  intros Hm Hk. rewrite Z.add_mod, Z.mul_mod, Hk, Z.mul_0_r by lia.
  rewrite Z.mod_0_l, Z.add_0_l, Z.mod_mod by lia. done.
Qed.

(** The first two sextets of a group push its first byte. *)
Lemma decode_first a j rest val :
  0 <= byte_of a < 256 -> 0 <= j < 64 -> (sextet_1 (byte_of a) * 64 + j) / 16 = byte_of a ->
  exists val', decode_loop (String (alphabet (sextet_1 (byte_of a))) (String (alphabet j) rest)) val (-8)
    = String a (decode_loop rest val' (-4)) /\ val' mod 16 = j mod 16.
Proof.
  intros Ha Hj E. pose proof (sextet_1_range _ Ha) as Hs.
  rewrite decode_sextet by done. cbv zeta. change (0 <=? -8 + 6) with false. cbn [negb].
  change (-8 + 6) with (-2). rewrite decode_sextet by done. cbv zeta. change (0 <=? -2 + 6) with true.
  change (-2 + 6) with 4. change (4 - 8) with (-4). eexists. split; [f_equal|].
  - rewrite pushed_byte by lia. change (4 + 8) with 12. rewrite accumulate_two by lia.
    rewrite <- Z.add_assoc, mod_absorb by done. rewrite Z.mod_small by lia.
    change (2 ^ 4) with 16. rewrite E. apply char_of_byte.
  - change 16 with (2 ^ 4). rewrite accumulate by lia. by rewrite mod_absorb.
Qed.

(** The third sextet pushes the second byte. *)
Lemma decode_second b j rest val :
  val mod 16 = byte_of b / 16 -> 0 <= j < 64 -> j / 4 = byte_of b mod 16 ->
  exists val', decode_loop (String (alphabet j) rest) val (-4)
    = String b (decode_loop rest val' (-6)) /\ val' mod 4 = j mod 4.
Proof.
  intros Hv Hj E. pose proof (byte_of_range b) as Hb.
  rewrite decode_sextet by done. cbv zeta. change (0 <=? -4 + 6) with true. change (-4 + 6) with 2.
  change (2 - 8) with (-6). eexists. split; [f_equal|].
  - rewrite pushed_byte by lia. change (2 + 8) with 10. rewrite accumulate by lia.
    pose proof (Z.div_mod val 16 ltac:(lia)) as D. rewrite Hv in D. rewrite D.
    replace ((16 * (val / 16) + byte_of b / 16) * 64 + j) with ((val / 16) * 1024 + (byte_of b / 16 * 64 + j)) by lia.
    change (2 ^ 10) with 1024. rewrite mod_absorb by done.
    pose proof (Z.div_mod (byte_of b) 16 ltac:(lia)). pose proof (Z.mod_pos_bound (byte_of b) 16 ltac:(lia)).
    pose proof (Z.div_mod j 4 ltac:(lia)). pose proof (Z.mod_pos_bound j 4 ltac:(lia)).
    rewrite Z.mod_small by lia.
    replace ((byte_of b / 16 * 64 + j) / 2 ^ 2) with (byte_of b); [apply char_of_byte|].
    change (2 ^ 2) with 4. apply Z.div_unique_pos with (j mod 4); lia.
  - change 4 with (2 ^ 2). rewrite accumulate by lia. by rewrite mod_absorb.
Qed.

(** The fourth pushes the third byte and closes the group. *)
Lemma decode_third c j rest val :
  val mod 4 = byte_of c / 64 -> 0 <= j < 64 -> j = byte_of c mod 64 ->
  exists val', decode_loop (String (alphabet j) rest) val (-6) = String c (decode_loop rest val' (-8)).
Proof.
  intros Hv Hj E. pose proof (byte_of_range c) as Hc.
  rewrite decode_sextet by done. cbv zeta. change (0 <=? -6 + 6) with true. change (-6 + 6) with 0.
  change (0 - 8) with (-8). eexists. f_equal.
  rewrite pushed_byte by lia. change (0 + 8) with 8. rewrite accumulate by lia.
  pose proof (Z.div_mod val 4 ltac:(lia)) as D. rewrite Hv in D. rewrite D.
  replace ((4 * (val / 4) + byte_of c / 64) * 64 + j) with ((val / 4) * 256 + (byte_of c / 64 * 64 + j)) by lia.
  change (2 ^ 8) with 256. rewrite mod_absorb by done.
  pose proof (Z.div_mod (byte_of c) 64 ltac:(lia)).
  rewrite Z.mod_small by lia. rewrite Z.div_1_r. replace (byte_of c / 64 * 64 + j) with (byte_of c) by lia.
  apply char_of_byte.
Qed.

Lemma decode_padding rest val valb : decode_loop (String "=" rest) val valb = "".
Proof. done. Qed.

Lemma decode_encode value val : decode_loop (Base64Encode value) val (-8) = value.
Proof.
  assert (forall n value val, (String.length value <= n)%nat -> decode_loop (Base64Encode value) val (-8) = value) as H;
    [|by apply (H (String.length value))].
  clear value val. induction n as [|n IH]; intros value val Hn; [by destruct value; [|simpl in Hn; lia]|].
  destruct value as [|a [|b [|c rest]]]; [done|..]; cbn [Base64Encode];
    fold (sextet_1 (byte_of a)); pose proof (byte_of_range a) as Ha.
  - destruct (sextet_2_spec _ 0 Ha ltac:(lia)) as (R & E & _).
    replace (Z.shiftl (Z.land (byte_of a) 3) 4) with (sextet_2 (byte_of a) 0) by apply Z.lor_0_r.
    destruct (decode_first a _ "==" val Ha R E) as (v & -> & _). done.
  - pose proof (byte_of_range b) as Hb. fold (sextet_2 (byte_of a) (byte_of b)).
    destruct (sextet_2_spec _ _ Ha Hb) as (R & E & M).
    destruct (sextet_3_spec _ 0 Hb ltac:(lia)) as (R3 & E3 & _).
    replace (Z.shiftl (Z.land (byte_of b) 15) 2) with (sextet_3 (byte_of b) 0) by apply Z.lor_0_r.
    destruct (decode_first a _ (String (alphabet (sextet_3 (byte_of b) 0)) "=") val Ha R E) as (v & -> & Hv).
    destruct (decode_second b _ "=" v ltac:(congruence) R3 E3) as (w & -> & _). done.
  - pose proof (byte_of_range b) as Hb. pose proof (byte_of_range c) as Hc.
    fold (sextet_2 (byte_of a) (byte_of b)). fold (sextet_3 (byte_of b) (byte_of c)).
    destruct (sextet_2_spec _ _ Ha Hb) as (R & E & M).
    destruct (sextet_3_spec _ _ Hb Hc) as (R3 & E3 & M3).
    destruct (sextet_4_spec _ Hc) as (R4 & E4).
    set (t3 := String (alphabet (Z.land (byte_of c) 63)) (Base64Encode rest)).
    destruct (decode_first a _ (String (alphabet (sextet_3 (byte_of b) (byte_of c))) t3) val Ha R E) as (v & -> & Hv).
    destruct (decode_second b _ t3 v ltac:(congruence) R3 E3) as (w & -> & Hw).
    unfold t3. destruct (decode_third c _ (Base64Encode rest) w ltac:(congruence) R4 E4) as (x & ->).
    rewrite IH; [done|simpl in Hn; lia].
Qed.

(** ** Escaping leaves Base64 alone *)

Definition plain (c : ascii) : bool :=
  let n := byte_of c in (32 <=? n) && negb (n =? 92) && negb (n =? 34).

Lemma escape_plain s : str_forall plain s = true -> JsonEscape s = s.
Proof.
  induction s as [|c s IH]; [done|]. cbn [str_forall JsonEscape].
  intros [Hc Hs]%andb_true_iff. rewrite IH by done. unfold plain in Hc. unfold escape_char.
  repeat case_match; try lia. done.
Qed.

Lemma alphabet_plain i : plain (alphabet i) = true.
Proof.
  destruct (decide (0 <= i < 64)) as [Hi|Hi].
  - apply (below_forallb (fun i => plain (alphabet i)) 64); [by vm_compute|done].
  - destruct (decide (i < 0)) as [Hn|Hn]; unfold alphabet.
    + by replace (Z.to_nat i) with 0%nat by lia.
    + assert (forall s n, (String.length s <= n)%nat -> String.get n s = None) as Hget.
      { intros s. induction s as [|c s IHs]; intros [|n] Hl; simpl in *; (done || lia || apply IHs; lia). }
      rewrite Hget; [done|]. simpl. lia.
Qed.

Lemma encode_plain value : str_forall plain (Base64Encode value) = true.
Proof.
  assert (forall n value, (String.length value <= n)%nat -> str_forall plain (Base64Encode value) = true) as H;
    [|by apply (H (String.length value))].
  clear value. induction n as [|n IH]; intros value Hn; [by destruct value; [|simpl in Hn; lia]|].
  destruct value as [|a [|b [|c rest]]]; [done|..]; cbn [Base64Encode str_forall];
    rewrite ?alphabet_plain; try done. cbn [andb]. apply IH. simpl in Hn. lia.
Qed.

(** ** Byte order of keys and the range of a prefix *)

(** etcd orders keys as byte strings. *)
Fixpoint key_lt (a b : string) : bool :=
  match a, b with
  | EmptyString, EmptyString => false
  | EmptyString, String _ _ => true
  | String _ _, EmptyString => false
  | String x a', String y b' => (byte_of x <? byte_of y) || ((byte_of x =? byte_of y) && key_lt a' b')
  end.

(** The keys of a range request: [key <= k < range_end], and [key <= k] when the
    range end is a single zero byte. *)
Definition in_range (key range_end k : string) : bool :=
  negb (key_lt k key) && (String.eqb range_end (String (ascii_of_N 0) "") || key_lt k range_end).

Definition all_ff (s : string) : bool := str_forall (fun c => byte_of c =? 255) s.

(** A string is all 0xFF or has a last byte that is not, followed by 0xFF only. *)
Lemma last_not_ff s :
  all_ff s = true \/ exists p c f, s = p +:+ String c f /\ byte_of c <> 255 /\ all_ff f = true.
Proof.
  induction s as [|x s [IH|(p & c & f & -> & Hc & Hf)]].
  - by left.
  - destruct (Z.eqb_spec (byte_of x) 255) as [E|E].
    + left. unfold all_ff in *. cbn [str_forall]. by rewrite IH, E.
    + right. by exists "", x, s.
  - right. by exists (String x p), c, f.
Qed.

Lemma get_app_r p s i : String.get (String.length p + i) (p +:+ s) = String.get i s.
Proof. induction p as [|x p IH]; [done|]. apply IH. Qed.

Lemma substring_app_l p s : String.substring 0 (String.length p) (p +:+ s) = p.
Proof. induction p as [|x p IH]; [by destruct s|]. simpl. f_equal. apply IH. Qed.

Lemma length_string_app a b : String.length (a +:+ b) = (String.length a + String.length b)%nat.
Proof. induction a as [|x a IH]; [done|]. simpl. by rewrite <- IH. Qed.

Lemma all_ff_get f i c : all_ff f = true -> String.get i f = Some c -> byte_of c = 255.
Proof.
  revert i. induction f as [|x f IH]; intros [|i]; [done..| |]; unfold all_ff; cbn [str_forall String.get];
    intros [Hx Hf]%andb_true_iff E.
  - simplify_eq. lia.
  - by eapply IH.
Qed.

Lemma range_end_skip p f i :
  all_ff f = true -> (i <= String.length f)%nat ->
  range_end_loop (String.length p + i) (p +:+ f) = range_end_loop (String.length p) (p +:+ f).
Proof.
  intros Hf. induction i as [|i IH]; intros Hi; [by rewrite Nat.add_0_r|].
  rewrite Nat.add_succ_r. cbn [range_end_loop]. rewrite get_app_r.
  destruct (String.get i f) as [c|] eqn:E; [|apply IH; lia].
  rewrite (all_ff_get f i c) by done. cbn [negb Z.eqb]. apply IH. lia.
Qed.

Lemma PrefixRangeEnd_ff s : all_ff s = true -> PrefixRangeEnd s = String (ascii_of_N 0) "".
Proof. intros H. apply (range_end_skip "" s (String.length s)); (done || lia). Qed.

Lemma PrefixRangeEnd_step p c f :
  byte_of c <> 255 -> all_ff f = true ->
  PrefixRangeEnd (p +:+ String c f) = p +:+ String (char_of (byte_of c + 1)) "".
Proof.
  intros Hc Hf. unfold PrefixRangeEnd. rewrite length_string_app. cbn [String.length].
  pose proof (range_end_skip (p +:+ String c "") f (String.length f) Hf ltac:(lia)) as E.
  rewrite length_string_app, string_app_assoc in E. cbn [String.length] in E.
  replace (String.length p + S (String.length f))%nat with (String.length p + 1 + String.length f)%nat by lia.
  change (String c "" +:+ f) with (String c f) in E. rewrite E.
  replace (String.length p + 1)%nat with (S (String.length p)) by lia. cbn [range_end_loop].
  pose proof (get_app_r p (String c f) 0) as G. rewrite Nat.add_0_r in G. rewrite G. cbn [String.get].
  destruct (Z.eqb_spec (byte_of c) 255); [done|]. cbn [negb]. by rewrite substring_app_l.
Qed.

Lemma all_ff_range s k : all_ff s = true -> negb (key_lt k s) = String.prefix s k.
Proof.
  revert k. induction s as [|x s IH]; intros [|y k]; [done..|].
  unfold all_ff. cbn [str_forall key_lt String.prefix]. intros [Hx Hs]%andb_true_iff.
  pose proof (byte_of_range y) as Hy.
  destruct (ascii_dec x y) as [->|Hne].
  - rewrite Z.ltb_irrefl, Z.eqb_refl. cbn [orb andb]. by apply IH.
  - assert (byte_of x <> byte_of y) by (intros E; by apply Hne, byte_of_inj).
    by replace (byte_of y <? byte_of x) with true by lia.
Qed.

Lemma byte_of_char z : 0 <= z < 256 -> byte_of (char_of z) = z.
Proof. intros Hz. unfold byte_of, char_of. rewrite u8_id by done. rewrite N_ascii_embedding by lia. lia. Qed.

Lemma step_range p c f k :
  byte_of c <> 255 -> all_ff f = true ->
  negb (key_lt k (p +:+ String c f)) && key_lt k (p +:+ String (char_of (byte_of c + 1)) "")
  = String.prefix (p +:+ String c f) k.
Proof.
  intros Hc Hf. pose proof (byte_of_range c) as Rc. revert k.
  induction p as [|x p IH]; intros [|y k]; [done| |done|].
  - change ("" +:+ String c f) with (String c f).
    change ("" +:+ String (char_of (byte_of c + 1)) "") with (String (char_of (byte_of c + 1)) "").
    cbn [key_lt String.prefix]. rewrite byte_of_char by lia.
    replace (key_lt k "") with false by (by destruct k). rewrite andb_false_r, orb_false_r.
    destruct (ascii_dec c y) as [->|Hne].
    + rewrite Z.ltb_irrefl, Z.eqb_refl. cbn [orb andb]. rewrite all_ff_range by done.
      replace (byte_of y <? byte_of y + 1) with true by lia. by rewrite andb_true_r.
    + assert (byte_of c <> byte_of y) by (intros E; by apply Hne, byte_of_inj).
      destruct (Z.ltb_spec (byte_of y) (byte_of c)); [done|].
      replace (byte_of y =? byte_of c) with false by lia. cbn [orb andb negb]. lia.
  - change (String x p +:+ String c f) with (String x (p +:+ String c f)).
    change (String x p +:+ String (char_of (byte_of c + 1)) "") with
      (String x (p +:+ String (char_of (byte_of c + 1)) "")).
    cbn [key_lt String.prefix]. destruct (ascii_dec x y) as [->|Hne].
    + rewrite Z.ltb_irrefl, Z.eqb_refl. cbn [orb andb]. apply IH.
    + assert (byte_of x <> byte_of y) by (intros E; by apply Hne, byte_of_inj).
      replace (byte_of y =? byte_of x) with false by lia. rewrite !andb_false_l, !orb_false_r.
      by destruct (byte_of y <? byte_of x).
Qed.

Lemma in_range_prefix prefix k :
  in_range prefix (PrefixRangeEnd prefix) k = String.prefix prefix k.
Proof.
  unfold in_range. destruct (last_not_ff prefix) as [H|(p & c & f & -> & Hc & Hf)].
  - rewrite PrefixRangeEnd_ff by done. rewrite String.eqb_refl. cbn [orb]. rewrite andb_true_r.
    by apply all_ff_range.
  - rewrite PrefixRangeEnd_step by done.
    replace (String.eqb (p +:+ String (char_of (byte_of c + 1)) "") (String (ascii_of_N 0) "")) with false;
      [by apply step_range|].
    symmetry. apply String.eqb_neq. intros E. pose proof (byte_of_range c).
    destruct p as [|x p]; [|by destruct p].
    injection E as E. assert (byte_of c + 1 = 0); [|lia].
    rewrite <- (byte_of_char (byte_of c + 1)) by lia. by rewrite E.
Qed.

Lemma PrefixRangeEnd_nonempty prefix : PrefixRangeEnd prefix <> "".
Proof.
  destruct (last_not_ff prefix) as [Hff|(p & c & f & -> & Hc & Hf)].
  - by rewrite PrefixRangeEnd_ff.
  - rewrite PrefixRangeEnd_step by done. by destruct p.
Qed.

(** ** Properties *)

(** A value is recovered from the text the backend puts into its JSON answer:
    Base64 encoding, then JSON escaping, then the decoder of the discovery (a
    32-bit accumulator that overflows, skipping and padding included) give back
    the same bytes, for every string. *)
Theorem base64_roundtrip value : Base64Decode (JsonEscape (Base64Encode value)) = value.
Proof. unfold Base64Decode. rewrite escape_plain by apply encode_plain. apply decode_encode. Qed.

(** The range end computed for a watch or a range request selects exactly the
    keys that start with the prefix, in etcd's byte order, including prefixes that
    end in 0xFF bytes and the empty prefix. *)
Theorem prefix_range_exact prefix k :
  in_range prefix (PrefixRangeEnd prefix) k = String.prefix prefix k.
Proof. apply in_range_prefix. Qed.
