(* ===== verification/Discovery.v ===== *)
(** * Discovery (src/framework/ipc/discovery)

    The membership view interface, the in-memory [Discovery], the etcd-backed
    [EtcdDiscovery] over the backend interface.  The backend and the JSON library
    are parameters. *)

From S2P Require Import Prelude Text EtcdText Base.

(** ** membership_view.h *)

Inductive MembershipEventType := me_added | me_updated | me_removed.
#[global] Instance membership_event_type_eq_dec : EqDecision MembershipEventType.
Proof. solve_decision. Defined.
Record MembershipEvent := mkMembershipEvent { me_type : MembershipEventType; me_process : ProcessDescriptor }.

Class IMembershipView (V : Type) : Type := {
  view_Find : V -> ProcessId -> option ProcessDescriptor;
  view_FindByService : V -> Z -> list ProcessDescriptor;
  view_All : V -> list ProcessDescriptor
}.

Abbreviation pid p := (process_id (process p)).

(** What routing relies on: the three operations read one and the same set of
    members, which has at most one member per process id. *)
Class MembershipViewLaw (V : Type) `{IMembershipView V} (view_ok : V -> Prop) : Prop := {
  view_all_find : forall v p, view_ok v -> p ∈ view_All v -> view_Find v (pid p) = Some p;
  view_find_all : forall v id p, view_ok v -> wf_process_id id -> view_Find v id = Some p -> p ∈ view_All v /\ pid p = id;
  view_all_wf : forall v p, view_ok v -> p ∈ view_All v -> wf_process_id (pid p);
  view_service_all : forall v st, view_ok v ->
    view_FindByService v st = filter (fun p => service_type (pid p) = st) (view_All v)
}.

(** ** Keys: two 32-bit halves *)

Definition MakeKey (id : ProcessId) : Z := Z.lor (u64 (Z.shiftl (service_type id) 32)) (instance_id id).

Lemma MakeKey_sum id : wf_process_id id -> MakeKey id = service_type id * 4294967296 + instance_id id.
Proof.
  intros [Hs Hi]. unfold in_u32 in *. unfold MakeKey. rewrite Z.shiftl_mul_pow2 by lia.
  change (2 ^ 32) with 4294967296. rewrite u64_id by (unfold in_u64; lia).
  cut (Z.land (service_type id * 4294967296) (instance_id id) = 0).
  { intros E. pose proof (Z.add_lor_land (service_type id * 4294967296) (instance_id id)). lia. }
  apply Z.bits_inj'. intros n Hn. rewrite Z.land_spec, Z.bits_0.
  change 4294967296 with (2 ^ 32). destruct (Z.lt_ge_cases n 32).
  - by rewrite Z.mul_pow2_bits_low by lia.
  - rewrite (Z.bits_above_log2 (instance_id id)), andb_false_r; [done|lia|].
    destruct (decide (instance_id id = 0)) as [->|]; [simpl; lia|].
    apply Z.log2_lt_pow2; [lia|]. apply Z.lt_le_trans with (2 ^ 32); [simpl; lia|].
    apply Z.pow_le_mono_r; lia.
Qed.

Lemma member_key_inj a b : wf_process_id a -> wf_process_id b -> MakeKey a = MakeKey b -> a = b.
Proof.
  intros Ha Hb. rewrite !MakeKey_sum by done. destruct Ha, Hb, a, b. unfold in_u32 in *. simpl in *.
  intros E. f_equal; lia.
Qed.

Abbreviation members := (gmap Z ProcessDescriptor).

(** Every entry is filed under the key of its own process id. *)
Definition wf_members (m : members) : Prop :=
  forall k p, m !! k = Some p -> k = MakeKey (pid p) /\ wf_process_id (pid p).

Definition members_Find (m : members) (id : ProcessId) : option ProcessDescriptor := m !! MakeKey id.

(** The enumerating lookups, the same text in both classes. *)
Definition members_All {mo : MapOrder Z} (m : members) : list ProcessDescriptor := (entries m).*2.
Definition members_FindByService {mo : MapOrder Z} (m : members) (st : Z) : list ProcessDescriptor :=
  omap (fun '(_, p) => if service_type (pid p) =? st then Some p else None) (entries m).

Lemma elem_of_members_All {mo : MapOrder Z} (m : members) p :
  p ∈ members_All m <-> exists k, m !! k = Some p.
Proof.
  unfold members_All. rewrite list_elem_of_fmap. split.
  - intros ([k p'] & -> & Hin). exists k. by apply elem_of_entries.
  - intros [k Hk]. exists (k, p). split; [done|]. by apply elem_of_entries.
Qed.

Lemma members_service {mo : MapOrder Z} (m : members) st :
  members_FindByService m st = filter (fun p => service_type (pid p) = st) (members_All m).
Proof.
  unfold members_FindByService, members_All. induction (entries m) as [|[k p] l IH]; [done|]. csimpl.
  rewrite filter_cons. destruct (Z.eqb_spec (service_type (pid p)) st).
  - rewrite decide_True by done. csimpl. by rewrite IH.
  - by rewrite decide_False by done.
Qed.

Lemma wf_members_insert m p : wf_members m -> wf_process_id (pid p) -> wf_members (<[MakeKey (pid p) := p]> m).
Proof. intros Hm Hp k q [[<- <-]|[_ Hq]]%lookup_insert_Some; [done|by apply Hm]. Qed.

Lemma wf_members_delete m k : wf_members m -> wf_members (delete k m).
Proof. intros Hm k' q [_ Hq]%lookup_delete_Some. by apply Hm. Qed.

#[export] Hint Resolve wf_members_insert wf_members_delete : core.

(** ** discovery.{h,cpp} *)

Module Discovery.

Record t := mk { mProcesses : members; mEvents : list MembershipEvent }.
Definition initial : t := mk ∅ [].

Definition Upsert (p : ProcessDescriptor) : St t Result :=
  fun s =>
    let key := MakeKey (pid p) in
    let event_type := match mProcesses s !! key with None => me_added | Some _ => me_updated end in
    (Success, mk (<[key := p]> (mProcesses s)) (mEvents s ++ [mkMembershipEvent event_type p])).

Definition RegisterSelf (self : ProcessDescriptor) : St t Result := Upsert self.

Definition Remove (id : ProcessId) : St t Result :=
  fun s =>
    let key := MakeKey id in
    match mProcesses s !! key with
    | None => (Failure "process not found", s)
    | Some p => (Success, mk (delete key (mProcesses s)) (mEvents s ++ [mkMembershipEvent me_removed p]))
    end.

Definition Find (s : t) (id : ProcessId) : option ProcessDescriptor := members_Find (mProcesses s) id.
Definition FindByService {mo : MapOrder Z} (s : t) (st : Z) : list ProcessDescriptor :=
  members_FindByService (mProcesses s) st.
Definition All {mo : MapOrder Z} (s : t) : list ProcessDescriptor := members_All (mProcesses s).
Definition DrainEvents : St t (list MembershipEvent) := fun s => (mEvents s, mk (mProcesses s) []).

End Discovery.

(** ** etcd_discovery_backend.h *)

Record EtcdDiscoveryOptions := mkEtcdOptions {
  endpoints : list string; prefix : string; lease_ttl_seconds : Z; command_timeout_seconds : Z
}.

Inductive WatchPollKind := wk_event | wk_stream_closed | wk_stopped | wk_error.
Record WatchPollResult := mkWatchPollResult { wp_kind : WatchPollKind; wp_message : string }.

(** The backend's operations on the world [W]; output parameters are returned. *)
Class IEtcdDiscoveryBackend (W : Type) : Type := {
  be_GrantLease : Z -> Z -> St W (Result * Z);
  be_Put : string -> string -> Z -> St W Result;
  be_KeepAliveOnce : Z -> St W Result;
  be_Delete : string -> St W Result;
  be_GetPrefix : string -> St W (Result * string);
  be_StartWatchPrefix : string -> St W Result;
  be_WaitForWatchEvent : St W WatchPollResult;
  be_StopWatch : St W unit;
  be_WatchRunning : W -> bool
}.

(** ** JSON *)

Record SerializableProcessDescriptor := mkSerializable {
  sd_service_type : Z; sd_instance_id : Z; sd_incarnation_id : Z; sd_service_name : string;
  sd_host : string; sd_port : Z; sd_protocol_version : Z; sd_start_time_unix_ms : Z;
  sd_relay_capabilities : list Z; sd_labels : list (string * string)
}.

(** glaze: a failed read is the formatted error. *)
Class Glaze : Type := {
  write_descriptor : SerializableProcessDescriptor -> option string;
  read_descriptor : string -> string + SerializableProcessDescriptor;
  read_response : string -> string + list (string * string)
}.

Definition to_serializable (p : ProcessDescriptor) : SerializableProcessDescriptor :=
  mkSerializable (service_type (pid p)) (instance_id (pid p)) (incarnation_id (process p)) (service_name p)
    (host (listen_endpoint p)) (port (listen_endpoint p)) (protocol_version p) (start_time_unix_ms p)
    (relay_capabilities p) (labels p).

Definition of_serializable (d : SerializableProcessDescriptor) : ProcessDescriptor :=
  mkProcessDescriptor (mkProcessRef (mkProcessId (sd_service_type d) (sd_instance_id d)) (sd_incarnation_id d))
    (sd_service_name d) (mkEndpoint (sd_host d) (sd_port d)) (sd_protocol_version d)
    (sd_start_time_unix_ms d) (sd_labels d) (sd_relay_capabilities d).

Definition SerializeDescriptor `{Glaze} (p : ProcessDescriptor) : string :=
  default "" (write_descriptor (to_serializable p)).

Definition DeserializeDescriptor `{Glaze} (json : string) : Result * option ProcessDescriptor :=
  match read_descriptor json with
  | inl error => (Failure error, None)
  | inr d => (Success, Some (of_serializable d))
  end.

(** ** etcd_discovery.cpp: events between two snapshots *)

Definition changed (p q : ProcessDescriptor) : bool :=
  negb (bool_decide (process p = process q)) ||
  negb (bool_decide (listen_endpoint p = listen_endpoint q)) ||
  negb (protocol_version p =? protocol_version q) ||
  negb (start_time_unix_ms p =? start_time_unix_ms q) ||
  negb (String.eqb (service_name p) (service_name q)) ||
  negb (bool_decide (labels p = labels q)) ||
  negb (bool_decide (relay_capabilities p = relay_capabilities q)).

Definition QueueDiffEvents {mo : MapOrder Z} (previous current : members) (events : list MembershipEvent)
    : list MembershipEvent :=
  events ++
  omap (fun '(key, p) =>
    match previous !! key with
    | None => Some (mkMembershipEvent me_added p)
    | Some q => if changed q p then Some (mkMembershipEvent me_updated p) else None
    end) (entries current) ++
  omap (fun '(key, p) =>
    match current !! key with
    | None => Some (mkMembershipEvent me_removed p)
    | Some _ => None
    end) (entries previous).

Fixpoint parse_kvs `{Glaze} (kvs : list (string * string)) (refreshed : members) : Result * members :=
  match kvs with
  | [] => (Success, refreshed)
  | kv :: rest =>
      match DeserializeDescriptor (Base64Decode kv.2) with
      | (_, Some p) => parse_kvs rest (<[MakeKey (pid p) := p]> refreshed)
      | (decoded, None) => (decoded, refreshed)
      end
  end.

Definition ParseSnapshot `{Glaze} (output : string) : Result * members :=
  match read_response output with
  | inl error => (Failure error, ∅)
  | inr kvs => parse_kvs kvs ∅
  end.

Record EtcdDiscoveryRuntimeStats := mkStats {
  watch_restart_count : Z; watch_start_failure_count : Z;
  watch_stream_closed_count : Z; snapshot_refresh_failure_count : Z
}.

(** Where the watch thread stands: at the head of the outer loop, polling, waiting
    before the next round, or returned. *)
Inductive watch_pc := w_start | w_poll | w_wait | w_done.

Module EtcdDiscovery.

Section operations.
Context {W : Type} `{IEtcdDiscoveryBackend W} `{Glaze} {mo : MapOrder Z}.

Record t := mk {
  mOptions : EtcdDiscoveryOptions;
  mBackend : W;
  mProcesses : members;
  mEvents : list MembershipEvent;
  mSelf : option ProcessDescriptor;
  mLeaseId : Z;
  mStopWatch : bool;
  mWatchThread : option watch_pc;
  mWatchRunning : bool;
  mRuntimeStats : EtcdDiscoveryRuntimeStats
}.

Definition create (o : EtcdDiscoveryOptions) (w : W) : t :=
  mk o w ∅ [] None 0 false None false (mkStats 0 0 0 0).

Definition set_lease (l : Z) (s : t) : t :=
  mk (mOptions s) (mBackend s) (mProcesses s) (mEvents s) (mSelf s) l (mStopWatch s) (mWatchThread s)
     (mWatchRunning s) (mRuntimeStats s).
Definition set_backend (w : W) (s : t) : t :=
  mk (mOptions s) w (mProcesses s) (mEvents s) (mSelf s) (mLeaseId s) (mStopWatch s) (mWatchThread s)
     (mWatchRunning s) (mRuntimeStats s).
Definition set_processes (m : members) (evs : list MembershipEvent) (s : t) : t :=
  mk (mOptions s) (mBackend s) m evs (mSelf s) (mLeaseId s) (mStopWatch s) (mWatchThread s)
     (mWatchRunning s) (mRuntimeStats s).
Definition set_self (p : option ProcessDescriptor) (s : t) : t :=
  mk (mOptions s) (mBackend s) (mProcesses s) (mEvents s) p (mLeaseId s) (mStopWatch s) (mWatchThread s)
     (mWatchRunning s) (mRuntimeStats s).
Definition set_watch (stop : bool) (th : option watch_pc) (running : bool) (s : t) : t :=
  mk (mOptions s) (mBackend s) (mProcesses s) (mEvents s) (mSelf s) (mLeaseId s) stop th running (mRuntimeStats s).
Definition set_running (b : bool) (s : t) : t := set_watch (mStopWatch s) (mWatchThread s) b s.
Definition map_stats (f : EtcdDiscoveryRuntimeStats -> EtcdDiscoveryRuntimeStats) (s : t) : t :=
  mk (mOptions s) (mBackend s) (mProcesses s) (mEvents s) (mSelf s) (mLeaseId s) (mStopWatch s) (mWatchThread s)
     (mWatchRunning s) (f (mRuntimeStats s)).

Definition on_backend {A : Type} (op : St W A) : St t A :=
  fun s => let '(a, w) := op (mBackend s) in (a, set_backend w s).

Definition members_prefix (s : t) : string := prefix (mOptions s) +:+ "/members/".

Definition MemberKey (s : t) (id : ProcessId) : string :=
  members_prefix s +:+ to_string (service_type id) +:+ "/" +:+ to_string (instance_id id).

Definition GrantLease : St t Result :=
  fun s =>
    let '((r, lease), s) := on_backend (be_GrantLease (lease_ttl_seconds (mOptions s)) (mLeaseId s)) s in
    (r, set_lease lease s).

Definition put_self (self : ProcessDescriptor) : St t Result :=
  fun s => on_backend (be_Put (MemberKey s (pid self)) (SerializeDescriptor self) (mLeaseId s)) s.

(** The end of [RegisterSelf], on the result of the last [Put]. *)
Definition record_self (self : ProcessDescriptor) (put : Result) : St t Result :=
  fun s =>
    if negb (ok put) then (put, s)
    else (Success, set_processes (<[MakeKey (pid self) := self]> (mProcesses s)) (mEvents s) (set_self (Some self) s)).

Definition RegisterSelf (self : ProcessDescriptor) : St t Result :=
  fun s =>
    let '(lease, s) :=
      if (0 <? lease_ttl_seconds (mOptions s)) && (mLeaseId s =? 0) then GrantLease s else (Success, s) in
    if negb (ok lease) then (lease, s)
    else
      let '(put, s) := put_self self s in
      if negb (ok put) && (0 <? lease_ttl_seconds (mOptions s)) then
        let '(lease, s) := GrantLease (set_lease 0 s) in
        if negb (ok lease) then (lease, s)
        else let '(put, s) := put_self self s in record_self self put s
      else record_self self put s.

Definition KeepAliveOnce : St t Result :=
  fun s =>
    if mLeaseId s =? 0 then (Failure "lease not initialized", s)
    else
      let '(keepalive, s) := on_backend (be_KeepAliveOnce (mLeaseId s)) s in
      if negb (ok keepalive) then (keepalive, set_lease 0 s) else (keepalive, s).

Definition count_refresh_failure (st : EtcdDiscoveryRuntimeStats) : EtcdDiscoveryRuntimeStats :=
  mkStats (watch_restart_count st) (watch_start_failure_count st) (watch_stream_closed_count st)
    (u64 (snapshot_refresh_failure_count st + 1)).

Definition ApplySnapshot (refreshed : members) : St t unit :=
  modify (fun s => set_processes refreshed (QueueDiffEvents (mProcesses s) refreshed (mEvents s)) s).

Definition RefreshSnapshot : St t Result :=
  fun s =>
    let '((got, output), s) := on_backend (be_GetPrefix (members_prefix s)) s in
    if negb (ok got) then (got, map_stats count_refresh_failure s)
    else
      let '(parsed, refreshed) := ParseSnapshot output in
      if negb (ok parsed) then (parsed, map_stats count_refresh_failure s)
      else (Success, (ApplySnapshot refreshed s).2).

(** Starts the thread; the thread's own steps are [watch_step]. *)
Definition StartWatch : St t Result :=
  fun s =>
    match mWatchThread s with
    | Some _ => (Success, s)
    | None =>
        let s := set_watch false None (mWatchRunning s) s in
        let '(refresh, s) := RefreshSnapshot s in
        if negb (ok refresh) then (refresh, s)
        else RefreshSnapshot (set_watch (mStopWatch s) (Some w_start) (mWatchRunning s) s)
    end.

(** The locked part of [StopWatch]; [join_watch] is the join, possible once the
    thread has returned. *)
Definition StopWatch : St t unit :=
  fun s => on_backend be_StopWatch (set_watch true (mWatchThread s) (mWatchRunning s) s).

Definition join_watch (s : t) : option t :=
  match mWatchThread s with
  | Some w_done => Some (set_watch (mStopWatch s) None (mWatchRunning s) s)
  | Some _ => None
  | None => Some s
  end.

Definition at_pc (pc : watch_pc) (s : t) : t := set_watch (mStopWatch s) (Some pc) (mWatchRunning s) s.

(** The exit of [WatchLoop] behind the outer loop. *)
Definition watch_exit (s : t) : t := at_pc w_done (set_running false (on_backend be_StopWatch s).2).

(** One round of the watch thread from where it stands. *)
Definition watch_step (pc : watch_pc) (s : t) : t :=
  match pc with
  | w_start =>
      if mStopWatch s then watch_exit s
      else
        let '(start_result, s) := on_backend (be_StartWatchPrefix (members_prefix s)) (set_running true s) in
        if negb (ok start_result) then
          at_pc w_start (set_running false (map_stats (fun st => mkStats (watch_restart_count st)
            (u64 (watch_start_failure_count st + 1)) (watch_stream_closed_count st)
            (snapshot_refresh_failure_count st)) s))
        else at_pc w_poll (set_running true s)
  | w_poll =>
      let '(poll, s) := on_backend be_WaitForWatchEvent s in
      match wp_kind poll with
      | wk_event => at_pc w_poll (RefreshSnapshot s).2
      | wk_stopped => at_pc w_done (set_running false s)
      | wk_stream_closed | wk_error =>
          if mStopWatch s then at_pc w_done (set_running false (on_backend be_StopWatch s).2)
          else
            let s := map_stats (fun st => mkStats (u64 (watch_restart_count st + 1)) (watch_start_failure_count st)
              (u64 (watch_stream_closed_count st + 1)) (snapshot_refresh_failure_count st)) s in
            let s := (RefreshSnapshot s).2 in
            at_pc w_wait (on_backend be_StopWatch s).2
      end
  | w_wait => if mStopWatch s then watch_exit s else at_pc w_start s
  | w_done => s
  end.

Definition Remove (id : ProcessId) : St t Result :=
  fun s =>
    let '(del, s) := on_backend (be_Delete (MemberKey s id)) s in
    if negb (ok del) then (del, s)
    else
      let s := set_processes (delete (MakeKey id) (mProcesses s)) (mEvents s) s in
      match mSelf s with
      | Some self => if bool_decide (pid self = id) then (Success, set_lease 0 (set_self None s)) else (Success, s)
      | None => (Success, s)
      end.

Definition DrainEvents : St t (list MembershipEvent) :=
  fun s => (mEvents s, set_processes (mProcesses s) [] s).

Definition Find (s : t) (id : ProcessId) : option ProcessDescriptor := members_Find (mProcesses s) id.
Definition FindByService (s : t) (st : Z) : list ProcessDescriptor := members_FindByService (mProcesses s) st.
Definition All (s : t) : list ProcessDescriptor := members_All (mProcesses s).
Definition WatchRunning (s : t) : bool := be_WatchRunning (mBackend s).
Definition RuntimeStats (s : t) : EtcdDiscoveryRuntimeStats := mRuntimeStats s.

End operations.
Arguments t : clear implicits.
End EtcdDiscovery.

(** ** Lemmas *)

Lemma changed_false p q : changed p q = false -> p = q.
Proof.
  unfold changed. intros E. repeat apply orb_false_iff in E as [E ?].
  repeat match goal with
  | H : negb _ = false |- _ => apply negb_false_iff in H
  | H : bool_decide _ = true |- _ => apply bool_decide_eq_true_1 in H
  | H : (_ =? _) = true |- _ => apply Z.eqb_eq in H
  | H : String.eqb _ _ = true |- _ => apply String.eqb_eq in H
  end. destruct p, q; simpl in *. by subst.
Qed.

(** Replaying events on a membership. *)
Definition apply_event (m : members) (e : MembershipEvent) : members :=
  match me_type e with
  | me_removed => delete (MakeKey (pid (me_process e))) m
  | _ => <[MakeKey (pid (me_process e)) := me_process e]> m
  end.
Definition event_key (e : MembershipEvent) : Z := MakeKey (pid (me_process e)).
Definition event_result (e : MembershipEvent) : option ProcessDescriptor :=
  match me_type e with me_removed => None | _ => Some (me_process e) end.

Lemma replay_other evs m k : k ∉ event_key <$> evs -> foldl apply_event m evs !! k = m !! k.
Proof.
  revert m. induction evs as [|e evs IH]; intros m Hk; [done|]. csimpl in *.
  apply not_elem_of_cons in Hk as [Hne Hk]. rewrite IH by done. unfold apply_event, event_key in *.
  destruct (me_type e); by rewrite ?lookup_insert_ne, ?lookup_delete_ne by done.
Qed.

Lemma replay_at evs m e :
  NoDup (event_key <$> evs) -> e ∈ evs -> foldl apply_event m evs !! event_key e = event_result e.
Proof.
  revert m. induction evs as [|e' evs IH]; intros m Hnd Hin; [by apply elem_of_nil in Hin|]. csimpl in *.
  apply NoDup_cons in Hnd as [Hni Hnd]. apply elem_of_cons in Hin as [->|Hin]; [|by apply IH].
  rewrite replay_other by done. unfold apply_event, event_key, event_result.
  destruct (me_type e'); by rewrite ?lookup_insert_eq, ?lookup_delete_eq.
Qed.

Section diff.
Context {mo : MapOrder Z}.

(** The events one pass over a map produces. *)
Definition pass (f : Z -> ProcessDescriptor -> option MembershipEvent) (m : members) : list MembershipEvent :=
  omap (fun '(k, p) => f k p) (entries m).

Lemma elem_of_pass f m e : e ∈ pass f m <-> exists k p, m !! k = Some p /\ f k p = Some e.
Proof.
  unfold pass. rewrite list_elem_of_omap. split.
  - intros ([k p] & Hin & E). exists k, p. by rewrite <- elem_of_entries.
  - intros (k & p & Hk & E). exists (k, p). by rewrite elem_of_entries.
Qed.

Lemma NoDup_pass f m :
  (forall k p e, m !! k = Some p -> f k p = Some e -> event_key e = k) -> NoDup (event_key <$> pass f m).
Proof.
  intros Hf. unfold pass. pose proof (NoDup_entries m) as Hnd.
  assert (forall k p, (k, p) ∈ entries m -> m !! k = Some p) as Hin by (intros; by apply elem_of_entries).
  induction (entries m) as [|[k p] l IH]; [constructor|]. csimpl in *. apply NoDup_cons in Hnd as [Hni Hnd].
  assert (NoDup (event_key <$> omap (fun '(k, p) => f k p) l)) as Hl by (apply IH; [done|intros; apply Hin; by right]).
  destruct (f k p) as [e|] eqn:E; [|done]. csimpl. apply NoDup_cons. split; [|done].
  intros (e' & He & Hin')%list_elem_of_fmap. apply list_elem_of_omap in Hin' as ([k' p'] & Hkp & E').
  rewrite (Hf k p e), (Hf k' p' e') in He by (done || (apply Hin; by (left || right))). subst k'.
  apply Hni, list_elem_of_fmap. by exists (k, p').
Qed.

Definition upsert_event (previous : members) (key : Z) (p : ProcessDescriptor) : option MembershipEvent :=
  match previous !! key with
  | None => Some (mkMembershipEvent me_added p)
  | Some q => if changed q p then Some (mkMembershipEvent me_updated p) else None
  end.
Definition removal_event (current : members) (key : Z) (p : ProcessDescriptor) : option MembershipEvent :=
  match current !! key with None => Some (mkMembershipEvent me_removed p) | Some _ => None end.

Lemma QueueDiffEvents_passes previous current events :
  QueueDiffEvents previous current events =
  events ++ pass (upsert_event previous) current ++ pass (removal_event current) previous.
Proof. done. Qed.

Lemma replay_diff previous current :
  wf_members previous -> wf_members current ->
  foldl apply_event previous (QueueDiffEvents previous current []) = current.
Proof.
  intros Hp Hc. rewrite QueueDiffEvents_passes. simpl.
  set (up := pass (upsert_event previous) current). set (down := pass (removal_event current) previous).
  assert (forall k p e, current !! k = Some p -> upsert_event previous k p = Some e ->
    event_key e = k /\ event_result e = Some p) as Hup.
  { intros k p e Hk E. unfold upsert_event in E. destruct (Hc k p Hk) as [-> _]. by cases. }
  assert (forall k p e, previous !! k = Some p -> removal_event current k p = Some e ->
    event_key e = k /\ event_result e = None /\ current !! k = None) as Hdown.
  { intros k p e Hk E. unfold removal_event in E. destruct (Hp k p Hk) as [-> _]. by cases. }
  assert (NoDup (event_key <$> (up ++ down))) as Hnd.
  { rewrite fmap_app. apply NoDup_app. split; [|split].
    - apply NoDup_pass. intros. by eapply Hup.
    - intros key (e & -> & (k & p & Hk & E)%elem_of_pass)%list_elem_of_fmap
             (e' & Heq & (k' & p' & Hk' & E')%elem_of_pass)%list_elem_of_fmap.
      destruct (Hup _ _ _ Hk E) as [K1 _], (Hdown _ _ _ Hk' E') as (K2 & _ & Hn). congruence.
    - apply NoDup_pass. intros. by eapply Hdown. }
  apply map_eq. intros k. destruct (decide (k ∈ event_key <$> (up ++ down))) as [Hin|Hni].
  - apply list_elem_of_fmap in Hin as (e & -> & He). rewrite replay_at by done.
    apply elem_of_app in He as [He|He]; apply elem_of_pass in He as (k' & p & Hk & E).
    + by destruct (Hup _ _ _ Hk E) as [-> ->].
    + by destruct (Hdown _ _ _ Hk E) as (-> & -> & ->).
  - rewrite replay_other by done. rewrite fmap_app, not_elem_of_app in Hni. destruct Hni as [Hu Hd].
    destruct (current !! k) as [p|] eqn:Ec.
    + destruct (previous !! k) as [q|] eqn:Ep.
      * destruct (changed q p) eqn:Ech; [|by apply changed_false in Ech; subst].
        exfalso. apply Hu, list_elem_of_fmap. exists (mkMembershipEvent me_updated p).
        split; [by apply Hc|]. apply elem_of_pass. exists k, p. split; [done|].
        unfold upsert_event. by rewrite Ep, Ech.
      * exfalso. apply Hu, list_elem_of_fmap. exists (mkMembershipEvent me_added p).
        split; [by apply Hc|]. apply elem_of_pass. exists k, p. split; [done|]. unfold upsert_event. by rewrite Ep.
    + destruct (previous !! k) as [q|] eqn:Ep; [|done].
      exfalso. apply Hd, list_elem_of_fmap. exists (mkMembershipEvent me_removed q).
      split; [by apply Hp|]. apply elem_of_pass. exists k, q. split; [done|]. unfold removal_event. by rewrite Ec.
Qed.

End diff.

(** Every member a snapshot answer can carry: a process whose identifiers fit. *)
Lemma parse_kvs_wf `{Glaze} kvs m r :
  (forall json d, read_descriptor json = inr d -> in_u32 (sd_service_type d) /\ in_u32 (sd_instance_id d)) ->
  wf_members m -> parse_kvs kvs m = (Success, r) -> wf_members r.
Proof.
  intros Hread. revert m. induction kvs as [|kv kvs IH]; intros m Hm E; simpl in E; [by simplify_eq|].
  unfold DeserializeDescriptor in E. destruct (read_descriptor (Base64Decode kv.2)) as [err|d] eqn:Er; [by simplify_eq|].
  eapply IH; [|done]. apply wf_members_insert; [done|]. by apply Hread in Er.
Qed.

(** ** The view interface of both classes *)

#[global] Instance discovery_view {mo : MapOrder Z} : IMembershipView Discovery.t := {|
  view_Find := Discovery.Find;
  view_FindByService := Discovery.FindByService;
  view_All := Discovery.All
|}.

#[global] Instance etcd_view {mo : MapOrder Z} (W : Type) : IMembershipView (EtcdDiscovery.t W) := {|
  view_Find := EtcdDiscovery.Find;
  view_FindByService := EtcdDiscovery.FindByService;
  view_All := EtcdDiscovery.All
|}.

Section view_laws.
Context {mo : MapOrder Z}.

Lemma members_all_find m p : wf_members m -> p ∈ members_All m -> members_Find m (pid p) = Some p.
Proof. intros Hm (k & Hk)%elem_of_members_All. unfold members_Find. by destruct (Hm k p Hk) as [<- _]. Qed.

Lemma members_find_all m id p :
  wf_members m -> wf_process_id id -> members_Find m id = Some p -> p ∈ members_All m /\ pid p = id.
Proof.
  intros Hm Hid Hf. unfold members_Find in Hf. split; [apply elem_of_members_All; by eexists|].
  destruct (Hm _ _ Hf) as [E Hw]. by apply member_key_inj.
Qed.

Lemma members_all_wf m p : wf_members m -> p ∈ members_All m -> wf_process_id (pid p).
Proof. intros Hm (k & Hk)%elem_of_members_All. by destruct (Hm k p Hk). Qed.

#[global] Instance discovery_view_law : MembershipViewLaw Discovery.t (fun s => wf_members (Discovery.mProcesses s)).
Proof.
  split; simpl; intros.
  - by apply members_all_find.
  - by apply members_find_all.
  - by eapply members_all_wf.
  - apply members_service.
Qed.

#[global] Instance etcd_view_law (W : Type) :
  MembershipViewLaw (EtcdDiscovery.t W) (fun s => wf_members (EtcdDiscovery.mProcesses s)).
Proof.
  split; simpl; intros.
  - by apply members_all_find.
  - by apply members_find_all.
  - by eapply members_all_wf.
  - apply members_service.
Qed.

End view_laws.

(** ** Properties *)

Section etcd_lemmas.
Context {W : Type} `{IEtcdDiscoveryBackend W} `{Glaze} {mo : MapOrder Z}.
Import EtcdDiscovery.

(** A grant followed by a successful put under the granted lease. *)
Definition leased_put (self : ProcessDescriptor) (s0 s : EtcdDiscovery.t W) : Prop :=
  exists w0 w1 g put, be_GrantLease (lease_ttl_seconds (mOptions s0)) 0 w0 = ((g, mLeaseId s), w1) /\ ok g = true /\
    be_Put (MemberKey s0 (pid self)) (SerializeDescriptor self) (mLeaseId s) w1 = (put, mBackend s) /\ ok put = true.

Lemma RegisterSelf_options self s : mOptions (RegisterSelf self s).2 = mOptions s.
Proof. unfold RegisterSelf, GrantLease, put_self, record_self, on_backend. by cases. Qed.

Lemma RegisterSelf_fresh_lease self s :
  0 < lease_ttl_seconds (mOptions s) -> mLeaseId s = 0 -> ok (RegisterSelf self s).1 = true ->
  leased_put self s (RegisterSelf self s).2 /\ mSelf (RegisterSelf self s).2 = Some self /\
  mProcesses (RegisterSelf self s).2 = <[MakeKey (pid self) := self]> (mProcesses s).
Proof.
  intros Httl Hl. unfold RegisterSelf. rewrite Hl. replace (0 <? lease_ttl_seconds (mOptions s)) with true by lia.
  cbn [andb Z.eqb]. unfold GrantLease, put_self, record_self, on_backend, leased_put.
  destruct (be_GrantLease _ _ (mBackend s)) as [[g l] w1] eqn:Eg. rewrite Hl in Eg. simpl.
  destruct (ok g) eqn:Okg; simpl; [|by rewrite Okg].
  destruct (be_Put _ _ l w1) as [put w2] eqn:Ep. simpl.
  destruct (ok put) eqn:Okp; simpl; rewrite ?Okp; simpl.
  - intros _. split; [|done]. by exists (mBackend s), w1, g, put.
  - replace (0 <? lease_ttl_seconds (mOptions s)) with true by lia.
    destruct (be_GrantLease _ 0 w2) as [[g2 l2] w3] eqn:Eg2. simpl.
    destruct (ok g2) eqn:Okg2; simpl; [|by rewrite Okg2].
    destruct (be_Put _ _ l2 w3) as [put2 w4] eqn:Ep2. simpl.
    destruct (ok put2) eqn:Okp2; simpl; [|by rewrite Okp2].
    intros _. split; [|done]. by exists w2, w3, g2, put2.
Qed.

Lemma KeepAliveOnce_failure s :
  ok (KeepAliveOnce s).1 = false -> mLeaseId (KeepAliveOnce s).2 = 0 /\
  mOptions (KeepAliveOnce s).2 = mOptions s /\ mProcesses (KeepAliveOnce s).2 = mProcesses s.
Proof.
  unfold KeepAliveOnce, on_backend. destruct (Z.eqb_spec (mLeaseId s) 0) as [E|E]; [done|].
  destruct (be_KeepAliveOnce _ _) as [k w]. simpl. destruct (ok k) eqn:Ek; simpl; [by rewrite Ek|done].
Qed.

Lemma MemberKey_options (s s' : EtcdDiscovery.t W) id : mOptions s = mOptions s' -> MemberKey s id = MemberKey s' id.
Proof. unfold MemberKey, members_prefix. by intros ->. Qed.

Lemma parse_kvs_members ps m :
  Forall (fun p => read_descriptor (SerializeDescriptor p) = inr (to_serializable p)) ps ->
  parse_kvs ((fun p => ("" : string, Base64Encode (SerializeDescriptor p))) <$> ps) m =
  (Success, foldl (fun m p => <[MakeKey (pid p) := p]> m) m ps).
Proof.
  intros Hps. revert m. induction Hps as [|p ps Hp _ IH]; intros m; [done|]. csimpl.
  unfold DeserializeDescriptor. pose proof (base64_roundtrip (SerializeDescriptor p)) as E.
  rewrite escape_plain in E by apply encode_plain. rewrite E, Hp.
  assert (of_serializable (to_serializable p) = p) as -> by (by destruct p as [[[? ?] ?] ? [? ?] ? ? ? ?]).
  apply IH.
Qed.

Lemma parse_kvs_keys kvs kvs' m : kvs.*2 = kvs'.*2 -> parse_kvs kvs m = parse_kvs kvs' m.
Proof.
  revert kvs' m. induction kvs as [|kv kvs IH]; intros [|kv' kvs'] m E; [done..|]. csimpl in E.
  injection E as E1 E2. simpl. rewrite E1. destruct (DeserializeDescriptor _) as [? [?|]]; [by apply IH|done].
Qed.

Lemma foldl_members ps (m : members) k :
  foldl (fun m p => <[MakeKey (pid p) := p]> m) m ps !! k =
  match find (fun p => MakeKey (pid p) =? k) (reverse ps) with Some p => Some p | None => m !! k end.
Proof.
  revert m. induction ps as [|p ps IH]; intros m; [done|]. simpl. rewrite IH. rewrite reverse_cons.
  assert (forall l, find (fun p => MakeKey (pid p) =? k) (l ++ [p]) =
    match find (fun p => MakeKey (pid p) =? k) l with Some q => Some q | None => if MakeKey (pid p) =? k then Some p else None end) as ->.
  { intros l. induction l as [|q l IHl]; simpl; [done|]. rewrite IHl. by destruct (MakeKey (pid q) =? k). }
  destruct (find _ (reverse ps)); [done|]. destruct (Z.eqb_spec (MakeKey (pid p)) k) as [<-|];
    by rewrite ?lookup_insert_eq, ?lookup_insert_ne by done.
Qed.

(** Distinct processes of a list are all found again, and nothing else. *)
Lemma foldl_members_spec ps k p :
  NoDup ((fun p => MakeKey (pid p)) <$> ps) ->
  foldl (fun m p => <[MakeKey (pid p) := p]> m) (∅ : members) ps !! k = Some p <-> p ∈ ps /\ MakeKey (pid p) = k.
Proof.
  intros Hnd. rewrite foldl_members, lookup_empty.
  destruct (find _ (reverse ps)) as [q|] eqn:E.
  - apply find_some in E as [Hin%list_elem_of_In Hq%Z.eqb_eq]. rewrite elem_of_reverse in Hin.
    split; [intros ?; by simplify_eq|]. intros [Hp Hk].
    f_equal. rewrite <- Hq in Hk. clear -Hnd Hin Hp Hk.
    induction ps as [|x ps IH]; [by apply elem_of_nil in Hp|]. csimpl in Hnd. apply NoDup_cons in Hnd as [Hx Hnd].
    apply elem_of_cons in Hin as [->|Hin], Hp as [->|Hp]; [done| | |by apply IH].
    + exfalso. apply Hx, list_elem_of_fmap. by exists p.
    + exfalso. apply Hx, list_elem_of_fmap. by exists q.
  - split; [done|]. intros [Hp Hk].
    pose proof (find_none _ _ E p) as Hn. simpl in Hn.
    rewrite Hk, Z.eqb_refl in Hn. discriminate Hn. apply list_elem_of_In. by apply elem_of_reverse.
Qed.

Lemma changed_refl p : changed p p = false.
Proof.
  unfold changed. rewrite !bool_decide_eq_true_2, !Z.eqb_refl, String.eqb_refl by done. done.
Qed.

Lemma diff_minimal (previous current : members) e :
  wf_members current -> wf_members previous ->
  e ∈ QueueDiffEvents previous current [] -> previous !! event_key e <> event_result e.
Proof.
  intros Hc Hp. rewrite QueueDiffEvents_passes. simpl.
  intros [(k & p & Hk & E)%elem_of_pass|(k & p & Hk & E)%elem_of_pass]%elem_of_app.
  - unfold upsert_event in E. destruct (Hc k p Hk) as [-> _].
    destruct (previous !! MakeKey (pid p)) as [q|] eqn:Ep; [destruct (changed q p) eqn:Ech|]; simplify_eq.
    + unfold event_key, event_result. simpl. rewrite Ep. intros ?; simplify_eq. by rewrite changed_refl in Ech.
    + unfold event_key, event_result. simpl. by rewrite Ep.
  - unfold removal_event in E. destruct (Hp k p Hk) as [-> _].
    destruct (current !! MakeKey (pid p)); simplify_eq. unfold event_key, event_result. simpl. by rewrite Hk.
Qed.

End etcd_lemmas.

(** C27: the membership events queued by [ApplySnapshot] describe exactly the
    difference: replaying them on the previous membership gives the new one, each
    of them changes the entry it names, and earlier events stay queued before them. *)
Theorem snapshot_events_replay {W : Type} {mo : MapOrder Z} (s : EtcdDiscovery.t W) (refreshed : members) :
  wf_members (EtcdDiscovery.mProcesses s) -> wf_members refreshed ->
  exists evs,
    EtcdDiscovery.mEvents (EtcdDiscovery.ApplySnapshot refreshed s).2 = EtcdDiscovery.mEvents s ++ evs /\
    EtcdDiscovery.mProcesses (EtcdDiscovery.ApplySnapshot refreshed s).2 = refreshed /\
    foldl apply_event (EtcdDiscovery.mProcesses s) evs = refreshed /\
    Forall (fun e => EtcdDiscovery.mProcesses s !! event_key e <> event_result e) evs.
Proof.
  intros Hs Hr. exists (QueueDiffEvents (EtcdDiscovery.mProcesses s) refreshed []).
  split; [|split; [|split]]; [done|done|by apply replay_diff|].
  apply Forall_forall. intros e He. by apply diff_minimal with refreshed.
Qed.

(** Once a keepalive has failed, a registration that succeeds has stored the
    process record under a lease granted after the failure, never under the old
    lease, whatever the backend answers in between. *)
Theorem reregistration_uses_fresh_lease {W : Type} `{IEtcdDiscoveryBackend W} `{Glaze}
    (self : ProcessDescriptor) (s : EtcdDiscovery.t W) :
  0 < lease_ttl_seconds (EtcdDiscovery.mOptions s) ->
  ok (EtcdDiscovery.KeepAliveOnce s).1 = false ->
  let s1 := (EtcdDiscovery.KeepAliveOnce s).2 in
  let s2 := (EtcdDiscovery.RegisterSelf self s1).2 in
  ok (EtcdDiscovery.RegisterSelf self s1).1 = true ->
  leased_put self s s2 /\ EtcdDiscovery.mSelf s2 = Some self /\
  EtcdDiscovery.mProcesses s2 = <[MakeKey (pid self) := self]> (EtcdDiscovery.mProcesses s).
Proof.
  intros Httl Hk s1 s2 Hr. destruct (KeepAliveOnce_failure s Hk) as (Hl & Ho & Hp).
  fold s1 in Hl, Ho, Hp. subst s2.
  destruct (RegisterSelf_fresh_lease self s1) as (Hput & Hself & Hproc); [by rewrite Ho|done..|].
  split; [|by rewrite <- Hp]. unfold leased_put in *. by rewrite <- Ho, (MemberKey_options s s1).
Qed.

(** A snapshot is read back: if the store holds the serialised descriptors of
    distinct processes and the JSON library reads what it has written,
    [RefreshSnapshot] succeeds and afterwards [Find] returns exactly those
    descriptors, whatever the backend renders as keys. *)
Theorem snapshot_roundtrip {W : Type} `{IEtcdDiscoveryBackend W} `{Glaze} {mo : MapOrder Z}
    (s : EtcdDiscovery.t W) (w' : W) (kvs : list (string * string)) (ps : list ProcessDescriptor) :
  kvs.*2 = SerializeDescriptor <$> ps ->
  be_GetPrefix (EtcdDiscovery.members_prefix s) (EtcdDiscovery.mBackend s) = ((Success, RenderRangeResponse kvs), w') ->
  read_response (RenderRangeResponse kvs) = inr ((fun kv => (Base64Encode kv.1, Base64Encode kv.2)) <$> kvs) ->
  Forall (fun p => read_descriptor (SerializeDescriptor p) = inr (to_serializable p)) ps ->
  Forall (fun p => wf_process_id (pid p)) ps -> NoDup ((fun p => pid p) <$> ps) ->
  (EtcdDiscovery.RefreshSnapshot s).1 = Success /\
  forall id p, wf_process_id id ->
    EtcdDiscovery.Find (EtcdDiscovery.RefreshSnapshot s).2 id = Some p <-> p ∈ ps /\ pid p = id.
Proof.
  intros Hkvs Hget Hread Hps Hwf Hnd.
  unfold EtcdDiscovery.RefreshSnapshot, EtcdDiscovery.on_backend. rewrite Hget. cbn [ok Success negb].
  unfold ParseSnapshot. rewrite Hread.
  rewrite (parse_kvs_keys _ ((fun p => ("" : string, Base64Encode (SerializeDescriptor p))) <$> ps)).
  2: { rewrite <- !list_fmap_compose.
       transitivity (Base64Encode <$> kvs.*2); [by rewrite <- list_fmap_compose|].
       rewrite Hkvs, <- list_fmap_compose. done. }
  rewrite parse_kvs_members by done. cbn [ok negb Success]. split; [done|]. intros id p Hid.
  unfold EtcdDiscovery.Find, members_Find. cbn. rewrite foldl_members_spec.
  - split; intros [Hp E]; (split; [done|]); [|by rewrite E].
    apply member_key_inj; [|done|done]. rewrite Forall_forall in Hwf. by apply Hwf.
  - rewrite (list_fmap_compose (fun p => pid p) MakeKey).
    apply NoDup_fmap_2_strong; [|done].
    rewrite Forall_forall in Hwf. intros x y (p1 & -> & H1)%list_elem_of_fmap (p2 & -> & H2)%list_elem_of_fmap.
    by apply member_key_inj; apply Hwf.
Qed.

(** One call of a public operation, or one round of the watch thread. *)
Inductive etcd_step {W : Type} `{IEtcdDiscoveryBackend W} `{Glaze} {mo : MapOrder Z} :
    EtcdDiscovery.t W -> EtcdDiscovery.t W -> Prop :=
| es_register s self : wf_process_id (pid self) -> etcd_step s (EtcdDiscovery.RegisterSelf self s).2
| es_keepalive s : etcd_step s (EtcdDiscovery.KeepAliveOnce s).2
| es_refresh s : etcd_step s (EtcdDiscovery.RefreshSnapshot s).2
| es_start s : etcd_step s (EtcdDiscovery.StartWatch s).2
| es_stop s : etcd_step s (EtcdDiscovery.StopWatch s).2
| es_join s s' : EtcdDiscovery.join_watch s = Some s' -> etcd_step s s'
| es_watch s pc : EtcdDiscovery.mWatchThread s = Some pc -> etcd_step s (EtcdDiscovery.watch_step pc s)
| es_remove s id : etcd_step s (EtcdDiscovery.Remove id s).2
| es_drain s : etcd_step s (EtcdDiscovery.DrainEvents s).2.

Section etcd_invariant.
Context {W : Type} `{IEtcdDiscoveryBackend W} `{Glaze} {mo : MapOrder Z}.
Hypothesis read_widths : forall json d, read_descriptor json = inr d ->
  in_u32 (sd_service_type d) /\ in_u32 (sd_instance_id d).
Import EtcdDiscovery.

Lemma RefreshSnapshot_wf (s : EtcdDiscovery.t W) : wf_members (mProcesses s) -> wf_members (mProcesses (RefreshSnapshot s).2).
Proof.
  intros Hs. unfold RefreshSnapshot, on_backend. destruct (be_GetPrefix _ _) as [[r out] w].
  destruct (ok r); [|done]. cbn [negb]. unfold ParseSnapshot.
  destruct (read_response out) as [err|kvs]; [done|].
  destruct (parse_kvs kvs ∅) as [[[] msg] m] eqn:E; [|done]. cbn. eapply parse_kvs_wf; [done| |].
  - instantiate (1 := ∅). intros k p. by rewrite lookup_empty.
  - rewrite E. f_equal. clear -E. revert E. generalize (∅ : members). induction kvs as [|kv kvs IH]; intros m0 E; simpl in E.
    + by simplify_eq.
    + unfold DeserializeDescriptor in E. destruct (read_descriptor _); [by simplify_eq|]. by eapply IH.
Qed.

Lemma etcd_step_wf (s s' : EtcdDiscovery.t W) : etcd_step s s' -> wf_members (mProcesses s) -> wf_members (mProcesses s').
Proof.
  intros Hstep Hs. destruct Hstep as [s self Hself|s|s|s|s|s s' E|s pc _|s id|s].
  - unfold RegisterSelf, GrantLease, put_self, record_self, on_backend. cases; simpl; auto.
  - unfold KeepAliveOnce, on_backend. by cases.
  - by apply RefreshSnapshot_wf.
  - unfold StartWatch. destruct (mWatchThread s); [done|].
    destruct (RefreshSnapshot _) as [r s1] eqn:E.
    assert (wf_members (mProcesses s1)) as H1.
    { change s1 with (r, s1).2. rewrite <- E. by apply RefreshSnapshot_wf. }
    destruct (negb (ok r)); [done|]. by apply RefreshSnapshot_wf.
  - unfold StopWatch, on_backend. by destruct (be_StopWatch _).
  - unfold join_watch in E. by cases.
  - destruct pc; unfold watch_step, watch_exit, at_pc, set_running, on_backend; [by cases| |by cases|done].
    destruct (be_WaitForWatchEvent _) as [poll w]. destruct (wp_kind poll);
      [by apply RefreshSnapshot_wf| |done|]; (cbn [mStopWatch set_backend]; destruct (mStopWatch s);
      [by destruct (be_StopWatch _)|]; cbn; destruct (be_StopWatch _); cbn; by apply RefreshSnapshot_wf).
  - unfold Remove, on_backend. destruct (be_Delete _ _) as [del w]. destruct (ok del); [|done]. cbn.
    destruct (mSelf s); [case_bool_decide|]; cbn; auto.
  - done.
Qed.

Lemma etcd_reachable_wf o w (s : EtcdDiscovery.t W) : rtc etcd_step (create o w) s -> wf_members (mProcesses s).
Proof.
  intros Hr. assert (wf_members (mProcesses (create o w))) as H0'
    by (intros k p; simpl; by rewrite lookup_empty).
  induction Hr as [|s s' s'' Hstep _ IH]; [done|]. by apply IH, (etcd_step_wf s).
Qed.

End etcd_invariant.

(** After any sequence of operations and rounds of the watch thread the
    membership is filed by process id: a member is found under its own id, and
    [Find] only returns a listed member with the id asked for. *)
Theorem membership_find_all_agree {W : Type} `{IEtcdDiscoveryBackend W} `{Glaze} {mo : MapOrder Z}
    (o : EtcdDiscoveryOptions) (w : W) (s : EtcdDiscovery.t W) :
  (forall json d, read_descriptor json = inr d -> in_u32 (sd_service_type d) /\ in_u32 (sd_instance_id d)) ->
  rtc etcd_step (EtcdDiscovery.create o w) s ->
  (forall p, p ∈ EtcdDiscovery.All s -> EtcdDiscovery.Find s (pid p) = Some p) /\
  (forall id p, wf_process_id id -> EtcdDiscovery.Find s id = Some p -> p ∈ EtcdDiscovery.All s /\ pid p = id) /\
  (forall st, EtcdDiscovery.FindByService s st = filter (fun p => service_type (pid p) = st) (EtcdDiscovery.All s)).
Proof.
  intros Hread Hr. pose proof (etcd_reachable_wf Hread o w s Hr) as Hwf.
  split; [|split]; intros.
  - by apply members_all_find.
  - by apply members_find_all.
  - apply members_service.
Qed.

(** ** A concrete backend and concrete processes *)

Definition process_descriptor_example (st inst inc : Z) : ProcessDescriptor :=
  mkProcessDescriptor (mkProcessRef (mkProcessId st inst) inc) "game" (mkEndpoint "127.0.0.1" 9000) 1 5 [] [].

(** The world of the examples: the next lease and the stored records; the first
    keepalive fails. *)
Record example_world := mkWorld { next_lease : Z; stored : list (string * string * Z) }.

Definition example_backend : IEtcdDiscoveryBackend example_world := {|
  be_GrantLease := fun _ _ w => ((Success, next_lease w), mkWorld (next_lease w + 1) (stored w));
  be_Put := fun k v l w => (Success, mkWorld (next_lease w) (stored w ++ [(k, v, l)]));
  be_KeepAliveOnce := fun _ w => (Failure "unavailable", w);
  be_Delete := fun k w => (Success, w);
  be_GetPrefix := fun _ w => ((Success, RenderRangeResponse ((fun '(k, v, _) => (k, v)) <$> stored w)), w);
  be_StartWatchPrefix := fun _ w => (Success, w);
  be_WaitForWatchEvent := fun w => (mkWatchPollResult wk_event "", w);
  be_StopWatch := fun w => (tt, w);
  be_WatchRunning := fun _ => true
|}.

Definition descriptor_1 : ProcessDescriptor := process_descriptor_example 20 1 7.
Definition descriptor_2 : ProcessDescriptor := process_descriptor_example 10 3 8.
Definition example_kvs : list (string * string) := [("/x/members/20/1", "first"); ("/x/members/10/3", "second")].

(** A reader that knows the texts of the examples. *)
Definition example_glaze : Glaze := {|
  write_descriptor := fun d => if sd_service_type d =? 20 then Some "first" else Some "second";
  read_descriptor := fun json =>
    if String.eqb json "first" then inr (to_serializable descriptor_1)
    else if String.eqb json "second" then inr (to_serializable descriptor_2) else inl "bad descriptor";
  read_response := fun text =>
    if String.eqb text (RenderRangeResponse example_kvs)
    then inr ((fun kv => (Base64Encode kv.1, Base64Encode kv.2)) <$> example_kvs) else inl "bad response"
|}.

Definition example_options : EtcdDiscoveryOptions := mkEtcdOptions ["127.0.0.1:2379"] "/x" 5 3.
Definition example_state (w : example_world) : EtcdDiscovery.t example_world := EtcdDiscovery.create example_options w.
Definition world_of_records : example_world := mkWorld 1 ((fun '(k, v) => (k, v, 1)) <$> example_kvs).

Lemma snapshot_roundtrip_witness :
  EtcdDiscovery.Find (@EtcdDiscovery.RefreshSnapshot example_world example_backend example_glaze order_Z
    (example_state world_of_records)).2 (mkProcessId 10 3) = Some descriptor_2.
Proof.
  pose proof (@snapshot_roundtrip example_world example_backend example_glaze order_Z
    (example_state world_of_records) world_of_records example_kvs [descriptor_1; descriptor_2]) as H.
  destruct H as [_ H]; [reflexivity|reflexivity|vm_compute; reflexivity|..].
  - repeat apply Forall_cons_2; try apply Forall_nil_2; vm_compute; reflexivity.
  - repeat apply Forall_cons_2; try apply Forall_nil_2; by vm_compute.
  - apply NoDup_cons. split; [intros E%list_elem_of_singleton; discriminate E|apply NoDup_singleton].
  - apply H; [by vm_compute|]. split; [|reflexivity]. apply elem_of_cons. right. by apply list_elem_of_singleton.
Defined.

Lemma snapshot_events_replay_witness :
  exists evs, foldl apply_event (∅ : members) evs = <[MakeKey (pid descriptor_1) := descriptor_1]> ∅ /\
    Forall (fun e => (∅ : members) !! event_key e <> event_result e) evs.
Proof.
  destruct (@snapshot_events_replay example_world order_Z (example_state (mkWorld 1 []))
    (<[MakeKey (pid descriptor_1) := descriptor_1]> ∅)) as (evs & _ & _ & H1 & H2).
  - intros k p. simpl. by rewrite lookup_empty.
  - apply wf_members_insert; [intros k p; by rewrite lookup_empty|by vm_compute].
  - by exists evs.
Defined.

(** A state in which a keepalive of lease 4 fails. *)
Definition state_with_lease : EtcdDiscovery.t example_world :=
  EtcdDiscovery.set_lease 4 (example_state (mkWorld 9 [])).

Lemma reregistration_uses_fresh_lease_witness :
  EtcdDiscovery.mSelf (@EtcdDiscovery.RegisterSelf example_world example_backend example_glaze descriptor_1
    (@EtcdDiscovery.KeepAliveOnce example_world example_backend state_with_lease).2).2 = Some descriptor_1.
Proof.
  apply (@reregistration_uses_fresh_lease example_world example_backend example_glaze descriptor_1 state_with_lease);
    reflexivity.
Defined.

Definition registered_state : EtcdDiscovery.t example_world :=
  (@EtcdDiscovery.RegisterSelf example_world example_backend example_glaze descriptor_1 (example_state (mkWorld 1 []))).2.

Lemma membership_find_all_agree_witness :
  @EtcdDiscovery.FindByService example_world order_Z registered_state 10
    = filter (fun p => service_type (pid p) = 10) (@EtcdDiscovery.All example_world order_Z registered_state) /\
  EtcdDiscovery.Find registered_state (pid descriptor_1) = Some descriptor_1.
Proof.
  destruct (@membership_find_all_agree example_world example_backend example_glaze order_Z example_options (mkWorld 1 [])
    registered_state) as (Hall & _ & Hservice).
  - intros json d. unfold read_descriptor, example_glaze.
    destruct (String.eqb json "first"); [intros E; injection E as <-; by vm_compute|].
    destruct (String.eqb json "second"); [intros E; injection E as <-; by vm_compute|discriminate].
  - apply rtc_once.
    refine (@es_register example_world example_backend example_glaze order_Z (example_state (mkWorld 1 [])) descriptor_1 _).
    by vm_compute.
  - split; [exact (Hservice 10)|]. apply Hall. vm_compute. by left.
Defined.
