(* ===== verification/EtcdBackend.v ===== *)
(** * The SDK backend of the etcd discovery (src/framework/ipc/discovery/etcd_sdk_discovery_backend.cpp)

    [EtcdSdkDiscoveryBackend] with its unary calls over gRPC ([Grpc], a parameter;
    [EtcdLaw] is what etcd documents of its store), and what the discovery reads
    and writes through them.  The watch of the backend is [EtcdWatch]. *)

From Stdlib Require Import Ascii.
From S2P Require Import Prelude Text Base EtcdText Discovery.

(** ** gRPC and the messages of etcd *)

(** [grpc::Status]; the code of success is zero. *)
Record Status := mkStatus { error_code : Z; error_message : string }.
Definition StatusOk (status : Status) : bool := error_code status =? 0.
Definition CANCELLED : Z := 1.

Record PutRequest := mkPutRequest { put_key : string; put_value : string; put_lease : Z }.
Record RangeRequest := mkRangeRequest { range_key : string; range_end : string }.
Record LeaseKeepAliveResponse := mkKeepAlive { keep_alive_ID : Z; keep_alive_TTL : Z }.

(** The calls the backend makes.  The first argument of a call is the deadline of
    its context, in seconds; a stream is known by its handle. *)
Class Grpc (W : Type) : Type := {
  rpc_LeaseGrant : option Z -> Z -> St W (Status * Z);
  rpc_Put : option Z -> PutRequest -> St W Status;
  rpc_Range : option Z -> RangeRequest -> St W (Status * list (string * string));
  rpc_DeleteRange : option Z -> RangeRequest -> St W Status;
  rpc_LeaseKeepAlive : option Z -> St W (option Z);
  stream_Write : Z -> Z -> St W bool;
  stream_WritesDone : Z -> St W unit;
  stream_Read : Z -> St W (option LeaseKeepAliveResponse);
  stream_Finish : Z -> St W Status
}.

(** [static_cast<std::int64_t>] of an unsigned 64-bit integer. *)
Definition to_int64 (z : Z) : Z := (z + 9223372036854775808) mod 18446744073709551616 - 9223372036854775808.

Definition EndpointsTarget (endpoints : list string) : string :=
  match endpoints with [] => "127.0.0.1:2379" | front :: _ => front end.

Definition GrpcStatusMessage (operation : string) (status : Status) : string :=
  operation +:+ " failed: code=" +:+ to_string (error_code status) +:+ " message=" +:+ error_message status.

(** ** The unary calls *)

Module EtcdSdkDiscoveryBackend.
Section calls.
Context {W : Type} `{Grpc W}.

(** The object; [mChannel] is the connection to [EndpointsTarget] as gRPC keeps
    it, with the cluster behind it.  The fields of the watch are in [Watch.t]. *)
Record t := mk { mOptions : EtcdDiscoveryOptions; mChannel : W }.
#[export] Instance eta_t : Eta t := fun s => mk (mOptions s) (mChannel s).

Definition on_channel {A : Type} (call : St W A) : St t A :=
  fun s => let '(a, w) := call (mChannel s) in (a, s <| mChannel := w |>).

Definition ApplyDeadline (s : t) : option Z :=
  if command_timeout_seconds (mOptions s) =? 0 then None else Some (command_timeout_seconds (mOptions s)).

(** What a call whose response is not used reports. *)
Definition report (operation : string) (status : Status) : Result :=
  if StatusOk status then Success else Failure (GrpcStatusMessage operation status).

Definition GrantLease (ttl_seconds lease_id : Z) : St t (Result * Z) :=
  fun s =>
    let '((status, id), s) := on_channel (rpc_LeaseGrant (ApplyDeadline s) ttl_seconds) s in
    if negb (StatusOk status) then (Failure (GrpcStatusMessage "LeaseGrant" status), lease_id, s)
    else if id =? 0 then (Failure "LeaseGrant returned empty lease id", lease_id, s)
    else (Success, u64 id, s).

Definition Put (key value : string) (lease_id : Z) : St t Result :=
  fun s =>
    let request := mkPutRequest key value (if lease_id =? 0 then 0 else to_int64 lease_id) in
    let '(status, s) := on_channel (rpc_Put (ApplyDeadline s) request) s in
    (report "Put" status, s).

(** [Finish] after [operation] has failed. *)
Definition finish_failed (stream : Z) (operation : string) : St t Result :=
  status <- on_channel (stream_Finish stream) ;;
  ret (Failure (GrpcStatusMessage operation status)).

Definition KeepAliveOnce (lease_id : Z) : St t Result :=
  fun s =>
    let '(opened, s) := on_channel (rpc_LeaseKeepAlive (ApplyDeadline s)) s in
    match opened with
    | None => (Failure "LeaseKeepAlive failed to create stream", s)
    | Some stream =>
        let '(written, s) := on_channel (stream_Write stream (to_int64 lease_id)) s in
        if negb written then finish_failed stream "LeaseKeepAlive.Write" s
        else
          let '(_, s) := on_channel (stream_WritesDone stream) s in
          let '(response, s) := on_channel (stream_Read stream) s in
          match response with
          | None => finish_failed stream "LeaseKeepAlive.Read" s
          | Some response =>
              let '(status, s) := on_channel (stream_Finish stream) s in
              if negb (StatusOk status) then (Failure (GrpcStatusMessage "LeaseKeepAlive" status), s)
              else if keep_alive_ID response =? 0 then (Failure "LeaseKeepAlive returned empty lease id", s)
              else (Success, s)
          end
    end.

Definition Delete (key : string) : St t Result :=
  fun s =>
    let '(status, s) := on_channel (rpc_DeleteRange (ApplyDeadline s) (mkRangeRequest key "")) s in
    (report "DeleteRange" status, s).

(** The output is empty on failure, as the only caller passes an empty string. *)
Definition GetPrefix (key_prefix : string) : St t (Result * string) :=
  fun s =>
    let request := mkRangeRequest key_prefix (PrefixRangeEnd key_prefix) in
    let '((status, kvs), s) := on_channel (rpc_Range (ApplyDeadline s) request) s in
    if negb (StatusOk status) then (Failure (GrpcStatusMessage "Range" status), "", s)
    else (Success, RenderRangeResponse kvs, s).

(** The backend as the discovery sees it.  The three operations of a watch block
    and share the object with a thread; here they are any operations on it. *)
Definition sdk_backend (start : string -> St t Result) (wait : St t WatchPollResult) (stop : St t unit)
    (running : t -> bool) : IEtcdDiscoveryBackend t := {|
  be_GrantLease := GrantLease; be_Put := Put; be_KeepAliveOnce := KeepAliveOnce; be_Delete := Delete;
  be_GetPrefix := GetPrefix; be_StartWatchPrefix := start; be_WaitForWatchEvent := wait; be_StopWatch := stop;
  be_WatchRunning := running
|}.
End calls.
Arguments t : clear implicits.
End EtcdSdkDiscoveryBackend.

(** What etcd documents of its store, for calls that may fail before or after
    they took effect: a put that succeeds has stored the value, a range reads
    exactly the keys of the range, a range without an end is one key. *)
Class EtcdLaw (W : Type) `{Grpc W} (kv : W -> gmap string string) : Prop := {
  etcd_grant : forall deadline ttl w, kv (rpc_LeaseGrant deadline ttl w).2 = kv w;
  etcd_put : forall deadline r w,
    kv (rpc_Put deadline r w).2 = <[put_key r := put_value r]> (kv w) \/
    (StatusOk (rpc_Put deadline r w).1 = false /\ kv (rpc_Put deadline r w).2 = kv w);
  etcd_delete : forall deadline k w,
    kv (rpc_DeleteRange deadline (mkRangeRequest k "") w).2 = delete k (kv w) \/
    (StatusOk (rpc_DeleteRange deadline (mkRangeRequest k "") w).1 = false /\
     kv (rpc_DeleteRange deadline (mkRangeRequest k "") w).2 = kv w);
  etcd_range_reads : forall deadline r w, kv (rpc_Range deadline r w).2 = kv w;
  etcd_range : forall deadline r w, StatusOk (rpc_Range deadline r w).1.1 = true -> range_end r <> "" ->
    NoDup (rpc_Range deadline r w).1.2.*1 /\
    forall k v, (k, v) ∈ (rpc_Range deadline r w).1.2 <-> kv w !! k = Some v /\ in_range (range_key r) (range_end r) k = true
}.

(** ** What the discovery gets from etcd through the backend *)

Lemma member_prefix (s k : string) : String.prefix s (s +:+ k) = true.
Proof. induction s as [|c s IH]; [by destruct k|]. rewrite string_app_cons. cbn [String.prefix]. destruct (Ascii.ascii_dec c c); [apply IH|congruence]. Qed.

Section membership.
Import EtcdDiscovery EtcdSdkDiscoveryBackend.
Context {W : Type} {grpc : Grpc W} {kv : W -> gmap string string} {law : EtcdLaw W kv} {glaze : Glaze} {mo : MapOrder Z}.
Variables (start : string -> St (EtcdSdkDiscoveryBackend.t W) Result) (wait : St (EtcdSdkDiscoveryBackend.t W) WatchPollResult)
  (stop : St (EtcdSdkDiscoveryBackend.t W) unit) (running : EtcdSdkDiscoveryBackend.t W -> bool).
Instance backend_here : IEtcdDiscoveryBackend (EtcdSdkDiscoveryBackend.t W) := sdk_backend start wait stop running.
Abbreviation discovery := (EtcdDiscovery.t (EtcdSdkDiscoveryBackend.t W)).
Implicit Types (s : discovery).

Definition stored (s : discovery) : gmap string string := kv (mChannel (mBackend s)).

(** The record of a process as [RegisterSelf] stores it, which the JSON library
    reads again. *)
Definition readable (p : ProcessDescriptor) : Prop :=
  wf_process_id (pid p) /\ read_descriptor (SerializeDescriptor p) = inr (to_serializable p).
Definition member_record (s : discovery) (k v : string) (p : ProcessDescriptor) : Prop :=
  readable p /\ k = MemberKey s (pid p) /\ v = SerializeDescriptor p.

(** Below the members prefix etcd holds records of processes only. *)
Definition only_members (s : discovery) : Prop :=
  forall k v, stored s !! k = Some v -> String.prefix (members_prefix s) k = true -> exists p, member_record s k v p.

Lemma of_to_serializable p : of_serializable (to_serializable p) = p.
Proof. by destruct p as [[[? ?] ?] ? [? ?] ? ? ? ?]. Qed.

Lemma SerializeDescriptor_inj p q : readable p -> readable q -> SerializeDescriptor p = SerializeDescriptor q -> p = q.
Proof.
  intros [_ Hp] [_ Hq] E. rewrite E, Hq in Hp.
  assert (to_serializable p = to_serializable q) as Epq by congruence.
  rewrite <- (of_to_serializable p), <- (of_to_serializable q). by rewrite Epq.
Qed.

Lemma digits_lack_slash n : 0 <= n -> lacks "/"%char (to_string n) = true.
Proof. intros Hn. apply digits_lack; [done|by apply to_string_digits]. Qed.

Lemma string_app_inj (a b c : string) : a +:+ b = a +:+ c -> b = c.
Proof. induction a as [|x a IH]; [done|]. intros E. apply IH. rewrite !string_app_cons in E. injection E as E. exact E. Qed.

Lemma MemberKey_inj s a b : wf_process_id a -> wf_process_id b -> MemberKey s a = MemberKey s b -> a = b.
Proof.
  intros [Ha Ha'] [Hb Hb'] E%string_app_inj. unfold in_u32 in *. apply (field_inj "/"%char) in E as [E1 E2]; [|apply digits_lack_slash; lia..].
  apply to_string_inj in E1, E2; [|lia..]. destruct a, b. simpl in *. by subst.
Qed.

Lemma records_are_descriptors s (kvs : list (string * string)) :
  (forall k v, (k, v) ∈ kvs -> exists p, member_record s k v p) ->
  exists ps, kvs = (fun p => (MemberKey s (pid p), SerializeDescriptor p)) <$> ps /\ Forall readable ps.
Proof.
  induction kvs as [|[k v] kvs IH]; intros Hall; [by exists []|].
  destruct IH as (ps & -> & Hps); [intros; apply Hall; by apply list_elem_of_further|].
  destruct (Hall k v) as (p & Hp & -> & ->); [apply list_elem_of_here|]. exists (p :: ps). by split; [|constructor].
Qed.

(** The library reads the text of the backend. *)
Hypothesis Hread : forall kvs, read_response (RenderRangeResponse kvs) = inr ((fun kv => (Base64Encode kv.1, Base64Encode kv.2)) <$> kvs).

(** A snapshot that etcd answers is the set of stored members. *)
Lemma RefreshSnapshot_stored s :
  only_members s -> ok (be_GetPrefix (members_prefix s) (mBackend s)).1.1 = true ->
  (RefreshSnapshot s).1 = Success /\
  forall id p, wf_process_id id -> readable p ->
    Find (RefreshSnapshot s).2 id = Some p <-> pid p = id /\ stored s !! MemberKey s id = Some (SerializeDescriptor p).
Proof.
  intros Honly. cbn [be_GetPrefix backend_here sdk_backend]. intros Hok.
  destruct (GetPrefix (members_prefix s) (mBackend s)) as [[r out] b'] eqn:Eg. unfold GetPrefix, on_channel in Eg.
  set (rq := mkRangeRequest (members_prefix s) (PrefixRangeEnd (members_prefix s))) in *.
  pose proof (etcd_range (ApplyDeadline (mBackend s)) rq (mChannel (mBackend s))) as Hrange.
  destruct (rpc_Range _ rq _) as [[status kvs] w'] eqn:Er. cbn [fst snd] in *.
  destruct (StatusOk status) eqn:Es; cbn [negb] in Eg; simplify_eq.
  destruct (Hrange eq_refl (PrefixRangeEnd_nonempty _)) as [Hnd Hin]. clear Hrange.
  destruct (records_are_descriptors s kvs) as (ps & -> & Hps).
  { intros k v [Hk Hr]%Hin. rewrite in_range_prefix in Hr. by apply Honly. }
  assert (forall p, p ∈ ps <-> readable p /\ stored s !! MemberKey s (pid p) = Some (SerializeDescriptor p)) as Hmem.
  { intros p. split.
    - intros Hp. rewrite Forall_forall in Hps. split; [by apply Hps|]. apply Hin, list_elem_of_fmap. by exists p.
    - intros [Hp Hst]. assert ((MemberKey s (pid p), SerializeDescriptor p) ∈ (fun p => (MemberKey s (pid p), SerializeDescriptor p)) <$> ps) as Hq.
      { apply Hin. split; [done|]. rewrite in_range_prefix. apply member_prefix. }
      apply list_elem_of_fmap in Hq as (q & E & Hq). injection E as E1 E2. rewrite Forall_forall in Hps.
      by rewrite (SerializeDescriptor_inj p q Hp (Hps q Hq) E2). }
  destruct (snapshot_roundtrip s ((mBackend s) <| mChannel := w' |>) ((fun p => (MemberKey s (pid p), SerializeDescriptor p)) <$> ps) ps) as [Hres Hfind].
  - by rewrite <- list_fmap_compose.
  - cbn [be_GetPrefix backend_here sdk_backend]. unfold GetPrefix, on_channel. fold rq. rewrite Er. by rewrite Es.
  - apply Hread.
  - eapply Forall_impl; [exact Hps|]. by intros p [_ Hp].
  - eapply Forall_impl; [exact Hps|]. by intros p [Hp _].
  - rewrite <- list_fmap_compose in Hnd. cbn in Hnd. apply (NoDup_fmap_1 (MemberKey s)). by rewrite <- list_fmap_compose.
  - split; [done|]. intros id p Hid Hp. rewrite Hfind, Hmem by done. split; [intros [[_ ?] <-]; done|intros [<- ?]; done].
Qed.

(** Calls of the backend seen from the discovery: what they leave in etcd. *)
Definition same_store s s' : Prop :=
  stored s' = stored s /\ EtcdDiscovery.mOptions s' = EtcdDiscovery.mOptions s.

Lemma GrantLease_store s : same_store s (EtcdDiscovery.GrantLease s).2.
Proof.
  unfold EtcdDiscovery.GrantLease, on_backend. cbn [be_GrantLease backend_here sdk_backend].
  unfold GrantLease, on_channel. set (ttl := lease_ttl_seconds _).
  pose proof (etcd_grant (ApplyDeadline (mBackend s)) ttl (mChannel (mBackend s))) as Hg.
  destruct (rpc_LeaseGrant _ ttl _) as [[status id] w']. cbn in Hg. by destruct (StatusOk status), (id =? 0).
Qed.

Lemma put_self_store self s :
  EtcdDiscovery.mOptions (put_self self s).2 = EtcdDiscovery.mOptions s /\
  (stored (put_self self s).2 = <[MemberKey s (pid self) := SerializeDescriptor self]> (stored s) \/
   (ok (put_self self s).1 = false /\ stored (put_self self s).2 = stored s)).
Proof.
  unfold put_self, on_backend. cbn [be_Put backend_here sdk_backend]. unfold Put, on_channel. set (rq := mkPutRequest _ _ _).
  pose proof (etcd_put (ApplyDeadline (mBackend s)) rq (mChannel (mBackend s))) as Hp.
  destruct (rpc_Put _ rq _) as [status w']. cbn in Hp. split; [done|]. unfold report, stored. cbn.
  destruct Hp as [Hp|[Es Hp]]; [by left|right]. by rewrite Es.
Qed.

Lemma MemberKey_same s s' id : EtcdDiscovery.mOptions s' = EtcdDiscovery.mOptions s -> MemberKey s' id = MemberKey s id.
Proof. intros E. unfold MemberKey, members_prefix. by rewrite E. Qed.

Lemma record_self_store self put s :
  same_store s (record_self self put s).2 /\ ok (record_self self put s).1 = ok put.
Proof. unfold record_self. destruct (ok put) eqn:E; cbn [negb]; by rewrite ?E. Qed.

(** The last [Put] of a registration that succeeds, after calls that may have
    stored the same record already. *)
Lemma put_and_record self s s0 :
  EtcdDiscovery.mOptions s = EtcdDiscovery.mOptions s0 ->
  stored s = stored s0 \/ stored s = <[MemberKey s0 (pid self) := SerializeDescriptor self]> (stored s0) ->
  let put := put_self self s in let res := record_self self put.1 put.2 in
  ok res.1 = true ->
  stored res.2 = <[MemberKey s0 (pid self) := SerializeDescriptor self]> (stored s0) /\
  EtcdDiscovery.mOptions res.2 = EtcdDiscovery.mOptions s0.
Proof.
  intros Ho Hs put res Hok. destruct (record_self_store self put.1 put.2) as [[E1 E2] E3]. fold res in E1, E2, E3.
  rewrite E3 in Hok. destruct (put_self_store self s) as [E4 [E5|[E5 _]]]; fold put in E4, E5; [|congruence].
  split; [|by rewrite E2, E4]. rewrite E1, E5, (MemberKey_same s0 s) by done.
  destruct Hs as [->| ->]; [done|]. by rewrite insert_insert_eq.
Qed.

Lemma RegisterSelf_store self s :
  ok (RegisterSelf self s).1 = true ->
  stored (RegisterSelf self s).2 = <[MemberKey s (pid self) := SerializeDescriptor self]> (stored s) /\
  EtcdDiscovery.mOptions (RegisterSelf self s).2 = EtcdDiscovery.mOptions s.
Proof.
  unfold RegisterSelf.
  assert (exists lease s1, (if (0 <? lease_ttl_seconds (EtcdDiscovery.mOptions s)) && (mLeaseId s =? 0)
    then EtcdDiscovery.GrantLease s else (Success, s)) = (lease, s1) /\ same_store s s1) as (lease & s1 & -> & [Es1 Eo1]).
  { destruct (_ && _); [|by exists Success, s]. pose proof (GrantLease_store s) as Hg.
    destruct (EtcdDiscovery.GrantLease s) as [l s1]. by exists l, s1. }
  destruct (ok lease) eqn:El; cbn [negb fst snd]; [|congruence].
  destruct (put_self self s1) as [put s2] eqn:Ep. destruct (negb (ok put) && _) eqn:Eb.
  - destruct (put_self_store self s1) as [Eo2 Hs2]. rewrite Ep in Eo2, Hs2. cbn [fst snd] in *.
    pose proof (GrantLease_store (set_lease 0 s2)) as [Es3 Eo3]. destruct (EtcdDiscovery.GrantLease (set_lease 0 s2)) as [l s3].
    cbn [fst snd] in *. destruct (ok l) eqn:El'; cbn [negb]; [|cbn; congruence].
    pose proof (put_and_record self s3 s) as Hp. destruct (put_self self s3) as [put' s4]. cbn [fst snd] in *. apply Hp.
    + rewrite Eo3. cbn. by rewrite Eo2.
    + rewrite Es3. change (stored (set_lease 0 s2)) with (stored s2). rewrite (MemberKey_same s s1), Es1 in Hs2 by done.
      destruct Hs2 as [->|[_ ->]]; auto.
  - pose proof (put_and_record self s1 s) as Hp. rewrite Ep in Hp. cbn [fst snd] in Hp. apply Hp; auto.
Qed.

Lemma Remove_store id s :
  ok (Remove id s).1 = true ->
  stored (Remove id s).2 = delete (MemberKey s id) (stored s) /\ EtcdDiscovery.mOptions (Remove id s).2 = EtcdDiscovery.mOptions s.
Proof.
  unfold Remove, on_backend. cbn [be_Delete backend_here sdk_backend]. unfold Delete, on_channel.
  pose proof (etcd_delete (ApplyDeadline (mBackend s)) (MemberKey s id) (mChannel (mBackend s))) as Hd.
  destruct (rpc_DeleteRange _ _ _) as [status w']. cbn in Hd. unfold report. intros Hok.
  destruct (StatusOk status) eqn:Es; cbn in Hok |- *; [|done]. destruct Hd as [Hd|[? _]]; [|done].
  destruct (mSelf s); cbn; [destruct (bool_decide _)|]; by split.
Qed.

(** Another process's discovery, once etcd is as the discovery [s] has left it. *)
Definition seen_from (s2 s : discovery) : discovery := set_backend ((mBackend s2) <| mChannel := mChannel (mBackend s) |>) s2.

Definition answers (s : discovery) : Prop := ok (be_GetPrefix (members_prefix s) (mBackend s)).1.1 = true.

Lemma MemberKey_prefix s s' id :
  prefix (EtcdDiscovery.mOptions s') = prefix (EtcdDiscovery.mOptions s) -> MemberKey s' id = MemberKey s id.
Proof. intros E. unfold MemberKey, members_prefix. by rewrite E. Qed.

Lemma only_members_seen s2 s :
  prefix (EtcdDiscovery.mOptions s2) = prefix (EtcdDiscovery.mOptions s) -> only_members s -> only_members (seen_from s2 s).
Proof.
  intros E Hs k v Hk Hp. destruct (Hs k v Hk) as (p & Hr & -> & ->).
  { unfold members_prefix in *. cbn in Hp. by rewrite E in Hp. }
  exists p. split; [done|]. split; [|done]. by rewrite (MemberKey_prefix s (seen_from s2 s)).
Qed.

Lemma only_members_insert s s' p :
  EtcdDiscovery.mOptions s' = EtcdDiscovery.mOptions s -> readable p ->
  stored s' = <[MemberKey s (pid p) := SerializeDescriptor p]> (stored s) -> only_members s -> only_members s'.
Proof.
  intros Eo Hp Es Hs k v Hk Hpre. unfold member_record. setoid_rewrite (MemberKey_same s s'); [|done..].
  unfold members_prefix in Hpre. rewrite Eo in Hpre. rewrite Es in Hk.
  apply lookup_insert_Some in Hk as [[<- <-]|[_ Hk]]; [by exists p|by apply Hs].
Qed.

Lemma only_members_delete s s' k0 :
  EtcdDiscovery.mOptions s' = EtcdDiscovery.mOptions s -> stored s' = delete k0 (stored s) -> only_members s -> only_members s'.
Proof.
  intros Eo Es Hs k v Hk Hpre. unfold member_record. setoid_rewrite (MemberKey_same s s'); [|done..].
  unfold members_prefix in Hpre. rewrite Eo in Hpre. rewrite Es in Hk. apply lookup_delete_Some in Hk as [_ Hk]. by apply Hs.
Qed.

(** C24: over an etcd that stores and ranges as documented, the processes of a
    cluster find each other: once one process has registered itself, the next
    snapshot of any other contains it with the very descriptor it registered, and
    every other id as etcd had it before; once a process is removed, the next
    snapshot lacks it and has all others.  This goes through lease grants, lost
    replies and the second attempt of a registration, the key of the record, the
    range of the prefix, Base64 and JSON. *)
Theorem registered_processes_found self s1 s2 :
  readable self -> only_members s1 -> prefix (EtcdDiscovery.mOptions s2) = prefix (EtcdDiscovery.mOptions s1) ->
  (let '(registered, s1') := RegisterSelf self s1 in
   ok registered = true -> answers (seen_from s2 s1') ->
   let '(refreshed, s2') := RefreshSnapshot (seen_from s2 s1') in
   refreshed = Success /\ only_members s1' /\
   forall id p, wf_process_id id -> readable p ->
     Find s2' id = Some p <->
     pid p = id /\ if decide (id = pid self) then p = self else stored s1 !! MemberKey s1 id = Some (SerializeDescriptor p)) /\
  (forall gone, wf_process_id gone ->
   let '(removed, s1') := Remove gone s1 in
   ok removed = true -> answers (seen_from s2 s1') ->
   let '(refreshed, s2') := RefreshSnapshot (seen_from s2 s1') in
   refreshed = Success /\ only_members s1' /\
   forall id p, wf_process_id id -> readable p ->
     Find s2' id = Some p <-> pid p = id /\ id <> gone /\ stored s1 !! MemberKey s1 id = Some (SerializeDescriptor p)).
Proof.
  intros Hself Hs1 Epre. split; [|intros gone Hgone].
  - pose proof (RegisterSelf_store self s1) as Hreg. destruct (RegisterSelf self s1) as [registered s1']. cbn [fst snd] in Hreg.
    intros Hok Hans. destruct (Hreg Hok) as [Est Eo]. assert (only_members s1') as Hs1' by by apply (only_members_insert s1 s1' self).
    destruct (RefreshSnapshot_stored (seen_from s2 s1')) as [Hr Hf]; [apply only_members_seen; [by rewrite Eo|done]|done|].
    destruct (RefreshSnapshot (seen_from s2 s1')) as [refreshed s2']. cbn [fst snd] in *. do 2 (split; [done|]).
    intros id p Hid Hp. rewrite Hf by done. rewrite (MemberKey_prefix s1 (seen_from s2 s1')) by done.
    change (stored (seen_from s2 s1')) with (stored s1'). rewrite Est. destruct (decide (id = pid self)) as [->|Hne].
    + rewrite lookup_insert_eq. split; intros [E1 E2]; (split; [done|]); [|by rewrite E2].
      apply SerializeDescriptor_inj; [done..|]. congruence.
    + rewrite lookup_insert_ne; [done|]. intros E%MemberKey_inj; [done|apply Hself|done].
  - pose proof (Remove_store gone s1) as Hrem. destruct (Remove gone s1) as [removed s1']. cbn [fst snd] in Hrem.
    intros Hok Hans. destruct (Hrem Hok) as [Est Eo]. assert (only_members s1') as Hs1' by by apply (only_members_delete s1 s1' (MemberKey s1 gone)).
    destruct (RefreshSnapshot_stored (seen_from s2 s1')) as [Hr Hf]; [apply only_members_seen; [by rewrite Eo|done]|done|].
    destruct (RefreshSnapshot (seen_from s2 s1')) as [refreshed s2']. cbn [fst snd] in *. do 2 (split; [done|]).
    intros id p Hid Hp. rewrite Hf by done. rewrite (MemberKey_prefix s1 (seen_from s2 s1')) by done.
    change (stored (seen_from s2 s1')) with (stored s1'). rewrite Est, lookup_delete_Some.
    split; [intros (? & E & ?); split; [done|split; [|done]]; by intros ->|].
    intros (? & E & ?). split; [done|split; [|done]]. by intros E'%MemberKey_inj.
Qed.
End membership.

(** etcd answers the keepalive of a lease it no longer has with the id that was
    asked for and a time to live of zero.  The backend looks at the id alone, so
    the keepalive of an expired lease succeeds, the discovery keeps the lease id,
    and the keepalive loop of the node has no reason to register again. *)
Theorem expired_lease_kept_alive {W : Type} `{Grpc W} (start : string -> St (EtcdSdkDiscoveryBackend.t W) Result)
    (wait : St (EtcdSdkDiscoveryBackend.t W) WatchPollResult) (stop : St (EtcdSdkDiscoveryBackend.t W) unit)
    (running : EtcdSdkDiscoveryBackend.t W -> bool) (s : EtcdDiscovery.t (EtcdSdkDiscoveryBackend.t W))
    stream response status w1 w2 w4 w5 :
  let b := EtcdDiscovery.mBackend s in
  let lease := EtcdDiscovery.mLeaseId s in
  lease <> 0 ->
  rpc_LeaseKeepAlive (EtcdSdkDiscoveryBackend.ApplyDeadline b) (EtcdSdkDiscoveryBackend.mChannel b) = (Some stream, w1) ->
  stream_Write stream (to_int64 lease) w1 = (true, w2) ->
  stream_Read stream (stream_WritesDone stream w2).2 = (Some response, w4) ->
  stream_Finish stream w4 = (status, w5) -> StatusOk status = true ->
  keep_alive_ID response = to_int64 lease -> keep_alive_ID response <> 0 -> keep_alive_TTL response = 0 ->
  let backend := EtcdSdkDiscoveryBackend.sdk_backend start wait stop running in
  (EtcdDiscovery.KeepAliveOnce s).1 = Success /\
  EtcdDiscovery.mLeaseId (EtcdDiscovery.KeepAliveOnce s).2 = lease.
Proof.
  intros b lease Hl Ho Hw Hr Hf Hs Hid Hnz _ backend. unfold EtcdDiscovery.KeepAliveOnce, EtcdDiscovery.on_backend. fold lease b.
  destruct (Z.eqb_spec lease 0) as [|_]; [done|]. cbn [be_KeepAliveOnce backend EtcdSdkDiscoveryBackend.sdk_backend].
  unfold EtcdSdkDiscoveryBackend.KeepAliveOnce, EtcdSdkDiscoveryBackend.on_channel. rewrite Ho. cbn [EtcdSdkDiscoveryBackend.mChannel].
  cbn -[to_int64 stream_Write stream_WritesDone stream_Read stream_Finish Z.eqb]. rewrite Hw.
  cbn -[to_int64 stream_WritesDone stream_Read stream_Finish Z.eqb]. destruct (stream_WritesDone stream w2) as [[] w3]. cbn [snd] in Hr.
  cbn -[to_int64 stream_Read stream_Finish Z.eqb]. rewrite Hr. cbn -[to_int64 stream_Finish Z.eqb]. rewrite Hf, Hs. cbn -[to_int64 Z.eqb].
  by destruct (Z.eqb_spec (keep_alive_ID response) 0).
Qed.

(** ** An example: an etcd that obeys its documentation and a JSON reader *)

Module ExampleEtcd.

(** [streams] holds the ids that were written to the keepalive streams. *)
Record server := mkServer {
  records : gmap string (string * Z); leases : gmap Z Z; next_lease : Z; streams : gmap Z Z; up : bool
}.
#[export] Instance eta_server : Eta server :=
  fun w => mkServer (records w) (leases w) (next_lease w) (streams w) (up w).

Definition OK : Status := mkStatus 0 "".
Definition UNAVAILABLE : Status := mkStatus 14 "connection refused".
Definition lease_not_found : Status := mkStatus 5 "etcdserver: requested lease not found".

Definition selected (r : RangeRequest) (k : string) : bool :=
  if String.eqb (range_end r) "" then String.eqb k (range_key r) else in_range (range_key r) (range_end r) k.

Definition kv (w : server) : gmap string string := fst <$> records w.

#[export] Instance example_grpc : Grpc server := {
  rpc_LeaseGrant := fun _ ttl w =>
    if up w then ((OK, next_lease w), w <| leases := <[next_lease w := ttl]> (leases w) |> <| next_lease := next_lease w + 1 |>)
    else ((UNAVAILABLE, 0), w);
  rpc_Put := fun _ r w =>
    if negb (up w) then (UNAVAILABLE, w)
    else if (put_lease r =? 0) || bool_decide (is_Some (leases w !! put_lease r)) then
      (OK, w <| records := <[put_key r := (put_value r, put_lease r)]> (records w) |>)
    else (lease_not_found, w);
  rpc_Range := fun _ r w =>
    if up w then ((OK, filter (fun '(k, _) => selected r k = true) (map_to_list (kv w))), w) else ((UNAVAILABLE, []), w);
  rpc_DeleteRange := fun _ r w =>
    if up w then (OK, w <| records := filter (fun '(k, _) => selected r k = false) (records w) |>) else (UNAVAILABLE, w);
  rpc_LeaseKeepAlive := fun _ w => (Some (Z.of_nat (size (streams w))), w);
  stream_Write := fun stream id w => (true, w <| streams := <[stream := id]> (streams w) |>);
  stream_WritesDone := fun _ w => (tt, w);
  stream_Read := fun stream w =>
    (if up w then (fun id => mkKeepAlive id (default 0 (leases w !! id))) <$> streams w !! stream else None, w);
  stream_Finish := fun _ w => (if up w then OK else UNAVAILABLE, w)
}.

(** The lease runs out: etcd drops it with the records attached to it. *)
Definition expire (lease : Z) (w : server) : server :=
  w <| leases := delete lease (leases w) |> <| records := filter (fun '(_, (_, l)) => l <> lease) (records w) |>.

#[export] Instance example_law : EtcdLaw server kv.
Proof.
  split.
  - intros d ttl w. cbn. by destruct (up w).
  - intros d r w. cbn. destruct (up w); cbn; [|by right]. destruct (_ || _); cbn; [left|by right].
    unfold kv. cbn. by rewrite fmap_insert.
  - intros d k w. cbn. destruct (up w); cbn; [left|by right]. unfold kv, selected. cbn.
    apply map_eq. intros k'. rewrite lookup_fmap. destruct (decide (k' = k)) as [->|Hne].
    + rewrite lookup_delete_eq. rewrite map_lookup_filter_None_2; [done|]. right. intros x _. by rewrite String.eqb_refl.
    + rewrite lookup_delete_ne, lookup_fmap by done. apply String.eqb_neq in Hne. f_equal.
      apply option_eq. intros x. rewrite map_lookup_filter_Some. rewrite Hne. tauto.
  - intros d r w. cbn. by destruct (up w).
  - intros d r w. cbn. destruct (up w); cbn; [|done]. intros _ He. split.
    + apply (sublist_NoDup _ (map_to_list (kv w)).*1); [apply NoDup_fst_map_to_list|apply fmap_sublist, sublist_filter].
    + intros k v. rewrite list_elem_of_filter, elem_of_map_to_list. unfold selected.
      destruct (String.eqb_spec (range_end r) "") as [|_]; [done|]. tauto.
Qed.

(** A JSON reader that knows the one shape it is given: the strings between the
    quotes. *)
Fixpoint between_quotes (text field : string) : list string :=
  match text with
  | EmptyString => [field]
  | String c rest => if Ascii.eqb c quote then field :: between_quotes rest "" else between_quotes rest (field +:+ String c "")
  end.

Fixpoint read_pairs (fields : list string) : list (string * string) :=
  match fields with
  | _ :: _ :: key :: _ :: _ :: _ :: value :: _ :: rest => (key, value) :: read_pairs rest
  | _ => []
  end.

Definition reader : Glaze := {|
  write_descriptor := @write_descriptor example_glaze;
  read_descriptor := @read_descriptor example_glaze;
  read_response := fun text => inr (read_pairs (drop 3 (between_quotes text "")))
|}.

Lemma between_quotes_field a b field :
  lacks quote a = true -> between_quotes (a +:+ String quote b) field = (field +:+ a) :: between_quotes b "".
Proof.
  revert field. induction a as [|c a IH]; intros field.
  - intros _. rewrite string_app_nil_l. cbn [between_quotes]. rewrite Ascii.eqb_refl. f_equal.
    induction field as [|x field IHf]; [done|]. rewrite string_app_cons. by rewrite <- IHf.
  - unfold lacks. cbn [str_forall]. intros [Hc Ha]%andb_true_iff. rewrite string_app_cons. cbn [between_quotes].
    destruct (Ascii.eqb c quote); [done|]. rewrite IH by done. by rewrite string_app_assoc.
Qed.

Lemma encoded_lacks_quote v : lacks quote (JsonEscape (Base64Encode v)) = true.
Proof.
  rewrite escape_plain by apply encode_plain. pose proof (encode_plain v) as Hp. unfold lacks.
  eapply str_forall_impl; [|exact Hp]. intros c. unfold plain. intros [_ Hc]%andb_true_iff.
  apply negb_true_iff, Z.eqb_neq in Hc. destruct (Ascii.eqb_spec c quote) as [->|]; [|done]. by exfalso; apply Hc.
Qed.

Lemma between_quotes_some text field : between_quotes text field <> [].
Proof. revert field. induction text as [|c text IH]; intros field; [done|]. cbn [between_quotes]. by destruct (Ascii.eqb c quote). Qed.

Lemma render_kvs_fields (first : bool) kv kvs :
  render_kvs first (kv :: kvs) +:+ "]}" =
  ((if first then "" else ",") +:+ "{") +:+ String quote ("key" +:+ String quote (":" +:+ String quote
  (JsonEscape (Base64Encode kv.1) +:+ String quote ("," +:+ String quote ("value" +:+ String quote (":" +:+ String quote
  (JsonEscape (Base64Encode kv.2) +:+ String quote ("}" +:+ (render_kvs false kvs +:+ "]}"))))))))).
Proof. cbn [render_kvs]. unfold render_kv. rewrite !string_app_assoc. by repeat (rewrite ?string_app_cons, ?string_app_assoc; f_equal). Qed.

Lemma read_rendered first kvs field :
  read_pairs (tail (between_quotes (render_kvs first kvs +:+ "]}") field)) =
  (fun kv => (JsonEscape (Base64Encode kv.1), JsonEscape (Base64Encode kv.2))) <$> kvs.
Proof.
  revert first field. induction kvs as [|kv kvs IH]; intros first field; [done|]. rewrite render_kvs_fields.
  rewrite !between_quotes_field by (apply encoded_lacks_quote || by destruct first).
  change (between_quotes ("}" +:+ ?x) "") with (between_quotes x "}").
  rewrite fmap_cons, <- (IH false "}"). destruct (between_quotes _ "}") eqn:E; [by apply between_quotes_some in E|done].
Qed.

Lemma reader_reads kvs : @read_response reader (RenderRangeResponse kvs) = inr ((fun kv => (Base64Encode kv.1, Base64Encode kv.2)) <$> kvs).
Proof.
  cbn [read_response reader]. f_equal. unfold RenderRangeResponse.
  change (String "{" (String quote ?x)) with ("{" +:+ String quote x).
  rewrite !between_quotes_field by done. change (between_quotes (":[" +:+ ?x) "") with (between_quotes x ":[").
  change (drop 3 (?a :: ?b :: ?l)) with (drop 1 l).
  assert (forall l : list string, drop 1 l = tail l) as -> by by intros [].
  transitivity ((fun kv : string * string => (JsonEscape (Base64Encode kv.1), JsonEscape (Base64Encode kv.2))) <$> kvs).
  - apply read_rendered.
  - apply list_fmap_ext. intros i kv _. by rewrite !escape_plain by apply encode_plain.
Qed.
End ExampleEtcd.

Module ExampleCluster.
Import ExampleEtcd.

(** A game that registered under lease 1, and two more processes of the cluster. *)
Definition one_game : server :=
  mkServer {["/x/members/20/1" := ("first", 1)]} {[1 := 5]} 2 ∅ true.
Definition process_on (w : server) : EtcdDiscovery.t (EtcdSdkDiscoveryBackend.t server) :=
  EtcdDiscovery.create example_options (EtcdSdkDiscoveryBackend.mk example_options w).
Definition no_watch : IEtcdDiscoveryBackend (EtcdSdkDiscoveryBackend.t server) :=
  EtcdSdkDiscoveryBackend.sdk_backend (fun _ s => (Success, s)) (fun s => (mkWatchPollResult wk_stopped "", s)) (fun s => (tt, s)) (fun _ => false).
#[local] Existing Instance no_watch.
#[local] Existing Instance reader.
#[local] Existing Instance order_Z.

Lemma example_members : only_members (kv := kv) (process_on one_game).
Proof.
  intros k v Hk _. assert (stored (kv := kv) (process_on one_game) = {["/x/members/20/1" := "first"]}) as E by (vm_compute; reflexivity).
  rewrite E in Hk. apply lookup_singleton_Some in Hk as [<- <-]. exists descriptor_1.
  split; [split; [by vm_compute|reflexivity]|]. split; vm_compute; reflexivity.
Qed.

Definition registered := EtcdDiscovery.RegisterSelf descriptor_2 (process_on one_game).
Definition removed := EtcdDiscovery.Remove (pid descriptor_1) (process_on one_game).
Definition observer := process_on one_game.

Lemma descriptor_1_readable : readable descriptor_1.
Proof. split; [by vm_compute|]. vm_compute. reflexivity. Qed.

Lemma descriptor_2_readable : readable descriptor_2.
Proof. split; [by vm_compute|]. vm_compute. reflexivity. Qed.

Lemma registered_processes_found_witness :
  EtcdDiscovery.Find (EtcdDiscovery.RefreshSnapshot (seen_from observer registered.2)).2 (pid descriptor_2) = Some descriptor_2 /\
  EtcdDiscovery.Find (EtcdDiscovery.RefreshSnapshot (seen_from observer registered.2)).2 (pid descriptor_1) = Some descriptor_1 /\
  EtcdDiscovery.Find (EtcdDiscovery.RefreshSnapshot (seen_from observer removed.2)).2 (pid descriptor_1) <> Some descriptor_1.
Proof.
  destruct (registered_processes_found (kv := kv) (fun _ s => (Success, s)) (fun s => (mkWatchPollResult wk_stopped "", s)) (fun s => (tt, s)) (fun _ => false)
    reader_reads descriptor_2 (process_on one_game) observer) as [Hreg Hrem];
    [apply descriptor_2_readable|apply example_members|reflexivity|].
  pose proof descriptor_1_readable as H1. pose proof descriptor_2_readable as H2.
  specialize (Hrem (pid descriptor_1) (proj1 H1)).
  change (EtcdDiscovery.RegisterSelf descriptor_2 (process_on one_game)) with registered in Hreg.
  change (EtcdDiscovery.Remove (pid descriptor_1) (process_on one_game)) with removed in Hrem.
  rewrite (surjective_pairing registered) in Hreg. rewrite (surjective_pairing removed) in Hrem.
  specialize (Hreg ltac:(vm_compute; reflexivity) ltac:(vm_compute; reflexivity)).
  specialize (Hrem ltac:(vm_compute; reflexivity) ltac:(vm_compute; reflexivity)).
  match type of Hreg with context[EtcdDiscovery.RefreshSnapshot ?s] => rewrite (surjective_pairing (EtcdDiscovery.RefreshSnapshot s)) in Hreg end.
  match type of Hrem with context[EtcdDiscovery.RefreshSnapshot ?s] => rewrite (surjective_pairing (EtcdDiscovery.RefreshSnapshot s)) in Hrem end.
  destruct Hreg as (_ & _ & Hreg), Hrem as (_ & _ & Hrem).
  split; [|split].
  - apply Hreg; [apply H2|done|]. split; [reflexivity|]. by rewrite decide_True by reflexivity.
  - apply Hreg; [apply H1|done|]. split; [reflexivity|]. rewrite decide_False by done. vm_compute. reflexivity.
  - intros Hf. apply Hrem in Hf; [|apply H1|done]. by destruct Hf as (_ & Hf & _).
Defined.

(** The lease of the game has run out: nobody finds it any more, its keepalives succeed. *)
Definition forgotten_game := EtcdDiscovery.set_lease 1 (process_on (expire 1 one_game)).
Definition streamed : server := (expire 1 one_game) <| streams := {[0 := 1]} |>.

Lemma expired_lease_kept_alive_witness :
  (EtcdDiscovery.KeepAliveOnce forgotten_game).1 = Success /\
  EtcdDiscovery.mLeaseId (EtcdDiscovery.KeepAliveOnce forgotten_game).2 = 1 /\
  EtcdDiscovery.Find (EtcdDiscovery.RefreshSnapshot (seen_from observer forgotten_game)).2 (pid descriptor_1) = None.
Proof.
  destruct (expired_lease_kept_alive (fun _ s => (Success, s)) (fun s => (mkWatchPollResult wk_stopped "", s)) (fun s => (tt, s)) (fun _ => false)
    forgotten_game 0 (mkKeepAlive 1 0) OK (expire 1 one_game) streamed streamed streamed) as [Hok Hlease]; [done..|].
  split; [exact Hok|]. split; [exact Hlease|]. vm_compute. reflexivity.
Defined.
End ExampleCluster.
