(* ===== verification/EtcdWatch.v ===== *)
(** * The watch of the etcd discovery
      (src/framework/ipc/discovery/etcd_sdk_discovery_backend.cpp, etcd_discovery.cpp)

    [Watch] is the watch of [EtcdSdkDiscoveryBackend]: the queue, the flags, the
    context and the threads that run [WatchLoop] on a gRPC stream.  [WatchSystem]
    puts it under [EtcdDiscovery]: its watch thread, which starts, polls and stops
    the backend's watch, and its owner, who stops both.  Every turn is a critical
    section of [mWatchMutex] or [mMutex], or a call that blocks. *)

From S2P Require Import Prelude Text Base EtcdText Discovery EtcdBackend.

Module Watch.

Record WatchResponse := mkWatchResponse { canceled : bool; events_size : Z }.

(** Where a thread stands in [WatchLoop]: before it has stored its context, at a
    call of the stream, at one of the sections after it, or returned. *)
Inductive loop_pc :=
| l_opens | l_writes | l_write_failed | l_reads | l_finishes (emitted_terminal : bool)
| l_asks (emitted_terminal : bool) (status : Status) | l_clears (last : option WatchPollResult)
| l_pushes (last : WatchPollResult) | l_done.

(** A thread and its stream: whether its context was cancelled, the request it
    wrote, the responses that arrived and were not read, the end of the stream. *)
Record thread := mkThread {
  pc : loop_pc; key_prefix : string; cancelled : bool; written : option RangeRequest;
  arrived : list WatchResponse; stream_end : option Status
}.
#[export] Instance eta_thread : Eta thread :=
  fun th => mkThread (pc th) (key_prefix th) (cancelled th) (written th) (arrived th) (stream_end th).

(** Threads and their contexts are known by the position of the thread. *)
Record t := mk {
  mWatchQueue : list WatchPollResult; mWatchThread : option nat; mWatchContext : option nat;
  mWatchRunning : bool; mWatchStopRequested : bool; threads : list thread
}.
#[export] Instance eta_t : Eta t :=
  fun s => mk (mWatchQueue s) (mWatchThread s) (mWatchContext s) (mWatchRunning s) (mWatchStopRequested s) (threads s).

Definition initial : t := mk [] None None false false [].

Definition stopped_result : WatchPollResult := mkWatchPollResult wk_stopped "".

(** [None]: the assignment to a joinable [std::thread] ends the process. *)
Definition StartWatchPrefix (prefix : string) (s : t) : option (Result * t) :=
  if mWatchRunning s then Some (Success, s)
  else match mWatchThread s with
  | Some _ => None
  | None =>
      Some (Success, s <| mWatchStopRequested := false |> <| mWatchQueue := [] |> <| mWatchThread := Some (length (threads s)) |>
        <| threads := threads s ++ [mkThread l_opens prefix false None [] None] |> <| mWatchRunning := true |>)
  end.

(** [None]: the caller keeps waiting for the condition. *)
Definition WaitForWatchEvent (s : t) : option (WatchPollResult * t) :=
  match mWatchQueue s with
  | result :: rest => Some (result, s <| mWatchQueue := rest |>)
  | [] => if mWatchRunning s then None else Some (stopped_result, s)
  end.

Definition TryCancel (i : nat) (s : t) : t := s <| threads := alter (fun th => th <| cancelled := true |>) i (threads s) |>.

(** The locked part of [StopWatch]; the result is the thread to join. *)
Definition StopWatch : St t (option nat) :=
  fun s =>
    let s := s <| mWatchStopRequested := true |> in
    let s := match mWatchContext s with Some i => TryCancel i s | None => s end in
    (mWatchThread s, s <| mWatchThread := None |> <| mWatchRunning := false |> <| mWatchQueue := mWatchQueue s ++ [stopped_result] |>).

(** The join returns once the thread has returned. *)
Definition joined (thread : option nat) (s : t) : bool :=
  match thread ≫= fun i => threads s !! i with
  | Some th => match pc th with l_done => true | _ => false end
  | None => true
  end.

Definition WatchRunning (s : t) : bool := mWatchRunning s.

(** *** [WatchLoop] *)

Definition PushWatchResult (result : WatchPollResult) (s : t) : t := s <| mWatchQueue := mWatchQueue s ++ [result] |>.
Definition set_thread (i : nat) (th : thread) (s : t) : t := s <| threads := <[i := th]> (threads s) |>.
Definition goto (i : nat) (th : thread) (pc' : loop_pc) (s : t) : t := set_thread i (th <| pc := pc' |>) s.

(** What the loop pushes at its end. *)
Definition last_result (stop_requested emitted_terminal : bool) (status : Status) : option WatchPollResult :=
  if stop_requested then Some stopped_result
  else if emitted_terminal then None
  else if StatusOk status || (error_code status =? CANCELLED) then Some (mkWatchPollResult wk_stream_closed "")
  else Some (mkWatchPollResult wk_error (GrpcStatusMessage "Watch" status)).

(** A turn of thread [i]; [answer] is what [Watch] or [Write] returns.  A write
    fails only on a broken stream; a read returns [false] once nothing is left and
    the stream has ended, [Finish] once it has ended. *)
Definition loop_turn (i : nat) (answer : bool) (s : t) : option t :=
  th ← threads s !! i;
  match pc th with
  | l_opens =>
      let s := s <| mWatchContext := Some i |> in
      Some (goto i th (if answer then l_writes else l_clears (Some (mkWatchPollResult wk_error "Watch failed to create stream"))) s)
  | l_writes =>
      if answer then
        Some (set_thread i (th <| written := Some (mkRangeRequest (key_prefix th) (PrefixRangeEnd (key_prefix th))) |> <| pc := l_reads |>) s)
      else if cancelled th || bool_decide (is_Some (stream_end th)) then Some (goto i th l_write_failed s) else None
  | l_write_failed =>
      status ← stream_end th;
      Some (goto i th (l_clears (Some (mkWatchPollResult wk_error (GrpcStatusMessage "Watch.WriteCreate" status)))) s)
  | l_reads =>
      match arrived th with
      | response :: rest =>
          let th := th <| arrived := rest |> in
          if canceled response then Some (goto i th (l_finishes true) (PushWatchResult (mkWatchPollResult wk_stream_closed "") s))
          else if 0 <? events_size response then Some (goto i th l_reads (PushWatchResult (mkWatchPollResult wk_event "") s))
          else Some (goto i th l_reads s)
      | [] => _ ← stream_end th; Some (goto i th (l_finishes false) s)
      end
  | l_finishes emitted_terminal => status ← stream_end th; Some (goto i th (l_asks emitted_terminal status) s)
  | l_asks emitted_terminal status => Some (goto i th (l_clears (last_result (mWatchStopRequested s) emitted_terminal status)) s)
  | l_clears last =>
      let s := s <| mWatchContext := None |> <| mWatchRunning := false |> in
      Some (goto i th (match last with Some result => l_pushes result | None => l_done end) s)
  | l_pushes last => Some (goto i th l_done (PushWatchResult last s))
  | l_done => None
  end.

(** The stream is open between the call that opens it and [Finish]. *)
Definition streaming (pc : loop_pc) : bool :=
  match pc with l_writes | l_write_failed | l_reads | l_finishes _ => true | _ => false end.

(** A response arrives, unless the call was cancelled or has ended. *)
Definition deliver (i : nat) (response : WatchResponse) (s : t) : option t :=
  th ← threads s !! i;
  if streaming (pc th) && negb (cancelled th) && negb (bool_decide (is_Some (stream_end th)))
  then Some (set_thread i (th <| arrived := arrived th ++ [response] |>) s) else None.

(** The stream ends: the server ends it, the connection breaks, or the
    cancellation takes effect. *)
Definition end_stream (i : nat) (status : Status) (s : t) : option t :=
  th ← threads s !! i;
  if streaming (pc th) && negb (bool_decide (is_Some (stream_end th)))
  then Some (set_thread i (th <| stream_end := Some status |>) s) else None.

End Watch.

(** ** The watch under [EtcdDiscovery] *)

Module WatchSystem.
Import Watch.

(** Where the watch thread of the discovery stands: no thread; at the head of the
    outer loop; polling; about to apply a snapshot after an event; about to lock
    after [stopped], or after the end of the stream; refreshing, stopping the
    backend and joining there; waiting for the next round; behind the loop;
    joining with [mMutex] held; returned; ended with the process. *)
Inductive watcher_pc :=
| d_none | d_start | d_poll | d_apply | d_stopped | d_closed | d_refresh | d_restop | d_joins (thread : option nat)
| d_wait | d_exit | d_joins_locked (thread : option nat) | d_done | d_terminated.

(** The owner: outside [StopWatch], joining the thread of the backend with
    [mMutex] held, joining the watch thread. *)
Inductive owner_pc := o_idle | o_joins_loop (thread : option nat) | o_joins_watch.

Record system := mkSystem { backend : Watch.t; prefix : string; mStopWatch : bool; watcher : watcher_pc; owner : owner_pc }.
#[export] Instance eta_system : Eta system := fun s => mkSystem (backend s) (prefix s) (mStopWatch s) (watcher s) (owner s).

Definition initial (prefix : string) : system := mkSystem Watch.initial prefix false d_none o_idle.

(** [mMutex] is held across steps by whoever joins with it. *)
Definition mutex_free (s : system) : bool :=
  match owner s, watcher s with o_joins_loop _, _ | _, d_joins_locked _ => false | _, _ => true end.

(** [mBackend->StopWatch()], up to its join. *)
Definition stops_backend (next : option nat -> watcher_pc) (s : system) : system :=
  let '(thread, b) := StopWatch (backend s) in s <| backend := b |> <| watcher := next thread |>.

(** A turn of [EtcdDiscovery::WatchLoop]; [None]: it is blocked or has ended. *)
Definition watcher_turn (s : system) : option system :=
  match watcher s with
  | d_start =>
      if negb (mutex_free s) then None
      else if mStopWatch s then Some (s <| watcher := d_exit |>)
      else match StartWatchPrefix (prefix s +:+ "/members/") (backend s) with
      | None => Some (s <| watcher := d_terminated |>)
      | Some (start_result, b) => Some (s <| backend := b |> <| watcher := if ok start_result then d_poll else d_start |>)
      end
  | d_poll =>
      '(result, b) ← WaitForWatchEvent (backend s);
      Some (s <| backend := b |> <| watcher :=
        match wp_kind result with wk_event => d_apply | wk_stopped => d_stopped | wk_stream_closed | wk_error => d_closed end |>)
  | d_apply => if mutex_free s then Some (s <| watcher := d_poll |>) else None
  | d_stopped => if mutex_free s then Some (s <| watcher := d_done |>) else None
  | d_closed =>
      if negb (mutex_free s) then None
      else if mStopWatch s then Some (stops_backend d_joins_locked s) else Some (s <| watcher := d_refresh |>)
  | d_refresh => if mutex_free s then Some (s <| watcher := d_restop |>) else None
  | d_restop => Some (stops_backend d_joins s)
  | d_joins thread => if joined thread (backend s) then Some (s <| watcher := d_wait |>) else None
  | d_wait => if mutex_free s then Some (s <| watcher := if mStopWatch s then d_exit else d_start |>) else None
  | d_exit => if mutex_free s then Some (stops_backend d_joins_locked s) else None
  | d_joins_locked thread => if joined thread (backend s) then Some (s <| watcher := d_done |>) else None
  | d_none | d_done | d_terminated => None
  end.

(** [EtcdDiscovery::StartWatch]: only a thread object that is not joinable is
    started, and only when the first snapshot succeeds. *)
Definition StartWatch (refreshed : bool) (s : system) : system :=
  match watcher s with
  | d_none => s <| mStopWatch := false |> <| watcher := if refreshed then d_start else d_none |>
  | _ => s
  end.

(** [EtcdDiscovery::StopWatch] up to its first join, and its turns from there. *)
Definition StopWatch (s : system) : system :=
  let '(thread, b) := Watch.StopWatch (backend s) in
  s <| mStopWatch := true |> <| backend := b |> <| owner := o_joins_loop thread |>.

Definition owner_turn (s : system) : option system :=
  match owner s with
  | o_idle => None
  | o_joins_loop thread => if joined thread (backend s) then Some (s <| owner := o_joins_watch |>) else None
  | o_joins_watch =>
      match watcher s with
      | d_done | d_none => Some (s <| watcher := d_none |> <| owner := o_idle |>)
      | _ => None
      end
  end.

(** The threads and the network.  In a [quiet] run etcd sends events but neither
    cancels the watch nor ends the stream. *)
Inductive thread_step (quiet : bool) (s : system) : system -> Prop :=
| step_loop i answer b : loop_turn i answer (backend s) = Some b -> thread_step quiet s (s <| backend := b |>)
| step_deliver i response b :
    deliver i response (backend s) = Some b -> (quiet = true -> canceled response = false) -> thread_step quiet s (s <| backend := b |>)
| step_end i status b :
    end_stream i status (backend s) = Some b ->
    (quiet = true -> exists th, threads (backend s) !! i = Some th /\ cancelled th = true) -> thread_step quiet s (s <| backend := b |>)
| step_watcher s' : watcher_turn s = Some s' -> thread_step quiet s s'
| step_owner s' : owner_turn s = Some s' -> thread_step quiet s s'.

Inductive step (s : system) : system -> Prop :=
| step_thread s' : thread_step false s s' -> step s s'
| step_StartWatch refreshed : owner s = o_idle -> mutex_free s = true -> step s (StartWatch refreshed s)
| step_StopWatch : owner s = o_idle -> mutex_free s = true -> step s (StopWatch s).

End WatchSystem.

(** ** Lemmas *)

Module WatchProofs.
Import Watch WatchSystem.

Definition pcs (b : Watch.t) : list loop_pc := pc <$> threads b.

(** The context of the thread is stored in [mWatchContext]. *)
Definition registered (p : loop_pc) : bool := match p with l_opens | l_pushes _ | l_done => false | _ => true end.

Definition alive (b : Watch.t) (i : nat) : Prop := exists p, pcs b !! i = Some p /\ p <> l_done.

Lemma pcs_set_thread i th b : pcs (set_thread i th b) = <[i := pc th]> (pcs b).
Proof. unfold pcs. cbn. apply list_fmap_insert. Qed.

Lemma pcs_thread b i th : threads b !! i = Some th -> pcs b !! i = Some (pc th).
Proof. intros E. unfold pcs. by rewrite list_lookup_fmap, E. Qed.

Lemma pcs_TryCancel i b : pcs (TryCancel i b) = pcs b.
Proof.
  unfold pcs. cbn. apply list_eq. intros j. rewrite !list_lookup_fmap. destruct (decide (i = j)) as [->|].
  - rewrite list_lookup_alter_eq. by destruct (threads b !! j).
  - by rewrite list_lookup_alter_ne.
Qed.

Lemma pcs_goto i th p b : pcs (goto i th p b) = <[i := p]> (pcs b).
Proof. unfold goto. by rewrite pcs_set_thread. Qed.

(** A turn that was taken, up to what it does to the context. *)
Ltac turned :=
  simplify_eq/=; eexists;
  (split; [done|]; split; [done|]; split; [by rewrite ?pcs_goto, ?pcs_set_thread|]; split; [by repeat case_match|]; split; [done|]).

(** What a turn of thread [i] does to the watch. *)
Lemma loop_turn_spec i answer b b' :
  loop_turn i answer b = Some b' ->
  exists p p', pcs b !! i = Some p /\ p <> l_done /\ pcs b' = <[i := p']> (pcs b) /\ p' <> l_opens /\
    mWatchThread b' = mWatchThread b /\
    ((registered p = false /\ registered p' = true /\ mWatchContext b' = Some i /\ mWatchRunning b' = mWatchRunning b) \/
     (registered p' = registered p /\ mWatchContext b' = mWatchContext b /\ mWatchRunning b' = mWatchRunning b) \/
     (registered p = true /\ registered p' = false /\ mWatchContext b' = None /\ mWatchRunning b' = false)).
Proof.
  unfold loop_turn. destruct (threads b !! i) as [th|] eqn:Eth; [|done]. cbn. intros Hs. exists (pc th).
  pose proof (pcs_thread b i th Eth) as Epc.
  destruct (pc th) as [| | | |e|e st|last|last|] eqn:Ep.
  - turned. left. by destruct answer.
  - destruct answer; [|destruct (_ || _)]; turned; right; by left.
  - destruct (stream_end th); turned. right; by left.
  - destruct (arrived th) as [|r rest]; [destruct (stream_end th)|destruct (canceled r); [|destruct (0 <? events_size r)]];
      turned; right; by left.
  - destruct (stream_end th); turned. right; by left.
  - turned. right; by left.
  - turned. right. right. by destruct last.
  - turned. right; by left.
  - done.
Qed.

(** A step that is not a turn of the loop moves no thread. *)
Definition same_watch (b b' : Watch.t) : Prop :=
  pcs b' = pcs b /\ mWatchThread b' = mWatchThread b /\ mWatchContext b' = mWatchContext b /\ mWatchRunning b' = mWatchRunning b.

Lemma set_thread_same i th th' b : threads b !! i = Some th -> pc th' = pc th -> same_watch b (set_thread i th' b).
Proof.
  intros E Ep. split; [|done]. rewrite pcs_set_thread, Ep. apply list_insert_id. by apply pcs_thread.
Qed.

Lemma deliver_same i r b b' : deliver i r b = Some b' -> same_watch b b'.
Proof.
  unfold deliver. destruct (threads b !! i) as [th|] eqn:E; [|done]. cbn. destruct (_ && _); [|done]. intros; simplify_eq.
  by apply (set_thread_same i th).
Qed.

Lemma end_stream_same i st b b' : end_stream i st b = Some b' -> same_watch b b'.
Proof.
  unfold end_stream. destruct (threads b !! i) as [th|] eqn:E; [|done]. cbn. destruct (_ && _); [|done]. intros; simplify_eq.
  by apply (set_thread_same i th).
Qed.

Lemma WaitForWatchEvent_same b r b' : WaitForWatchEvent b = Some (r, b') -> same_watch b b'.
Proof. unfold WaitForWatchEvent. destruct (mWatchQueue b); [destruct (mWatchRunning b)|]; intros; by simplify_eq. Qed.

Lemma StopWatch_spec b :
  (Watch.StopWatch b).1 = mWatchThread b /\ pcs (Watch.StopWatch b).2 = pcs b /\ mWatchThread (Watch.StopWatch b).2 = None /\
  mWatchContext (Watch.StopWatch b).2 = mWatchContext b /\ mWatchRunning (Watch.StopWatch b).2 = false.
Proof. unfold Watch.StopWatch. cbn. destruct (mWatchContext b) as [i|] eqn:E; cbn; rewrite ?E; split; auto. split; [|done]. exact (pcs_TryCancel i b). Qed.

Lemma StartWatchPrefix_spec prefix b :
  mWatchThread b = None -> mWatchRunning b = false ->
  exists b', StartWatchPrefix prefix b = Some (Success, b') /\ pcs b' = pcs b ++ [l_opens] /\
    mWatchThread b' = Some (length (pcs b)) /\ mWatchContext b' = mWatchContext b /\ mWatchRunning b' = true.
Proof.
  intros Et Er. unfold StartWatchPrefix. rewrite Et, Er. eexists. split; [done|]. unfold pcs. cbn.
  by rewrite fmap_app, length_fmap.
Qed.

(** *** The invariant of the threads *)

Definition watcher_joins (w : watcher_pc) : option nat := match w with d_joins i | d_joins_locked i => i | _ => None end.
Definition owner_joins (o : owner_pc) : option nat := match o with o_joins_loop i => i | _ => None end.

(** Where the watch thread has joined the backend's thread, or has none yet. *)
Definition between_watches (w : watcher_pc) : bool :=
  match w with d_none | d_start | d_joins _ | d_wait | d_exit | d_joins_locked _ => true | _ => false end.

Record threads_inv (s : system) : Prop := {
  inv_alive : forall i, alive (backend s) i ->
    mWatchThread (backend s) = Some i \/ watcher_joins (watcher s) = Some i \/ owner_joins (owner s) = Some i;
  inv_one : forall i j, alive (backend s) i -> alive (backend s) j -> i = j;
  inv_between : between_watches (watcher s) = true -> mWatchThread (backend s) = None;
  inv_owner : owner s <> o_idle -> mStopWatch s = true /\ mWatchThread (backend s) = None;
  inv_running : mWatchThread (backend s) = None -> mWatchRunning (backend s) = false;
  inv_context : forall i, mWatchContext (backend s) = Some i <-> exists p, pcs (backend s) !! i = Some p /\ registered p = true;
  inv_terminated : watcher s <> d_terminated
}.

Lemma alive_pcs b b' i : pcs b' = pcs b -> alive b' i <-> alive b i.
Proof. intros E. unfold alive. by rewrite E. Qed.

(** Steps after which the watch is as it was, but for what is observed of the
    watch thread and the owner. *)
Lemma threads_inv_same s s' :
  threads_inv s -> same_watch (backend s) (backend s') ->
  (forall i, alive (backend s) i -> watcher_joins (watcher s) = Some i \/ owner_joins (owner s) = Some i ->
     watcher_joins (watcher s') = Some i \/ owner_joins (owner s') = Some i) ->
  (between_watches (watcher s') = true -> mWatchThread (backend s) = None) ->
  (owner s' <> o_idle -> mStopWatch s' = true /\ mWatchThread (backend s) = None) ->
  watcher s' <> d_terminated -> threads_inv s'.
Proof.
  intros Hinv (Ep & Et & Ec & Er) Hj Hb Ho Ht. split; rewrite ?Et, ?Er, ?Ec, ?Ep; try done.
  - intros i Hi. rewrite (alive_pcs (backend s)) in Hi by done. destruct (inv_alive s Hinv i Hi) as [?|Hi']; [by left|right]. by apply Hj.
  - intros i j. rewrite !(alive_pcs (backend s) (backend s')) by done. apply (inv_one s Hinv).
  - apply (inv_running s Hinv).
  - apply (inv_context s Hinv).
Qed.

Lemma not_alive_joined thread b i : joined thread b = true -> alive b i -> thread = Some i -> False.
Proof.
  intros Hj (p & Hp & Hd) ->. unfold joined in Hj. cbn in Hj. unfold pcs in Hp. rewrite list_lookup_fmap in Hp.
  destruct (threads b !! i) as [th|]; [|done]. cbn in *. simplify_eq. by destruct (pc th).
Qed.

Lemma loop_turn_inv s i answer b :
  threads_inv s -> loop_turn i answer (backend s) = Some b -> threads_inv (s <| backend := b |>).
Proof.
  intros Hinv (p & p' & Hp & Hd & Ep & Ho & Et & Hc)%loop_turn_spec.
  assert (i < length (pcs (backend s)))%nat as Hlen by by eapply lookup_lt_Some.
  assert (alive (backend s) i) as Hi by by exists p.
  assert (forall j, alive b j -> alive (backend s) j) as Hal.
  { intros j (q & Hq & Hqd). rewrite Ep in Hq. apply list_lookup_insert_Some in Hq as [(<- & _ & _)|[_ Hq]]; [done|by exists q]. }
  destruct Hinv as [Ha H1 Hb Hw Hr Hctx Ht]. split; cbn; rewrite ?Et; auto.
  - intros E. specialize (Hr E). destruct Hc as [(_ & _ & _ & ->)|[(_ & _ & ->)|(_ & _ & _ & ->)]]; done.
  - intros j. rewrite Ep. destruct (decide (i = j)) as [<-|Hne].
    + rewrite list_lookup_insert_eq by done. destruct Hc as [(_ & R & -> & _)|[(R & -> & _)|(_ & R & -> & _)]].
      * split; [intros _; by exists p'|done].
      * rewrite Hctx. split; intros (q & Hq & Rq); simplify_eq; [exists p'|exists p]; by rewrite ?R in *.
      * split; [done|]. intros (q & Hq & Rq). simplify_eq. congruence.
    + rewrite list_lookup_insert_ne by done. assert (forall q, pcs (backend s) !! j = Some q -> registered q = true -> False) as Hno.
      { intros q Hq Rq. apply Hne, H1; [done|]. exists q. split; [done|]. by intros ->. }
      split; [|intros (q & Hq & Rq); by exfalso; eapply Hno].
      destruct Hc as [(_ & _ & -> & _)|[(_ & -> & _)|(_ & _ & -> & _)]]; [by intros [=]| |done].
      intros (q & Hq & Rq)%Hctx. by exfalso; eapply Hno.
Qed.

(** Stopping the backend hands its thread over to whoever stops it. *)
Lemma stopped_inv s s' :
  threads_inv s -> backend s' = (Watch.StopWatch (backend s)).2 ->
  (forall i, mWatchThread (backend s) = Some i \/ watcher_joins (watcher s) = Some i \/ owner_joins (owner s) = Some i ->
     watcher_joins (watcher s') = Some i \/ owner_joins (owner s') = Some i) ->
  (owner s' <> o_idle -> mStopWatch s' = true) -> watcher s' <> d_terminated -> threads_inv s'.
Proof.
  intros Hinv Eb Hj Ho Ht. destruct (StopWatch_spec (backend s)) as (_ & Ep & Et & Ec & Er).
  split; rewrite ?Eb, ?Et, ?Er, ?Ec, ?Ep; auto.
  - intros i Hi. rewrite (alive_pcs (backend s)) in Hi by done. right. by apply Hj, (inv_alive s Hinv).
  - intros i j. rewrite !(alive_pcs (backend s) (Watch.StopWatch (backend s)).2) by done. apply (inv_one s Hinv).
  - apply (inv_context s Hinv).
Qed.

Lemma started_inv s b :
  threads_inv s -> watcher s = d_start -> mutex_free s = true -> mStopWatch s = false ->
  pcs b = pcs (backend s) ++ [l_opens] -> mWatchThread b = Some (length (pcs (backend s))) ->
  mWatchContext b = mWatchContext (backend s) -> mWatchRunning b = true ->
  threads_inv (s <| backend := b |> <| watcher := d_poll |>).
Proof.
  intros Hinv Ew Hm Hs Ep Et Ec Er. assert (forall i, ~ alive (backend s) i) as Hno.
  { intros i Hi. destruct (inv_alive s Hinv i Hi) as [E|[E|E]].
    - by rewrite (inv_between s Hinv) in E by by rewrite Ew.
    - by rewrite Ew in E.
    - unfold mutex_free in Hm. by destruct (owner s). }
  assert (forall i, alive b i -> i = length (pcs (backend s))) as Hnew.
  { intros i (p & Hp & Hd). rewrite Ep in Hp. apply lookup_app_Some in Hp as [Hp|[Hl Hp]]; [by destruct (Hno i); exists p|].
    apply list_lookup_singleton_Some in Hp as [? _]. lia. }
  split; cbn; rewrite ?Et, ?Ec; try done.
  - intros i Hi%Hnew. left. by subst.
  - intros i j Hi%Hnew Hj%Hnew. by subst.
  - intros Ho. by destruct (inv_owner s Hinv Ho) as [? _]; congruence.
  - intros i. rewrite (inv_context s Hinv), Ep. split; intros (p & Hp & Hr); exists p; (split; [|done]).
    + by apply lookup_app_l_Some.
    + apply lookup_app_Some in Hp as [Hp|[_ Hp]]; [done|]. apply list_lookup_singleton_Some in Hp as [_ <-]. done.
Qed.

Lemma backend_same_inv s b : threads_inv s -> same_watch (backend s) b -> threads_inv (s <| backend := b |>).
Proof. intros Hinv Hb. apply (threads_inv_same s); auto; apply Hinv. Qed.

(** The watch thread moves on without touching the backend. *)
Lemma watcher_moves_inv s w :
  threads_inv s -> (forall i, alive (backend s) i -> watcher_joins (watcher s) = Some i -> watcher_joins w = Some i) ->
  (between_watches w = true -> between_watches (watcher s) = true) -> w <> d_terminated -> threads_inv (s <| watcher := w |>).
Proof.
  intros Hinv Hj Hb Hw. apply (threads_inv_same s); [done|done|..|done]; cbn.
  - intros i Hi [E|E]; [left|by right]. by apply Hj.
  - intros E. by apply (inv_between s Hinv), Hb.
  - apply (inv_owner s Hinv).
Qed.

Lemma stops_backend_inv next s :
  threads_inv s -> watcher_joins (watcher s) = None -> (forall i, watcher_joins (next i) = i /\ next i <> d_terminated) ->
  threads_inv (stops_backend next s).
Proof.
  intros Hinv Ew Hn. pose proof (StopWatch_spec (backend s)) as (E1 & _). unfold stops_backend.
  destruct (Watch.StopWatch (backend s)) as [th b] eqn:Eb. cbn in E1. subst th.
  apply (stopped_inv s); [done|by rewrite Eb|cbn..].
  - intros i [E|[E|E]]; [left|congruence|by right]. by rewrite (proj1 (Hn _)).
  - intros Ho. by apply (inv_owner s Hinv).
  - apply Hn.
Qed.

Lemma watcher_turn_inv s s' : threads_inv s -> watcher_turn s = Some s' -> threads_inv s'.
Proof.
  intros Hinv. unfold watcher_turn.
  assert (forall w, watcher_joins (watcher s) = None -> (between_watches w = true -> between_watches (watcher s) = true) -> w <> d_terminated ->
    threads_inv (s <| watcher := w |>)) as Hmove by (intros w E ? ?; apply watcher_moves_inv; auto; congruence).
  destruct (watcher s) as [| | | | | | | |j| | |j| |] eqn:Ew; try done.
  - destruct (mutex_free s) eqn:Hm; [|done]. cbn [negb]. destruct (mStopWatch s) eqn:Hs; [intros; simplify_eq; by apply Hmove|].
    assert (mWatchThread (backend s) = None) as Et by (apply (inv_between s Hinv); by rewrite Ew).
    destruct (StartWatchPrefix_spec (prefix s +:+ "/members/") (backend s) Et (inv_running s Hinv Et)) as (b & -> & Ep & Et' & Ec & Er).
    intros; simplify_eq. by apply started_inv.
  - destruct (WaitForWatchEvent (backend s)) as [[r b]|] eqn:E; [|done]. cbn. intros; simplify_eq.
    apply WaitForWatchEvent_same in E. pose proof (backend_same_inv s b Hinv E) as Hb.
    destruct (wp_kind r); apply (watcher_moves_inv _ _ Hb); cbn; by rewrite ?Ew.
  - destruct (mutex_free s); intros; simplify_eq. by apply Hmove.
  - destruct (mutex_free s); intros; simplify_eq. by apply Hmove.
  - destruct (mutex_free s); [|done]. cbn [negb]. destruct (mStopWatch s); intros; simplify_eq; [|by apply Hmove].
    apply stops_backend_inv; [done|by rewrite Ew|done].
  - destruct (mutex_free s); intros; simplify_eq. by apply Hmove.
  - intros; simplify_eq. apply stops_backend_inv; [done|by rewrite Ew|done].
  - destruct (joined j (backend s)) eqn:E; intros; simplify_eq. apply watcher_moves_inv; rewrite ?Ew; try done.
    intros i Hi Ej. exfalso. by eapply not_alive_joined.
  - destruct (mutex_free s); intros; simplify_eq. destruct (mStopWatch s); by apply Hmove.
  - destruct (mutex_free s); intros; simplify_eq. apply stops_backend_inv; [done|by rewrite Ew|done].
  - destruct (joined j (backend s)) eqn:E; intros; simplify_eq. apply watcher_moves_inv; rewrite ?Ew; try done.
    intros i Hi Ej. exfalso. by eapply not_alive_joined.
Qed.

Lemma owner_turn_inv s s' : threads_inv s -> owner_turn s = Some s' -> threads_inv s'.
Proof.
  intros Hinv. unfold owner_turn. destruct (owner s) as [|j|] eqn:Eo; [done|..].
  - destruct (joined j (backend s)) eqn:E; intros; simplify_eq. apply (threads_inv_same s); cbn; try done.
    + intros i Hi [?|Ej]; [by left|]. rewrite Eo in Ej. exfalso. by eapply not_alive_joined.
    + apply (inv_between s Hinv).
    + intros _. apply (inv_owner s Hinv). by rewrite Eo.
    + apply (inv_terminated s Hinv).
  - destruct (inv_owner s Hinv) as [Hs Et]; [by rewrite Eo|].
    destruct (watcher s) eqn:Ew; intros; simplify_eq; (apply (threads_inv_same s); cbn; try done; rewrite Ew, Eo; by intros i _ [?|?]).
Qed.

Lemma StartWatch_inv refreshed s : threads_inv s -> owner s = o_idle -> threads_inv (StartWatch refreshed s).
Proof.
  intros Hinv Eo. unfold StartWatch. destruct (watcher s) eqn:Ew; try done.
  apply (threads_inv_same s); cbn; try done; rewrite ?Ew, ?Eo; try done.
  - by intros i _ [?|?].
  - intros _. apply (inv_between s Hinv). by rewrite Ew.
  - by destruct refreshed.
Qed.

Lemma StopWatch_inv s : threads_inv s -> owner s = o_idle -> threads_inv (StopWatch s).
Proof.
  intros Hinv Eo. pose proof (StopWatch_spec (backend s)) as (E1 & _). unfold StopWatch.
  destruct (Watch.StopWatch (backend s)) as [th b] eqn:Eb. cbn in E1. subst th.
  apply (stopped_inv s); [done|by rewrite Eb|cbn|done|apply (inv_terminated s Hinv)].
  intros i [E|[E|E]]; [by right|by left|]. by rewrite Eo in E.
Qed.

Lemma thread_step_inv quiet s s' : threads_inv s -> thread_step quiet s s' -> threads_inv s'.
Proof.
  intros Hinv [i a b Hs|i r b Hs _|i st b Hs _|s1 Hs|s1 Hs].
  - by eapply loop_turn_inv.
  - by apply backend_same_inv, (deliver_same i r).
  - by apply backend_same_inv, (end_stream_same i st).
  - by apply (watcher_turn_inv s).
  - by apply (owner_turn_inv s).
Qed.

Lemma initial_inv prefix : threads_inv (initial prefix).
Proof. split; try done. - intros i (p & Hp & _). done. - intros i j (p & Hp & _). done. - intros i. split; [done|]. by intros (p & Hp & _). Qed.

Lemma reachable_threads prefix s : rtc step (initial prefix) s -> threads_inv s.
Proof.
  intros Hr. pose proof (initial_inv prefix) as Hinv. induction Hr as [s|s s1 s2 Hs _ IH]; [done|]. apply IH.
  destruct Hs as [s1 Hs|r Eo _|Eo _]; [by eapply thread_step_inv|by apply StartWatch_inv|by apply StopWatch_inv].
Qed.

(** *** Stopping: every thread of a stopped watch is cancelled or past its stream *)

Definition told (th : thread) : Prop := pc th <> l_opens /\ (streaming (pc th) = true -> cancelled th = true).

Record stopping (s : system) : Prop := {
  stopping_flag : mStopWatch s = true;
  stopping_thread : mWatchThread (backend s) = None;
  stopping_running : mWatchRunning (backend s) = false;
  stopping_told : Forall told (threads (backend s));
  stopping_owner : owner s = o_idle -> watcher s = d_none
}.

(** What is left to do for a thread: its way through the loop, the responses that
    have arrived, the end of its stream. *)
Definition pc_rank (p : loop_pc) : nat :=
  match p with
  | l_opens => 20 | l_writes => 14 | l_write_failed => 13 | l_reads => 12 | l_finishes _ => 10
  | l_asks _ _ => 8 | l_clears _ => 6 | l_pushes _ => 4 | l_done => 0
  end.
Definition thread_work (th : thread) : nat :=
  pc_rank (pc th) + 4 * length (arrived th) + (match stream_end th with None => 1 | Some _ => 0 end).
Definition watch_work (b : Watch.t) : nat := sum_list (thread_work <$> threads b) + 3 * length (mWatchQueue b).

Definition watcher_rank (w : watcher_pc) : nat :=
  match w with
  | d_apply => 41 | d_poll => 40 | d_closed => 36 | d_refresh => 32 | d_restop => 31 | d_joins _ => 25 | d_wait => 24
  | d_start => 23 | d_exit => 20 | d_joins_locked _ => 10 | d_stopped => 4 | d_none | d_done | d_terminated => 0
  end.
Definition owner_rank (o : owner_pc) : nat := match o with o_joins_loop _ => 2 | o_joins_watch => 1 | o_idle => 0 end.
Definition work (s : system) : nat := watch_work (backend s) + watcher_rank (watcher s) + owner_rank (owner s).

Lemma sum_list_insert (l : list nat) i x y :
  l !! i = Some x -> (sum_list (<[i := y]> l) + x = sum_list l + y)%nat.
Proof.
  revert i. induction l as [|z l IH]; intros [|i] Hx; simplify_eq/=; [lia|]. specialize (IH i Hx). lia.
Qed.

Lemma watch_work_thread i th th' b b' :
  threads b !! i = Some th -> threads b' = <[i := th']> (threads b) ->
  (thread_work th' + 3 * length (mWatchQueue b') < thread_work th + 3 * length (mWatchQueue b))%nat ->
  (watch_work b' < watch_work b)%nat.
Proof.
  intros Hth Eth Hw. unfold watch_work. rewrite Eth, list_fmap_insert.
  pose proof (sum_list_insert (thread_work <$> threads b) i (thread_work th) (thread_work th')) as Hs.
  rewrite list_lookup_fmap, Hth in Hs. specialize (Hs eq_refl). lia.
Qed.

(** A turn of a thread: it stays cancelled, does not open its stream again, and
    has less left to do. *)
Lemma loop_turn_works i answer b b' :
  loop_turn i answer b = Some b' ->
  exists th th', threads b !! i = Some th /\ threads b' = <[i := th']> (threads b) /\ (told th -> told th') /\
    (thread_work th' + 3 * length (mWatchQueue b') < thread_work th + 3 * length (mWatchQueue b))%nat.
Proof.
  unfold loop_turn. destruct (threads b !! i) as [th|] eqn:Eth; [|done]. cbn. intros Hs. exists th.
  unfold told, thread_work. destruct (pc th) as [| | | |e|e st|last|last|] eqn:Ep.
  - simplify_eq. eexists. split; [done|]. split; [reflexivity|]. split; [by intros [? _]|]. destruct answer; cbn; lia.
  - destruct answer; [|destruct (_ || _)]; simplify_eq; eexists; (split; [done|]; split; [reflexivity|]; cbn; split; [intuition done|lia]).
  - destruct (stream_end th) eqn:Ee; simplify_eq/=. eexists. split; [done|]. split; [reflexivity|]. cbn. rewrite Ee. split; [intuition done|lia].
  - destruct (arrived th) as [|r rest] eqn:Ea; [destruct (stream_end th) eqn:Ee|destruct (canceled r); [|destruct (0 <? events_size r)]];
      simplify_eq/=; eexists; (split; [done|]; split; [reflexivity|]; cbn; rewrite ?Ee, ?Ea, ?length_app; cbn; split; [intuition done|lia]).
  - destruct (stream_end th) eqn:Ee; simplify_eq/=. eexists. split; [done|]. split; [reflexivity|]. cbn. rewrite Ee. split; [intuition done|lia].
  - simplify_eq. eexists. split; [done|]. split; [reflexivity|]. cbn. split; [intuition done|lia].
  - simplify_eq. eexists. split; [done|]. split; [reflexivity|]. destruct last; cbn; (split; [intuition done|lia]).
  - simplify_eq. eexists. split; [done|]. split; [reflexivity|]. cbn. rewrite length_app. cbn. split; [intuition done|lia].
  - done.
Qed.

Lemma deliver_told i r b b' : Forall told (threads b) -> deliver i r b = Some b' -> False.
Proof.
  intros Hall. unfold deliver. destruct (threads b !! i) as [th|] eqn:E; [|done]. cbn.
  destruct (Forall_lookup_1 _ _ _ _ Hall E) as [_ Hc]. destruct (streaming (pc th)); [|done]. by rewrite Hc.
Qed.

Lemma end_stream_works i st b b' :
  end_stream i st b = Some b' ->
  (Forall told (threads b) -> Forall told (threads b')) /\ (watch_work b' < watch_work b)%nat.
Proof.
  unfold end_stream. destruct (threads b !! i) as [th|] eqn:E; [|done]. cbn. destruct (streaming (pc th)) eqn:Es; [|done].
  destruct (stream_end th) eqn:Ee; [done|]. cbn. intros; simplify_eq. split.
  - intros Hall. apply Forall_insert; [done|]. exact (Forall_lookup_1 _ _ _ _ Hall E).
  - eapply watch_work_thread; [done|reflexivity|]. unfold thread_work. cbn. rewrite Ee. lia.
Qed.

Lemma told_cancelled th : told th -> told (th <| cancelled := true |>).
Proof. by intros [? ?]. Qed.

Lemma TryCancel_told i b : Forall told (threads b) -> Forall told (threads (TryCancel i b)).
Proof. intros Hall. cbn. apply Forall_alter; [done|]. intros th _ Hth. by apply told_cancelled. Qed.

Lemma TryCancel_work i b : watch_work (TryCancel i b) = watch_work b.
Proof.
  unfold watch_work. cbn. do 2 f_equal. apply list_eq. intros j. rewrite !list_lookup_fmap. destruct (decide (i = j)) as [->|].
  - rewrite list_lookup_alter_eq. by destruct (threads b !! j).
  - by rewrite list_lookup_alter_ne.
Qed.

Lemma StopWatch_threads b : threads (Watch.StopWatch b).2 = match mWatchContext b with Some i => threads (TryCancel i b) | None => threads b end.
Proof. unfold Watch.StopWatch. cbn. by destruct (mWatchContext b). Qed.

Lemma StopWatch_queue b : mWatchQueue (Watch.StopWatch b).2 = mWatchQueue b ++ [stopped_result].
Proof. unfold Watch.StopWatch. cbn. by destruct (mWatchContext b). Qed.

Lemma StopWatch_work b : watch_work (Watch.StopWatch b).2 = (watch_work b + 3)%nat.
Proof.
  assert (sum_list (thread_work <$> threads (Watch.StopWatch b).2) = sum_list (thread_work <$> threads b)) as E.
  { rewrite StopWatch_threads. destruct (mWatchContext b) as [i|]; [|done]. pose proof (TryCancel_work i b) as E. unfold watch_work in E. cbn in *. lia. }
  unfold watch_work. rewrite E, StopWatch_queue, length_app. cbn. lia.
Qed.

Lemma StopWatch_told b : Forall told (threads b) -> Forall told (threads (Watch.StopWatch b).2).
Proof. intros Hall. rewrite StopWatch_threads. destruct (mWatchContext b); [by apply TryCancel_told|done]. Qed.

Lemma stops_backend_works next s :
  stopping s -> (forall i, (watcher_rank (next i) + 3 < watcher_rank (watcher s))%nat) -> watcher s <> d_none ->
  stopping (stops_backend next s) /\ (work (stops_backend next s) < work s)%nat.
Proof.
  intros Hst Hr Hw. destruct (StopWatch_spec (backend s)) as (_ & _ & Et & _ & Er). pose proof (StopWatch_work (backend s)) as Ework.
  pose proof (StopWatch_told (backend s) (stopping_told s Hst)) as Ht. unfold stops_backend, work.
  destruct (Watch.StopWatch (backend s)) as [th b] eqn:Eb. cbn [fst snd] in *. split.
  - split; cbn; try done; [apply (stopping_flag s Hst)|]. intros E. by apply (stopping_owner s Hst) in E.
  - cbn. rewrite Ework. specialize (Hr th). lia.
Qed.

Lemma WaitForWatchEvent_works r b b' :
  WaitForWatchEvent b = Some (r, b') ->
  threads b' = threads b /\ (watch_work b' + 3 = watch_work b \/ (b' = b /\ r = stopped_result))%nat.
Proof.
  unfold WaitForWatchEvent, watch_work. destruct (mWatchQueue b) as [|k rest] eqn:Eq; [destruct (mWatchRunning b)|]; intros; simplify_eq/=.
  - split; [done|by right].
  - split; [done|left]. lia.
Qed.

Lemma watcher_turn_works s s' :
  threads_inv s -> stopping s -> watcher_turn s = Some s' -> stopping s' /\ (work s' < work s)%nat.
Proof.
  intros Hinv Hst. unfold watcher_turn.
  assert (forall w, watcher s <> d_none -> (watcher_rank w < watcher_rank (watcher s))%nat ->
    stopping (s <| watcher := w |>) /\ (work (s <| watcher := w |>) < work s)%nat) as Hmove.
  { intros w Hw Hr. split; [split; cbn; try apply Hst|unfold work; cbn; lia]. intros E. by apply (stopping_owner s Hst) in E. }
  rewrite (stopping_flag s Hst).
  destruct (watcher s) as [| | | | | | | |j| | |j| |] eqn:Ew; try done.
  - destruct (mutex_free s); cbn [negb]; intros; simplify_eq. apply Hmove; [done|cbn; lia].
  - destruct (WaitForWatchEvent (backend s)) as [[r b]|] eqn:E; [|done]. cbn. intros; simplify_eq.
    pose proof (WaitForWatchEvent_same _ _ _ E) as (_ & Et & _ & Er). destruct (WaitForWatchEvent_works _ _ _ E) as [Eth Hw]. split.
    + split; cbn; rewrite ?Et, ?Er, ?Eth; try apply Hst. intros Eo. apply (stopping_owner s Hst) in Eo. congruence.
    + unfold work. cbn. rewrite Ew. destruct Hw as [Hw|[-> ->]]; [destruct (wp_kind r)|]; cbn; lia.
  - destruct (mutex_free s); cbn [negb]; intros; simplify_eq. apply Hmove; [done|cbn; lia].
  - destruct (mutex_free s); cbn [negb]; intros; simplify_eq. apply Hmove; [done|cbn; lia].
  - destruct (mutex_free s); cbn [negb]; intros; simplify_eq. apply stops_backend_works; rewrite ?Ew; [done|cbn; lia|done].
  - destruct (mutex_free s); cbn [negb]; intros; simplify_eq. apply Hmove; [done|cbn; lia].
  - intros; simplify_eq. apply stops_backend_works; rewrite ?Ew; [done|cbn; lia|done].
  - destruct (joined j (backend s)); intros; simplify_eq. apply Hmove; [done|cbn; lia].
  - destruct (mutex_free s); cbn [negb]; intros; simplify_eq. apply Hmove; [done|cbn; lia].
  - destruct (mutex_free s); cbn [negb]; intros; simplify_eq. apply stops_backend_works; rewrite ?Ew; [done|cbn; lia|done].
  - destruct (joined j (backend s)); intros; simplify_eq. apply Hmove; [done|cbn; lia].
Qed.

Lemma stopping_step quiet s s' : threads_inv s -> stopping s -> thread_step quiet s s' -> stopping s' /\ (work s' < work s)%nat.
Proof.
  intros Hinv Hst [i a b Hs|i r b Hs _|i st b Hs _|s1 Hs|s1 Hs].
  - pose proof Hs as (p & p' & _ & _ & _ & _ & Et & Hr)%loop_turn_spec. apply loop_turn_works in Hs as (th & th' & E & Eth & Ht & Hw). split.
    + split; cbn; rewrite ?Et; try apply Hst.
      * pose proof (stopping_running s Hst) as E'. destruct Hr as [(_ & _ & _ & ->)|[(_ & _ & ->)|(_ & _ & _ & ->)]]; done.
      * rewrite Eth. apply Forall_insert; [apply Hst|]. apply Ht. by apply (Forall_lookup_1 _ _ _ _ (stopping_told s Hst) E).
    + unfold work. cbn. pose proof (watch_work_thread i th th' _ b E Eth Hw). lia.
  - exfalso. eapply deliver_told; [apply Hst|done].
  - pose proof (end_stream_same _ _ _ _ Hs) as (_ & Et & _ & Er). destruct (end_stream_works _ _ _ _ Hs) as [Ht Hw]. split.
    + split; cbn; rewrite ?Et, ?Er; try apply Hst. by apply Ht, Hst.
    + unfold work. cbn. lia.
  - by apply watcher_turn_works.
  - unfold owner_turn in Hs. destruct (owner s) as [|j|] eqn:Eo; [done|..].
    + destruct (joined j (backend s)); simplify_eq. split; [split; try apply Hst; done|]. unfold work. cbn. rewrite Eo. cbn. lia.
    + destruct (watcher s) eqn:Ew; simplify_eq; (split; [split; try apply Hst; done|]; unfold work; cbn; rewrite ?Eo, ?Ew; cbn; lia).
Qed.

Lemma stopping_runs quiet s s' :
  threads_inv s -> stopping s -> rtc (thread_step quiet) s s' -> threads_inv s' /\ stopping s'.
Proof.
  intros Hinv Hst Hr. induction Hr as [s|s1 s2 s3 Hs _ IH]; [done|]. apply IH; [by eapply thread_step_inv|].
  by apply (stopping_step quiet s1).
Qed.

Lemma stopping_ends quiet s : threads_inv s -> stopping s -> Acc (fun s2 s1 => thread_step quiet s1 s2) s.
Proof.
  remember (work s) as n eqn:En. revert s En. induction n as [n IH] using lt_wf_ind. intros s -> Hinv Hst. constructor.
  intros s' Hs. destruct (stopping_step quiet s s' Hinv Hst Hs) as [Hst' Hw]. apply (IH (work s')); [done|done| |done]. by eapply thread_step_inv.
Qed.

(** A thread that was told to stop can always take a turn, or its stream ends. *)
Lemma told_moves quiet s i : stopping s -> joined i (backend s) = false -> exists s', thread_step quiet s s'.
Proof.
  intros Hst. unfold joined. destruct i as [i|]; [|done]. cbn. destruct (threads (backend s) !! i) as [th|] eqn:E; [|done]. intros Hj.
  pose proof (Forall_lookup_1 _ _ _ _ (stopping_told s Hst) E) as [Ho Hc].
  assert (is_Some (loop_turn i true (backend s)) -> exists s', thread_step quiet s s') as Hturn.
  { intros [b Hb]. eexists. by apply (step_loop _ _ i true b). }
  assert (streaming (pc th) = true -> stream_end th = None -> exists s', thread_step quiet s s') as Hend.
  { intros Es Ee. eexists. apply (step_end _ _ i (mkStatus 0 "")). - unfold end_stream. rewrite E. cbn. rewrite Es, Ee. reflexivity. - intros _. exists th. split; [done|]. by apply Hc. }
  unfold loop_turn in Hturn. rewrite E in Hturn. cbn in Hturn.
  destruct (pc th) as [| | | |e|e st|last|last|]; try done; try (apply Hturn; by eexists).
  - destruct (stream_end th); [apply Hturn; by eexists|by apply Hend].
  - destruct (arrived th) as [|r rest]; [destruct (stream_end th); [apply Hturn; by eexists|by apply Hend]|].
    apply Hturn. destruct (canceled r); [|destruct (0 <? events_size r)]; by eexists.
  - destruct (stream_end th); [apply Hturn; by eexists|by apply Hend].
Qed.

Lemma stuck_stopped quiet s :
  threads_inv s -> stopping s -> (forall s', ~ thread_step quiet s s') -> owner s = o_idle.
Proof.
  intros Hinv Hst Hstuck. destruct (owner s) as [|j|] eqn:Eo; [done|exfalso..].
  - destruct (joined j (backend s)) eqn:Ej.
    + eapply Hstuck, step_owner. unfold owner_turn. by rewrite Eo, Ej.
    + destruct (told_moves quiet s j Hst Ej) as [s' Hs]. by eapply Hstuck.
  - assert (is_Some (watcher_turn s) -> False) as Hw by (intros [s' Hs]; by eapply Hstuck, step_watcher).
    assert (is_Some (owner_turn s) -> False) as Ho by (intros [s' Hs]; by eapply Hstuck, step_owner).
    assert (forall j, joined j (backend s) = false -> False) as Hj by (intros j Ej; destruct (told_moves quiet s j Hst Ej) as [s' Hs]; by eapply Hstuck).
    unfold watcher_turn, mutex_free in Hw. unfold owner_turn in Ho. rewrite Eo in Hw, Ho. rewrite (stopping_flag s Hst) in Hw.
    destruct (watcher s) as [| | | | | | | |j| | |j| |] eqn:Ew; try (apply Ho; by eexists); try (apply Hw; by eexists).
    + apply Hw. unfold WaitForWatchEvent. rewrite (stopping_running s Hst). destruct (mWatchQueue (backend s)); by eexists.
    + destruct (joined j (backend s)) eqn:Ej; [apply Hw; by eexists|by eapply Hj].
    + destruct (joined j (backend s)) eqn:Ej; [apply Hw; by eexists|by eapply Hj].
    + by apply (inv_terminated s Hinv).
Qed.

(** Once the context of the thread is stored, [StopWatch] reaches it. *)
Lemma StopWatch_stopping s :
  threads_inv s -> owner s = o_idle -> (forall th, th ∈ threads (backend s) -> pc th <> l_opens) -> stopping (StopWatch s).
Proof.
  intros Hinv Eo Hop. destruct (StopWatch_spec (backend s)) as (_ & _ & Et & _ & Er). pose proof (StopWatch_threads (backend s)) as Eth.
  unfold StopWatch. destruct (Watch.StopWatch (backend s)) as [th b]. cbn in Et, Er, Eth. split; cbn; try done. rewrite Eth.
  apply Forall_lookup. intros i th' Hi.
  destruct (mWatchContext (backend s)) as [k|] eqn:Ec.
  - cbn in Hi. destruct (decide (k = i)) as [->|Hne].
    + rewrite list_lookup_alter_eq in Hi. destruct (threads (backend s) !! i) as [th0|] eqn:E; [|done]. cbn in Hi. simplify_eq.
      split; [|done]. apply (Hop th0). by eapply list_elem_of_lookup_2.
    + rewrite list_lookup_alter_ne in Hi by done. split; [apply Hop; by eapply list_elem_of_lookup_2|]. intros Es. exfalso.
      assert (mWatchContext (backend s) = Some i) as Ei; [|congruence]. apply (inv_context s Hinv). exists (pc th').
      split; [by apply pcs_thread|]. by destruct (pc th').
  - split; [apply Hop; by eapply list_elem_of_lookup_2|]. intros Es. exfalso.
    assert (mWatchContext (backend s) = Some i) as Ei; [|congruence]. apply (inv_context s Hinv). exists (pc th').
    split; [by apply pcs_thread|]. by destruct (pc th').
Qed.

(** *** A thread that was not told to stop *)

(** The owner waits with [mMutex] held for a thread that reads from an open stream
    and was never cancelled; the watch thread polls, or waits for [mMutex]. *)
Record hanging (s : system) : Prop := {
  hanging_owner : owner s = o_joins_loop (Some 0%nat);
  hanging_thread : exists th, threads (backend s) = [th] /\ pc th = l_reads /\ cancelled th = false /\ stream_end th = None /\
    Forall (fun r => canceled r = false) (arrived th);
  hanging_watcher : watcher s = d_poll \/ watcher s = d_apply \/ watcher s = d_stopped;
  hanging_queue : Forall (fun r => wp_kind r = wk_event \/ wp_kind r = wk_stopped) (mWatchQueue (backend s))
}.

Lemma hanging_step s s' : hanging s -> thread_step true s s' -> hanging s'.
Proof.
  intros [Ho (th & Eth & Ep & Ec & Ee & Ha) Hw Hq] [i a b Hs|i r b Hs Hr|i st b Hs Hr|s1 Hs|s1 Hs].
  - unfold loop_turn in Hs. rewrite Eth in Hs. destruct i as [|i]; [|done]. cbn in Hs. rewrite Ep in Hs.
    destruct (arrived th) as [|r rest]; [by rewrite Ee in Hs|]. apply Forall_cons_1 in Ha as [Er Ha]. rewrite Er in Hs.
    destruct (0 <? events_size r); simplify_eq; split; cbn; rewrite ?Eth; try done; try (by eexists).
    apply Forall_app. split; [done|]. apply Forall_singleton. by left.
  - unfold deliver in Hs. rewrite Eth in Hs. destruct i as [|i]; [|done]. cbn in Hs. rewrite Ep, Ec, Ee in Hs. cbn in Hs. simplify_eq.
    split; cbn; rewrite ?Eth; try done. eexists. split; [reflexivity|]. cbn. do 3 (split; [done|]).
    apply Forall_app. split; [done|]. apply Forall_singleton. by apply Hr.
  - destruct Hr as (th' & Hth & Hc); [done|]. rewrite Eth in Hth. destruct i; [|done]. simplify_eq/=. congruence.
  - unfold watcher_turn, mutex_free in Hs. rewrite Ho in Hs. destruct Hw as [Ew|[Ew|Ew]]; rewrite Ew in Hs; [|done..].
    unfold WaitForWatchEvent in Hs. destruct (mWatchQueue (backend s)) as [|k rest] eqn:Eq.
    + destruct (mWatchRunning (backend s)); [done|]. cbn in Hs. simplify_eq.
      split; cbn; [done|by eexists|auto|by rewrite Eq].
    + cbn in Hs. simplify_eq. apply Forall_cons_1 in Hq as [Hk Hq]. split; cbn; [done|by eexists| |done]. destruct Hk as [-> | ->]; auto.
  - unfold owner_turn, joined in Hs. rewrite Ho, Eth in Hs. cbn in Hs. by rewrite Ep in Hs.
Qed.

Lemma hanging_runs s s' : hanging s -> rtc (thread_step true) s s' -> hanging s'.
Proof. intros Hh Hr. induction Hr as [s|s1 s2 s3 Hs _ IH]; [done|]. by apply IH, (hanging_step s1). Qed.

(** The watch has ended: nothing but a stop of the owner changes that. *)
Inductive ended_step (s : system) : system -> Prop :=
| ended_thread s' : thread_step false s s' -> ended_step s s'
| ended_StartWatch refreshed : owner s = o_idle -> mutex_free s = true -> ended_step s (StartWatch refreshed s).

Lemma ended_stays s s' :
  watcher s = d_done -> owner s = o_idle -> rtc ended_step s s' -> watcher s' = d_done /\ owner s' = o_idle.
Proof.
  intros Ew Eo Hr. induction Hr as [s|s1 s2 s3 Hs _ IH]; [done|].
  destruct Hs as [s2 [i a b _|i r b _ _|i st b _ _|s4 Hs|s4 Hs]|r _ _]; try (by apply IH).
  - unfold watcher_turn in Hs. by rewrite Ew in Hs.
  - unfold owner_turn in Hs. by rewrite Eo in Hs.
  - unfold StartWatch in IH. rewrite Ew in IH. by apply IH.
Qed.
End WatchProofs.

(** ** Properties *)

Import Watch WatchSystem WatchProofs.

(** In every interleaving of the watch's threads, the discovery's watch
    thread, the owner's starts and stops and the network, a backend thread is never
    assigned over a joinable one (which would end the process), at most one of them
    runs, and a stored context belongs to a thread that has not returned, so that
    [StopWatch] never cancels a destroyed context. *)
Theorem watch_threads_safe prefix s :
  rtc step (initial prefix) s ->
  watcher s <> d_terminated /\
  (forall i j th th', threads (backend s) !! i = Some th -> threads (backend s) !! j = Some th' ->
     pc th <> l_done -> pc th' <> l_done -> i = j) /\
  (forall i, mWatchContext (backend s) = Some i -> exists th, threads (backend s) !! i = Some th /\ pc th <> l_done).
Proof.
  intros Hinv%reachable_threads. split; [apply Hinv|]. split.
  - intros i j th th' Hi Hj Hp Hp'. apply (inv_one s Hinv); eexists; (split; [by apply pcs_thread|done]).
  - intros i (p & Hp & Hr)%(inv_context s Hinv). unfold pcs in Hp. rewrite list_lookup_fmap in Hp.
    destruct (threads (backend s) !! i) as [th|]; [|done]. exists th. split; [done|]. cbn in Hp. simplify_eq. intros E. by rewrite E in Hr.
Qed.

(** C25: [StopWatch] ends, whatever the threads do and in every order, if the
    thread of the backend has stored its context when it is called: every run of
    the threads from there is finite, and where none can move the owner has
    returned, the watch thread is joined and every backend thread is gone. *)
Theorem stop_watch_returns prefix s :
  rtc step (initial prefix) s -> owner s = o_idle -> mutex_free s = true ->
  (forall th, th ∈ threads (backend s) -> pc th <> l_opens) ->
  Acc (fun s2 s1 => thread_step false s1 s2) (StopWatch s) /\
  forall s', rtc (thread_step false) (StopWatch s) s' -> (forall s2, ~ thread_step false s' s2) ->
    owner s' = o_idle /\ watcher s' = d_none /\ forall th, th ∈ threads (backend s') -> pc th = l_done.
Proof.
  intros Hr Eo Hm Hop. pose proof (StopWatch_inv s (reachable_threads prefix s Hr) Eo) as Hinv.
  pose proof (StopWatch_stopping s (reachable_threads prefix s Hr) Eo Hop) as Hst.
  split; [by apply stopping_ends|]. intros s' Hrun Hstuck. destruct (stopping_runs _ _ _ Hinv Hst Hrun) as [Hinv' Hst'].
  pose proof (stuck_stopped false s' Hinv' Hst' Hstuck) as Eo'. pose proof (stopping_owner s' Hst' Eo') as Ew'.
  split; [done|]. split; [done|]. intros th [i Hi]%list_elem_of_lookup_1.
  destruct (decide (joined (Some i) (backend s') = true)) as [Ej|Ej].
  - unfold joined in Ej. cbn in Ej. rewrite Hi in Ej. by destruct (pc th).
  - exfalso. apply not_true_is_false in Ej. destruct (told_moves false s' _ Hst' Ej) as [s2 Hs]. by eapply Hstuck.
Qed.

(** [StopWatch] does not end in general: it cancels the stream only if the thread
    has stored its context, and the thread does not look at the stop flag before
    its stream has ended.  A stop that comes between the start of the thread and
    that store waits, holding [mMutex], for a thread that reads from a stream
    nobody will end, however many events still arrive. *)
Theorem stop_watch_hangs prefix :
  exists s s1, rtc step (initial prefix) s /\ owner s = o_idle /\ mutex_free s = true /\
    rtc (thread_step true) (StopWatch s) s1 /\
    forall s2, rtc (thread_step true) s1 s2 -> owner s2 = o_joins_loop (Some 0%nat) /\ mutex_free s2 = false.
Proof.
  eexists _, _. split; [|split; [|split; [|split]]].
  - eapply rtc_l; [by apply (step_StartWatch _ true)|].
    eapply rtc_l; [apply step_thread, step_watcher; reflexivity|apply rtc_refl].
  - done.
  - done.
  - do 2 (eapply rtc_l; [apply (step_loop _ _ 0 true); reflexivity|]). apply rtc_refl.
  - intros s2 Hr. apply hanging_runs in Hr.
    + pose proof (hanging_owner s2 Hr) as Eo. split; [done|]. unfold mutex_free. by rewrite Eo.
    + split; cbn; [done|by eexists|by left|]. apply Forall_singleton. by right.
Qed.

(** The watch can be lost for good although nothing stopped it: the thread clears
    its running flag before it queues the end of the stream, a watch thread that
    polls in between is told [stopped] and returns, and from then on starting the
    watch again (the recovery of the discovery does) finds the thread object still
    joinable and changes nothing. *)
Theorem watch_lost_without_stop prefix :
  exists s, rtc step (initial prefix) s /\ mStopWatch s = false /\ mWatchStopRequested (backend s) = false /\
    forall s', rtc ended_step s s' -> watcher s' = d_done /\ owner s' = o_idle.
Proof.
  eexists. split; [|split; [|split]].
  - eapply rtc_l; [by apply (step_StartWatch _ true)|]. eapply rtc_l; [apply step_thread, step_watcher; reflexivity|].
    do 2 (eapply rtc_l; [apply step_thread, (step_loop _ _ 0 false); reflexivity|]).
    do 2 (eapply rtc_l; [apply step_thread, step_watcher; reflexivity|]). apply rtc_refl.
  - done.
  - done.
  - intros s' Hr. eapply ended_stays; [..|exact Hr]; reflexivity.
Qed.

(** *** A run: the watch thread has started the watch, which reads its stream *)

Module ExampleWatch.

Definition polling : system :=
  mkSystem (Watch.mk [] (Some 0%nat) (Some 0%nat) true false
    [mkThread l_reads "/x/members/" false (Some (mkRangeRequest "/x/members/" (PrefixRangeEnd "/x/members/"))) [] None])
    "/x" false d_poll o_idle.

Lemma polling_reached : rtc step (initial "/x") polling.
Proof.
  eapply rtc_l; [by apply (step_StartWatch _ true)|]. eapply rtc_l; [apply step_thread, step_watcher; reflexivity|].
  do 2 (eapply rtc_l; [apply step_thread, (step_loop _ _ 0 true); reflexivity|]). apply rtc_refl.
Qed.

Lemma stop_watch_returns_witness :
  mutex_free (StopWatch polling) = false /\ Acc (fun s2 s1 => thread_step false s1 s2) (StopWatch polling).
Proof.
  split; [reflexivity|]. apply (stop_watch_returns "/x" polling); [apply polling_reached|reflexivity|reflexivity|].
  intros th Hth. apply list_elem_of_singleton in Hth as ->. discriminate.
Defined.

Lemma watch_threads_safe_witness : watcher polling = d_poll /\ watcher polling <> d_terminated.
Proof. split; [reflexivity|]. apply (watch_threads_safe "/x" polling), polling_reached. Defined.

End ExampleWatch.
