(* ===== verification/Routing.v ===== *)
(** * Routing (src/framework/ipc/routing, src/common/ipc/first_phase_topology_policy.h)

    Route plans, the relay-first policy and the auto-connect rules, proved against
    the membership view and link view interfaces. *)

From S2P Require Import Prelude Text EtcdText Base Transport Link Discovery.

(** ** link_view.h *)

Class ILinkView (L : Type) : Type := {
  link_HasHealthyDirectLink : L -> ProcessRef -> bool;
  link_GetHealthyLinks : L -> list ProcessRef
}.

#[global] Instance link_manager_view {mo : MapOrder Z} : ILinkView LinkManager.t := {|
  link_HasHealthyDirectLink := LinkManager.HasHealthyDirectLink;
  link_GetHealthyLinks := LinkManager.GetHealthyLinks
|}.

(** ** route_plan.h, routing_context.h *)

Inductive RoutePlanKind := local_delivery | single_next_hop | multi_next_hop | unreachable | rp_drop.
#[global] Instance route_plan_kind_eq_dec : EqDecision RoutePlanKind.
Proof. solve_decision. Defined.
Record RouteHop := mkRouteHop { next_hop : ProcessRef; hop_direct : bool }.
Record RoutePlan := mkRoutePlan { plan_kind : RoutePlanKind; hops : list RouteHop }.

Record RoutingContext (V L : Type) := mkContext {
  ctx_self : ProcessRef;
  ctx_envelope : Envelope;
  receiver_location : option ReceiverLocation;
  membership : option V;
  links : option L
}.
Arguments mkContext {V L} _ _ _ _ _.
Arguments ctx_self {V L} _.
Arguments ctx_envelope {V L} _.
Arguments receiver_location {V L} _.
Arguments membership {V L} _.
Arguments links {V L} _.

(** ** relay_first_policy.cpp *)

Definition MatchesLabels (p : ProcessDescriptor) (required : StringMap) : bool :=
  forallb (fun '(required_key, required_value) =>
    existsb (fun '(key, value) => String.eqb key required_key && String.eqb value required_value) (labels p)) required.

Section policy.
Context {V L : Type} `{IMembershipView V} `{ILinkView L}.
Variable mRelayServiceType : Z.

Definition ResolveSingleTarget (context : RoutingContext V L) (target : ProcessRef) : RoutePlan :=
  if bool_decide (target = ctx_self context) then mkRoutePlan local_delivery []
  else if match links context with Some l => link_HasHealthyDirectLink l target | None => false end
  then mkRoutePlan single_next_hop [mkRouteHop target true]
  else
    let relays := match membership context with Some v => view_FindByService v mRelayServiceType | None => [] end in
    match find (fun relay => negb (bool_decide (process relay = ctx_self context))) relays with
    | Some relay => mkRoutePlan single_next_hop [mkRouteHop (process relay) false]
    | None => mkRoutePlan unreachable []
    end.

Definition broadcast_hops (context : RoutingContext V L) (v : V) : list RouteHop :=
  let scope := broadcast_scope (ctx_envelope context) in
  let st := default (u32 (key_hi (target_receiver (header (ctx_envelope context))))) (bs_service_type scope) in
  omap (fun p =>
    if negb (include_local scope) && bool_decide (process p = ctx_self context) then None
    else if negb (MatchesLabels p (required_labels scope)) then None
    else Some (mkRouteHop (process p) (bool_decide (process p = ctx_self context))))
    (view_FindByService v st).

Definition ResolveProcessTarget (context : RoutingContext V L) : RoutePlan :=
  let receiver := target_receiver (header (ctx_envelope context)) in
  if rtype receiver =? rt_process then
    let target := mkProcessRef (mkProcessId (u32 (key_hi receiver)) (u32 (key_lo receiver))) 0 in
    let target := match membership context with
                  | Some v => match view_Find v (process_id target) with
                              | Some descriptor => process descriptor
                              | None => target
                              end
                  | None => target
                  end in
    ResolveSingleTarget context target
  else mkRoutePlan rp_drop [].

Definition Resolve (context : RoutingContext V L) : RoutePlan :=
  let h := header (ctx_envelope context) in
  if bool_decide (semantic h = broadcast) then
    match membership context with
    | None => mkRoutePlan rp_drop []
    | Some v =>
        if negb (rtype (target_receiver h) =? rt_service) then mkRoutePlan rp_drop []
        else match broadcast_hops context v with
             | [] => mkRoutePlan rp_drop []
             | hs => mkRoutePlan multi_next_hop hs
             end
    end
  else
    match receiver_location context with
    | None => ResolveProcessTarget context
    | Some location =>
        match rl_kind location with
        | rl_local => mkRoutePlan local_delivery []
        | rl_single_process =>
            match processes location with
            | target :: _ => ResolveSingleTarget context target
            | [] => ResolveProcessTarget context
            end
        | rl_multi_process =>
            match processes location with
            | [] => ResolveProcessTarget context
            | ps => mkRoutePlan multi_next_hop
                      ((fun p => mkRouteHop p (bool_decide (p = ctx_self context))) <$> ps)
            end
        | rl_unresolved => mkRoutePlan rp_drop []
        end
    end.

(** [Router::Resolve] calls the policy. *)
Definition Router_Resolve (context : RoutingContext V L) : RoutePlan := Resolve context.

(** *** Lemmas *)

Lemma MatchesLabels_spec p required :
  MatchesLabels p required = true <-> forall kv, kv ∈ required -> kv ∈ labels p.
Proof.
  unfold MatchesLabels. rewrite forallb_forall. split.
  - intros Hall [k v] Hkv%list_elem_of_In. specialize (Hall _ Hkv). simpl in Hall.
    apply existsb_exists in Hall as ([k' v'] & Hin & [E1%String.eqb_eq E2%String.eqb_eq]%andb_true_iff).
    subst. by apply list_elem_of_In.
  - intros Hall [k v] Hkv%list_elem_of_In%Hall. apply existsb_exists. exists (k, v).
    split; [by apply list_elem_of_In|]. by rewrite !String.eqb_refl.
Qed.

(** What a plan for one target can be. *)
Inductive single_plan (context : RoutingContext V L) (target : ProcessRef) : RoutePlan -> Prop :=
| sp_local : target = ctx_self context -> single_plan context target (mkRoutePlan local_delivery [])
| sp_direct l : target <> ctx_self context -> links context = Some l -> link_HasHealthyDirectLink l target = true ->
    single_plan context target (mkRoutePlan single_next_hop [mkRouteHop target true])
| sp_relay v relay : target <> ctx_self context ->
    (forall l, links context = Some l -> link_HasHealthyDirectLink l target = false) ->
    membership context = Some v -> relay ∈ view_FindByService v mRelayServiceType ->
    process relay <> ctx_self context ->
    single_plan context target (mkRoutePlan single_next_hop [mkRouteHop (process relay) false])
| sp_unreachable : target <> ctx_self context ->
    (forall l, links context = Some l -> link_HasHealthyDirectLink l target = false) ->
    (forall v relay, membership context = Some v -> relay ∈ view_FindByService v mRelayServiceType ->
       process relay = ctx_self context) ->
    single_plan context target (mkRoutePlan unreachable []).

Lemma ResolveSingleTarget_spec context target : single_plan context target (ResolveSingleTarget context target).
Proof.
  unfold ResolveSingleTarget. case_bool_decide as Hself; [by apply sp_local|].
  destruct (match links context with Some l => link_HasHealthyDirectLink l target | None => false end) eqn:El.
  - destruct (links context) as [l|] eqn:E; [|done]. by apply (sp_direct _ _ l).
  - assert (forall l, links context = Some l -> link_HasHealthyDirectLink l target = false) as Hno.
    { intros l E. by rewrite E in El. }
    destruct (find _ _) as [relay|] eqn:Ef.
    + apply find_some in Ef as [Hin%list_elem_of_In Hne%negb_true_iff%bool_decide_eq_false_1].
      destruct (membership context) as [v|] eqn:Em; [|by apply elem_of_nil in Hin].
      by apply (sp_relay _ _ v).
    + apply sp_unreachable; [done|done|]. intros v relay Em Hin. rewrite Em in Ef.
      pose proof (find_none _ _ Ef relay) as Hn. simpl in Hn. rewrite list_elem_of_In in Hin.
      specialize (Hn Hin). by apply negb_false_iff, bool_decide_eq_true_1 in Hn.
Qed.

(** Delivering to one known process never fans out. *)
Lemma ResolveSingleTarget_kind context target :
  plan_kind (ResolveSingleTarget context target) <> multi_next_hop /\
  plan_kind (ResolveSingleTarget context target) <> rp_drop /\
  (plan_kind (ResolveSingleTarget context target) = single_next_hop ->
   exists h, hops (ResolveSingleTarget context target) = [h] /\ next_hop h <> ctx_self context).
Proof.
  destruct (ResolveSingleTarget_spec context target); simpl; (split; [done|]); (split; [done|]);
    intros ?; (discriminate || (eexists; split; done)).
Qed.

Lemma Resolve_single context target rest :
  semantic (header (ctx_envelope context)) = direct ->
  (exists version, receiver_location context = Some (mkReceiverLocation rl_single_process (target :: rest) version)) ->
  Resolve context = ResolveSingleTarget context target.
Proof.
  intros Hd [version Hl]. unfold Resolve. rewrite Hd, Hl.
  by rewrite bool_decide_eq_false_2 by done.
Qed.

(** A hop carries the target or the first relay that is not this process. *)
Lemma Resolve_hops context :
  plan_kind (Resolve context) = single_next_hop ->
  exists h, hops (Resolve context) = [h] /\ next_hop h <> ctx_self context.
Proof.
  unfold Resolve, ResolveProcessTarget. intros E.
  repeat match goal with
  | |- context [match ?x with _ => _ end] =>
      lazymatch x with
      | context [match _ with _ => _ end] => fail
      | _ => destruct x eqn:?
      end
  end; simplify_eq/=; try done; by apply ResolveSingleTarget_kind.
Qed.

Lemma broadcast_hops_spec context v r d :
  mkRouteHop r d ∈ broadcast_hops context v <->
  let scope := broadcast_scope (ctx_envelope context) in
  d = bool_decide (r = ctx_self context) /\
  (include_local scope = true \/ r <> ctx_self context) /\
  exists p, p ∈ view_FindByService v (default (u32 (key_hi (target_receiver (header (ctx_envelope context)))))
                                        (bs_service_type scope)) /\
    process p = r /\ MatchesLabels p (required_labels scope) = true.
Proof.
  unfold broadcast_hops. rewrite list_elem_of_omap. cbv zeta. split.
  - intros (p & Hp & E). destruct (negb _ && _) eqn:El; [done|].
    destruct (MatchesLabels p _) eqn:Em; simplify_eq/=. split; [done|].
    apply andb_false_iff in El as [El%negb_false_iff|El%bool_decide_eq_false_1]; eauto 6.
  - intros (-> & Hl & p & Hp & <- & Hm). exists p. split; [done|]. rewrite Hm.
    destruct (include_local _) eqn:Ei; [done|]. destruct Hl as [|Hl]; [done|].
    by rewrite bool_decide_eq_false_2 by done.
Qed.

End policy.

(** ** first_phase_topology_policy.h *)

Module FirstPhaseIpcTopologyPolicy.

Definition HasMemberOfServiceType (ms : list ProcessDescriptor) (st : Z) : bool :=
  existsb (fun m => service_type (pid m) =? st) ms.
Definition HasHealthyLinkOfServiceType (ls : list ProcessRef) (st : Z) : bool :=
  existsb (fun l => service_type (process_id l) =? st) ls.
Definition ShouldGameReconcile (relay_member_visible healthy_relay_link : bool) : bool :=
  negb healthy_relay_link || negb relay_member_visible.
Definition ShouldGameAutoConnectTarget (self : ProcessRef) (m : ProcessDescriptor) (relay : Z) (healthy : bool) : bool :=
  if bool_decide (process m = self) then false
  else if negb (service_type (pid m) =? relay) then false
  else negb healthy.
Definition ShouldRelayAutoConnectTarget (self : ProcessRef) (m : ProcessDescriptor) (game : Z) (already : bool) : bool :=
  if bool_decide (process m = self) then false
  else if negb (service_type (pid m) =? game) then false
  else negb already.

End FirstPhaseIpcTopologyPolicy.

(** ** Properties *)

(** C28: a broadcast goes exactly to the members of the addressed service that
    carry every required label, this process among them only when the scope
    includes it, and it is dropped when there is none. *)
Theorem broadcast_plan_exact {V L : Type} `{IMembershipView V} `{ILinkView L} {view_ok : V -> Prop}
    `{!MembershipViewLaw V view_ok} relay_type (context : RoutingContext V L) (v : V) :
  view_ok v -> membership context = Some v ->
  semantic (header (ctx_envelope context)) = broadcast ->
  rtype (target_receiver (header (ctx_envelope context))) = rt_service ->
  let scope := broadcast_scope (ctx_envelope context) in
  let st := default (u32 (key_hi (target_receiver (header (ctx_envelope context))))) (bs_service_type scope) in
  let plan := Resolve relay_type context in
  (forall r, r ∈ next_hop <$> hops plan <->
     (include_local scope = true \/ r <> ctx_self context) /\
     exists p, p ∈ view_All v /\ process p = r /\ service_type (pid p) = st /\
       forall kv, kv ∈ required_labels scope -> kv ∈ labels p) /\
  (plan_kind plan = if bool_decide (hops plan = []) then rp_drop else multi_next_hop).
Proof.
  intros Hv Hm Hs Ht scope st plan.
  assert (hops plan = broadcast_hops context v /\
          plan_kind plan = match broadcast_hops context v with [] => rp_drop | _ => multi_next_hop end) as [Eh Ek].
  { subst plan. unfold Resolve. rewrite Hs, Hm, Ht. cbn [bool_decide].
    rewrite bool_decide_eq_true_2 by done. cbn. by destruct (broadcast_hops context v). }
  split.
  - intros r. rewrite Eh, list_elem_of_fmap. split.
    + intros ([r' d] & -> & (_ & Hl & p & Hp & Hr & Hlab)%broadcast_hops_spec). simpl in *. split; [done|].
      exists p. rewrite (view_service_all v) in Hp by done. apply list_elem_of_filter in Hp as [Hst Hp].
      split; [done|]. split; [done|]. split; [done|]. by apply MatchesLabels_spec.
    + intros (Hl & p & Hp & Hr & Hst & Hlab). exists (mkRouteHop r (bool_decide (r = ctx_self context))).
      split; [done|]. apply broadcast_hops_spec. split; [done|]. split; [done|]. exists p.
      split; [rewrite (view_service_all v) by done; by apply list_elem_of_filter|].
      split; [done|]. by apply MatchesLabels_spec.
  - rewrite Eh, Ek. by destruct (broadcast_hops context v).
Qed.

(** Routing towards one process is sound: local delivery only for this
    process itself, a direct hop only over a healthy link to the target, otherwise
    a visible relay other than this process; [unreachable] only if there is
    neither.  The single next hop is never this process. *)
Theorem single_target_plan {V L : Type} `{IMembershipView V} `{ILinkView L} relay_type
    (context : RoutingContext V L) (target : ProcessRef) (rest : list ProcessRef) (version : Z) :
  semantic (header (ctx_envelope context)) = direct ->
  receiver_location context = Some (mkReceiverLocation rl_single_process (target :: rest) version) ->
  single_plan relay_type context target (Resolve relay_type context).
Proof.
  intros Hd Hl. rewrite (Resolve_single relay_type context target rest Hd) by (by exists version).
  apply ResolveSingleTarget_spec.
Qed.

(** Two relays that both see only each other as a relay and have no link to the
    target name each other as the next hop. *)
Lemma relay_names_other {V L : Type} `{IMembershipView V} `{ILinkView L} relay_type
    (context : RoutingContext V L) (v : V) (other target : ProcessRef) :
  target <> ctx_self context -> other <> ctx_self context ->
  (forall l, links context = Some l -> link_HasHealthyDirectLink l target = false) ->
  membership context = Some v ->
  (forall p, p ∈ view_FindByService v relay_type -> process p = ctx_self context \/ process p = other) ->
  (exists p, p ∈ view_FindByService v relay_type /\ process p = other) ->
  ResolveSingleTarget relay_type context target = mkRoutePlan single_next_hop [mkRouteHop other false].
Proof.
  intros Ht Ho Hl Hm Hall (p & Hp & Eo).
  destruct (ResolveSingleTarget_spec relay_type context target) as
    [E|l' ? El' Eh|v' relay ? ? Em' Hr Hne|? ? Hno].
  - done.
  - rewrite (Hl _ El') in Eh. done.
  - rewrite Em' in Hm. simplify_eq. by destruct (Hall _ Hr) as [?| ->].
  - exfalso. apply Ho. rewrite <- Eo. by eapply Hno.
Qed.

(** ** A concrete membership: two games and a relay *)

#[local] Existing Instance order_Z.

Definition member_game_1 : ProcessDescriptor :=
  mkProcessDescriptor (mkProcessRef (mkProcessId 20 1) 7) "game" (mkEndpoint "127.0.0.1" 9000) 1 5 [("zone", "a")] [].
Definition member_game_2 : ProcessDescriptor :=
  mkProcessDescriptor (mkProcessRef (mkProcessId 20 2) 8) "game" (mkEndpoint "127.0.0.1" 9001) 1 5 [("zone", "b")] [].
Definition member_relay : ProcessDescriptor :=
  mkProcessDescriptor (mkProcessRef (mkProcessId 30 1) 9) "relay" (mkEndpoint "127.0.0.1" 9002) 1 5 [] [].

Definition view_example : Discovery.t :=
  foldl (fun s p => (Discovery.Upsert p s).2) Discovery.initial [member_game_1; member_game_2; member_relay].

Lemma view_example_wf : wf_members (Discovery.mProcesses view_example).
Proof.
  do 3 (apply wf_members_insert; [|by vm_compute]). intros k p E. simpl in E. by rewrite lookup_empty in E.
Qed.

Definition envelope_example (s : DeliverySemantic) (scope : BroadcastScope) : Envelope :=
  mkEnvelope (mkEnvelopeHeader (process member_game_1) s (mkReceiverAddress rt_service 20 1) None 1 0) scope "type" [].
Definition context_example (s : DeliverySemantic) (location : option ReceiverLocation)
    : RoutingContext Discovery.t LinkManager.t :=
  mkContext (process member_game_1) (envelope_example s (mkBroadcastScope None [("zone", "b")] false)) location
    (Some view_example) (Some (LinkManager.create (process member_game_1) 1)).

Lemma broadcast_plan_exact_witness :
  process member_game_2 ∈ next_hop <$> hops (Resolve 30 (context_example broadcast None)).
Proof.
  apply (proj1 (@broadcast_plan_exact Discovery.t LinkManager.t (@discovery_view order_Z) (@link_manager_view order_Z)
    _ (@discovery_view_law order_Z) 30 (context_example broadcast None) view_example view_example_wf eq_refl eq_refl eq_refl)
    (process member_game_2)).
  split; [right; discriminate|]. exists member_game_2. split; [|split; [done|split; [done|]]].
  - vm_compute. repeat (first [left | right]).
  - intros kv ->%list_elem_of_singleton. by apply list_elem_of_singleton.
Defined.

Lemma single_target_plan_witness :
  single_plan 30 (context_example direct (Some (mkReceiverLocation rl_single_process [process member_game_2] 1)))
    (process member_game_2)
    (Resolve 30 (context_example direct (Some (mkReceiverLocation rl_single_process [process member_game_2] 1)))).
Proof. by apply (single_target_plan 30 _ (process member_game_2) [] 1). Defined.
