(* ===== verification/Messaging.v ===== *)
(** * Messaging (src/framework/ipc/messaging, src/common/protocol)

    The data envelope codec, the payload registry, the transport-backed remote
    sender, the [Messenger] with its recursive [SendEnvelope], and the protobuf
    dispatcher templates. *)

From S2P Require Import Prelude Text EtcdText Base Receiver Transport Link Discovery Routing.

(** ** The protobuf data envelope (proto/ipc/envelope.proto, types.proto)

    Presence of a sub-message or an [optional] field is an option; a map field is
    a finite map. *)

Record ProtoBroadcastScope := mkProtoScope {
  pb_service_type : option Z; pb_required_labels : gmap string string; pb_include_local : bool
}.
Record ProtoDataEnvelope := mkProtoEnvelope {
  pe_source_process : option ProcessRef;
  pe_semantic : Z;
  pe_target_receiver : option (Z * Z * Z);
  pe_resolved_target_process : option ProcessRef;
  pe_broadcast_scope : option ProtoBroadcastScope;
  pe_payload_type_url : string;
  pe_payload_bytes : ByteBuffer;
  pe_request_id : Z;
  pe_flags : Z
}.

Definition DELIVERY_SEMANTIC_DIRECT : Z := 1.
Definition DELIVERY_SEMANTIC_BROADCAST : Z := 2.

Definition proto_envelope_fits (p : ProtoDataEnvelope) : Prop :=
  from_option wf_process_ref True (pe_source_process p) /\
  from_option (fun '(t, h, l) => in_u32 t /\ in_u64 h /\ in_u64 l) True (pe_target_receiver p) /\
  from_option wf_process_ref True (pe_resolved_target_process p) /\
  from_option (fun s => from_option in_u32 True (pb_service_type s)) True (pe_broadcast_scope p) /\
  in_u64 (pe_request_id p) /\ in_u32 (pe_flags p).

(** ** data_codec.cpp *)

Definition ScopeToProto (scope : BroadcastScope) : ProtoBroadcastScope :=
  mkProtoScope (bs_service_type scope)
    (foldl (fun m '(key, value) => <[key := value]> m) ∅ (required_labels scope)) (include_local scope).

Definition ScopeFromProto {ms : MapOrder string} (p : ProtoBroadcastScope) : BroadcastScope :=
  mkBroadcastScope (pb_service_type p) (entries (pb_required_labels p)) (pb_include_local p).

Definition ReceiverToProto (r : ReceiverAddress) : Z * Z * Z := (rtype r, key_hi r, key_lo r).
Definition ReceiverFromProto (p : Z * Z * Z) : ReceiverAddress :=
  let '(t, h, l) := p in mkReceiverAddress (u16 t) h l.

Section codec.
Context `{Codec ProtoDataEnvelope} {ms : MapOrder string}.

Definition EnvelopeToProto (e : Envelope) : ProtoDataEnvelope :=
  let h := header e in
  mkProtoEnvelope (Some (source_process h))
    (if bool_decide (semantic h = broadcast) then DELIVERY_SEMANTIC_BROADCAST else DELIVERY_SEMANTIC_DIRECT)
    (Some (ReceiverToProto (target_receiver h)))
    (resolved_target_process h)
    (if bool_decide (semantic h = broadcast) then Some (ScopeToProto (broadcast_scope e)) else None)
    (payload_type_url e) (payload_bytes e) (request_id h) (flags h).

Definition EncodeDataEnvelope (e : Envelope) : ByteBuffer := serialize (EnvelopeToProto e).

Definition EnvelopeFromProto (p : ProtoDataEnvelope) : Envelope :=
  mkEnvelope
    (mkEnvelopeHeader (default default_process_ref (pe_source_process p))
       (if pe_semantic p =? DELIVERY_SEMANTIC_BROADCAST then broadcast else direct)
       (ReceiverFromProto (default (0, 0, 0) (pe_target_receiver p)))
       (pe_resolved_target_process p) (pe_request_id p) (pe_flags p))
    (match pe_broadcast_scope p with Some s => ScopeFromProto s | None => default_scope end)
    (pe_payload_type_url p) (pe_payload_bytes p).

Definition DecodeDataEnvelope (bytes : ByteBuffer) : Result * option Envelope :=
  match parse bytes with
  | None => (Failure "invalid data envelope", None)
  | Some p => (Success, Some (EnvelopeFromProto p))
  end.

(** ** transport_message_sender.cpp *)

Definition TransportMessageSender_Send {mo : MapOrder Z} {W : Type} (mLinks : W -> LinkManager.t)
    (mTransport_Send : RawFrame -> St W Result) (next_hop : ProcessRef) (e : Envelope) : St W Result :=
  fun w =>
    match LinkManager.FindConnection (mLinks w) next_hop with
    | None => (Failure "no healthy link to next hop", w)
    | Some id =>
        let body := EncodeDataEnvelope e in
        mTransport_Send
          (mkRawFrame id (mkFrameHeader kFrameMagic kFrameVersion fk_data (u32 (Z.of_nat (length body)))) body) w
    end.

End codec.

(** ** payload_registry.cpp *)

(** A protobuf message as the messenger sees it: its full name and its bytes. *)
Record Message := mkMessage { full_name : string; message_bytes : ByteBuffer }.

Module PayloadRegistry.

Abbreviation t := (gset string).

Definition TypeUrlFor (m : Message) : string := "type.googleapis.com/" +:+ full_name m.
Definition Register (m : Message) : St t Result := fun s => (Success, {[TypeUrlFor m]} ∪ s).
Definition IsRegistered (s : t) (url : string) : bool := bool_decide (url ∈ s).
Definition Clear : St t unit := fun _ => (tt, ∅).

End PayloadRegistry.

(** ** messenger.{h,cpp} *)

Module Messenger.

Section messenger.
Context {W V L H : Type} `{IMembershipView V} `{ILinkView L} `{Codec ProtoDataEnvelope} {ms : MapOrder string}.

(** The references a messenger holds, read in the world [W] at the time of use;
    the router is its policy's relay service type. *)
Record t := mk {
  mSelf : ProcessRef;
  mRouter : Z;
  mReceiverDirectory : W -> ReceiverAddress -> ReceiverLocation;
  mReceiverRegistry : W -> list (option H);
  host_dispatch : H -> ReceiverAddress -> Envelope -> St W Result;
  mPayloadRegistry : W -> gset string;
  mMembership : option (W -> V);
  mLinks : option (W -> L);
  mRemoteSender : option (ProcessRef -> Envelope -> St W Result)
}.

Definition with_resolved (r : option ProcessRef) (e : Envelope) : Envelope :=
  let h := header e in
  mkEnvelope (mkEnvelopeHeader (source_process h) (semantic h) (target_receiver h) r (request_id h) (flags h))
    (broadcast_scope e) (payload_type_url e) (payload_bytes e).

(** Clears the broadcast fields of the copy sent to one hop. *)
Definition as_direct (e : Envelope) : Envelope :=
  let h := header e in
  mkEnvelope (mkEnvelopeHeader (source_process h) direct (target_receiver h) (resolved_target_process h)
                (request_id h) (flags h)) default_scope (payload_type_url e) (payload_bytes e).

Definition DispatchLocal (m : t) (e : Envelope) : St W Result :=
  fun w =>
    if negb (PayloadRegistry.IsRegistered (mPayloadRegistry m w) (payload_type_url e)) then
      (Failure "payload type is not registered", w)
    else ReceiverRegistry.Dispatch (host_dispatch m) (mReceiverRegistry m w) (target_receiver (header e)) e w.

Definition context_of (m : t) (e : Envelope) (location : option ReceiverLocation) (w : W) : RoutingContext V L :=
  mkContext (mSelf m) e location ((fun f => f w) <$> mMembership m) ((fun f => f w) <$> mLinks m).

(** The first statement of [SendEnvelope]. *)
Definition resolve_header (e : Envelope) (location : option ReceiverLocation) : Envelope :=
  match location with
  | Some (mkReceiverLocation rl_single_process (p :: _) _) =>
      if negb (rtype (target_receiver (header e)) =? rt_process) then with_resolved (Some p) e else e
  | _ => e
  end.

Definition hop_envelope (e : Envelope) (h : RouteHop) : Envelope :=
  let e' := as_direct e in
  if negb (rtype (target_receiver (header e')) =? rt_process) then with_resolved (Some (next_hop h)) e' else e'.

Definition hop_location (h : RouteHop) : ReceiverLocation := mkReceiverLocation rl_single_process [next_hop h] 1.

(** The loop over the hops of a plan, with the recursive call as an argument. *)
Fixpoint send_hops (send : Envelope -> option ReceiverLocation -> W -> option (Result * W)) (e : Envelope)
    (hs : list RouteHop) (w : W) : option (Result * W) :=
  match hs with
  | [] => Some (Success, w)
  | h :: hs' =>
      match send (hop_envelope e h) (Some (hop_location h)) w with
      | None => None
      | Some (r, w') => if negb (ok r) then Some (r, w') else send_hops send e hs' w'
      end
  end.

(** [None]: the recursion has used up the fuel, or a single-hop plan has no hop. *)
Fixpoint SendEnvelope_fuel (fuel : nat) (m : t) (e0 : Envelope) (location : option ReceiverLocation) (w : W)
    : option (Result * W) :=
  match fuel with
  | O => None
  | S fuel' =>
      let e := resolve_header e0 location in
      let plan := Router_Resolve (mRouter m) (context_of m e location w) in
      match plan_kind plan with
      | local_delivery => Some (DispatchLocal m e w)
      | rp_drop => Some (Failure "message dropped during route resolution", w)
      | single_next_hop =>
          match mRemoteSender m with
          | None => Some (Failure "remote message sender is not configured", w)
          | Some send =>
              match hops plan with
              | h :: _ => Some (send (next_hop h) e w)
              | [] => None
              end
          end
      | multi_next_hop => send_hops (SendEnvelope_fuel fuel' m) e (hops plan) w
      | unreachable => Some (Failure "route plan kind is not implemented yet", w)
      end
  end.

(** Two levels are enough: see [send_envelope_terminates]. *)
Definition SendEnvelope (m : t) (e : Envelope) (location : option ReceiverLocation) : St W Result :=
  fun w => default (Failure "", w) (SendEnvelope_fuel 2 m e location w).

Definition ProcessReceiver (target : ProcessId) : ReceiverAddress :=
  mkReceiverAddress rt_process (service_type target) (instance_id target).

Definition message_envelope (m : t) (s : DeliverySemantic) (target : ReceiverAddress) (scope : BroadcastScope)
    (msg : Message) : Envelope :=
  mkEnvelope (mkEnvelopeHeader (mSelf m) s target None 0 0) scope (PayloadRegistry.TypeUrlFor msg) (message_bytes msg).

Definition SendToProcess (m : t) (target : ProcessId) (msg : Message) : St W Result :=
  let location := if bool_decide (target = process_id (mSelf m))
                  then Some (mkReceiverLocation rl_local [mSelf m] 1) else None in
  SendEnvelope m (message_envelope m direct (ProcessReceiver target) default_scope msg) location.

Definition SendToReceiver (m : t) (target : ReceiverAddress) (msg : Message) : St W Result :=
  fun w => SendEnvelope m (message_envelope m direct target default_scope msg) (Some (mReceiverDirectory m w target)) w.

Definition BroadcastToReceiver (m : t) (target : ReceiverAddress) (scope : BroadcastScope) (msg : Message) : St W Result :=
  if negb (rtype target =? rt_service) then ret (Failure "broadcast is not supported for this receiver type")
  else if match bs_service_type scope with Some st => negb (st =? u32 (key_hi target)) | None => false end then
    ret (Failure "broadcast scope service_type does not match target receiver")
  else
    let scope := mkBroadcastScope (Some (u32 (key_hi target))) (required_labels scope) (include_local scope) in
    SendEnvelope m (message_envelope m broadcast target scope msg) None.

Definition BroadcastToService (m : t) (st : Z) (scope : BroadcastScope) (msg : Message) : St W Result :=
  BroadcastToReceiver m (mkReceiverAddress rt_service st 1) scope msg.

(** Where an incoming envelope is headed. *)
Definition incoming_location (m : t) (e : Envelope) (w : W) : option ReceiverLocation :=
  if negb (rtype (target_receiver (header e)) =? rt_process) then
    match resolved_target_process (header e) with
    | Some p => Some (mkReceiverLocation rl_single_process [p] 1)
    | None => Some (mReceiverDirectory m w (target_receiver (header e)))
    end
  else None.

Definition HandleIncomingFrame (m : t) (frame : RawFrame) : St W Result :=
  fun w =>
    if negb (kind (fheader frame) =? fk_data) then (Failure "unsupported frame kind", w)
    else
      match DecodeDataEnvelope (payload frame) with
      | (decode_result, None) => (decode_result, w)
      | (_, Some e) => SendEnvelope m e (incoming_location m e w) w
      end.

End messenger.
Arguments t : clear implicits.
End Messenger.

(** ** protobuf_dispatcher.h

    A handler is the closure [Register] builds from the parser of the message
    type and the member function; [C] are the context arguments. *)

Module ProtobufMessageDispatcher.

Section dispatcher.
Context {W C : Type}.
Definition Handler : Type := ByteBuffer -> C -> St W Result.
Abbreviation t := (gmap Z Handler).

Definition Register {M : Type} (message_id : Z) (parse_message : ByteBuffer -> option M)
    (handler : C -> M -> St W Result) : St t unit :=
  modify (fun mHandlers => <[message_id := fun body c =>
    match parse_message body with
    | None => ret (Failure "failed to parse protobuf payload")
    | Some m => handler c m
    end]> mHandlers).

Definition Dispatch (mHandlers : t) (message_id : Z) (body : ByteBuffer) (c : C) : St W Result :=
  match mHandlers !! message_id with
  | None => ret (Failure "unsupported message id")
  | Some h => h body c
  end.

Definition IsRegistered (mHandlers : t) (message_id : Z) : bool := bool_decide (is_Some (mHandlers !! message_id)).

End dispatcher.
End ProtobufMessageDispatcher.

Module ProtobufRequestResponseDispatcher.

Section dispatcher.
Context {W C : Type}.
(** The response payload is an output parameter, written on success only. *)
Definition Handler : Type := ByteBuffer -> C -> St W (Result * option ByteBuffer).
Abbreviation t := (gmap Z Handler).

Definition Register {Req Resp : Type} (message_id : Z) (parse_request : ByteBuffer -> option Req)
    (serialize_response : Resp -> option ByteBuffer) (handler : C -> Req -> St W (Result * Resp)) : St t unit :=
  modify (fun mHandlers => <[message_id := fun body c =>
    match parse_request body with
    | None => ret (Failure "failed to parse protobuf payload", None)
    | Some request =>
        rr <- handler c request ;;
        if negb (ok rr.1) then ret (rr.1, None)
        else match serialize_response rr.2 with
             | None => ret (Failure "failed to serialize protobuf payload", None)
             | Some bytes => ret (Success, Some bytes)
             end
    end]> mHandlers).

Definition Dispatch (mHandlers : t) (message_id : Z) (body : ByteBuffer) (c : C) : St W (Result * option ByteBuffer) :=
  match mHandlers !! message_id with
  | None => ret (Failure "unsupported message id", None)
  | Some h => h body c
  end.

End dispatcher.
End ProtobufRequestResponseDispatcher.

(** ** protobuf_envelope_dispatcher.h: an unknown payload type is a success *)

Module ProtobufEnvelopeDispatcher.

Section dispatcher.
Context {W C : Type}.
Definition Handler : Type := Envelope -> C -> St W Result.
Abbreviation t := (gmap string Handler).

Definition Register {M : Type} (type_url : string) (parse_message : ByteBuffer -> option M)
    (handler : C -> Envelope -> M -> St W Result) : St t unit :=
  modify (fun mHandlers => <[type_url := fun e c =>
    match parse_message (payload_bytes e) with
    | None => ret (Failure ("failed to parse protobuf envelope payload: " +:+ type_url))
    | Some m => handler c e m
    end]> mHandlers).

Definition Dispatch (mHandlers : t) (e : Envelope) (c : C) : St W Result :=
  match mHandlers !! payload_type_url e with
  | None => ret Success
  | Some h => h e c
  end.

Definition IsRegistered (mHandlers : t) (type_url : string) : bool := bool_decide (is_Some (mHandlers !! type_url)).

End dispatcher.
End ProtobufEnvelopeDispatcher.

(** ** Lemmas *)

#[global] Instance proto_scope_eq_dec : EqDecision ProtoBroadcastScope.
Proof. solve_decision. Defined.
#[global] Instance proto_envelope_eq_dec : EqDecision ProtoDataEnvelope.
Proof. solve_decision. Defined.
#[global] Instance proto_scope_countable : Countable ProtoBroadcastScope.
Proof.
  refine (inj_countable' (fun s => (pb_service_type s, map_to_list (pb_required_labels s), pb_include_local s))
    (fun '(a, b, c) => mkProtoScope a (list_to_map b) c) _).
  intros []; simpl. by rewrite list_to_map_to_list.
Defined.
#[global] Instance proto_envelope_countable : Countable ProtoDataEnvelope.
Proof.
  refine (inj_countable' (fun p => (pe_source_process p, pe_semantic p, pe_target_receiver p,
      pe_resolved_target_process p, pe_broadcast_scope p, (pe_payload_type_url p, pe_payload_bytes p,
      pe_request_id p, pe_flags p)))
    (fun '(a, b, c, d, e, (f, g, h, i)) => mkProtoEnvelope a b c d e f g h i) _).
  by intros [].
Defined.

(** The widths of an envelope's fields. *)
Definition wf_envelope (e : Envelope) : Prop :=
  let h := header e in
  wf_process_ref (source_process h) /\ wf_receiver (target_receiver h) /\
  from_option wf_process_ref True (resolved_target_process h) /\
  in_u64 (request_id h) /\ in_u32 (flags h) /\
  from_option in_u32 True (bs_service_type (broadcast_scope e)).

Lemma EnvelopeToProto_fits e : wf_envelope e -> proto_envelope_fits (EnvelopeToProto e).
Proof.
  intros (Hs & (Ht & Hh & Hl) & Hr & Hid & Hf & Hst).
  unfold proto_envelope_fits, EnvelopeToProto. simpl.
  split; [done|]. split; [unfold in_u16, in_u32, in_u64 in *; lia|]. split; [done|].
  split; [by case_bool_decide|done].
Qed.

Lemma ReceiverFromToProto r : wf_receiver r -> ReceiverFromProto (ReceiverToProto r) = r.
Proof. destruct r. intros (Ht & _). unfold ReceiverFromProto, ReceiverToProto. simpl in *. by rewrite u16_id. Qed.

(** Distinct labels survive the map, in some order. *)
Lemma labels_permutation {ms : MapOrder string} (l : StringMap) :
  NoDup l.*1 ->
  Permutation (entries (foldl (fun (m : gmap string string) '(key, value) => <[key := value]> m) ∅ l)) l.
Proof.
  intros Hnd. rewrite entries_perm.
  assert (forall (m : gmap string string), NoDup (l.*1) -> (forall k, k ∈ l.*1 -> m !! k = None) ->
    Permutation (map_to_list (foldl (fun (m : gmap string string) '(key, value) => <[key := value]> m) m l))
      (map_to_list m ++ l)) as Hgen.
  { clear Hnd. induction l as [|[k v] l IH]; intros m Hnd Hf; csimpl in *; [by rewrite app_nil_r|].
    apply NoDup_cons in Hnd as [Hk Hnd].
    rewrite IH; [|done|].
    - rewrite map_to_list_insert by (apply Hf; by left). by rewrite <- Permutation_middle.
    - intros k' Hk'. rewrite lookup_insert_ne; [apply Hf; by right|]. by intros ->. }
  rewrite Hgen; [|done|intros; by rewrite lookup_empty]. by rewrite map_to_list_empty.
Qed.

Section roundtrip.
Context `{Codec ProtoDataEnvelope} {law : CodecLaw ProtoDataEnvelope proto_envelope_fits} {ms : MapOrder string}.

Lemma decode_encode_envelope e :
  wf_envelope e ->
  DecodeDataEnvelope (EncodeDataEnvelope e) =
  (Success, Some (mkEnvelope (header e)
     (if bool_decide (semantic (header e) = broadcast) then ScopeFromProto (ScopeToProto (broadcast_scope e))
      else default_scope) (payload_type_url e) (payload_bytes e))).
Proof.
  intros Hwf. unfold DecodeDataEnvelope, EncodeDataEnvelope. rewrite law by by apply EnvelopeToProto_fits.
  destruct Hwf as (_ & Hr & _). destruct e as [[src sem tgt res rid fl] scope url bytes].
  pose proof (ReceiverFromToProto _ Hr) as E.
  unfold EnvelopeFromProto, EnvelopeToProto. simpl in *. rewrite E. by destruct sem.
Qed.

Lemma decode_encode_direct e :
  wf_envelope e -> semantic (header e) = direct -> broadcast_scope e = default_scope ->
  DecodeDataEnvelope (EncodeDataEnvelope e) = (Success, Some e).
Proof.
  intros Hwf Hd Hs. rewrite decode_encode_envelope by done. rewrite Hd. destruct e; simpl in *. by subst.
Qed.

End roundtrip.

Module MessengerProofs.
Import Messenger.

Section messenger.
Context {W V L H : Type} `{IMembershipView V} `{ILinkView L} `{Codec ProtoDataEnvelope} {ms : MapOrder string}.
Abbreviation messenger := (Messenger.t W V L H).

Lemma resolve_header_semantic e location : semantic (header (resolve_header e location)) = semantic (header e).
Proof. unfold resolve_header. by repeat case_match. Qed.

Lemma resolve_header_target e location : target_receiver (header (resolve_header e location)) = target_receiver (header e).
Proof. unfold resolve_header. by repeat case_match. Qed.

Lemma hop_envelope_semantic e h : semantic (header (hop_envelope e h)) = direct.
Proof. unfold hop_envelope. by case_match. Qed.

(** A direct envelope to one known process needs one level. *)
Lemma send_single (m : messenger) e p rest v w :
  semantic (header e) = direct ->
  exists r, forall n, SendEnvelope_fuel (S n) m e (Some (mkReceiverLocation rl_single_process (p :: rest) v)) w = Some r.
Proof.
  intros Hd. set (loc := mkReceiverLocation _ _ _). set (e1 := resolve_header e (Some loc)).
  pose proof (Resolve_single (mRouter m) (context_of m e1 (Some loc) w) p rest) as E.
  unfold context_of in E at 1. simpl in E.
  assert (semantic (header e1) = direct) as Hd1 by (unfold e1; by rewrite resolve_header_semantic).
  specialize (E Hd1 (ex_intro _ v eq_refl)).
  destruct (ResolveSingleTarget_kind (mRouter m) (context_of m e1 (Some loc) w) p) as (Hk1 & Hk2 & Hk3).
  rewrite <- E in Hk1, Hk2, Hk3.
  cbn [SendEnvelope_fuel]. fold e1. unfold Router_Resolve.
  destruct (plan_kind _) eqn:Ek; try done; [by eexists| |by eexists].
  destruct (Hk3 eq_refl) as (h & -> & _). destruct (mRemoteSender m); by eexists.
Qed.

Lemma send_hops_fuel (m : messenger) e hs w :
  exists r, forall n, send_hops (SendEnvelope_fuel (S n) m) e hs w = Some r.
Proof.
  revert w. induction hs as [|h hs IH]; intros w; [by eexists|].
  destruct (send_single m (hop_envelope e h) (next_hop h) [] 1 w (hop_envelope_semantic e h)) as [[r w'] Hr].
  fold (hop_location h) in Hr. destruct (IH w') as [r' Hr'].
  exists (if negb (ok r) then (r, w') else r'). intros n.
  cbn [send_hops]. rewrite Hr, Hr'. by destruct (ok r).
Qed.

Lemma send_fuel (m : messenger) e location w :
  exists r, forall n, SendEnvelope_fuel (S (S n)) m e location w = Some r.
Proof.
  set (e1 := resolve_header e location).
  pose proof (Resolve_hops (mRouter m) (context_of m e1 location w)) as Hh.
  destruct (send_hops_fuel m e1 (hops (Resolve (mRouter m) (context_of m e1 location w))) w) as [r Hr].
  eexists. intros n. specialize (Hr n). revert Hr. generalize (S n). intros k Hr.
  cbn [SendEnvelope_fuel]. fold e1. unfold Router_Resolve. rewrite Hr.
  instantiate (1 := match plan_kind (Resolve (mRouter m) (context_of m e1 location w)) with
    | local_delivery => DispatchLocal m e1 w
    | rp_drop => (Failure "message dropped during route resolution", w)
    | single_next_hop => match mRemoteSender m with
        | None => (Failure "remote message sender is not configured", w)
        | Some send => match hops (Resolve (mRouter m) (context_of m e1 location w)) with
                       | h :: _ => send (next_hop h) e1 w | [] => r end end
    | multi_next_hop => r
    | unreachable => (Failure "route plan kind is not implemented yet", w) end).
  destruct (plan_kind _) eqn:Ek; try done.
  destruct (Hh eq_refl) as (h & -> & _). by destruct (mRemoteSender m).
Qed.

Lemma SendEnvelope_eq (m : messenger) e location w n :
  SendEnvelope_fuel (S (S n)) m e location w = Some (SendEnvelope m e location w).
Proof. unfold SendEnvelope. destruct (send_fuel m e location w) as [r Hr]. by rewrite !Hr. Qed.

(** Forwarding a direct envelope towards a process other than this one. *)
Lemma send_towards (m : messenger) e target v w h d :
  semantic (header e) = direct ->
  rtype (target_receiver (header e)) <> rt_process ->
  ResolveSingleTarget (mRouter m)
    (context_of m (with_resolved (Some target) e) (Some (mkReceiverLocation rl_single_process [target] v)) w) target
    = mkRoutePlan single_next_hop [mkRouteHop h d] ->
  SendEnvelope m e (Some (mkReceiverLocation rl_single_process [target] v)) w =
  match mRemoteSender m with
  | None => (Failure "remote message sender is not configured", w)
  | Some send => send h (with_resolved (Some target) e) w
  end.
Proof.
  intros Hd Ht E. apply (inj Some). rewrite <- (SendEnvelope_eq m e _ w 0). cbn [SendEnvelope_fuel].
  assert (resolve_header e (Some (mkReceiverLocation rl_single_process [target] v)) = with_resolved (Some target) e) as ->.
  { unfold resolve_header. by replace (rtype (target_receiver (header e)) =? rt_process) with false by lia. }
  unfold Router_Resolve. rewrite (Resolve_single _ _ target []); [|done|by exists v].
  rewrite E. simpl. by destruct (mRemoteSender m).
Qed.

Lemma deliver_here (m : messenger) e v w :
  semantic (header e) = direct -> rtype (target_receiver (header e)) <> rt_process ->
  SendEnvelope m e (Some (mkReceiverLocation rl_single_process [mSelf m] v)) w =
  DispatchLocal m (with_resolved (Some (mSelf m)) e) w.
Proof.
  intros Hd Ht. apply (inj Some). rewrite <- (SendEnvelope_eq m e _ w 0). cbn [SendEnvelope_fuel].
  assert (resolve_header e (Some (mkReceiverLocation rl_single_process [mSelf m] v)) = with_resolved (Some (mSelf m)) e) as ->.
  { unfold resolve_header. by replace (rtype (target_receiver (header e)) =? rt_process) with false by lia. }
  unfold Router_Resolve. rewrite (Resolve_single _ _ (mSelf m) []); [|done|by exists v].
  unfold ResolveSingleTarget. by rewrite bool_decide_eq_true_2 by done.
Qed.

Context {law : CodecLaw ProtoDataEnvelope proto_envelope_fits}.

Definition data_frame (id : Z) (e : Envelope) : RawFrame :=
  mkRawFrame id (mkFrameHeader kFrameMagic kFrameVersion fk_data (u32 (Z.of_nat (length (EncodeDataEnvelope e)))))
    (EncodeDataEnvelope e).

Lemma handle_resolved (m : messenger) id e target w :
  wf_envelope e -> semantic (header e) = direct -> broadcast_scope e = default_scope ->
  rtype (target_receiver (header e)) <> rt_process -> resolved_target_process (header e) = Some target ->
  HandleIncomingFrame m (data_frame id e) w =
  SendEnvelope m e (Some (mkReceiverLocation rl_single_process [target] 1)) w.
Proof.
  intros Hwf Hd Hs Ht Hr. unfold HandleIncomingFrame, data_frame. cbn [fheader kind payload].
  rewrite Z.eqb_refl. cbn [negb]. rewrite decode_encode_direct by done. unfold incoming_location.
  replace (rtype (target_receiver (header e)) =? rt_process) with false by lia. cbn [negb]. by rewrite Hr.
Qed.

Lemma with_resolved_same e r : resolved_target_process (header e) = r -> with_resolved r e = e.
Proof. intros <-. by destruct e as [[] ? ? ?]. Qed.

End messenger.
End MessengerProofs.

(** ** Properties *)

(** An envelope decoded from its encoding has the same header and payload; a
    direct one comes back with the default broadcast scope, a broadcast one with
    its scope, the labels (with distinct keys) in some order. *)
Theorem data_envelope_roundtrip `{Codec ProtoDataEnvelope} {law : CodecLaw ProtoDataEnvelope proto_envelope_fits}
    {ms : MapOrder string} (e : Envelope) :
  wf_envelope e -> NoDup (required_labels (broadcast_scope e)).*1 ->
  exists e', DecodeDataEnvelope (EncodeDataEnvelope e) = (Success, Some e') /\
    header e' = header e /\ payload_type_url e' = payload_type_url e /\ payload_bytes e' = payload_bytes e /\
    match semantic (header e) with
    | direct => broadcast_scope e' = default_scope
    | broadcast =>
        bs_service_type (broadcast_scope e') = bs_service_type (broadcast_scope e) /\
        include_local (broadcast_scope e') = include_local (broadcast_scope e) /\
        Permutation (required_labels (broadcast_scope e')) (required_labels (broadcast_scope e))
    end.
Proof.
  intros Hwf Hnd. rewrite decode_encode_envelope by done. eexists. split; [done|].
  do 3 (split; [done|]). destruct (semantic (header e)); [done|].
  split; [done|]. split; [done|]. simpl. by apply labels_permutation.
Qed.

(** [SendEnvelope] terminates: its recursion is at most two levels deep, so
    every larger fuel gives the same result, for every envelope, location,
    membership, link table and behaviour of senders and hosts. *)
Theorem send_envelope_terminates {W V L H : Type} `{IMembershipView V} `{ILinkView L}
    (m : Messenger.t W V L H) (e : Envelope) (location : option ReceiverLocation) (w : W) (n : nat) :
  Messenger.SendEnvelope_fuel (2 + n) m e location w = Some (Messenger.SendEnvelope m e location w).
Proof. apply MessengerProofs.SendEnvelope_eq. Qed.

Section forwarding.
Context {W V L H : Type} `{IMembershipView V} `{ILinkView L} `{Codec ProtoDataEnvelope}
  {law : CodecLaw ProtoDataEnvelope proto_envelope_fits} {ms : MapOrder string}.

(** The process sees [other] as its only relay besides itself and has no healthy
    link to [target]. *)
Definition only_relay (m : Messenger.t W V L H) (w : W) (other target : ProcessRef) : Prop :=
  other <> Messenger.mSelf m /\ target <> Messenger.mSelf m /\
  (forall f, Messenger.mLinks m = Some f -> link_HasHealthyDirectLink (f w) target = false) /\
  exists f, Messenger.mMembership m = Some f /\
    (forall p, p ∈ view_FindByService (f w) (Messenger.mRouter m) -> process p = Messenger.mSelf m \/ process p = other) /\
    exists p, p ∈ view_FindByService (f w) (Messenger.mRouter m) /\ process p = other.

(** An envelope for a receiver (not a process) on its way to a known process. *)
Definition in_transit (e : Envelope) (target : ProcessRef) : Prop :=
  wf_envelope e /\ semantic (header e) = direct /\ broadcast_scope e = default_scope /\
  rtype (target_receiver (header e)) <> rt_process /\ resolved_target_process (header e) = Some target.

Lemma forward_over_relay (m : Messenger.t W V L H) w e other target v send :
  only_relay m w other target -> semantic (header e) = direct ->
  rtype (target_receiver (header e)) <> rt_process -> Messenger.mRemoteSender m = Some send ->
  Messenger.SendEnvelope m e (Some (mkReceiverLocation rl_single_process [target] v)) w =
  send other (Messenger.with_resolved (Some target) e) w.
Proof.
  intros (Ho & Ht & Hl & f & Hm & Hall & Hex) Hd Hty Hs.
  rewrite (MessengerProofs.send_towards m e target v w other false Hd Hty); [by rewrite Hs|].
  apply relay_names_other with (v := f w); try done; unfold Messenger.context_of; simpl.
  - intros l Hl'. destruct (Messenger.mLinks m) as [g|] eqn:E; simplify_eq/=. by apply Hl.
  - by rewrite Hm.
Qed.

Lemma forward_over_link (m : Messenger.t W V L H) w e target v send f :
  target <> Messenger.mSelf m -> semantic (header e) = direct ->
  rtype (target_receiver (header e)) <> rt_process -> Messenger.mRemoteSender m = Some send ->
  Messenger.mLinks m = Some f -> link_HasHealthyDirectLink (f w) target = true ->
  Messenger.SendEnvelope m e (Some (mkReceiverLocation rl_single_process [target] v)) w =
  send target (Messenger.with_resolved (Some target) e) w.
Proof.
  intros Ht Hd Hty Hs Hf Hl.
  rewrite (MessengerProofs.send_towards m e target v w target true Hd Hty); [by rewrite Hs|].
  unfold ResolveSingleTarget, Messenger.context_of. simpl. rewrite bool_decide_eq_false_2 by done.
  rewrite Hf. simpl. by rewrite Hl.
Qed.

End forwarding.

(** C5: a message to a receiver owned by another process is delivered over a
    relay: the sender, without a link to the owner, hands it to the relay with the
    owner recorded in the header; the relay, linked to the owner, forwards the
    same envelope to it; the owner dispatches exactly that envelope to its hosts. *)
Theorem relay_path_delivers {W V L H : Type} `{IMembershipView V} `{ILinkView L} `{Codec ProtoDataEnvelope}
    {law : CodecLaw ProtoDataEnvelope proto_envelope_fits} {ms : MapOrder string}
    (source relay owner : Messenger.t W V L H) (ws wr wo : W) (e : Envelope) (version : Z)
    (send_s send_r : ProcessRef -> Envelope -> St W Result) (f : W -> L) (id_r id_o : Z) :
  wf_envelope e -> wf_process_ref (Messenger.mSelf owner) ->
  semantic (header e) = direct -> broadcast_scope e = default_scope ->
  rtype (target_receiver (header e)) <> rt_process ->
  only_relay source ws (Messenger.mSelf relay) (Messenger.mSelf owner) ->
  Messenger.mRemoteSender source = Some send_s -> Messenger.mRemoteSender relay = Some send_r ->
  Messenger.mSelf owner <> Messenger.mSelf relay ->
  Messenger.mLinks relay = Some f -> link_HasHealthyDirectLink (f wr) (Messenger.mSelf owner) = true ->
  let e' := Messenger.with_resolved (Some (Messenger.mSelf owner)) e in
  Messenger.SendEnvelope source e
    (Some (mkReceiverLocation rl_single_process [Messenger.mSelf owner] version)) ws
    = send_s (Messenger.mSelf relay) e' ws /\
  Messenger.HandleIncomingFrame relay (MessengerProofs.data_frame id_r e') wr
    = send_r (Messenger.mSelf owner) e' wr /\
  Messenger.HandleIncomingFrame owner (MessengerProofs.data_frame id_o e') wo
    = Messenger.DispatchLocal owner e' wo.
Proof.
  intros Hwf Hwo Hd Hs Hty Hrel Hss Hsr Hne Hf Hlink e'.
  assert (wf_envelope e') as Hwf' by (destruct Hwf as (A & B & _ & D & F & G); exact (conj A (conj B (conj Hwo (conj D (conj F G)))))).
  assert (Messenger.with_resolved (Some (Messenger.mSelf owner)) e' = e') as Ee by by apply MessengerProofs.with_resolved_same.
  split; [by apply forward_over_relay|]. split.
  - rewrite (MessengerProofs.handle_resolved relay id_r e' (Messenger.mSelf owner)) by done.
    rewrite (forward_over_link relay wr e' (Messenger.mSelf owner) 1 send_r f) by done. by rewrite Ee.
  - rewrite (MessengerProofs.handle_resolved owner id_o e' (Messenger.mSelf owner)) by done.
    rewrite MessengerProofs.deliver_here by done. by rewrite Ee.
Qed.

(** There is no hop limit: two relays that see each other in discovery, and
    neither of which has a link to the owner any more, hand the same envelope to
    each other again and again. *)
Theorem relays_bounce_envelope {W V L H : Type} `{IMembershipView V} `{ILinkView L} `{Codec ProtoDataEnvelope}
    {law : CodecLaw ProtoDataEnvelope proto_envelope_fits} {ms : MapOrder string}
    (relay_1 relay_2 : Messenger.t W V L H) (w1 w2 : W) (e : Envelope) (target : ProcessRef)
    (send_1 send_2 : ProcessRef -> Envelope -> St W Result) (id_1 id_2 : Z) :
  in_transit e target ->
  only_relay relay_1 w1 (Messenger.mSelf relay_2) target -> only_relay relay_2 w2 (Messenger.mSelf relay_1) target ->
  Messenger.mRemoteSender relay_1 = Some send_1 -> Messenger.mRemoteSender relay_2 = Some send_2 ->
  Messenger.HandleIncomingFrame relay_1 (MessengerProofs.data_frame id_1 e) w1 = send_1 (Messenger.mSelf relay_2) e w1 /\
  Messenger.HandleIncomingFrame relay_2 (MessengerProofs.data_frame id_2 e) w2 = send_2 (Messenger.mSelf relay_1) e w2.
Proof.
  intros (Hwf & Hd & Hs & Hty & Hr) H1' H2' Hs1 Hs2.
  rewrite !(MessengerProofs.handle_resolved _ _ e target) by done.
  rewrite (forward_over_relay relay_1 w1 e (Messenger.mSelf relay_2) target 1 send_1) by done.
  rewrite (forward_over_relay relay_2 w2 e (Messenger.mSelf relay_1) target 1 send_2) by done.
  by rewrite MessengerProofs.with_resolved_same by done.
Qed.

(** ** Concrete messengers: what they send is logged *)

#[local] Existing Instance order_Z.
#[local] Instance order_string : MapOrder string := canonical_order string.
#[local] Instance envelope_codec : Codec ProtoDataEnvelope := example_codec ProtoDataEnvelope.
#[local] Instance envelope_codec_law : CodecLaw ProtoDataEnvelope proto_envelope_fits :=
  example_codec_law ProtoDataEnvelope proto_envelope_fits.

Definition log_send (hop : ProcessRef) (e : Envelope) : St (list (ProcessRef * Envelope)) Result :=
  fun w => (Success, w ++ [(hop, e)]).

Definition view_of (ps : list ProcessDescriptor) : Discovery.t :=
  foldl (fun s p => (Discovery.Upsert p s).2) Discovery.initial ps.

Definition messenger_example (self : ProcessRef) (ps : list ProcessDescriptor) (linked : list (Z * Link))
    : Messenger.t (list (ProcessRef * Envelope)) Discovery.t LinkManager.t unit :=
  Messenger.mk self 30 (fun _ _ => default_location) (fun _ => []) (fun _ _ _ => ret Success) (fun _ => ∅)
    (Some (fun _ => view_of ps)) (Some (fun _ => LinkManager.mk self 1 (list_to_map linked) [])) (Some log_send).

Definition game_1 : ProcessRef := process member_game_1.
Definition game_2 : ProcessRef := process member_game_2.
Definition relay_1 : ProcessRef := process member_relay.
Definition relay_2 : ProcessRef := mkProcessRef (mkProcessId 30 2) 11.
Definition member_relay_2 : ProcessDescriptor :=
  mkProcessDescriptor relay_2 "relay" (mkEndpoint "127.0.0.1" 9003) 1 5 [] [].

Definition player_envelope : Envelope :=
  mkEnvelope (mkEnvelopeHeader game_1 direct (mkReceiverAddress rt_player 0 77) (Some game_2) 0 0) default_scope "t" [1; 2].

Definition m_source := messenger_example game_1 [member_game_1; member_game_2; member_relay] [].
Definition m_relay := messenger_example relay_1 [member_game_1; member_game_2; member_relay] [(4, mkLink 4 game_2 ls_active)].
Definition m_owner := messenger_example game_2 [member_game_1; member_game_2; member_relay] [].
Definition m_relay_1 := messenger_example relay_1 [member_relay; member_relay_2] [].
Definition m_relay_2 := messenger_example relay_2 [member_relay; member_relay_2] [].

Lemma wf_player_envelope : wf_envelope player_envelope.
Proof. by vm_compute. Qed.

Lemma data_envelope_roundtrip_witness :
  exists e', DecodeDataEnvelope (EncodeDataEnvelope player_envelope) = (Success, Some e') /\
    header e' = header player_envelope.
Proof.
  destruct (data_envelope_roundtrip player_envelope) as (e' & E & Hh & _); [by vm_compute|apply NoDup_nil_2|].
  by exists e'.
Defined.

(** The conditions of [only_relay] on a concrete messenger, evaluated. *)
Lemma only_relay_example self ps linked other target :
  other <> self -> target <> self ->
  link_HasHealthyDirectLink (LinkManager.mk self 1 (list_to_map linked) []) target = false ->
  forallb (fun p => bool_decide (process p = self) || bool_decide (process p = other))
    (view_FindByService (view_of ps) 30) = true ->
  existsb (fun p => bool_decide (process p = other)) (view_FindByService (view_of ps) 30) = true ->
  only_relay (messenger_example self ps linked) [] other target.
Proof.
  intros Ho Ht Hl Hall Hex. split; [done|]. split; [done|]. split; [intros f Hf; by injection Hf as <-|].
  exists (fun _ => view_of ps). split; [done|]. split.
  - intros p Hp%list_elem_of_In. rewrite forallb_forall in Hall. specialize (Hall p Hp).
    apply orb_true_iff in Hall as [H%bool_decide_eq_true_1|H%bool_decide_eq_true_1]; [by left|by right].
  - apply existsb_exists in Hex as (p & Hp%list_elem_of_In & H%bool_decide_eq_true_1). by exists p.
Qed.

Lemma relay_path_delivers_witness :
  Messenger.HandleIncomingFrame m_relay (MessengerProofs.data_frame 1 player_envelope) [] =
  (Success, [(game_2, player_envelope)]).
Proof.
  destruct (relay_path_delivers m_source m_relay m_owner [] [] [] player_envelope 1 log_send log_send
    (fun _ => LinkManager.mk relay_1 1 (list_to_map [(4, mkLink 4 game_2 ls_active)]) []) 1 1) as (_ & E & _);
    [by vm_compute|by vm_compute|done|done|done| |done|done|discriminate|done|vm_compute; reflexivity|exact E].
  apply only_relay_example; [discriminate|discriminate|vm_compute; reflexivity..].
Defined.

Lemma relays_bounce_envelope_witness :
  Messenger.HandleIncomingFrame m_relay_1 (MessengerProofs.data_frame 1 player_envelope) [] =
  (Success, [(relay_2, player_envelope)]).
Proof.
  destruct (relays_bounce_envelope m_relay_1 m_relay_2 [] [] player_envelope game_2 log_send log_send 1 1) as [E _];
    [by vm_compute| | |done|done|exact E];
    (apply only_relay_example; [discriminate|discriminate|vm_compute; reflexivity..]).
Defined.
