(* ===== verification/IpcNode.v ===== *)
(** * IPC nodes (src/common/ipc/ipc_node_service_base.{h,cpp}, the IPC services of
    game, gate and relay, and the receiver hosts)

    One node: its flags, its discovery, transport and link manager, the receiver
    tables, the keepalive and auto-connect threads.  The transport is a parameter
    of the interface [ITransport]; the threads' loop bodies are the [_tick]
    definitions. *)

From S2P Require Import Prelude Text EtcdText Base Receiver Transport Link Discovery Routing Messaging.

(** ** Receiver hosts (game/services, gate/services) *)

Module Hosts.

(** The hosts a process registers. *)
Inductive host := process_host | player_host | service_host.
#[global] Instance host_eq_dec : EqDecision host.
Proof. solve_decision. Defined.

Definition CanHandle (h : host) (type : ReceiverType) : bool :=
  match h with
  | process_host => type =? rt_process
  | player_host => type =? rt_player
  | service_host => type =? rt_service
  end.

(** [ProcessReceiverHost::Dispatch]; the handler is the process dispatcher. *)
Definition ProcessDispatch {W : Type} (self : ProcessRef) (handler : option (ReceiverAddress -> Envelope -> St W Result))
    (target : ReceiverAddress) (e : Envelope) : St W Result :=
  if negb (rtype target =? rt_process) then ret (Failure "unsupported receiver type")
  else if negb (key_hi target =? service_type (process_id self)) || negb (key_lo target =? instance_id (process_id self))
  then ret (Failure "process receiver target mismatch")
  else match handler with Some h => h target e | None => ret Success end.

(** [PlayerReceiverHost]: the players bound in this process. *)
Definition PlayerBind (player_id : Z) : St (gset Z) bool :=
  fun mPlayers => (negb (bool_decide (player_id ∈ mPlayers)), {[player_id]} ∪ mPlayers).
Definition PlayerUnbind (player_id : Z) : St (gset Z) bool :=
  fun mPlayers => (bool_decide (player_id ∈ mPlayers), mPlayers ∖ {[player_id]}).
Definition PlayerIsBound (mPlayers : gset Z) (player_id : Z) : bool := bool_decide (player_id ∈ mPlayers).
Definition PlayerDispatch (mPlayers : gset Z) (target : ReceiverAddress) (e : Envelope) : Result :=
  if negb (rtype target =? rt_player) then Failure "unsupported receiver type"
  else if negb (bool_decide (key_hi target ∈ mPlayers)) then Failure "player receiver is not bound locally"
  else Success.

(** [ServiceReceiverHost::Dispatch]. *)
Definition ServiceDispatch (mServiceType : Z) (target : ReceiverAddress) (e : Envelope) : Result :=
  if negb (rtype target =? rt_service) then Failure "unsupported receiver type"
  else if negb (key_hi target =? mServiceType) then Failure "service receiver target mismatch"
  else Success.

End Hosts.

(** ** transport.h: the calls the node makes

    Events the transport raises on the calling thread are returned: [Connect]
    announces the new connection before it returns, a failing [Send] announces the
    connection as disconnected. *)

Class ITransport (T : Type) : Type := {
  tr_new : T;
  tr_Listen : Endpoint -> St T Result;
  tr_Connect : Endpoint -> St T (Result * option Z);
  tr_Send : RawFrame -> St T (Result * list Z)
}.

(** ** Roles *)

Inductive role := role_game | role_gate | role_relay.
#[global] Instance role_eq_dec : EqDecision role.
Proof. solve_decision. Defined.

Definition kRelayServiceType : Z := 99.
Definition kGameServiceType : Z := 10.

Record Configuration := mkConfiguration { cfg_instance_id : Z; cfg_listen : Endpoint; cfg_lease_ttl_seconds : Z }.

Definition role_name (r : role) : string :=
  match r with role_game => "game" | role_gate => "gate" | role_relay => "relay" end.

(** [BuildSelfDescriptor] of the three services; [st] is the service type the
    service was constructed with. *)
Definition BuildSelfDescriptor (r : role) (st : Z) (c : Configuration) : ProcessDescriptor :=
  mkProcessDescriptor (mkProcessRef (mkProcessId st (cfg_instance_id c)) 1) (role_name r) (cfg_listen c) 1 0
    [("role", role_name r)] (match r with role_relay => [st] | _ => [] end).

Definition KeepAliveIntervalSeconds (ttl : Z) : Z := if ttl =? 0 then 0 else Z.max 1 (ttl / 2).

Definition PlayerReceiverAddress (player_id : Z) : ReceiverAddress := mkReceiverAddress rt_player player_id 0.

Module IpcNode.

Section node.
Context {W T : Type} {be : IEtcdDiscoveryBackend W} {gl : Glaze} {tra : ITransport T} {cc : Codec ControlMessage} {mo : MapOrder Z}.
Variable my_role : role.
Variable my_service_type : Z.
Variable my_configuration : Configuration.

Record node := mkNode {
  mDiscovery : EtcdDiscovery.t W;
  mTransport : option T;
  mLinkManager : option LinkManager.t;
  mReceiverDirectory : gmap string LocalReceiverDirectory.Entry;
  mPayloadRegistry : gset string;
  mReceiverRegistry : list (option Hosts.host);
  mMessenger : bool;
  mSelf : option ProcessDescriptor;
  mRegistered : bool;
  mTransportReady : bool;
  mIpcReady : bool;
  mLastError : string;
  mStopKeepAlive : bool;
  mKeepAliveThread : bool;
  mKeepAliveFailureCount : Z;
  mDiscoveryRecoverySuccessCount : Z;
  mDiscoveryRecoveryFailureCount : Z;
  mStopAutoConnect : bool;
  mAutoConnectThread : bool;
  mAutoConnectAttempts : gset Z;
  mAutoConnectSuccessCount : Z;
  mAutoConnectFailureCount : Z;
  mLastAutoConnectTarget : option ProcessRef;
  mLastAutoConnectFailureTarget : option ProcessRef;
  mLastAutoConnectFailureReason : string;
  mBoundPlayers : gset Z;
  mSendRejectCount : Z;
  mLastSendRejectReason : string;
  mForwardedDataFrameCount : Z;
  mForwardFailureCount : Z;
  mLastForwardFailureReason : string
}.

#[global] Instance eta_node : Eta node := fun s =>
  mkNode
    (mDiscovery s) (mTransport s) (mLinkManager s) (mReceiverDirectory s) (mPayloadRegistry s)
    (mReceiverRegistry s) (mMessenger s) (mSelf s) (mRegistered s) (mTransportReady s) (mIpcReady s)
    (mLastError s) (mStopKeepAlive s) (mKeepAliveThread s) (mKeepAliveFailureCount s)
    (mDiscoveryRecoverySuccessCount s) (mDiscoveryRecoveryFailureCount s) (mStopAutoConnect s)
    (mAutoConnectThread s) (mAutoConnectAttempts s) (mAutoConnectSuccessCount s)
    (mAutoConnectFailureCount s) (mLastAutoConnectTarget s) (mLastAutoConnectFailureTarget s)
    (mLastAutoConnectFailureReason s) (mBoundPlayers s) (mSendRejectCount s)
    (mLastSendRejectReason s) (mForwardedDataFrameCount s) (mForwardFailureCount s)
    (mLastForwardFailureReason s).

Definition LocalServiceReceiverAddress : ReceiverAddress := mkReceiverAddress rt_service my_service_type 1.

Definition on_discovery {A : Type} (op : St (EtcdDiscovery.t W) A) : St node A :=
  fun s => let '(a, d) := op (mDiscovery s) in (a, s <| mDiscovery := d |>).

(** [make_unique] of a component that is still absent changes nothing here. *)
Definition on_link (op : St LinkManager.t unit) (s : node) : node :=
  match mLinkManager s with
  | None => s
  | Some lm => s <| mLinkManager := Some (op lm).2 |>
  end.

(** ** Link frames and transport events *)

(** One frame of [FlushLinkFrames]: connections announced as lost during the call
    lose their link (the nested flush finds no frame). *)
Definition send_frame (s : node) (f : RawFrame) : node :=
  match mTransport s with
  | None => s
  | Some tr =>
      let '((_, lost), tr') := tr_Send f tr in
      foldl (fun s id => on_link (LinkManager.OnConnectionEvent (mkConnectionEvent ce_disconnected id)) s)
        (s <| mTransport := Some tr' |>) lost
  end.

Definition FlushLinkFrames (s : node) : node :=
  match mTransport s, mLinkManager s with
  | Some _, Some lm =>
      let '(frames, lm') := LinkManager.DrainOutboundFrames lm in
      foldl send_frame (s <| mLinkManager := Some lm' |>) frames
  | _, _ => s
  end.

(** The connection-event handler installed by [LoadIpcRuntime]. *)
Definition on_connection_event (e : ConnectionEvent) (s : node) : node :=
  match mLinkManager s with
  | None => s
  | Some _ => FlushLinkFrames (on_link (LinkManager.OnConnectionEvent e) s)
  end.

(** The frame handler, for control and unknown frames; data frames go to
    [HandleIncomingDataFrameLocked]. *)
Definition on_control_frame (f : RawFrame) (s : node) : node :=
  match mLinkManager s with
  | None => s
  | Some _ =>
      let s := on_link (fun lm => (tt, (LinkManager.OnFrame f lm).2)) s in
      if kind (fheader f) =? fk_control then FlushLinkFrames s else s
  end.

(** ** Role components *)

Definition set_error (r : Result) (s : node) : node := s <| mLastError := message r |>.

(** The payload types game and gate register. *)
Definition role_payloads : list string :=
  match my_role with
  | role_relay => ["google.protobuf.StringValue"]
  | _ => ["google.protobuf.StringValue"; "pb.ipc.LoginPlayerRequest"; "pb.ipc.LoginPlayerResponse";
          "pb.ipc.ReconnectPlayerRequest"; "pb.ipc.ReconnectPlayerResponse"; "pb.ipc.KickAccountSession";
          "pb.ipc.KickAccountSessionAck"; "pb.ipc.PlayerDisconnected"; "pb.ipc.BindPlayerSession";
          "pb.ipc.UnbindPlayerSession"; "pb.ipc.ForwardPlayerMessageRequest"; "pb.ipc.ForwardPlayerMessageResponse";
          "pb.ipc.PushPlayerMessage"]
  end.

Definition register_payloads (names : list string) (s : node) : node :=
  foldl (fun s n => s <| mPayloadRegistry := (PayloadRegistry.Register (mkMessage n []) (mPayloadRegistry s)).2 |>) s names.

Definition register_host (h : Hosts.host) (type : ReceiverType) : St node Result :=
  fun s =>
    let '(r, hs) := ReceiverRegistry.Register Hosts.CanHandle h type (mReceiverRegistry s) in
    (r, s <| mReceiverRegistry := hs |>).

(** A step of the setup: the first failure is recorded and returned. *)
Definition setup_step (op : St node Result) (rest : St node Result) : St node Result :=
  fun s => let '(r, s) := op s in if negb (ok r) then (r, set_error r s) else rest s.

Definition bind_service (self : ProcessRef) : St node Result :=
  fun s =>
    let '(r, d) := LocalReceiverDirectory.Bind LocalServiceReceiverAddress self (mReceiverDirectory s) in
    (r, s <| mReceiverDirectory := d |>).

Definition SetupRoleComponentsLocked (self : ProcessRef) : St node Result :=
  match my_role with
  | role_relay => fun s => (Success, register_payloads role_payloads s)
  | role_gate =>
      setup_step (register_host Hosts.process_host rt_process)
        (setup_step (bind_service self)
          (setup_step (register_host Hosts.service_host rt_service)
            (fun s => (Success, register_payloads role_payloads s))))
  | role_game =>
      setup_step (register_host Hosts.process_host rt_process)
        (setup_step (register_host Hosts.player_host rt_player)
          (setup_step (bind_service self)
            (setup_step (register_host Hosts.service_host rt_service)
              (fun s => (Success, register_payloads role_payloads s)))))
  end.

(** ** Lifecycle *)

Definition LoadIpcRuntime (s : node) : node :=
  let self := BuildSelfDescriptor my_role my_service_type my_configuration in
  let s := s <| mSelf := Some self |> <| mTransport := Some tr_new |>
             <| mLinkManager := Some (LinkManager.create (process self) 1) |> in
  let '(setup_result, s) := SetupRoleComponentsLocked (process self) s in
  if negb (ok setup_result) then set_error setup_result s
  else s <| mMessenger := true |> <| mRegistered := false |> <| mTransportReady := false |>
         <| mIpcReady := false |> <| mLastError := "" |>.

Definition StartKeepAliveLoop (s : node) : node :=
  if mKeepAliveThread s then s
  else if KeepAliveIntervalSeconds (cfg_lease_ttl_seconds my_configuration) =? 0 then s
  else s <| mStopKeepAlive := false |> <| mKeepAliveThread := true |>.

Definition record_failure (r : Result) (s : node) : node := if negb (ok r) then set_error r s else s.

(** [LifecycleTask::Completed] is returned on every path; only the state differs. *)
Definition StartIpcRuntime (s : node) : node :=
  match mSelf s with
  | None => s <| mLastError := "self descriptor is not initialized" |>
  | Some self =>
      match mTransport s, mLinkManager s with
      | Some tr, Some _ =>
          let '(listen_result, tr') := tr_Listen (listen_endpoint self) tr in
          let s := s <| mTransport := Some tr' |> in
          if negb (ok listen_result) then set_error listen_result s
          else
            let s := s <| mTransportReady := true |> in
            let '(register_result, s) := on_discovery (EtcdDiscovery.RegisterSelf self) s in
            if negb (ok register_result) then
              set_error register_result (s <| mRegistered := false |> <| mIpcReady := false |>)
            else
              let s := s <| mRegistered := true |> <| mIpcReady := true |> <| mLastError := "" |> in
              let '(refresh_result, s) := on_discovery EtcdDiscovery.RefreshSnapshot s in
              let s := record_failure refresh_result s in
              let '(watch_result, s) := on_discovery EtcdDiscovery.StartWatch s in
              StartKeepAliveLoop (record_failure watch_result s)
      | _, _ => s <| mLastError := "transport/link are not initialized" |>
      end
  end.

Definition StopAutoConnectLoop (s : node) : node := s <| mStopAutoConnect := true |> <| mAutoConnectThread := false |>.
Definition StopKeepAliveLoop (s : node) : node := s <| mStopKeepAlive := true |> <| mKeepAliveThread := false |>.

Definition StopIpcRuntime (s : node) : node :=
  let s := StopAutoConnectLoop s in
  let s := (on_discovery EtcdDiscovery.StopWatch s).2 in
  let s := StopKeepAliveLoop s in
  let s := match mSelf s with
           | Some self =>
               if mRegistered s then
                 let '(remove_result, s) := on_discovery (EtcdDiscovery.Remove (pid self)) s in
                 record_failure remove_result s
               else s
           | None => s
           end in
  s <| mRegistered := false |> <| mIpcReady := false |>.

Definition UnloadIpcRuntime (s : node) : node :=
  let s := (on_discovery EtcdDiscovery.StopWatch (StopKeepAliveLoop (StopAutoConnectLoop s))).2 in
  s <| mMessenger := false |> <| mReceiverRegistry := (ReceiverRegistry.Clear (mReceiverRegistry s)).2 |>
    <| mReceiverDirectory := (LocalReceiverDirectory.Clear (mReceiverDirectory s)).2 |>
    <| mPayloadRegistry := ∅ |> <| mLinkManager := None |> <| mTransport := None |> <| mSelf := None |>
    <| mTransportReady := false |> <| mIpcReady := false |> <| mRegistered := false |>
    <| mAutoConnectAttempts := ∅ |> <| mAutoConnectSuccessCount := 0 |> <| mAutoConnectFailureCount := 0 |>
    <| mLastAutoConnectTarget := None |> <| mLastAutoConnectFailureTarget := None |>
    <| mLastAutoConnectFailureReason := "" |>.

(** ** Discovery calls of the node *)

Definition RefreshDiscovery : St node Result :=
  fun s =>
    let '(r, s) := on_discovery EtcdDiscovery.RefreshSnapshot s in
    if negb (ok r) then (r, set_error r s) else (Success, s <| mLastError := "" |>).

Definition KeepAliveOnce : St node Result :=
  fun s =>
    let '(r, s) := on_discovery EtcdDiscovery.KeepAliveOnce s in
    if negb (ok r) then (r, set_error r s) else (Success, s <| mLastError := "" |>).

Definition DrainMembershipEvents : St node (list MembershipEvent) := on_discovery EtcdDiscovery.DrainEvents.

Definition Members (s : node) : list ProcessDescriptor := EtcdDiscovery.All (mDiscovery s).
Definition HealthyLinks (s : node) : list ProcessRef :=
  match mLinkManager s with None => [] | Some lm => LinkManager.GetHealthyLinks lm end.
Definition IsIpcActiveLocked (s : node) : bool := mRegistered s && mIpcReady s.

Definition FindDiscoveredMemberLocked (s : node) (st inst : Z) (exclude_self : bool) : option ProcessDescriptor :=
  find (fun m =>
    (service_type (pid m) =? st) && (instance_id (pid m) =? inst) &&
    negb (exclude_self && match mSelf s with Some self => bool_decide (process m = process self) | None => false end))
    (Members s).

(** ** Auto-connect *)

Definition MakeProcessKey (id : ProcessId) : Z := MakeKey id.

(** [Connect] runs the connection-event handler before it returns. *)
Definition ConnectDiscoveredMemberLocked (m : ProcessDescriptor) : St node Result :=
  fun s =>
    match mTransport s with
    | None => (Failure "transport is not initialized", s)
    | Some tr =>
        let '((r, announced), tr') := tr_Connect (listen_endpoint m) tr in
        let s := s <| mTransport := Some tr' |> in
        (r, match announced with
            | Some id => on_connection_event (mkConnectionEvent ce_connected id) s
            | None => s
            end)
    end.

Definition RecordAutoConnectFailureLocked (m : ProcessDescriptor) (r : Result) (s : node) : node :=
  s <| mAutoConnectFailureCount := u64 (mAutoConnectFailureCount s + 1) |>
    <| mLastAutoConnectFailureTarget := Some (process m) |>
    <| mLastAutoConnectFailureReason := message r |> <| mLastError := message r |>.

Definition RecordAutoConnectSuccessLocked (m : ProcessDescriptor) (s : node) : node :=
  s <| mAutoConnectAttempts := {[MakeProcessKey (pid m)]} ∪ mAutoConnectAttempts s |>
    <| mAutoConnectSuccessCount := u64 (mAutoConnectSuccessCount s + 1) |>
    <| mLastAutoConnectTarget := Some (process m) |> <| mLastAutoConnectFailureTarget := None |>
    <| mLastAutoConnectFailureReason := "" |>.

(** The rule of the role: game and gate look for a relay, the relay for games. *)
Definition should_auto_connect (self : ProcessRef) (lm : LinkManager.t) (m : ProcessDescriptor) : bool :=
  match my_role with
  | role_relay =>
      FirstPhaseIpcTopologyPolicy.ShouldRelayAutoConnectTarget self m kGameServiceType
        (LinkManager.HasHealthyDirectLink lm (process m))
  | _ =>
      FirstPhaseIpcTopologyPolicy.ShouldGameAutoConnectTarget self m kRelayServiceType
        (FirstPhaseIpcTopologyPolicy.HasHealthyLinkOfServiceType (LinkManager.GetHealthyLinks lm) kRelayServiceType)
  end.

Definition TryAutoConnectMember (m : ProcessDescriptor) (s : node) : node :=
  match mSelf s, mTransport s, mLinkManager s with
  | Some self, Some _, Some lm =>
      if negb (IsIpcActiveLocked s) then s
      else if negb (should_auto_connect (process self) lm m) then s
      else if bool_decide (MakeProcessKey (pid m) ∈ mAutoConnectAttempts s) then s
      else
        let '(connect_result, s) := ConnectDiscoveredMemberLocked m s in
        if negb (ok connect_result) then RecordAutoConnectFailureLocked m connect_result s
        else RecordAutoConnectSuccessLocked m s
  | _, _, _ => s
  end.

Definition ReconcileAutoConnectMembers (s : node) : node :=
  foldl (fun s m => TryAutoConnectMember m s) s (Members s).

Definition ShouldRefreshAutoConnectLocked (s : node) : bool :=
  match my_role with
  | role_relay => false
  | _ =>
      FirstPhaseIpcTopologyPolicy.ShouldGameReconcile
        (FirstPhaseIpcTopologyPolicy.HasMemberOfServiceType (Members s) kRelayServiceType)
        (FirstPhaseIpcTopologyPolicy.HasHealthyLinkOfServiceType (HealthyLinks s) kRelayServiceType)
  end.

Definition HandleMembershipEvent (e : MembershipEvent) (s : node) : node :=
  match me_type e with
  | me_removed => s <| mAutoConnectAttempts := mAutoConnectAttempts s ∖ {[MakeProcessKey (pid (me_process e))]} |>
  | _ => TryAutoConnectMember (me_process e) s
  end.

Definition StartAutoConnectLoop (s : node) : node :=
  if mAutoConnectThread s then s else s <| mStopAutoConnect := false |> <| mAutoConnectThread := true |>.

(** One round of [AutoConnectLoop] behind its wait. *)
Definition auto_connect_tick (s : node) : node :=
  if mStopAutoConnect s then s
  else
    let needs_reconcile := ShouldRefreshAutoConnectLocked s in
    let '(events, s) := DrainMembershipEvents s in
    let s := foldl (fun s e => HandleMembershipEvent e s) s events in
    if negb needs_reconcile then s
    else
      let '(refresh_result, s) := RefreshDiscovery s in
      if negb (ok refresh_result) then s else ReconcileAutoConnectMembers s.

(** [Start] of the three services. *)
Definition Start (s : node) : node := StartAutoConnectLoop (ReconcileAutoConnectMembers (StartIpcRuntime s)).

(** ** Keepalive and recovery *)

(** The role hook clears the attempts, in all three services. *)
Definition HandleDiscoveryFailureLocked (msg : string) (s : node) : node :=
  s <| mRegistered := false |> <| mIpcReady := false |> <| mLastError := msg |> <| mAutoConnectAttempts := ∅ |>.

Definition TryRecoverDiscovery : St node Result :=
  fun s =>
    match mSelf s with
    | Some self =>
        if negb (mTransportReady s) then (Failure "transport/self are not ready for discovery recovery", s)
        else
          let '(register_result, s) := on_discovery (EtcdDiscovery.RegisterSelf self) s in
          if negb (ok register_result) then (register_result, s)
          else
            let '(refresh_result, s) := on_discovery EtcdDiscovery.RefreshSnapshot s in
            if negb (ok refresh_result) then (refresh_result, s)
            else
              let '(watch_result, s) := on_discovery EtcdDiscovery.StartWatch s in
              if negb (ok watch_result) then (watch_result, s)
              else
                let s := s <| mRegistered := true |> <| mIpcReady := true |> <| mLastError := "" |> in
                (Success, ReconcileAutoConnectMembers s)
    | None => (Failure "transport/self are not ready for discovery recovery", s)
    end.

(** One round of [KeepAliveLoop] behind its wait. *)
Definition keep_alive_tick (s : node) : node :=
  if mStopKeepAlive s then s
  else if negb (mRegistered s) then
    let '(r, s) := TryRecoverDiscovery s in
    if ok r then s <| mDiscoveryRecoverySuccessCount := u64 (mDiscoveryRecoverySuccessCount s + 1) |>
    else s <| mDiscoveryRecoveryFailureCount := u64 (mDiscoveryRecoveryFailureCount s + 1) |>
           <| mLastError := message r |>
  else
    let '(r, s) := on_discovery EtcdDiscovery.KeepAliveOnce s in
    if negb (ok r) then
      HandleDiscoveryFailureLocked (message r) (s <| mKeepAliveFailureCount := u64 (mKeepAliveFailureCount s + 1) |>)
    else s.

(** ** Sending *)

Definition RecordSendRejectLocked (reason : string) (s : node) : node :=
  s <| mSendRejectCount := u64 (mSendRejectCount s + 1) |> <| mLastSendRejectReason := reason |>
    <| mLastError := reason |>.

(** The common text of [SendProcessPayload], [SendLocalServiceMessage],
    [SendProcessMessage], [SendPlayerMessage] and [BroadcastServiceMessage]. *)
Definition guarded_send (send : St node Result) : St node Result :=
  fun s =>
    if negb (mMessenger s) then
      let r := Failure "messenger is not initialized" in (r, RecordSendRejectLocked (message r) s)
    else if negb (IsIpcActiveLocked s) then
      let r := Failure "ipc is not active" in (r, RecordSendRejectLocked (message r) s)
    else
      let '(r, s) := send s in
      if negb (ok r) then (r, RecordSendRejectLocked (message r) s) else (r, s).

Section messages.
Context {X : Type} `{Codec ProtoDataEnvelope} {ms : MapOrder string}.
Variable messenger : Messenger.t node (EtcdDiscovery.t W) LinkManager.t X.

Definition SendProcessPayload (target : ProcessId) (msg : Message) : St node Result :=
  guarded_send (Messenger.SendToProcess messenger target msg).
Definition SendLocalServiceMessage (msg : Message) : St node Result :=
  guarded_send (Messenger.SendToReceiver messenger LocalServiceReceiverAddress msg).
Definition SendProcessMessage (inst : Z) (msg : Message) : St node Result :=
  guarded_send (Messenger.SendToProcess messenger (mkProcessId my_service_type inst) msg).
Definition SendPlayerMessage (player_id : Z) (msg : Message) : St node Result :=
  guarded_send (Messenger.SendToReceiver messenger (PlayerReceiverAddress player_id) msg).
Definition BroadcastServiceMessage (msg : Message) (with_local : bool) : St node Result :=
  guarded_send (Messenger.BroadcastToService messenger my_service_type
    (mkBroadcastScope (Some my_service_type) [] with_local) msg).

Definition RecordForwardFailureLocked (reason : string) (s : node) : node :=
  s <| mForwardFailureCount := u64 (mForwardFailureCount s + 1) |> <| mLastForwardFailureReason := reason |>
    <| mLastError := reason |>.

Definition HandleIncomingDataFrameLocked (f : RawFrame) (s : node) : node :=
  if negb (mMessenger s) then s
  else if negb (IsIpcActiveLocked s) then
    match my_role with role_relay => RecordForwardFailureLocked "ipc is not active" s | _ => s end
  else
    let '(r, s) := Messenger.HandleIncomingFrame messenger f s in
    match my_role with
    | role_relay =>
        if ok r then s <| mForwardedDataFrameCount := u64 (mForwardedDataFrameCount s + 1) |>
        else RecordForwardFailureLocked (message r) s
    | _ => s
    end.

End messages.

(** ** Player receivers of the game *)

Definition BindLocalPlayer (player_id : Z) : St node Result :=
  fun s =>
    match mSelf s with
    | None => (Failure "self descriptor is not initialized", s)
    | Some self =>
        let '(fresh, players) := Hosts.PlayerBind player_id (mBoundPlayers s) in
        let s := s <| mBoundPlayers := players |> in
        if negb fresh then (Failure "player is already bound locally", s)
        else
          let '(bind_result, d) :=
            LocalReceiverDirectory.Bind (PlayerReceiverAddress player_id) (process self) (mReceiverDirectory s) in
          let s := s <| mReceiverDirectory := d |> in
          if negb (ok bind_result) then
            (bind_result, s <| mBoundPlayers := (Hosts.PlayerUnbind player_id (mBoundPlayers s)).2 |>)
          else (bind_result, s)
    end.

Definition UnbindLocalPlayer (player_id : Z) : St node Result :=
  fun s =>
    match mSelf s with
    | None => (Failure "self descriptor is not initialized", s)
    | Some self =>
        if negb (Hosts.PlayerIsBound (mBoundPlayers s) player_id) then (Failure "player is not bound locally", s)
        else
          let receiver := PlayerReceiverAddress player_id in
          let location := LocalReceiverDirectory.Resolve (mReceiverDirectory s) receiver in
          match rl_kind location, processes location with
          | rl_single_process, [owner] =>
              if negb (bool_decide (owner = process self)) then (Failure "player receiver owner mismatch", s)
              else
                let '(invalidate_result, d) :=
                  LocalReceiverDirectory.Invalidate receiver (process self) (version location) (mReceiverDirectory s) in
                let s := s <| mReceiverDirectory := d |> in
                if negb (ok invalidate_result) then (invalidate_result, s)
                else (Success, s <| mBoundPlayers := (Hosts.PlayerUnbind player_id (mBoundPlayers s)).2 |>)
          | _, _ => (Failure "player receiver location is not locally resolvable", s)
          end
    end.

Definition BindRemotePlayer (player_id inst : Z) : St node Result :=
  fun s =>
    match mSelf s with
    | None => (Failure "self descriptor is not initialized", s)
    | Some _ =>
        match find (fun m => (service_type (pid m) =? my_service_type) && (instance_id (pid m) =? inst)) (Members s) with
        | Some m =>
            let '(r, d) := LocalReceiverDirectory.Bind (PlayerReceiverAddress player_id) (process m) (mReceiverDirectory s) in
            (r, s <| mReceiverDirectory := d |>)
        | None => (Failure "target player owner not found in discovery snapshot", s)
        end
    end.

Definition ConnectToMember (st inst : Z) : St node Result :=
  fun s =>
    match FindDiscoveredMemberLocked s st inst true with
    | None => (Failure "target member not found in discovery snapshot", s)
    | Some m => ConnectDiscoveredMemberLocked m s
    end.

End node.
Arguments node : clear implicits.
End IpcNode.

(** ** Lemmas *)

Module IpcNodeProofs.
Import IpcNode.

Section node.
Context {W T : Type} {be : IEtcdDiscoveryBackend W} {gl : Glaze} {tra : ITransport T} {cc : Codec ControlMessage} {mo : MapOrder Z}.
Variable my_role : role.
Variable my_service_type : Z.
Variable my_configuration : Configuration.
Abbreviation node := (IpcNode.node W T).

(** The part of a node that transport, link and auto-connect work leaves alone. *)
Definition flags (s : node) : bool * bool * bool * option ProcessDescriptor * bool * bool :=
  (mRegistered s, mIpcReady s, mTransportReady s, mSelf s, mKeepAliveThread s, mStopKeepAlive s).

Lemma flags_on_discovery {A} (op : St (EtcdDiscovery.t W) A) s : flags (on_discovery op s).2 = flags s.
Proof. unfold on_discovery. by destruct (op (mDiscovery s)). Qed.

Lemma flags_on_link op s : flags (on_link op s) = flags s.
Proof. unfold on_link. by destruct (mLinkManager s). Qed.

Lemma flags_foldl {A} (f : node -> A -> node) l s :
  (forall s a, flags (f s a) = flags s) -> flags (foldl f s l) = flags s.
Proof. intros Hf. revert s. induction l as [|a l IH]; intros s; [done|]. simpl. by rewrite IH, Hf. Qed.

Lemma flags_send_frame s f : flags (send_frame s f) = flags s.
Proof.
  unfold send_frame. destruct (mTransport s) as [tr|]; [|done]. destruct (tr_Send f tr) as [[r lost] tr'].
  rewrite flags_foldl; [done|]. intros. apply flags_on_link.
Qed.

Lemma flags_FlushLinkFrames s : flags (FlushLinkFrames s) = flags s.
Proof.
  unfold FlushLinkFrames. destruct (mTransport s), (mLinkManager s); try done.
  destruct (LinkManager.DrainOutboundFrames _). rewrite flags_foldl; [done|]. apply flags_send_frame.
Qed.

Lemma flags_on_connection_event e s : flags (on_connection_event e s) = flags s.
Proof.
  unfold on_connection_event. destruct (mLinkManager s); [|done]. by rewrite flags_FlushLinkFrames, flags_on_link.
Qed.

Lemma flags_on_control_frame f s : flags (on_control_frame f s) = flags s.
Proof.
  unfold on_control_frame. destruct (mLinkManager s); [|done].
  case_match; by rewrite ?flags_FlushLinkFrames, flags_on_link.
Qed.

Lemma flags_Connect m s : flags (ConnectDiscoveredMemberLocked m s).2 = flags s.
Proof.
  unfold ConnectDiscoveredMemberLocked. destruct (mTransport s) as [tr|]; [|done].
  destruct (tr_Connect _ tr) as [[r [id|]] tr']; simpl; [|done]. by rewrite flags_on_connection_event.
Qed.

Lemma flags_TryAutoConnectMember m s : flags (TryAutoConnectMember my_role m s) = flags s.
Proof.
  unfold TryAutoConnectMember. repeat (case_match; [|done || idtac]); try done.
  pose proof (flags_Connect m s) as Hc.
  destruct (ConnectDiscoveredMemberLocked m s) as [r s1]. simpl in Hc. by destruct (ok r).
Qed.

Lemma flags_Reconcile s : flags (ReconcileAutoConnectMembers my_role s) = flags s.
Proof. unfold ReconcileAutoConnectMembers. apply flags_foldl. intros. apply flags_TryAutoConnectMember. Qed.

Lemma flags_RefreshDiscovery s : flags (RefreshDiscovery s).2 = flags s.
Proof.
  unfold RefreshDiscovery. pose proof (flags_on_discovery EtcdDiscovery.RefreshSnapshot s) as Hd.
  destruct (on_discovery _ s) as [r s1]. simpl in Hd. by destruct (ok r).
Qed.

Lemma flags_HandleMembershipEvent e s : flags (HandleMembershipEvent my_role e s) = flags s.
Proof. unfold HandleMembershipEvent. destruct (me_type e); try apply flags_TryAutoConnectMember. done. Qed.

Lemma flags_auto_connect_tick s : flags (auto_connect_tick my_role s) = flags s.
Proof.
  unfold auto_connect_tick. destruct (mStopAutoConnect s); [done|].
  unfold DrainMembershipEvents. pose proof (flags_on_discovery EtcdDiscovery.DrainEvents s) as Hd.
  destruct (on_discovery _ s) as [evs s1]. simpl in Hd.
  set (s2 := foldl _ s1 evs).
  assert (flags s2 = flags s) as H2.
  { unfold s2. rewrite flags_foldl; [done|]. intros. apply flags_HandleMembershipEvent. }
  destruct (negb _); [done|]. pose proof (flags_RefreshDiscovery s2) as Hr.
  destruct (RefreshDiscovery s2) as [r s3]. simpl in Hr.
  destruct (ok r); simpl; [rewrite flags_Reconcile|]; congruence.
Qed.

(** *** The flags agree with each other *)

Definition flags_ok (s : node) : Prop :=
  mIpcReady s = mRegistered s /\ (mRegistered s = true -> mTransportReady s = true /\ is_Some (mSelf s)).

Lemma flags_ok_same s s' : flags s' = flags s -> flags_ok s -> flags_ok s'.
Proof. unfold flags, flags_ok. intros E. injection E as -> -> -> -> _ _. done. Qed.

Lemma flags_ok_off s : mRegistered s = false -> mIpcReady s = false -> flags_ok s.
Proof. intros E1 E2. split; [congruence|]. by rewrite E1. Qed.

(** What the setup of the role components touches. *)
Lemma flags_setup self s : flags (SetupRoleComponentsLocked my_role my_service_type self s).2 = flags s.
Proof.
  assert (forall h t s, flags (register_host h t s).2 = flags s) as Hreg.
  { intros h t s'. unfold register_host. by destruct (ReceiverRegistry.Register _ _ _ _). }
  assert (forall s, flags (bind_service my_service_type self s).2 = flags s) as Hbind.
  { intros s'. unfold bind_service. by destruct (LocalReceiverDirectory.Bind _ _ _). }
  assert (forall s names, flags (register_payloads names s) = flags s) as Hpay.
  { intros s' names. unfold register_payloads. by apply flags_foldl. }
  assert (forall op rest, (forall s, flags (op s).2 = flags s) -> (forall s, flags (rest s).2 = flags s) ->
    forall s, flags (setup_step op rest s).2 = flags s) as Hstep.
  { intros op rest Hop Hrest s'. unfold setup_step. specialize (Hop s'). destruct (op s') as [r s1]. simpl in Hop.
    destruct (ok r); simpl; [by rewrite Hrest|done]. }
  unfold SetupRoleComponentsLocked. destruct my_role; [| |apply Hpay];
    repeat (apply Hstep; [intros; first [apply Hreg | apply Hbind]|]); intros; first [apply Hpay | apply Hstep; intros; auto].
Qed.

Lemma flags_record_failure r s : flags (record_failure r s) = flags s.
Proof. unfold record_failure. by destruct (negb _). Qed.

(** The start, by its outcomes. *)
Lemma StartIpcRuntime_cases s self tr lm :
  mSelf s = Some self -> mTransport s = Some tr -> mLinkManager s = Some lm ->
  let s' := StartIpcRuntime my_configuration s in
  mSelf s' = Some self /\
  ((flags s' = flags s) \/
   (mRegistered s' = false /\ mIpcReady s' = false /\ mKeepAliveThread s' = mKeepAliveThread s) \/
   (mRegistered s' = true /\ mIpcReady s' = true /\ mTransportReady s' = true)).
Proof.
  intros Hself Htr Hlm. unfold StartIpcRuntime. rewrite Hself, Htr, Hlm.
  destruct (tr_Listen _ tr) as [r tr']. destruct (ok r); [|by split; [|left]]. cbn [negb].
  set (s1 := s <| mTransport := Some tr' |> <| mTransportReady := true |>).
  pose proof (flags_on_discovery (EtcdDiscovery.RegisterSelf self) s1) as H1.
  destruct (on_discovery _ s1) as [r1 s2]. simpl in H1. injection H1 as _ _ Et E2 Ek _. unfold s1 in Et, E2, Ek. simpl in Et, E2, Ek.
  destruct (ok r1); cbn [negb]; [|split; [simpl; congruence|right; left; simpl; auto]].
  set (s3 := s2 <| mRegistered := true |> <| mIpcReady := true |> <| mLastError := "" |>).
  pose proof (flags_on_discovery EtcdDiscovery.RefreshSnapshot s3) as H3.
  destruct (on_discovery _ s3) as [r3 s4]. simpl in H3.
  pose proof (flags_on_discovery EtcdDiscovery.StartWatch (record_failure r3 s4)) as H4.
  destruct (on_discovery _ (record_failure r3 s4)) as [r5 s5]. cbn [snd] in H4.
  rewrite flags_record_failure, H3 in H4.
  assert (flags (record_failure r5 s5) = flags s3) as H5 by by rewrite flags_record_failure.
  remember (record_failure r5 s5) as s6 eqn:E6'. clear E6'.
  injection H5 as E5 E6 E7 E8 _ _. unfold s3 in E5, E6, E7, E8. simpl in E5, E6, E7, E8.
  unfold StartKeepAliveLoop. destruct (mKeepAliveThread s6), (KeepAliveIntervalSeconds (cfg_lease_ttl_seconds my_configuration) =? 0);
    (split; [simpl; congruence|right; right; simpl; split_and!; congruence]).
Qed.

Lemma flags_ok_TryRecover s : flags_ok s -> flags_ok (TryRecoverDiscovery my_role s).2.
Proof.
  intros Hs. unfold TryRecoverDiscovery. destruct (mSelf s) as [self|] eqn:Eself; [|done].
  destruct (mTransportReady s) eqn:Etr; [|done]. cbn [negb].
  pose proof (flags_on_discovery (EtcdDiscovery.RegisterSelf self) s) as H1.
  destruct (on_discovery _ s) as [r1 s1]. simpl in H1.
  destruct (ok r1); cbn [negb]; [|by eapply flags_ok_same].
  pose proof (flags_on_discovery EtcdDiscovery.RefreshSnapshot s1) as H2.
  destruct (on_discovery _ s1) as [r2 s2]. simpl in H2.
  destruct (ok r2); cbn [negb]; [|eapply flags_ok_same; [|exact Hs]; cbn [snd]; congruence].
  pose proof (flags_on_discovery EtcdDiscovery.StartWatch s2) as H3.
  destruct (on_discovery _ s2) as [r3 s3]. simpl in H3.
  destruct (ok r3); cbn [negb]; [|eapply flags_ok_same; [|exact Hs]; cbn [snd]; congruence].
  cbn [snd]. eapply flags_ok_same; [apply flags_Reconcile|].
  rewrite H2, H1 in H3. injection H3 as _ _ Et Es _ _. split; [done|]. simpl. intros _. split; [congruence|].
  exists self. congruence.
Qed.

Lemma flags_ok_keep_alive_tick s : flags_ok s -> flags_ok (keep_alive_tick my_role s).
Proof.
  intros Hs. unfold keep_alive_tick. destruct (mStopKeepAlive s); [done|].
  destruct (mRegistered s) eqn:Er; cbn [negb].
  - pose proof (flags_on_discovery EtcdDiscovery.KeepAliveOnce s) as H1.
    destruct (on_discovery _ s) as [r s1]. simpl in H1.
    destruct (ok r); cbn [negb]; [by eapply flags_ok_same|by apply flags_ok_off].
  - pose proof (flags_ok_TryRecover s Hs) as Hr. destruct (TryRecoverDiscovery my_role s) as [r s1].
    simpl in Hr. destruct (ok r); eapply flags_ok_same; try exact Hr; done.
Qed.

End node.
End IpcNodeProofs.

(** ** Steps of a node *)

Module NodeSteps.
Import IpcNode IpcNodeProofs.

Section steps.
Context {W T : Type} {be : IEtcdDiscoveryBackend W} {gl : Glaze} {tra : ITransport T} {cc : Codec ControlMessage} {mo : MapOrder Z}.
Variable my_role : role.
Variable my_service_type : Z.
Variable my_configuration : Configuration.

Implicit Types s : node W T.

(** A freshly constructed service. *)
Definition initial (d : EtcdDiscovery.t W) : node W T :=
  mkNode d None None ∅ ∅ ReceiverRegistry.empty false None false false false "" false false 0 0 0 false false ∅ 0 0
    None None "" ∅ 0 "" 0 0 "".

(** What happens without an operator: the threads that were started, transport
    events and frames, the discovery's watch thread. *)
Inductive autonomous : node W T -> node W T -> Prop :=
| au_auto_connect s : mAutoConnectThread s = true -> autonomous s (auto_connect_tick my_role s)
| au_keep_alive s : mKeepAliveThread s = true -> autonomous s (keep_alive_tick my_role s)
| au_event s e : autonomous s (on_connection_event e s)
| au_frame s f : autonomous s (on_control_frame f s)
| au_watch s pc : EtcdDiscovery.mWatchThread (mDiscovery s) = Some pc ->
    autonomous s (s <| mDiscovery := EtcdDiscovery.watch_step pc (mDiscovery s) |>).

Inductive node_step : node W T -> node W T -> Prop :=
| ns_autonomous s s' : autonomous s s' -> node_step s s'
| ns_load s : node_step s (LoadIpcRuntime my_role my_service_type my_configuration s)
| ns_start s : node_step s (Start my_role my_configuration s)
| ns_stop s : node_step s (StopIpcRuntime s)
| ns_unload s : node_step s (UnloadIpcRuntime s)
| ns_refresh s : node_step s (RefreshDiscovery s).2
| ns_keepalive s : node_step s (KeepAliveOnce s).2
| ns_connect s st inst : node_step s (ConnectToMember st inst s).2
| ns_bind s p : node_step s (BindLocalPlayer p s).2
| ns_unbind s p : node_step s (UnbindLocalPlayer p s).2
| ns_bind_remote s p inst : node_step s (BindRemotePlayer my_service_type p inst s).2.

Lemma flags_ok_autonomous s s' : autonomous s s' -> flags_ok s -> flags_ok s'.
Proof.
  intros Hstep. destruct Hstep.
  - apply flags_ok_same, flags_auto_connect_tick.
  - apply flags_ok_keep_alive_tick.
  - apply flags_ok_same, flags_on_connection_event.
  - apply flags_ok_same, flags_on_control_frame.
  - by apply flags_ok_same.
Qed.

Lemma flags_ok_StartIpcRuntime s : flags_ok s -> flags_ok (StartIpcRuntime my_configuration s).
Proof.
  intros Hs. destruct (mSelf s) as [self|] eqn:E1; [|unfold StartIpcRuntime; by rewrite E1].
  destruct (mTransport s) as [tr|] eqn:E2; [|unfold StartIpcRuntime; by rewrite E1, E2].
  destruct (mLinkManager s) as [lm|] eqn:E3; [|unfold StartIpcRuntime; by rewrite E1, E2, E3].
  destruct (StartIpcRuntime_cases my_configuration s self tr lm E1 E2 E3) as [Hself [Hsame|[(F1 & F2 & _)|(F1 & F2 & F3)]]].
  - by eapply flags_ok_same.
  - by apply flags_ok_off.
  - split; [congruence|]. intros _. split; [done|]. by exists self.
Qed.

Lemma flags_StartAutoConnectLoop s : flags (StartAutoConnectLoop s) = flags s.
Proof. unfold StartAutoConnectLoop. by destruct (mAutoConnectThread s). Qed.

Lemma flags_KeepAliveOnce s : flags (KeepAliveOnce s).2 = flags s.
Proof.
  unfold KeepAliveOnce. pose proof (flags_on_discovery EtcdDiscovery.KeepAliveOnce s) as Hd.
  destruct (on_discovery _ s) as [r s1]. simpl in Hd. by destruct (ok r).
Qed.

Lemma flags_Bind p s : flags (BindLocalPlayer p s).2 = flags s.
Proof.
  unfold BindLocalPlayer. destruct (mSelf s) as [self|]; [|done].
  destruct (Hosts.PlayerBind p (mBoundPlayers s)) as [fresh players]. destruct fresh; [|done]. cbn [negb].
  destruct (LocalReceiverDirectory.Bind _ _ _) as [r d]. by destruct (ok r).
Qed.

Lemma flags_Unbind p s : flags (UnbindLocalPlayer p s).2 = flags s.
Proof.
  unfold UnbindLocalPlayer. destruct (mSelf s) as [self|]; [|done]. destruct (negb _); [done|].
  set (loc := LocalReceiverDirectory.Resolve _ _). cbv zeta.
  destruct (rl_kind loc), (processes loc) as [|o [|? ?]]; try done. destruct (negb _); [done|].
  destruct (LocalReceiverDirectory.Invalidate _ _ _ _) as [r d]. by destruct (ok r).
Qed.

Lemma flags_BindRemote p inst s : flags (BindRemotePlayer my_service_type p inst s).2 = flags s.
Proof.
  unfold BindRemotePlayer. destruct (mSelf s); [|done]. destruct (find _ _); [|done].
  by destruct (LocalReceiverDirectory.Bind _ _ _).
Qed.

Lemma flags_ok_step s s' : node_step s s' -> flags_ok s -> flags_ok s'.
Proof.
  intros Hstep Hs. destruct Hstep.
  - by eapply flags_ok_autonomous.
  - unfold LoadIpcRuntime. set (s1 := update mLinkManager _ _).
    pose proof (flags_setup my_role my_service_type (process (BuildSelfDescriptor my_role my_service_type my_configuration)) s1) as Hf.
    destruct (SetupRoleComponentsLocked _ _ _ s1) as [r s2]. simpl in Hf.
    destruct (ok r); cbn [negb]; [by apply flags_ok_off|].
    apply (flags_ok_same s1); [exact Hf|]. destruct Hs as [H1 H2]. split; [done|].
    intros Hr. split; [by apply H2|]. by eexists.
  - unfold Start. apply (flags_ok_same (StartIpcRuntime my_configuration s)); [|by apply flags_ok_StartIpcRuntime].
    by rewrite flags_StartAutoConnectLoop, flags_Reconcile.
  - by apply flags_ok_off.
  - by apply flags_ok_off.
  - eapply flags_ok_same; [apply flags_RefreshDiscovery|done].
  - eapply flags_ok_same; [apply flags_KeepAliveOnce|done].
  - unfold ConnectToMember. destruct (FindDiscoveredMemberLocked _ _ _ _); [|done].
    eapply flags_ok_same; [apply flags_Connect|done].
  - eapply flags_ok_same; [apply flags_Bind|done].
  - eapply flags_ok_same; [apply flags_Unbind|done].
  - eapply flags_ok_same; [apply flags_BindRemote|done].
Qed.

(** *** A start whose registration fails *)

Definition never_registered (s : node W T) : Prop :=
  mRegistered s = false /\ mIpcReady s = false /\ mKeepAliveThread s = false.

Lemma never_registered_same s s' : flags s' = flags s -> never_registered s -> never_registered s'.
Proof. unfold flags, never_registered. intros E. injection E as -> -> _ _ -> _. done. Qed.

Lemma never_registered_autonomous s s' : autonomous s s' -> never_registered s -> never_registered s'.
Proof.
  intros Hstep Hs. destruct Hstep.
  - eapply never_registered_same; [apply flags_auto_connect_tick|done].
  - destruct Hs as (_ & _ & E). congruence.
  - eapply never_registered_same; [apply flags_on_connection_event|done].
  - eapply never_registered_same; [apply flags_on_control_frame|done].
  - done.
Qed.

Lemma Start_without_registration s self tr lm :
  mSelf s = Some self -> mTransport s = Some tr -> mLinkManager s = Some lm -> mKeepAliveThread s = false ->
  ok (tr_Listen (listen_endpoint self) tr).1 = true ->
  ok (EtcdDiscovery.RegisterSelf self (mDiscovery s)).1 = false ->
  never_registered (Start my_role my_configuration s) /\ mTransportReady (Start my_role my_configuration s) = true.
Proof.
  intros E1 E2 E3 Hk Hl Hr. unfold Start.
  set (s' := StartIpcRuntime my_configuration s).
  assert (never_registered s' /\ mTransportReady s' = true) as [Hn Ht].
  { unfold s', StartIpcRuntime. rewrite E1, E2, E3. destruct (tr_Listen _ tr) as [r tr']. simpl in Hl. rewrite Hl.
    cbn [negb]. unfold on_discovery.
    change (mDiscovery (s <| mTransport := Some tr' |> <| mTransportReady := true |>)) with (mDiscovery s).
    destruct (EtcdDiscovery.RegisterSelf self _) as [r1 d1]. simpl in Hr. rewrite Hr. cbn [negb].
    split; [|done]. split; [done|]. split; [done|]. exact Hk. }
  assert (flags (StartAutoConnectLoop (ReconcileAutoConnectMembers my_role s')) = flags s') as Ef.
  { by rewrite flags_StartAutoConnectLoop, flags_Reconcile. }
  split; [by eapply never_registered_same|]. injection Ef as _ _ Et _ _ _. congruence.
Qed.

(** *** What events leave of the auto-connect bookkeeping *)

Definition kept (s : node W T) : EtcdDiscovery.t W * gset Z := (mDiscovery s, mAutoConnectAttempts s).

Lemma kept_on_link op s : kept (on_link op s) = kept s.
Proof. unfold on_link. by destruct (mLinkManager s). Qed.

Lemma kept_foldl {A} (f : node W T -> A -> node W T) l s :
  (forall s a, kept (f s a) = kept s) -> kept (foldl f s l) = kept s.
Proof. intros Hf. revert s. induction l as [|a l IH]; intros s; [done|]. simpl. by rewrite IH, Hf. Qed.

Lemma kept_on_connection_event e s : kept (on_connection_event e s) = kept s.
Proof.
  unfold on_connection_event. destruct (mLinkManager s); [|done]. rewrite <- (kept_on_link (LinkManager.OnConnectionEvent e) s).
  generalize (on_link (LinkManager.OnConnectionEvent e) s). intros s1.
  unfold FlushLinkFrames. destruct (mTransport s1), (mLinkManager s1); try done.
  destruct (LinkManager.DrainOutboundFrames _). rewrite kept_foldl; [done|]. intros s2 f.
  unfold send_frame. destruct (mTransport s2) as [tr|]; [|done]. destruct (tr_Send f tr) as [[r lost] tr'].
  rewrite kept_foldl; [done|]. intros. apply kept_on_link.
Qed.

Lemma TryAutoConnectMember_attempted m s :
  MakeProcessKey (pid m) ∈ mAutoConnectAttempts s -> TryAutoConnectMember my_role m s = s.
Proof.
  intros Hin. unfold TryAutoConnectMember. destruct (mSelf s), (mTransport s), (mLinkManager s); try done.
  destruct (negb _); [done|]. destruct (negb _); [done|]. by rewrite bool_decide_eq_true_2.
Qed.

Lemma Reconcile_attempted s :
  (forall m, m ∈ Members s -> MakeProcessKey (pid m) ∈ mAutoConnectAttempts s) ->
  ReconcileAutoConnectMembers my_role s = s.
Proof.
  intros Hall. unfold ReconcileAutoConnectMembers. induction (Members s) as [|m l IH]; [done|]. simpl.
  rewrite TryAutoConnectMember_attempted by (apply Hall; by left). apply IH. intros m' Hm'. apply Hall. by right.
Qed.

End steps.
End NodeSteps.

(** ** Properties *)

Section node_properties.
Context {W T : Type} {be : IEtcdDiscoveryBackend W} {gl : Glaze} {tra : ITransport T} {cc : Codec ControlMessage} {mo : MapOrder Z}.

(** The parts of a node through which it takes part in messaging. *)
Definition messaging_state (s : IpcNode.node W T) : EtcdDiscovery.t W * option T * option LinkManager.t :=
  (IpcNode.mDiscovery s, IpcNode.mTransport s, IpcNode.mLinkManager s).

(** A player address that has no binding yet binds and unbinds again. *)
Lemma unbind_after_bind player_id (s : IpcNode.node W T) self :
  IpcNode.mSelf s = Some self -> player_id ∉ IpcNode.mBoundPlayers s ->
  IpcNode.mReceiverDirectory s !! LocalReceiverDirectory.MakeKey (PlayerReceiverAddress player_id) = None ->
  let s1 := (IpcNode.BindLocalPlayer player_id s).2 in
  (IpcNode.BindLocalPlayer player_id s).1 = Success /\
  player_id ∈ IpcNode.mBoundPlayers s1 /\
  LocalReceiverDirectory.Resolve (IpcNode.mReceiverDirectory s1) (PlayerReceiverAddress player_id)
    = mkReceiverLocation rl_single_process [process self] 1 /\
  IpcNode.mSelf s1 = Some self /\
  (IpcNode.UnbindLocalPlayer player_id s1).1 = Success /\
  IpcNode.mBoundPlayers (IpcNode.UnbindLocalPlayer player_id s1).2 = IpcNode.mBoundPlayers s /\
  IpcNode.mReceiverDirectory (IpcNode.UnbindLocalPlayer player_id s1).2 = IpcNode.mReceiverDirectory s.
Proof.
  intros Hself Hp Hd s1.
  assert (IpcNode.BindLocalPlayer player_id s = (Success, s <| IpcNode.mBoundPlayers := {[player_id]} ∪ IpcNode.mBoundPlayers s |>
    <| IpcNode.mReceiverDirectory := <[LocalReceiverDirectory.MakeKey (PlayerReceiverAddress player_id) :=
         LocalReceiverDirectory.mkEntry (process self) 1]> (IpcNode.mReceiverDirectory s) |>)) as E.
  { unfold IpcNode.BindLocalPlayer, Hosts.PlayerBind. rewrite Hself. rewrite bool_decide_eq_false_2 by done. cbn [negb].
    cbn [IpcNode.mReceiverDirectory update]. unfold LocalReceiverDirectory.Bind. simpl. by rewrite Hd. }
  subst s1. rewrite E. cbn [fst snd]. split; [done|]. split; [simpl; set_solver|].
  split; [unfold LocalReceiverDirectory.Resolve; simpl; by rewrite lookup_insert_eq|]. split; [done|].
  assert (IpcNode.mSelf s = Some self) as Hs by done.
  unfold IpcNode.UnbindLocalPlayer. simpl. rewrite Hs. unfold Hosts.PlayerIsBound, LocalReceiverDirectory.Resolve.
  rewrite bool_decide_eq_true_2 by set_solver. rewrite lookup_insert_eq. cbn [negb rl_kind processes version
    LocalReceiverDirectory.owner LocalReceiverDirectory.entry_version].
  rewrite bool_decide_eq_true_2 by done. cbn [negb]. unfold LocalReceiverDirectory.Invalidate.
  rewrite lookup_insert_eq. cbn [LocalReceiverDirectory.owner LocalReceiverDirectory.entry_version].
  rewrite bool_decide_eq_true_2 by done. rewrite Z.eqb_refl. cbn [negb ok Success fst snd]. split; [done|].
  split; [simpl; set_solver|]. simpl. by apply delete_insert_id.
Qed.

End node_properties.

(** In every reachable state of a node its readiness flags agree: IPC is ready
    exactly when the process is registered in discovery, and a registered process
    has a ready transport and a self descriptor. *)
Theorem node_flags_consistent {W T : Type} {be : IEtcdDiscoveryBackend W} {gl : Glaze} {tra : ITransport T}
    {cc : Codec ControlMessage} {mo : MapOrder Z} (r : role) (st : Z) (c : Configuration)
    (d : EtcdDiscovery.t W) (s : IpcNode.node W T) :
  rtc (NodeSteps.node_step r st c) (NodeSteps.initial d) s ->
  IpcNode.mIpcReady s = IpcNode.mRegistered s /\
  (IpcNode.mRegistered s = true -> IpcNode.mTransportReady s = true /\ is_Some (IpcNode.mSelf s)).
Proof.
  intros Hr. assert (IpcNodeProofs.flags_ok (NodeSteps.initial d : IpcNode.node W T)) as Hi by by split.
  induction Hr as [|s s' s'' Hstep _ IH]; [exact Hi|]. by apply IH, (NodeSteps.flags_ok_step r st c s).
Qed.

(** A node in the degraded state that follows a discovery failure takes no part
    in messaging: every send is rejected with an error, incoming data frames and
    auto-connect do nothing to discovery, transport and links; a successful
    recovery makes the node active again. *)
Theorem degraded_node_is_silent {W T : Type} {be : IEtcdDiscoveryBackend W} {gl : Glaze} {tra : ITransport T}
    {cc : Codec ControlMessage} {mo : MapOrder Z} `{Codec ProtoDataEnvelope} {ms : MapOrder string} {X : Type}
    (messenger : Messenger.t (IpcNode.node W T) (EtcdDiscovery.t W) LinkManager.t X)
    (r : role) (msg : string) (s : IpcNode.node W T) :
  let s' := IpcNode.HandleDiscoveryFailureLocked msg s in
  (forall send, ok (IpcNode.guarded_send send s').1 = false /\
     messaging_state (IpcNode.guarded_send send s').2 = messaging_state s) /\
  (forall f, messaging_state (IpcNode.HandleIncomingDataFrameLocked r messenger f s') = messaging_state s) /\
  (forall m, IpcNode.TryAutoConnectMember r m s' = s') /\
  IpcNode.mAutoConnectAttempts s' = ∅ /\
  (ok (IpcNode.TryRecoverDiscovery r s').1 = true ->
   IpcNode.IsIpcActiveLocked (IpcNode.TryRecoverDiscovery r s').2 = true).
Proof.
  intros s'. split; [|split; [|split; [|split]]].
  - intros send. unfold IpcNode.guarded_send. destruct (negb (IpcNode.mMessenger s')); by split.
  - intros f. unfold IpcNode.HandleIncomingDataFrameLocked. destruct (negb (IpcNode.mMessenger s')); [done|]. by destruct r.
  - intros m. unfold IpcNode.TryAutoConnectMember. by destruct (IpcNode.mSelf s'), (IpcNode.mTransport s'), (IpcNode.mLinkManager s').
  - done.
  - generalize s'. clear. intros s. unfold IpcNode.TryRecoverDiscovery.
    destruct (IpcNode.mSelf s); [|done]. destruct (negb _); [done|].
    destruct (IpcNode.on_discovery _ s) as [r1 s1]. destruct (ok r1) eqn:E1; cbn [negb]; [|simpl; congruence].
    destruct (IpcNode.on_discovery _ s1) as [r2 s2]. destruct (ok r2) eqn:E2; cbn [negb]; [|simpl; congruence].
    destruct (IpcNode.on_discovery _ s2) as [r3 s3]. destruct (ok r3) eqn:E3; cbn [negb]; [|simpl; congruence].
    intros _. cbn [snd]. set (s4 := update IpcNode.mLastError _ _).
    pose proof (IpcNodeProofs.flags_Reconcile r s4) as Hf. injection Hf as Ha Hb _ _ _ _.
    unfold IpcNode.IsIpcActiveLocked. by rewrite Ha, Hb.
Qed.

(** When the registration fails at start-up the service neither fails to start
    nor recovers: the transport listens, the keepalive thread that would retry is
    never started, and whatever the threads, the transport and the discovery do
    afterwards (etcd being reachable again included), the node stays unregistered. *)
Theorem failed_registration_never_retried {W T : Type} {be : IEtcdDiscoveryBackend W} {gl : Glaze} {tra : ITransport T}
    {cc : Codec ControlMessage} {mo : MapOrder Z} (r : role) (c : Configuration)
    (s s' : IpcNode.node W T) (self : ProcessDescriptor) (tr : T) (lm : LinkManager.t) :
  IpcNode.mSelf s = Some self -> IpcNode.mTransport s = Some tr -> IpcNode.mLinkManager s = Some lm ->
  IpcNode.mKeepAliveThread s = false -> ok (tr_Listen (listen_endpoint self) tr).1 = true ->
  ok (EtcdDiscovery.RegisterSelf self (IpcNode.mDiscovery s)).1 = false ->
  rtc (NodeSteps.autonomous r) (IpcNode.Start r c s) s' ->
  IpcNode.mTransportReady (IpcNode.Start r c s) = true /\
  IpcNode.mRegistered s' = false /\ IpcNode.mIpcReady s' = false.
Proof.
  intros E1 E2 E3 Hk Hl Hreg Hr.
  destruct (NodeSteps.Start_without_registration r c s self tr lm E1 E2 E3 Hk Hl Hreg) as [Hn Ht]. split; [done|].
  revert Hn. clear Ht. induction Hr as [x|x y z Hstep _ IH]; intros Hn; [by destruct Hn as (? & ? & ?)|].
  by apply IH, (NodeSteps.never_registered_autonomous r x).
Qed.

(** A link that was lost while the peer stays in discovery is not built up
    again: the attempts made earlier are remembered until a [removed] event or a
    discovery failure, so after the disconnect the reconcile pass of game, gate
    and relay does nothing for a member that had once been connected. *)
Theorem lost_link_not_reconnected {W T : Type} {be : IEtcdDiscoveryBackend W} {gl : Glaze} {tra : ITransport T}
    {cc : Codec ControlMessage} {mo : MapOrder Z} (r : role) (s : IpcNode.node W T) (connection : Z) :
  (forall m, m ∈ IpcNode.Members s -> IpcNode.MakeProcessKey (pid m) ∈ IpcNode.mAutoConnectAttempts s) ->
  let s' := IpcNode.on_connection_event (mkConnectionEvent ce_disconnected connection) s in
  IpcNode.ReconcileAutoConnectMembers r s' = s' /\
  forall m, m ∈ IpcNode.Members s -> IpcNode.HandleMembershipEvent r (mkMembershipEvent me_updated m) s' = s'.
Proof.
  intros Hall s'. pose proof (NodeSteps.kept_on_connection_event (mkConnectionEvent ce_disconnected connection) s) as Hk.
  fold s' in Hk. injection Hk as Hd Ha. split.
  - apply NodeSteps.Reconcile_attempted. unfold IpcNode.Members. rewrite Hd, Ha. apply Hall.
  - intros m Hm. unfold IpcNode.HandleMembershipEvent. cbn [me_type me_process].
    apply NodeSteps.TryAutoConnectMember_attempted. rewrite Ha. by apply Hall.
Qed.

(** A player that is bound neither in the player host nor in the receiver
    directory is bound by [BindLocalPlayer] in both, resolves to this process, and
    [UnbindLocalPlayer] restores both tables. *)
Theorem bind_unbind_player {W T : Type} (player_id : Z) (s : IpcNode.node W T) (self : ProcessDescriptor) :
  IpcNode.mSelf s = Some self -> player_id ∉ IpcNode.mBoundPlayers s ->
  IpcNode.mReceiverDirectory s !! LocalReceiverDirectory.MakeKey (PlayerReceiverAddress player_id) = None ->
  let s1 := (IpcNode.BindLocalPlayer player_id s).2 in
  let s2 := (IpcNode.UnbindLocalPlayer player_id s1).2 in
  (IpcNode.BindLocalPlayer player_id s).1 = Success /\ player_id ∈ IpcNode.mBoundPlayers s1 /\
  LocalReceiverDirectory.Resolve (IpcNode.mReceiverDirectory s1) (PlayerReceiverAddress player_id)
    = mkReceiverLocation rl_single_process [process self] 1 /\
  (IpcNode.UnbindLocalPlayer player_id s1).1 = Success /\
  IpcNode.mBoundPlayers s2 = IpcNode.mBoundPlayers s /\
  IpcNode.mReceiverDirectory s2 = IpcNode.mReceiverDirectory s.
Proof.
  intros Hself Hp Hd. destruct (unbind_after_bind player_id s self Hself Hp Hd) as (A & B & C & _ & D & E & F).
  by repeat split.
Qed.

(** ** Concrete nodes *)

#[local] Existing Instance order_Z.
#[local] Existing Instance example_glaze.

(** A transport that accepts every call and hands out connection 5. *)
Definition example_transport : ITransport unit := {|
  tr_new := tt;
  tr_Listen := fun _ => ret Success;
  tr_Connect := fun _ => ret (Success, Some 5);
  tr_Send := fun _ => ret (Success, [])
|}.
#[local] Existing Instance example_transport.
#[local] Instance node_control_codec : Codec ControlMessage := example_codec ControlMessage.

(** An etcd that rejects every write. *)
Definition closed_backend : IEtcdDiscoveryBackend unit := {|
  be_GrantLease := fun _ l => ret (Failure "unavailable", l);
  be_Put := fun _ _ _ => ret (Failure "unavailable");
  be_KeepAliveOnce := fun _ => ret (Failure "unavailable");
  be_Delete := fun _ => ret (Failure "unavailable");
  be_GetPrefix := fun _ => ret (Failure "unavailable", "");
  be_StartWatchPrefix := fun _ => ret (Failure "unavailable");
  be_WaitForWatchEvent := ret (mkWatchPollResult wk_error "unavailable");
  be_StopWatch := ret tt;
  be_WatchRunning := fun _ => false
|}.
#[local] Existing Instance closed_backend.

Definition example_configuration : Configuration := mkConfiguration 1 (mkEndpoint "127.0.0.1" 7000) 5.
Definition closed_discovery : EtcdDiscovery.t unit := EtcdDiscovery.create example_options tt.
Definition loaded_game : IpcNode.node unit unit :=
  IpcNode.LoadIpcRuntime role_game 10 example_configuration (NodeSteps.initial closed_discovery).
Definition game_self : ProcessDescriptor := BuildSelfDescriptor role_game 10 example_configuration.

Lemma node_flags_consistent_witness :
  IpcNode.mIpcReady loaded_game = IpcNode.mRegistered loaded_game.
Proof.
  refine (proj1 (node_flags_consistent role_game 10 example_configuration closed_discovery loaded_game _)).
  apply rtc_once. exact (NodeSteps.ns_load role_game 10 example_configuration (NodeSteps.initial closed_discovery)).
Defined.

Lemma closed_register self (d : EtcdDiscovery.t unit) : ok (EtcdDiscovery.RegisterSelf self d).1 = false.
Proof.
  unfold EtcdDiscovery.RegisterSelf, EtcdDiscovery.GrantLease, EtcdDiscovery.put_self, EtcdDiscovery.record_self,
    EtcdDiscovery.on_backend, ret.
  destruct d as [o w m evs sf lease stop th run st]. simpl.
  destruct (0 <? lease_ttl_seconds o) eqn:E1, (lease =? 0) eqn:E2; simpl; rewrite ?E1; done.
Qed.

Lemma failed_registration_never_retried_witness :
  IpcNode.mRegistered (IpcNode.auto_connect_tick role_game (IpcNode.Start role_game example_configuration loaded_game)) = false.
Proof.
  apply (failed_registration_never_retried role_game example_configuration loaded_game _ game_self tt
    (LinkManager.create (process game_self) 1)); [reflexivity..|apply closed_register|].
  apply rtc_once. apply NodeSteps.au_auto_connect. vm_compute. reflexivity.
Defined.

(** A game connected to the relay it has discovered. *)
Definition discovery_with_relay : EtcdDiscovery.t unit :=
  EtcdDiscovery.set_processes {[ MakeKey (mkProcessId 99 1) := process_descriptor_example 99 1 1 ]} [] closed_discovery.
Definition connected_game : IpcNode.node unit unit :=
  loaded_game <| IpcNode.mDiscovery := discovery_with_relay |>
    <| IpcNode.mAutoConnectAttempts := {[ MakeKey (mkProcessId 99 1) ]} |>.

Lemma lost_link_not_reconnected_witness :
  IpcNode.ReconcileAutoConnectMembers role_game
    (IpcNode.on_connection_event (mkConnectionEvent ce_disconnected 5) connected_game)
  = IpcNode.on_connection_event (mkConnectionEvent ce_disconnected 5) connected_game.
Proof.
  refine (proj1 (lost_link_not_reconnected role_game connected_game 5 _)).
  intros m Hm. unfold IpcNode.Members, EtcdDiscovery.All in Hm. apply elem_of_members_All in Hm as (k & Hk).
  change (({[ MakeKey (mkProcessId 99 1) := process_descriptor_example 99 1 1 ]} : members) !! k = Some m) in Hk.
  apply lookup_singleton_Some in Hk as [_ <-]. vm_compute. reflexivity.
Defined.

Lemma bind_unbind_player_witness :
  (IpcNode.UnbindLocalPlayer 77 (IpcNode.BindLocalPlayer 77 loaded_game).2).1 = Success.
Proof.
  refine (proj1 (proj2 (proj2 (proj2 (bind_unbind_player 77 loaded_game game_self eq_refl _ _))))).
  - vm_compute. congruence.
  - vm_compute. reflexivity.
Defined.
