(* ===== verification/Redis.v ===== *)
(** * Redis: the connection helpers of [framework/storage/connectivity_probe.cpp]
    and the commands the services send through hiredis

    hiredis and the Redis server are not part of the sources.  The class [Redis]
    holds the calls; [RedisLaw] states the documented behaviour of the commands
    used, for a database without expiry: a command that is answered has been
    executed atomically, one that is not (a lost connection) may or may not have
    been, and an error reply leaves the data alone.  [kv_redis] is a concrete
    server that obeys it. *)

From S2P Require Import Prelude Text.
From Stdlib Require Import Ascii.

(** ** Replies and commands *)

Inductive redis_reply : Type :=
| reply_string (s : string)
| reply_status (s : string)
| reply_error (s : string)
| reply_integer (z : Z)
| reply_nil.

(** [reply->str], a null pointer for the replies without text. *)
Definition reply_str (r : redis_reply) : option string :=
  match r with
  | reply_string s | reply_status s | reply_error s => Some s
  | reply_integer _ | reply_nil => None
  end.

Definition is_error (r : redis_reply) : bool := match r with reply_error _ => true | _ => false end.

(** The formats passed to [redisCommand], with their arguments. *)
Inductive redis_cmd : Type :=
| cmd_get (key : string)                              (** ["GET %b"] *)
| cmd_set (key value : string)                        (** ["SET %b %b"] *)
| cmd_set_nx (key value : string)                     (** ["SET %b %b NX"] *)
| cmd_set_nx_px (key value : string) (ttl_ms : Z)     (** ["SET %b %b NX PX %llu"] *)
| cmd_del (key : string)                              (** ["DEL %b"] *)
| cmd_incrby (key : string) (delta : Z)               (** ["INCRBY %b %lld"] *)
| cmd_eval (script key : string) (args : list string) (** ["EVAL %b 1 %b %b ..."] *)
| cmd_plain (text : string).                          (** a command without arguments *)

(** A connection is a handle; a null pointer is [None]. *)
Abbreviation redisContext := Z.
Abbreviation kv := (gmap string string).

Class Redis (W : Type) : Type := {
  redisCommand : redisContext -> redis_cmd -> St W (option redis_reply);
  redisConnectWithTimeout : string -> Z -> St W (option redisContext);
  redisFree : redisContext -> St W unit;
  redis_err : redisContext -> W -> Z;
  redis_errstr : redisContext -> W -> string
}.

(** [redis->err != 0 && redis->errstr[0] != '\0' ? redis->errstr : fallback] *)
Definition redis_error {W} `{Redis W} (c : redisContext) (fallback : string) (w : W) : string :=
  if negb (redis_err c w =? 0) && negb (String.eqb (redis_errstr c w) "") then redis_errstr c w else fallback.

(** ** Documented behaviour of the commands *)

(** The effect of a script text on its key and arguments, where it is known. *)
Definition script_semantics : Type := string -> string -> list string -> kv -> option (redis_reply * kv).

(** The decimal form of a signed number. *)
Definition signed_string (n : Z) : string := if n <? 0 then "-" +:+ to_string (- n) else to_string n.

(** A stored value that [INCRBY] accepts, in canonical form; an absent key counts as zero. *)
Definition stored_counter (v : option string) : option Z :=
  match v with
  | None => Some 0
  | Some s => match stoll s with
              | Some n => if String.eqb (signed_string n) s then Some n else None
              | None => None
              end
  end.

Definition kv_exec (scripts : script_semantics) (cmd : redis_cmd) (d : kv) : option (redis_reply * kv) :=
  match cmd with
  | cmd_get k => Some (match d !! k with Some v => reply_string v | None => reply_nil end, d)
  | cmd_set k v => Some (reply_status "OK", <[k := v]> d)
  | cmd_set_nx k v =>
      Some (match d !! k with
            | Some _ => (reply_nil, d)
            | None => (reply_status "OK", <[k := v]> d)
            end)
  | cmd_set_nx_px k v ttl =>
      if 0 <? ttl then
        Some (match d !! k with
              | Some _ => (reply_nil, d)
              | None => (reply_status "OK", <[k := v]> d)
              end)
      else None
  | cmd_del k => Some (reply_integer (match d !! k with Some _ => 1 | None => 0 end), delete k d)
  | cmd_incrby k delta =>
      match stored_counter (d !! k) with
      | Some n => if (-9223372036854775808 <=? n + delta) && (n + delta <=? 9223372036854775807)
                  then Some (reply_integer (n + delta), <[k := signed_string (n + delta)]> d)
                  else Some (reply_error "ERR increment or decrement would overflow", d)
      | None => Some (reply_error "ERR value is not an integer or out of range", d)
      end
  | cmd_eval script k args => scripts script k args d
  | cmd_plain _ => None
  end.

(** [redis_db]: the database a connection has selected. *)
Class RedisLaw (scripts : script_semantics) (W : Type) `{Redis W} : Type := {
  redis_db : redisContext -> W -> Z;
  redis_data : Z -> W -> kv;
  redis_law : forall c cmd w d reply result,
    redis_data (redis_db c w) w = d -> kv_exec scripts cmd d = Some (reply, result) ->
    let '(answer, w') := redisCommand c cmd w in
    (forall c', redis_db c' w' = redis_db c' w) /\
    (forall db, db <> redis_db c w -> redis_data db w' = redis_data db w) /\
    match answer with
    | Some r => (r = reply /\ redis_data (redis_db c w) w' = result) \/
                (is_error r = true /\ redis_data (redis_db c w) w' = d)
    | None => redis_data (redis_db c w) w' = d \/ redis_data (redis_db c w) w' = result
    end;
  redis_free_law : forall c c' db w,
    redis_db c' (redisFree c w).2 = redis_db c' w /\ redis_data db (redisFree c w).2 = redis_data db w
}.

(** What a command can have done, whether it was answered or not. *)
Lemma redis_either {scripts W} {r : Redis W} {law : RedisLaw scripts W} c cmd w reply result :
  kv_exec scripts cmd (redis_data (redis_db c w) w) = Some (reply, result) ->
  (forall c', redis_db c' (redisCommand c cmd w).2 = redis_db c' w) /\
  (redis_data (redis_db c w) (redisCommand c cmd w).2 = redis_data (redis_db c w) w \/
   redis_data (redis_db c w) (redisCommand c cmd w).2 = result).
Proof.
  intros E. pose proof (redis_law c cmd w _ reply result eq_refl E) as Hl.
  destruct (redisCommand c cmd w) as [[a|] w']; destruct Hl as (H1 & _ & H2); split; try done.
  - destruct H2 as [[_ H2]|[_ H2]]; auto.
Qed.

(** An answer that is no error is the answer of the executed command. *)
Lemma redis_answer {scripts W} {r : Redis W} {law : RedisLaw scripts W} c cmd w reply result a :
  kv_exec scripts cmd (redis_data (redis_db c w) w) = Some (reply, result) ->
  (redisCommand c cmd w).1 = Some a -> is_error a = false ->
  a = reply /\ redis_data (redis_db c w) (redisCommand c cmd w).2 = result.
Proof.
  intros E Ea Herr. pose proof (redis_law c cmd w _ reply result eq_refl E) as Hl.
  destruct (redisCommand c cmd w) as [a' w']. simpl in *. subst a'.
  destruct Hl as (_ & _ & [H2|[H2 _]]); [done|congruence].
Qed.

(** *** The commands the services use, one by one *)

Section commands.
Context {scripts : script_semantics} {W : Type} {r : Redis W} {law : RedisLaw scripts W}.
Implicit Types (c : redisContext) (w : W) (k v : string).

(** The data of the database that a connection has selected. *)
Definition redis_view c w : kv := redis_data (redis_db c w) w.

Lemma redis_view_either c cmd w reply result :
  kv_exec scripts cmd (redis_view c w) = Some (reply, result) ->
  redis_view c (redisCommand c cmd w).2 = redis_view c w \/ redis_view c (redisCommand c cmd w).2 = result.
Proof. intros E. destruct (redis_either c cmd w _ _ E) as [H1 H2]. unfold redis_view in *. by rewrite H1. Qed.

Lemma redis_view_answer c cmd w reply result a :
  kv_exec scripts cmd (redis_view c w) = Some (reply, result) ->
  (redisCommand c cmd w).1 = Some a -> is_error a = false ->
  a = reply /\ redis_view c (redisCommand c cmd w).2 = result.
Proof.
  intros E Ea Herr. destruct (redis_answer c cmd w _ _ a E Ea Herr) as [H1 H2]. split; [done|].
  unfold redis_view. by rewrite (proj1 (redis_either c cmd w _ _ E)).
Qed.

(** An error reply has done nothing, unless errors are what the command answers. *)
Lemma redis_view_error c cmd w reply result e :
  kv_exec scripts cmd (redis_view c w) = Some (reply, result) -> is_error reply = false ->
  (redisCommand c cmd w).1 = Some (reply_error e) -> redis_view c (redisCommand c cmd w).2 = redis_view c w.
Proof.
  intros E Hr Ea. pose proof (redis_law c cmd w _ _ _ eq_refl E) as Hl. unfold redis_view.
  destruct (redisCommand c cmd w) as [a w']. simpl in *. subst a.
  destruct Hl as (H1 & _ & [[Er _]|[_ H2]]); [by subst reply|by rewrite H1].
Qed.

Lemma redis_get_view c k w : redis_view c (redisCommand c (cmd_get k) w).2 = redis_view c w.
Proof. by destruct (redis_view_either c (cmd_get k) w _ _ eq_refl). Qed.

Lemma redis_get_string c k w v : (redisCommand c (cmd_get k) w).1 = Some (reply_string v) -> redis_view c w !! k = Some v.
Proof.
  intros Ha. destruct (redis_view_answer c (cmd_get k) w _ _ _ eq_refl Ha eq_refl) as [E _].
  destruct (redis_view c w !! k); congruence.
Qed.

Lemma redis_get_nil c k w : (redisCommand c (cmd_get k) w).1 = Some reply_nil -> redis_view c w !! k = None.
Proof.
  intros Ha. destruct (redis_view_answer c (cmd_get k) w _ _ _ eq_refl Ha eq_refl) as [E _].
  by destruct (redis_view c w !! k).
Qed.

Lemma redis_set_view c k v w :
  redis_view c (redisCommand c (cmd_set k v) w).2 = redis_view c w \/
  redis_view c (redisCommand c (cmd_set k v) w).2 = <[k := v]> (redis_view c w).
Proof. exact (redis_view_either c (cmd_set k v) w _ _ eq_refl). Qed.

Lemma redis_set_status c k v w a :
  (redisCommand c (cmd_set k v) w).1 = Some (reply_status a) ->
  redis_view c (redisCommand c (cmd_set k v) w).2 = <[k := v]> (redis_view c w).
Proof. intros Ha. by destruct (redis_view_answer c (cmd_set k v) w _ _ _ eq_refl Ha eq_refl). Qed.

Lemma redis_set_nx_view c k v w :
  redis_view c (redisCommand c (cmd_set_nx k v) w).2 = redis_view c w \/
  redis_view c w !! k = None /\ redis_view c (redisCommand c (cmd_set_nx k v) w).2 = <[k := v]> (redis_view c w).
Proof.
  destruct (redis_view c w !! k) eqn:Ek;
    destruct (redis_view_either c (cmd_set_nx k v) w _ _ ltac:(cbn [kv_exec]; rewrite Ek; reflexivity)); auto.
Qed.

Lemma redis_set_nx_status c k v w a :
  (redisCommand c (cmd_set_nx k v) w).1 = Some (reply_status a) ->
  redis_view c w !! k = None /\ redis_view c (redisCommand c (cmd_set_nx k v) w).2 = <[k := v]> (redis_view c w).
Proof.
  intros Ha. destruct (redis_view c w !! k) eqn:Ek;
    destruct (redis_view_answer c (cmd_set_nx k v) w _ _ _ ltac:(cbn [kv_exec]; rewrite Ek; reflexivity) Ha eq_refl); done.
Qed.

Lemma redis_set_nx_nil c k v w :
  (redisCommand c (cmd_set_nx k v) w).1 = Some reply_nil ->
  is_Some (redis_view c w !! k) /\ redis_view c (redisCommand c (cmd_set_nx k v) w).2 = redis_view c w.
Proof.
  intros Ha. destruct (redis_view c w !! k) eqn:Ek;
    destruct (redis_view_answer c (cmd_set_nx k v) w _ _ _ ltac:(cbn [kv_exec]; rewrite Ek; reflexivity) Ha eq_refl); done.
Qed.

Lemma redis_del_view c k w :
  redis_view c (redisCommand c (cmd_del k) w).2 = redis_view c w \/
  redis_view c (redisCommand c (cmd_del k) w).2 = delete k (redis_view c w).
Proof. exact (redis_view_either c (cmd_del k) w _ _ eq_refl). Qed.

Lemma redis_del_integer c k w z :
  (redisCommand c (cmd_del k) w).1 = Some (reply_integer z) ->
  redis_view c (redisCommand c (cmd_del k) w).2 = delete k (redis_view c w).
Proof. intros Ha. by destruct (redis_view_answer c (cmd_del k) w _ _ _ eq_refl Ha eq_refl). Qed.

End commands.

(** A script text without known behaviour. *)
Definition no_scripts : script_semantics := fun _ _ _ _ => None.

(** ** [connectivity_probe.cpp] *)

Record RedisConfiguration : Type := mkRedisConfiguration {
  endpoints : list string;
  redis_password : string;
  redis_database : Z;
  key_prefix : string
}.

Record TcpEndpoint : Type := mkTcpEndpoint { ep_host : string; ep_port : Z }.

Definition ParsePort (text : string) : option Z :=
  match stoul text with
  | Some value => if 65535 <? value then None else Some (u16 value)
  | None => None
  end.

(** [value.rfind(c)] *)
Fixpoint rfind (c : ascii) (s : string) : option nat :=
  match s with
  | EmptyString => None
  | String x s' =>
      match rfind c s' with
      | Some i => Some (S i)
      | None => if Ascii.eqb x c then Some 0%nat else None
      end
  end.

Definition ParseRedisEndpoint (configuration : RedisConfiguration) : string + TcpEndpoint :=
  match endpoints configuration with
  | [] => inl "redis endpoints must not be empty"
  | value :: _ =>
      match rfind ":" value with
      | None => inl "redis endpoint must be in host:port format"
      | Some pos =>
          if (pos =? 0)%nat || (String.length value <=? pos + 1)%nat then inl "redis endpoint must be in host:port format"
          else
            match ParsePort (String.substring (pos + 1) (String.length value) value) with
            | None => inl "redis endpoint port is invalid"
            | Some port => inr (mkTcpEndpoint (String.substring 0 pos value) port)
            end
      end
  end.

Record RedisConnectResult : Type := mkRedisConnectResult {
  rc_context : option redisContext;
  rc_target : string;
  rc_error : string
}.

Section probe.
Context {W : Type} `{Redis W}.

(** One of the commands behind a new connection; [None] when it went well. *)
Definition run_command (context : redisContext) (command name : string) : St W (option string) :=
  fun w =>
    let '(reply, w) := redisCommand context (cmd_plain command) w in
    match reply with
    | None => (Some (redis_error context ("redis " +:+ name +:+ " failed") w), (redisFree context w).2)
    | Some (reply_error e) => (Some e, (redisFree context w).2)
    | Some _ => (None, w)
    end.

Definition ConnectRedis (configuration : RedisConfiguration) : St W RedisConnectResult :=
  fun w =>
    match ParseRedisEndpoint configuration with
    | inl error => (mkRedisConnectResult None "" error, w)
    | inr endpoint =>
        let target := ep_host endpoint +:+ ":" +:+ to_string (ep_port endpoint) in
        let '(connected, w) := redisConnectWithTimeout (ep_host endpoint) (ep_port endpoint) w in
        match connected with
        | None => (mkRedisConnectResult None target "redisConnectWithTimeout returned null", w)
        | Some context =>
            if negb (redis_err context w =? 0) then
              (mkRedisConnectResult None target
                 (if negb (String.eqb (redis_errstr context w) "") then redis_errstr context w else "redis connect failed"),
               (redisFree context w).2)
            else
              let '(auth, w) := if negb (String.eqb (redis_password configuration) "")
                                then run_command context ("AUTH " +:+ redis_password configuration) "AUTH" w
                                else (None, w) in
              match auth with
              | Some error => (mkRedisConnectResult None target error, w)
              | None =>
                  let '(select, w) := if negb (redis_database configuration =? 0)
                                      then run_command context ("SELECT " +:+ to_string (redis_database configuration)) "SELECT" w
                                      else (None, w) in
                  match select with
                  | Some error => (mkRedisConnectResult None target error, w)
                  | None => (mkRedisConnectResult (Some context) target "", w)
                  end
              end
        end
    end.

Definition PingRedis (context : redisContext) : St W (option string) :=
  fun w =>
    let '(ping, w) := redisCommand context (cmd_plain "PING") w in
    match ping with
    | None => (Some (redis_error context "redis PING failed" w), w)
    | Some (reply_error e) => (Some e, w)
    | Some _ => (None, w)
    end.

Definition CloseRedis (context : option redisContext) : St W unit :=
  match context with
  | Some c => redisFree c
  | None => ret tt
  end.

(** A failed connection attempt says why, and one that succeeds says nothing. *)
Lemma ConnectRedis_error configuration w :
  rc_context (ConnectRedis configuration w).1 <> None -> rc_error (ConnectRedis configuration w).1 = "".
Proof.
  unfold ConnectRedis. destruct (ParseRedisEndpoint configuration); [done|].
  destruct (redisConnectWithTimeout _ _ w) as [[context|] w1]; [|done].
  destruct (negb (redis_err context w1 =? 0)); [done|].
  destruct (if negb (String.eqb (redis_password configuration) "") then _ else _) as [[e|] w2]; [done|].
  by destruct (if negb (redis_database configuration =? 0) then _ else _) as [[e|] w3].
Qed.

End probe.

(** ** A server with one database that answers every known command *)

Definition kv_redis (scripts : script_semantics) : Redis kv := {|
  redisCommand := fun _ cmd d =>
    match kv_exec scripts cmd d with
    | Some (reply, d') => (Some reply, d')
    | None => (Some (reply_error "ERR"), d)
    end;
  redisConnectWithTimeout := fun _ _ => ret (Some 1);
  redisFree := fun _ => ret tt;
  redis_err := fun _ _ => 0;
  redis_errstr := fun _ _ => ""
|}.

(** One database, selected by every connection. *)
Definition kv_redis_law (scripts : script_semantics) : @RedisLaw scripts kv (kv_redis scripts).
Proof.
  refine (@Build_RedisLaw scripts kv (kv_redis scripts) (fun _ _ => 0) (fun db d => if db =? 0 then d else ∅) _ _); [|done].
  intros c cmd w d reply result Hd E. simpl in Hd. subst d. simpl. rewrite E.
  split; [done|]. split; [|by left]. intros db Hdb. by destruct (Z.eqb_spec db 0).
Defined.
