(* ===== verification/Lease.v ===== *)
(** * Lease: [game/services/player_lease_service.cpp]

    A game process may only hold a player whose lease it owns.  The lease is an
    entry of Redis, set with [NX] and a time to live, that the service renews
    every two seconds and deletes with a script that compares the value first.
    [LeaseSystem] runs the services of several processes on one database. *)

From S2P Require Import Prelude Text Base Redis.
From Stdlib Require Import Ascii.

Record PlayerLeaseOwner : Type := mkPlayerLeaseOwner {
  game_service_type : Z;
  game_instance_id : Z;
  token : string
}.
#[export] Instance player_lease_owner_eq_dec : EqDecision PlayerLeaseOwner.
Proof. solve_decision. Defined.

Record PlayerLeaseSnapshot : Type := mkPlayerLeaseSnapshot {
  running : bool;
  tracked_player_count : Z;
  renew_success_count : Z;
  renew_failure_count : Z;
  local_loss_count : Z;
  release_success_count : Z;
  release_failure_count : Z;
  last_renew_ms : Z;
  last_error : string
}.
#[export] Instance eta_lease_snapshot : Eta PlayerLeaseSnapshot := fun s =>
  mkPlayerLeaseSnapshot (running s) (tracked_player_count s) (renew_success_count s) (renew_failure_count s)
    (local_loss_count s) (release_success_count s) (release_failure_count s) (last_renew_ms s) (last_error s).

Record PlayerLeasePlayerSnapshot : Type := mkPlayerLeasePlayerSnapshot {
  ps_tracked : bool;
  ps_player_id : Z;
  ps_owner : PlayerLeaseOwner
}.

(** ** The scripts *)

Definition kRefreshScript : string :=
  "if redis.call('GET', KEYS[1]) == ARGV[1] then return redis.call('PEXPIRE', KEYS[1], ARGV[2]) else return 0 end".
Definition kReleaseScript : string :=
  "if redis.call('GET', KEYS[1]) == ARGV[1] then return redis.call('DEL', KEYS[1]) else return 0 end".

(** Two Lua programs and what they do; [PEXPIRE] answers 1 for a key that exists. *)
Definition lua_compare_then_expire : string :=
  "if redis.call('GET', KEYS[1]) == ARGV[1] then return redis.call('PEXPIRE', KEYS[1], ARGV[2]) else return 0 end".
Definition lua_compare_then_delete : string :=
  "if redis.call('GET', KEYS[1]) == ARGV[1] then return redis.call('DEL', KEYS[1]) else return 0 end".

Definition lease_scripts : script_semantics := fun script key args d =>
  if String.eqb script lua_compare_then_expire then
    match args with
    | [value; ttl] =>
        match stoll ttl with
        | Some n => if 0 <? n then Some (reply_integer (if bool_decide (d !! key = Some value) then 1 else 0), d) else None
        | None => None
        end
    | _ => None
    end
  else if String.eqb script lua_compare_then_delete then
    match args with
    | [value] => Some (if bool_decide (d !! key = Some value) then (reply_integer 1, delete key d) else (reply_integer 0, d))
    | _ => None
    end
  else None.

(** ** Values and tokens *)

Definition BuildValue (owner : PlayerLeaseOwner) : string :=
  to_string (game_service_type owner) +:+ ":" +:+ to_string (game_instance_id owner) +:+ ":" +:+ token owner.

Definition ParseValue (value : string) : option PlayerLeaseOwner :=
  match getline (Some value) ":" with
  | Some (service_type_text, stream) =>
      match getline stream ":" with
      | Some (instance_id_text, stream) =>
          match getline stream ":" with
          | Some (token, _) =>
              match stoul service_type_text, stoul instance_id_text with
              | Some st, Some id => Some (mkPlayerLeaseOwner (u32 st) (u32 id) token)
              | _, _ => None
              end
          | None => None
          end
      | None => None
      end
  | None => None
  end.

Definition GenerateToken (now player_id instance_id : Z) : string :=
  to_string player_id +:+ "-" +:+ to_string instance_id +:+ "-" +:+ to_string now.

Module PlayerLeaseService.

Record t : Type := mkPlayerLeaseService {
  mRedisName : string;
  mGameServiceType : Z;
  mGameInstanceId : Z;
  mLeaseTtlSeconds : Z;
  mRedisKeyPrefix : string;
  mStopping : bool;
  mThread : bool;
  mRedis : option redisContext;
  mLeases : gmap Z PlayerLeaseOwner;
  mSnapshot : PlayerLeaseSnapshot
}.
#[export] Instance eta_lease : Eta t := fun s =>
  mkPlayerLeaseService (mRedisName s) (mGameServiceType s) (mGameInstanceId s) (mLeaseTtlSeconds s) (mRedisKeyPrefix s)
    (mStopping s) (mThread s) (mRedis s) (mLeases s) (mSnapshot s).

Definition create (redis_name : string) (service_type instance_id ttl_seconds : Z) : t :=
  mkPlayerLeaseService redis_name service_type instance_id ttl_seconds "" false false None ∅
    (mkPlayerLeaseSnapshot false 0 0 0 0 0 0 0 "").

Definition BuildKey (s : t) (player_id : Z) : string := mRedisKeyPrefix s +:+ to_string player_id.
Definition ttl_ms (s : t) : Z := u64 (mLeaseTtlSeconds s * 1000).
Definition self_owner (s : t) (now player_id : Z) : PlayerLeaseOwner :=
  mkPlayerLeaseOwner (mGameServiceType s) (mGameInstanceId s) (GenerateToken now player_id (mGameInstanceId s)).

Definition IsHeldLocally (s : t) (player_id : Z) : bool := bool_decide (is_Some (mLeases s !! player_id)).
Definition TrackedPlayerIds {mo : MapOrder Z} (s : t) : list Z := (entries (mLeases s)).*1.
Definition Snapshot (s : t) : PlayerLeaseSnapshot := (mSnapshot s) <| tracked_player_count := Z.of_nat (size (mLeases s)) |>.
Definition PlayerSnapshot (s : t) (player_id : Z) : PlayerLeasePlayerSnapshot :=
  match mLeases s !! player_id with
  | None => mkPlayerLeasePlayerSnapshot false player_id (mkPlayerLeaseOwner 0 0 "")
  | Some owner => mkPlayerLeasePlayerSnapshot true player_id owner
  end.

(** [mSnapshot.tracked_player_count = mLeases.size()] *)
Definition count_tracked (s : t) : t :=
  s <| mSnapshot := (mSnapshot s) <| tracked_player_count := Z.of_nat (size (mLeases s)) |> |>.

Section operations.
Context {W : Type} `{Redis W}.

Definition Load (common_redis : gmap string RedisConfiguration) : St (t * W) unit :=
  fun '(s, w) =>
    match common_redis !! mRedisName s with
    | None => (tt, (s, w))
    | Some configuration =>
        let '(result, w) := ConnectRedis configuration w in
        (tt, (s <| mRedis := rc_context result |> <| mRedisKeyPrefix := key_prefix configuration +:+ "game:player:lease:" |>, w))
    end.

Definition Start (s : t) : t :=
  s <| mStopping := false |> <| mSnapshot := (mSnapshot s) <| running := true |> <| last_error := "" |> |> <| mThread := true |>.

Definition Unload : St (t * W) unit :=
  fun '(s, w) =>
    (tt, (s <| mRedis := None |> <| mRedisKeyPrefix := "" |> <| mLeases := ∅ |>, (CloseRedis (mRedis s) w).2)).

Definition Acquire (now player_id : Z) : St (t * W) Result :=
  fun '(s, w) =>
    match mRedis s with
    | None => (Failure "redis player lease is unavailable", (s, w))
    | Some redis =>
        match mLeases s !! player_id with
        | Some _ => (Success, (s, w))
        | None =>
            let owner := self_owner s now player_id in
            let '(reply, w) := redisCommand redis (cmd_set_nx_px (BuildKey s player_id) (BuildValue owner) (ttl_ms s)) w in
            match reply with
            | None => (Failure (redis_error redis "redis SET failed" w), (s, w))
            | Some (reply_status "OK") =>
                (Success, (count_tracked (s <| mLeases := <[player_id := owner]> (mLeases s) |>), w))
            | Some _ => (Failure "player lease is already held by another game", (s, w))
            end
        end
    end.

(** The answer of the two private operations: the error, or none. *)
Definition RefreshLeaseLocked (s : t) (player_id : Z) (owner : PlayerLeaseOwner) : St W (option string) :=
  fun w =>
    match mRedis s with
    | None => (Some "redis player lease is unavailable", w)
    | Some redis =>
        let '(reply, w) :=
          redisCommand redis (cmd_eval kRefreshScript (BuildKey s player_id) [BuildValue owner; to_string (ttl_ms s)]) w in
        match reply with
        | None => (Some (redis_error redis "redis EVAL failed" w), w)
        | Some (reply_integer 1) => (None, w)
        | Some _ => (Some "player lease refresh rejected", w)
        end
    end.

Definition ReleaseLeaseLocked (s : t) (player_id : Z) (owner : PlayerLeaseOwner) : St W (option string) :=
  fun w =>
    match mRedis s with
    | None => (Some "redis player lease is unavailable", w)
    | Some redis =>
        let '(reply, w) := redisCommand redis (cmd_eval kReleaseScript (BuildKey s player_id) [BuildValue owner]) w in
        match reply with
        | None => (Some (redis_error redis "redis EVAL failed" w), w)
        | Some (reply_integer _) => (None, w)
        | Some _ => (Some "player lease release rejected", w)
        end
    end.

Definition count_release (outcome : option string) (s : t) : t :=
  match outcome with
  | Some error =>
      s <| mSnapshot := (mSnapshot s) <| last_error := error |>
             <| release_failure_count := u64 (release_failure_count (mSnapshot s) + 1) |> |>
  | None => s <| mSnapshot := (mSnapshot s) <| release_success_count := u64 (release_success_count (mSnapshot s) + 1) |> |>
  end.

Definition Release (player_id : Z) : St (t * W) Result :=
  fun '(s, w) =>
    match mLeases s !! player_id with
    | None => (Failure "player lease is not tracked locally", (s, w))
    | Some owner =>
        let '(outcome, w) := ReleaseLeaseLocked s player_id owner w in
        let s := count_release outcome s in
        (Success, (count_tracked (s <| mLeases := delete player_id (mLeases s) |>), w))
    end.

Definition Lookup (player_id : Z) : St (t * W) (option PlayerLeaseOwner) :=
  fun '(s, w) =>
    match mRedis s with
    | None => (None, (s, w))
    | Some redis =>
        let '(reply, w) := redisCommand redis (cmd_get (BuildKey s player_id)) w in
        match reply with
        | Some (reply_string value) => (ParseValue value, (s, w))
        | _ => (None, (s, w))
        end
    end.

(** The loop of [ReleaseAllTrackedLocked] over the tracked leases. *)
Fixpoint release_each (leases : list (Z * PlayerLeaseOwner)) : St (t * W) unit :=
  fun '(s, w) =>
    match leases with
    | [] => (tt, (s, w))
    | (player_id, owner) :: rest =>
        let '(outcome, w) := ReleaseLeaseLocked s player_id owner w in
        release_each rest (count_release outcome s, w)
    end.

Definition ReleaseAllTrackedLocked {mo : MapOrder Z} : St (t * W) unit :=
  fun '(s, w) =>
    let '(_, (s, w)) := release_each (entries (mLeases s)) (s, w) in
    (tt, (s <| mLeases := ∅ |> <| mSnapshot := (mSnapshot s) <| tracked_player_count := 0 |> |>, w)).

Definition Stop {mo : MapOrder Z} : St (t * W) unit :=
  fun '(s, w) =>
    let '(_, (s, w)) := ReleaseAllTrackedLocked (s <| mStopping := true |> <| mThread := false |>, w) in
    (tt, (s <| mSnapshot := (mSnapshot s) <| running := false |> |>, w)).

Definition count_renewal (outcome : option string) (s : t) : t :=
  match outcome with
  | None => s <| mSnapshot := (mSnapshot s) <| renew_success_count := u64 (renew_success_count (mSnapshot s) + 1) |> |>
  | Some error =>
      s <| mSnapshot := (mSnapshot s) <| renew_failure_count := u64 (renew_failure_count (mSnapshot s) + 1) |>
             <| last_error := error |> |>
  end.

(** The first loop of a round of [Loop]: the players whose renewal failed. *)
Fixpoint renew_each (leases : list (Z * PlayerLeaseOwner)) : St (t * W) (list Z) :=
  fun '(s, w) =>
    match leases with
    | [] => ([], (s, w))
    | (player_id, owner) :: rest =>
        let '(outcome, w) := RefreshLeaseLocked s player_id owner w in
        let '(lost, sw) := renew_each rest (count_renewal outcome s, w) in
        (match outcome with None => lost | Some _ => player_id :: lost end, sw)
    end.

Definition drop_lost (s : t) (player_id : Z) : t :=
  s <| mLeases := delete player_id (mLeases s) |>
    <| mSnapshot := (mSnapshot s) <| local_loss_count := u64 (local_loss_count (mSnapshot s) + 1) |> |>.

(** One round of [Loop]; the thread sleeps between two rounds. *)
Definition Loop {mo : MapOrder Z} (now : Z) : St (t * W) unit :=
  fun '(s, w) =>
    let s := s <| mSnapshot := (mSnapshot s) <| last_renew_ms := now |> |> in
    let '(lost_players, (s, w)) := renew_each (entries (mLeases s)) (s, w) in
    (tt, (count_tracked (foldl drop_lost s lost_players), w)).

End operations.
End PlayerLeaseService.

(** ** Values are read back *)

Lemma token_lacks_colon now player_id instance_id :
  0 <= now -> 0 <= player_id -> 0 <= instance_id -> lacks ":" (GenerateToken now player_id instance_id) = true.
Proof. intros. unfold GenerateToken. by rewrite !lacks_app, !to_string_lacks_colon by lia. Qed.

Lemma token_nonempty now player_id instance_id : GenerateToken now player_id instance_id <> "".
Proof.
  unfold GenerateToken. pose proof (to_string_nonempty player_id) as Hne. by destruct (to_string player_id).
Qed.

Lemma parse_build owner :
  in_u32 (game_service_type owner) -> in_u32 (game_instance_id owner) -> lacks ":" (token owner) = true -> token owner <> "" ->
  ParseValue (BuildValue owner) = Some owner.
Proof.
  intros H1 H2 H3 H4. unfold ParseValue, BuildValue. unfold in_u32 in *.
  rewrite !colon_cons, getline_field by (apply to_string_lacks_colon; lia).
  rewrite getline_field by (apply to_string_lacks_colon; lia). rewrite getline_last by done.
  rewrite !stoul_to_string by (unfold in_u64; lia). rewrite !u32_id by done. by destruct owner.
Qed.

Lemma build_value_inj o o' :
  in_u32 (game_service_type o) -> in_u32 (game_instance_id o) ->
  in_u32 (game_service_type o') -> in_u32 (game_instance_id o') -> BuildValue o = BuildValue o' -> o = o'.
Proof.
  unfold in_u32, BuildValue. intros H1 H2 H3 H4. rewrite !colon_cons. intros E.
  apply field_inj in E as [E1 E]; [|apply to_string_lacks_colon; lia..].
  apply field_inj in E as [E2 E3]; [|apply to_string_lacks_colon; lia..].
  apply to_string_inj in E1, E2; [|lia..]. destruct o, o'; simpl in *. congruence.
Qed.

Lemma string_app_inv_head (a b c : string) : a +:+ b = a +:+ c -> b = c.
Proof. induction a as [|x a IH]; simpl; [done|]. intros E. apply IH. by injection E. Qed.

(** ** What the operations do to the database *)

Module LeaseProofs.
Import PlayerLeaseService.

Section effects.
Context {W : Type} {r : Redis W} {law : RedisLaw lease_scripts W} {mo : MapOrder Z}.
Implicit Types (s : t) (w : W).

(** Everything but the counters. *)
Definition core s := (mGameServiceType s, mGameInstanceId s, mLeaseTtlSeconds s, mRedisKeyPrefix s, mRedis s, mLeases s).

Definition ttl_ok s : Prop := in_u32 (mLeaseTtlSeconds s) /\ 0 < mLeaseTtlSeconds s.
Definition connected (db : Z) s w : Prop := forall c, mRedis s = Some c -> redis_db c w = db.

Lemma ttl_positive s : ttl_ok s -> 0 < ttl_ms s <= 4294967295000.
Proof. unfold ttl_ok, in_u32, ttl_ms. intros. rewrite u64_id; unfold in_u64; lia. Qed.

Lemma core_count_tracked s : core (count_tracked s) = core s.
Proof. done. Qed.
Lemma core_count_release o s : core (count_release o s) = core s.
Proof. by destruct o. Qed.
Lemma core_count_renewal o s : core (count_renewal o s) = core s.
Proof. by destruct o. Qed.

Lemma core_inj s s' : core s = core s' ->
  mRedis s = mRedis s' /\ mLeases s = mLeases s' /\ BuildKey s = BuildKey s' /\ ttl_ok s = ttl_ok s' /\
  self_owner s = self_owner s'.
Proof. unfold core, BuildKey, ttl_ok, self_owner. intros E. injection E as -> -> -> -> -> ->. done. Qed.

Lemma build_key_inj s p p' : in_u64 p -> in_u64 p' -> BuildKey s p = BuildKey s p' -> p = p'.
Proof. unfold BuildKey, in_u64. intros Hp Hp' E%string_app_inv_head. apply to_string_inj in E; lia. Qed.

Lemma refresh_data db s p o w :
  ttl_ok s -> connected db s w ->
  (forall c, redis_db c (RefreshLeaseLocked s p o w).2 = redis_db c w) /\
  redis_data db (RefreshLeaseLocked s p o w).2 = redis_data db w.
Proof.
  intros Ht Hc. unfold RefreshLeaseLocked, connected in *. destruct (mRedis s) as [c|]; [|done].
  rewrite <- (Hc c eq_refl). pose proof (ttl_positive s Ht) as Hpos.
  assert (kv_exec lease_scripts (cmd_eval kRefreshScript (BuildKey s p) [BuildValue o; to_string (ttl_ms s)])
            (redis_data (redis_db c w) w)
          = Some (reply_integer (if bool_decide (redis_data (redis_db c w) w !! BuildKey s p = Some (BuildValue o)) then 1 else 0),
                  redis_data (redis_db c w) w)) as E.
  { cbn [kv_exec]. unfold lease_scripts. change lua_compare_then_expire with kRefreshScript.
    rewrite String.eqb_refl, stoll_to_string by lia.
    by rewrite (proj2 (Z.ltb_lt _ _)) by lia. }
  destruct (redis_either c _ w _ _ E) as [H1 H2].
  set (x := redisCommand _ _ w) in *. destruct x as [reply w']. simpl in *.
  assert (redis_data (redis_db c w) w' = redis_data (redis_db c w) w) by by destruct H2.
  cases.
Qed.

Lemma release_data db s p o w :
  connected db s w ->
  (forall c, redis_db c (ReleaseLeaseLocked s p o w).2 = redis_db c w) /\
  (redis_data db (ReleaseLeaseLocked s p o w).2 = redis_data db w \/
   redis_data db w !! BuildKey s p = Some (BuildValue o) /\
   redis_data db (ReleaseLeaseLocked s p o w).2 = delete (BuildKey s p) (redis_data db w)).
Proof.
  intros Hc. unfold ReleaseLeaseLocked, connected in *. destruct (mRedis s) as [c|]; [|by auto].
  rewrite <- (Hc c eq_refl). set (cmd := cmd_eval _ _ _). set (d := redis_data (redis_db c w) w).
  assert (kv_exec lease_scripts cmd d
          = Some (if bool_decide (d !! BuildKey s p = Some (BuildValue o)) then (reply_integer 1, delete (BuildKey s p) d)
                  else (reply_integer 0, d))) as E by done.
  case_bool_decide as Hd; destruct (redis_either c _ w _ _ E) as [H1 H2];
    set (x := redisCommand _ _ w) in *; destruct x as [reply w']; simpl in *; fold d in H2;
    (destruct H2 as [H2|H2]; [by cases; auto|by cases; auto]).
Qed.

Lemma renew_each_effect db l s w :
  ttl_ok s -> connected db s w ->
  let '(lost, (s', w')) := renew_each l (s, w) in
  core s' = core s /\ (forall c, redis_db c w' = redis_db c w) /\ redis_data db w' = redis_data db w.
Proof.
  revert s w. induction l as [|[p o] l IH]; intros s w Ht Hc; [done|]. cbn [renew_each].
  pose proof (refresh_data db s p o w Ht Hc) as Hr. destruct (RefreshLeaseLocked s p o w) as [outcome w1].
  simpl in Hr. destruct Hr as [H1 H2].
  pose proof (core_count_renewal outcome s) as Ec. destruct (core_inj _ _ Ec) as (E1 & E2 & E3 & E4 & _).
  specialize (IH (count_renewal outcome s) w1). rewrite E4 in IH. specialize (IH Ht).
  destruct (renew_each l (count_renewal outcome s, w1)) as [lost [s' w']].
  destruct IH as (I1 & I2 & I3).
  { intros c. rewrite E1. intros Hs. rewrite H1. by apply Hc. }
  split; [congruence|]. split; [intros c; by rewrite I2|congruence].
Qed.

(** No operation changes an entry whose value is not that of a tracked lease. *)
Definition spares (db : Z) (leases : list (Z * PlayerLeaseOwner)) s w w' : Prop :=
  forall k v, redis_data db w !! k = Some v ->
    (forall p o, (p, o) ∈ leases -> k = BuildKey s p -> v = BuildValue o -> False) ->
    redis_data db w' !! k = Some v.

Lemma spares_same db l s w w' : redis_data db w' = redis_data db w -> spares db l s w w'.
Proof. intros E k v Hk _. by rewrite E. Qed.

Lemma release_each_effect db l s w :
  connected db s w ->
  let '(_, (s', w')) := release_each l (s, w) in
  core s' = core s /\ (forall c, redis_db c w' = redis_db c w) /\ spares db l s w w'.
Proof.
  revert s w. induction l as [|[p o] l IH]; intros s w Hc; [split; [done|]; split; [done|]; by apply spares_same|]. cbn [release_each].
  pose proof (release_data db s p o w Hc) as Hr. destruct (ReleaseLeaseLocked s p o w) as [outcome w1].
  simpl in Hr. destruct Hr as [H1 H2].
  pose proof (core_count_release outcome s) as Ec. destruct (core_inj _ _ Ec) as (E1 & E2 & E3 & _).
  specialize (IH (count_release outcome s) w1). destruct (release_each l (count_release outcome s, w1)) as [u [s' w']].
  destruct IH as (I1 & I2 & I3).
  { intros c. rewrite E1. intros Hs. rewrite H1. by apply Hc. }
  split; [congruence|]. split; [intros c; by rewrite I2|]. intros k v Hk Hf. apply I3.
  - destruct H2 as [->|[Hv ->]]; [done|]. destruct (decide (k = BuildKey s p)) as [->|Hne].
    + exfalso. apply (Hf p o); [by left|done|congruence].
    + by rewrite lookup_delete_ne by done.
  - intros p' o' Hin. rewrite E3. intros Hkey Hval. apply (Hf p' o'); [by right|done|done].
Qed.

Lemma drop_lost_leases lost s :
  core (foldl drop_lost s lost) = core (s <| mLeases := foldl (fun m p => delete p m) (mLeases s) lost |>).
Proof. revert s. induction lost as [|p lost IH]; intros s; [by destruct s|]. simpl. rewrite IH. done. Qed.

Lemma foldl_delete_Some {V} (lost : list Z) (m : gmap Z V) p v :
  foldl (fun m p => delete p m) m lost !! p = Some v -> m !! p = Some v.
Proof.
  revert m. induction lost as [|q lost IH]; intros m; [done|]. simpl. intros E%IH.
  by apply lookup_delete_Some in E as [_ E].
Qed.

(** A renewal round adds no lease. *)
Lemma renew_each_leases l s w : mLeases (renew_each l (s, w)).2.1 = mLeases s.
Proof.
  revert s w. induction l as [|[p o] l IH]; intros s w; [done|]. cbn [renew_each].
  destruct (RefreshLeaseLocked s p o w) as [outcome w1]. specialize (IH (count_renewal outcome s) w1).
  destruct (renew_each l _) as [lost [s' w']]. simpl in *. rewrite IH. by destruct outcome.
Qed.

Lemma Loop_leases now s w p o : mLeases (Loop now (s, w)).2.1 !! p = Some o -> mLeases s !! p = Some o.
Proof.
  unfold Loop. set (s1 := s <| mSnapshot := _ |>). pose proof (renew_each_leases (entries (mLeases s1)) s1 w) as Hr.
  destruct (renew_each _ (s1, w)) as [lost [s2 w2]]. simpl in Hr |- *.
  pose proof (drop_lost_leases lost s2) as Ed. unfold core in Ed. injection Ed as _ _ _ _ _ E.
  rewrite E. intros Hp%foldl_delete_Some. by rewrite Hr in Hp.
Qed.

(** What every operation of a service guarantees to the other processes and to
    itself, on the database all of them use. *)
Record effect (db : Z) s w s' w' : Prop := mkEffect {
  eff_db : forall c, redis_db c w' = redis_db c w;
  eff_spares : spares db (entries (mLeases s)) s w w';
  eff_self : (mGameServiceType s', mGameInstanceId s', mLeaseTtlSeconds s')
             = (mGameServiceType s, mGameInstanceId s, mLeaseTtlSeconds s);
  eff_connection : (mRedis s' = mRedis s /\ mRedisKeyPrefix s' = mRedisKeyPrefix s) \/
                   (mRedis s' = None /\ mLeases s' = ∅);
  eff_leases : forall p o, mLeases s' !! p = Some o ->
    (mLeases s !! p = Some o /\ redis_data db w' !! BuildKey s p = redis_data db w !! BuildKey s p) \/
    (in_u64 p /\ is_Some (mRedis s) /\ (exists now, in_u64 now /\ o = self_owner s now p) /\
     redis_data db w' !! BuildKey s p = Some (BuildValue o))
}.

Definition wf_service (db : Z) s w : Prop :=
  ttl_ok s /\ in_u32 (mGameServiceType s) /\ in_u32 (mGameInstanceId s) /\ connected db s w /\
  forall p o, mLeases s !! p = Some o -> in_u64 p /\ exists now, in_u64 now /\ o = self_owner s now p.

Lemma effect_same_data db s w s' w' :
  (forall c, redis_db c w' = redis_db c w) -> redis_data db w' = redis_data db w ->
  (mGameServiceType s', mGameInstanceId s', mLeaseTtlSeconds s', mRedis s', mRedisKeyPrefix s')
    = (mGameServiceType s, mGameInstanceId s, mLeaseTtlSeconds s, mRedis s, mRedisKeyPrefix s) ->
  (forall p o, mLeases s' !! p = Some o -> mLeases s !! p = Some o) -> effect db s w s' w'.
Proof.
  intros Hdb Hdata Hs Hl. injection Hs as E1 E2 E3 E4 E5. constructor; [done|by apply spares_same|congruence|by left|].
  intros p o Hp. left. split; [by apply Hl|by rewrite Hdata].
Qed.

Lemma core_effect db s w s' w' :
  (forall c, redis_db c w' = redis_db c w) -> redis_data db w' = redis_data db w -> core s' = core s -> effect db s w s' w'.
Proof. intros Hdb Hdata Hs. unfold core in Hs. injection Hs as E1 E2 E3 E4 E5 E6. apply effect_same_data; [done|done|congruence|by rewrite E6]. Qed.

Lemma Acquire_effect db now p s w :
  wf_service db s w -> in_u64 p -> in_u64 now ->
  effect db s w (Acquire now p (s, w)).2.1 (Acquire now p (s, w)).2.2.
Proof.
  intros (Ht & _ & _ & Hc & Hw) Hp Hnow. unfold Acquire.
  destruct (mRedis s) as [c|] eqn:Ec; [|by apply core_effect].
  destruct (mLeases s !! p) as [o|] eqn:Ep; [by apply core_effect|].
  set (owner := self_owner s now p). set (cmd := cmd_set_nx_px _ _ _).
  pose proof (Hc c Ec) as Hdb. pose proof (ttl_positive s Ht) as Hpos.
  set (d := redis_data (redis_db c w) w).
  assert (kv_exec lease_scripts cmd d = Some (match d !! BuildKey s p with
    | Some _ => (reply_nil, d) | None => (reply_status "OK", <[BuildKey s p := BuildValue owner]> d) end)) as E.
  { unfold cmd. cbn [kv_exec]. by rewrite (proj2 (Z.ltb_lt _ _)) by lia. }
  set (reply := match d !! BuildKey s p with Some _ => reply_nil | None => reply_status "OK" end).
  set (result := match d !! BuildKey s p with Some _ => d | None => <[BuildKey s p := BuildValue owner]> d end).
  assert (kv_exec lease_scripts cmd d = Some (reply, result)) as E'.
  { rewrite E. unfold reply, result. by destruct (d !! BuildKey s p). }
  destruct (redis_either c cmd w _ _ E') as [H1 H2].
  pose proof (fun a => redis_answer c cmd w _ _ a E') as H3. clear E E'.
  destruct (redisCommand c cmd w) as [answer w'] eqn:Ex. simpl in H1, H2, H3. rewrite Hdb in H2, H3.
  assert (spares db (entries (mLeases s)) s w w') as Hspares.
  { intros k v Hk _. destruct H2 as [-> | ->]; [done|]. unfold result, d. rewrite Hdb.
    destruct (redis_data db w !! BuildKey s p) eqn:Ek; [done|]. rewrite lookup_insert_ne by congruence. done. }
  assert (forall p' o, mLeases s !! p' = Some o -> redis_data db w' !! BuildKey s p' = redis_data db w !! BuildKey s p') as Hother.
  { intros p' o Ho. destruct H2 as [-> | ->]; [done|]. unfold result, d. rewrite Hdb.
    destruct (redis_data db w !! BuildKey s p); [done|]. rewrite lookup_insert_ne; [done|].
    intros E%build_key_inj; [congruence|done|]. by destruct (Hw _ _ Ho). }
  assert (effect db s w s w') as Hsame.
  { constructor; [done|done|done|by left|]. intros p' o Ho. left. split; [done|]. by eapply Hother. }
  destruct answer as [[]|]; try exact Hsame. destruct (decide (s0 = "OK")) as [->|Hne].
  2:{ destruct (match_OK s0) as [E|E]; [done|]. rewrite E. exact Hsame. }
  destruct (H3 _ eq_refl eq_refl) as [Er Ed]. constructor; [done|done|done|by left|].
  intros p' o. simpl. intros [[<- <-]|[Hne Ho]]%lookup_insert_Some.
  - right. split; [done|]. split; [by eexists|]. split; [by exists now|]. rewrite Ed. unfold result, d. rewrite Hdb.
    unfold reply, d in Er. rewrite Hdb in Er. destruct (redis_data db w !! BuildKey s p); [done|]. by rewrite lookup_insert_eq.
  - left. split; [done|]. by eapply Hother.
Qed.

Lemma Release_effect db p s w :
  wf_service db s w -> effect db s w (Release p (s, w)).2.1 (Release p (s, w)).2.2.
Proof.
  intros (_ & _ & _ & Hc & Hw). unfold Release. destruct (mLeases s !! p) as [o|] eqn:Ep; [|by apply core_effect].
  pose proof (release_data db s p o w Hc) as Hr. destruct (ReleaseLeaseLocked s p o w) as [outcome w']. simpl in Hr.
  destruct Hr as [H1 H2]. pose proof (core_count_release outcome s) as Ec.
  assert (mLeases (count_release outcome s) = mLeases s) as El by by destruct outcome.
  simpl. constructor; [done| |by destruct outcome|left; by destruct outcome|].
  - intros k v Hk Hf. destruct H2 as [->|[Hv ->]]; [done|]. destruct (decide (k = BuildKey s p)) as [->|Hne].
    + exfalso. apply (Hf p o); [by apply elem_of_entries|done|congruence].
    + by rewrite lookup_delete_ne by done.
  - intros p' o'. cbn. rewrite El. intros [Hne Ho]%lookup_delete_Some. left. split; [done|].
    destruct H2 as [->|[_ ->]]; [done|]. rewrite lookup_delete_ne; [done|].
    intros E%build_key_inj; [done| |]; [by destruct (Hw _ _ Ep)|by destruct (Hw _ _ Ho)].
Qed.

Lemma Lookup_effect db p s w :
  wf_service db s w -> effect db s w (Lookup p (s, w)).2.1 (Lookup p (s, w)).2.2.
Proof.
  intros (_ & _ & _ & Hc & _). unfold Lookup. destruct (mRedis s) as [c|] eqn:Ec; [|by apply core_effect].
  assert (forall d, kv_exec lease_scripts (cmd_get (BuildKey s p)) d
    = Some (match d !! BuildKey s p with Some v => reply_string v | None => reply_nil end, d)) as E by done.
  destruct (redis_either c _ w _ _ (E _)) as [H1 H2]. rewrite (Hc c Ec) in H2.
  destruct (redisCommand c _ w) as [reply w']. simpl in *.
  assert (effect db s w s w') by (apply core_effect; [done|by destruct H2|done]). by destruct reply as [[]|].
Qed.

Lemma Loop_effect db now s w :
  wf_service db s w -> effect db s w (Loop now (s, w)).2.1 (Loop now (s, w)).2.2.
Proof.
  intros (Ht & _ & _ & Hc & _). unfold Loop. set (s1 := s <| mSnapshot := _ |>).
  pose proof (renew_each_effect db (entries (mLeases s1)) s1 w Ht Hc) as He.
  destruct (renew_each _ (s1, w)) as [lost [s2 w2]]. destruct He as (E1 & E2 & E3). cbn [fst snd].
  pose proof (drop_lost_leases lost s2) as Ed. unfold core in E1, Ed. injection E1 as F1 F2 F3 F4 F5 F6.
  simpl in Ed. injection Ed as G1 G2 G3 G4 G5 G6.
  apply effect_same_data; [done|done| |].
  - simpl. rewrite G1, G2, G3, G4, G5, F1, F2, F3, F4, F5. done.
  - simpl. rewrite G6, F6. intros p o Hp. by eapply foldl_delete_Some.
Qed.

Lemma Stop_effect db s w : wf_service db s w -> effect db s w (Stop (s, w)).2.1 (Stop (s, w)).2.2.
Proof.
  intros (_ & _ & _ & Hc & _). unfold Stop, ReleaseAllTrackedLocked. set (s1 := s <| mStopping := _ |> <| mThread := _ |>).
  pose proof (release_each_effect db (entries (mLeases s1)) s1 w Hc) as He.
  destruct (release_each _ (s1, w)) as [u [s2 w2]]. destruct He as (E1 & E2 & E3). cbn [fst snd].
  unfold core in E1. injection E1 as F1 F2 F3 F4 F5 F6.
  constructor; [done|exact E3|by simpl; rewrite F1, F2, F3|left; by simpl; rewrite F4, F5|].
  intros p o. simpl. by rewrite lookup_empty.
Qed.

Lemma Unload_effect db s w : effect db s w (Unload (s, w)).2.1 (Unload (s, w)).2.2.
Proof.
  unfold Unload. cbn [fst snd].
  assert ((forall c, redis_db c (CloseRedis (mRedis s) w).2 = redis_db c w) /\
          redis_data db (CloseRedis (mRedis s) w).2 = redis_data db w) as [H1 H2].
  { unfold CloseRedis. destruct (mRedis s) as [c|]; [|done]. split; [intros c'|]; by apply redis_free_law. }
  constructor; [done|by apply spares_same|done|by right|]. intros p o. simpl. by rewrite lookup_empty.
Qed.

End effects.
End LeaseProofs.

(** ** Several processes on one database *)

Module LeaseSystem.
Import PlayerLeaseService LeaseProofs.

Inductive action : Type :=
| a_acquire (now player_id : Z)
| a_release (player_id : Z)
| a_lookup (player_id : Z)
| a_round (now : Z)
| a_start
| a_stop
| a_unload.

Section system.
Context {W : Type} {r : Redis W} {law : RedisLaw lease_scripts W} {mo : MapOrder Z}.
(** The database and the key prefix of the configuration. *)
Context (db : Z) (prefix : string).

Definition perform (a : action) (sw : t * W) : t * W :=
  match a with
  | a_acquire now p => (Acquire now p sw).2
  | a_release p => (Release p sw).2
  | a_lookup p => (Lookup p sw).2
  | a_round now => (Loop now sw).2
  | a_start => (Start sw.1, sw.2)
  | a_stop => (Stop sw).2
  | a_unload => (Unload sw).2
  end.

(** The renewal thread runs between [Start] and [Stop]. *)
Definition enabled (a : action) (s : t) : Prop :=
  match a with
  | a_acquire now p => in_u64 now /\ in_u64 p
  | a_round now => in_u64 now /\ mThread s = true /\ mStopping s = false
  | _ => True
  end.

Record system : Type := mkSystem { services : gmap Z t; world : W }.

Definition identity (s : t) : Z * Z := (mGameServiceType s, mGameInstanceId s).
Definition tracked_by (sys : system) (i p : Z) (o : PlayerLeaseOwner) : Prop :=
  exists s, services sys !! i = Some s /\ mLeases s !! p = Some o.

(** Processes start connected and without leases, under an identity that no
    running process has, and may crash.  Everything else that happens to the
    database, the expiry of entries included, leaves the entries of tracked
    players alone, as long as the renewal is in time. *)
Inductive step : system -> system -> Prop :=
| st_action i a s sys :
    services sys !! i = Some s -> enabled a s ->
    step sys (mkSystem (<[i := (perform a (s, world sys)).1]> (services sys)) (perform a (s, world sys)).2)
| st_crash i sys : step sys (mkSystem (delete i (services sys)) (world sys))
| st_boot i s c sys :
    services sys !! i = None -> mLeases s = ∅ -> mRedis s = Some c -> redis_db c (world sys) = db ->
    mRedisKeyPrefix s = prefix -> ttl_ok s -> in_u32 (mGameServiceType s) -> in_u32 (mGameInstanceId s) ->
    (forall j s', services sys !! j = Some s' -> identity s' <> identity s) ->
    step sys (mkSystem (<[i := s]> (services sys)) (world sys))
| st_environment w' sys :
    (forall c, redis_db c w' = redis_db c (world sys)) ->
    (forall i p o, tracked_by sys i p o ->
       redis_data db w' !! (prefix +:+ to_string p) = redis_data db (world sys) !! (prefix +:+ to_string p)) ->
    step sys (mkSystem (services sys) w').

Definition service_inv (w : W) (s : t) : Prop :=
  wf_service db s w /\
  (forall c, mRedis s = Some c -> mRedisKeyPrefix s = prefix) /\
  (mRedis s = None -> mLeases s = ∅) /\
  forall p o, mLeases s !! p = Some o -> redis_data db w !! BuildKey s p = Some (BuildValue o).

Definition inv (sys : system) : Prop :=
  (forall i s, services sys !! i = Some s -> service_inv (world sys) s) /\
  (forall i j s s', services sys !! i = Some s -> services sys !! j = Some s' -> identity s = identity s' -> i = j).

Lemma perform_effect a s w :
  wf_service db s w -> enabled a s -> effect db s w (perform a (s, w)).1 (perform a (s, w)).2.
Proof.
  intros Hw He. destruct a; simpl in *.
  - by apply Acquire_effect; [|apply He..].
  - by apply Release_effect.
  - by apply Lookup_effect.
  - by apply Loop_effect.
  - by apply core_effect.
  - by apply Stop_effect.
  - by apply Unload_effect.
Qed.

Lemma tracked_prefix w s p o : service_inv w s -> mLeases s !! p = Some o -> BuildKey s p = prefix +:+ to_string p.
Proof.
  intros (_ & Hp & Hn & _) Ho. unfold BuildKey. destruct (mRedis s) as [c|]; [by rewrite (Hp c)|].
  by rewrite Hn, lookup_empty in Ho.
Qed.

(** The service that acts keeps its invariant. *)
Lemma service_inv_self w s w' s' : service_inv w s -> effect db s w s' w' -> service_inv w' s'.
Proof.
  intros ((Ht & H1 & H2 & Hc & Hw) & Hp & Hn & Hd) [Edb _ Eself Econn El].
  injection Eself as E1 E2 E3.
  assert (forall p o, mLeases s' !! p = Some o -> mRedisKeyPrefix s' = mRedisKeyPrefix s) as Hpre.
  { intros p o Ho. destruct Econn as [[_ ?]|[_ He]]; [done|]. by rewrite He, lookup_empty in Ho. }
  split; [|split; [|split]].
  - unfold wf_service, ttl_ok. rewrite E1, E2, E3. split; [done|]. split; [done|]. split; [done|]. split.
    + intros c Ec. rewrite Edb. destruct Econn as [[Er _]|[Er _]]; [|congruence]. apply Hc. congruence.
    + intros p o Ho. destruct (El p o Ho) as [[Ho' _]|(Hin & _ & (now & Hnow & ->) & _)].
      * destruct (Hw p o Ho') as (Hin & now & Hnow & ->). split; [done|]. exists now. unfold self_owner. by rewrite E1, E2.
      * split; [done|]. exists now. unfold self_owner. by rewrite E1, E2.
  - intros c Ec. destruct Econn as [[Er ->]|[Er _]]; [|congruence]. apply (Hp c). congruence.
  - intros Ec. destruct Econn as [[Er _]|[_ ->]]; [|done]. apply map_eq. intros p. rewrite lookup_empty.
    destruct (mLeases s' !! p) as [o|] eqn:Ho; [|done]. exfalso.
    assert (mRedis s = None) as En by congruence. destruct (El p o Ho) as [[Ho' _]|(_ & [c Hk] & _)].
    + by rewrite (Hn En), lookup_empty in Ho'.
    + congruence.
  - intros p o Ho. unfold BuildKey. rewrite (Hpre p o Ho). fold (BuildKey s p).
    destruct (El p o Ho) as [[Ho' ->]|(_ & _ & _ & Hk)]; [by apply Hd|done].
Qed.

(** What the values of two services' leases have in common, their identities have. *)
Lemma owner_identity w w' s s' p p' o o' :
  wf_service db s w -> wf_service db s' w' -> mLeases s !! p = Some o -> mLeases s' !! p' = Some o' ->
  BuildValue o = BuildValue o' -> identity s = identity s'.
Proof.
  intros (_ & H1 & H2 & _ & Hw) (_ & H1' & H2' & _ & Hw') Ho Ho' E.
  destruct (Hw _ _ Ho) as (_ & n & _ & ->). destruct (Hw' _ _ Ho') as (_ & n' & _ & ->).
  apply build_value_inj in E; [|done..]. unfold self_owner in E. injection E as E1 E2 _. unfold identity. congruence.
Qed.

(** The other services keep theirs. *)
Lemma service_inv_other w s w' s' other :
  service_inv w other -> service_inv w s -> identity other <> identity s -> effect db s w s' w' -> service_inv w' other.
Proof.
  intros Hother Hs Hid [Edb Esp _ _ _]. pose proof Hother as ((Ht & H1 & H2 & Hc & Hw) & Hp & Hn & Hd).
  split; [|split; [done|split; [done|]]].
  - split; [done|]. split; [done|]. split; [done|]. split; [|done]. intros c Ec. rewrite Edb. by apply Hc.
  - intros p o Ho. apply Esp; [by apply Hd|]. intros q oq Hq%elem_of_entries _ Ev. apply Hid.
    apply (owner_identity w w other s p q o oq); [apply Hother|apply Hs|done|done|done].
Qed.

Lemma inv_step sys sys' : step sys sys' -> inv sys -> inv sys'.
Proof.
  intros Hstep [Hi Hu]. destruct Hstep as [i a s sys Es He|i sys|i s c sys Hnone Hl Ec Hdb Hpre Ht H1 H2 Hid|w' sys Edb Hd].
  - pose proof (Hi i s Es) as Hs. pose proof (perform_effect a s (world sys) (proj1 Hs) He) as Heff.
    assert (identity (perform a (s, world sys)).1 = identity s) as Eid.
    { destruct Heff as [_ _ E _ _]. unfold identity. congruence. }
    split; simpl.
    + intros j sj [[<- <-]|[Hne Ej]]%lookup_insert_Some.
      * by apply (service_inv_self (world sys) s).
      * apply (service_inv_other (world sys) s _ (perform a (s, world sys)).1); [by apply (Hi j)|done| |done].
        intros E. apply Hne. by apply (Hu i j s sj).
    + intros j k sj sk Ej Ek E.
      assert (forall n sn, <[i:=(perform a (s, world sys)).1]> (services sys) !! n = Some sn ->
                exists sn', services sys !! n = Some sn' /\ identity sn = identity sn') as Hold.
      { intros n sn [[<- <-]|[Hne En]]%lookup_insert_Some; [by exists s|by exists sn]. }
      destruct (Hold j sj Ej) as (sj' & Ej' & Ij), (Hold k sk Ek) as (sk' & Ek' & Ik). eapply Hu; [done|done|congruence].
  - split; simpl.
    + intros j sj [_ Ej]%lookup_delete_Some. by apply (Hi j).
    + intros j k sj sk [_ Ej]%lookup_delete_Some [_ Ek]%lookup_delete_Some. by apply Hu.
  - split; simpl.
    + intros j sj [[<- <-]|[Hne Ej]]%lookup_insert_Some; [|by apply (Hi j)].
      split; [|split; [done|split; [done|]]].
      * split; [done|]. split; [done|]. split; [done|]. split; [intros c' Ec'; congruence|]. intros p o. by rewrite Hl, lookup_empty.
      * intros p o. by rewrite Hl, lookup_empty.
    + intros j k sj sk [[<- <-]|[Hne Ej]]%lookup_insert_Some [[<- <-]|[Hne' Ek]]%lookup_insert_Some E; [done| | |by eapply Hu].
      * exfalso. by apply (Hid k sk Ek).
      * exfalso. by apply (Hid j sj Ej).
  - split; simpl; [|done]. intros j sj Ej. pose proof (Hi j sj Ej) as Hs. pose proof Hs as ((Ht & H1 & H2 & Hc & Hw) & Hp & Hn & Hv).
    split; [|split; [done|split; [done|]]].
    + split; [done|]. split; [done|]. split; [done|]. split; [|done]. intros c Ec. rewrite Edb. by apply Hc.
    + intros p o Ho. rewrite (tracked_prefix (world sys) sj p o Hs Ho), (Hd j p o) by by exists sj.
      rewrite <- (tracked_prefix (world sys) sj p o Hs Ho). by apply Hv.
Qed.

Lemma inv_reachable w sys : rtc step (mkSystem ∅ w) sys -> inv sys.
Proof.
  intros Hr. assert (inv (mkSystem ∅ w)) as H0 by by split.
  remember (mkSystem ∅ w) as sys0 eqn:E. clear E. induction Hr as [|x y z Hs _ IH]; [done|]. by apply IH, (inv_step x y).
Qed.

End system.
End LeaseSystem.

(** ** Properties *)

Section lease_properties.
Import PlayerLeaseService LeaseProofs LeaseSystem.
Context {W : Type} {r : Redis W} {law : RedisLaw lease_scripts W} {mo : MapOrder Z}.

(** The answer to a read of a key that holds a value. *)
Lemma get_answer db c w k v :
  redis_db c w = db -> redis_data db w !! k = Some v ->
  (redisCommand c (cmd_get k) w).1 = Some (reply_string v) \/
  forall x, (redisCommand c (cmd_get k) w).1 <> Some (reply_string x).
Proof.
  intros Hdb Hk. pose proof (redis_answer (law := law) c (cmd_get k) w (reply_string v) (redis_data (redis_db c w) w)) as Ha.
  destruct ((redisCommand c (cmd_get k) w).1) as [a|]; [|by right].
  destruct (is_error a) eqn:Ee; [right; intros x E; injection E as ->; done|].
  left. f_equal. apply (Ha a); [|done|done]. cbn [kv_exec]. by rewrite Hdb, Hk.
Qed.

Lemma Lookup_held db prefix w s p o :
  service_inv db prefix w s -> mRedisKeyPrefix s = prefix -> mRedis s <> None ->
  redis_data db w !! (prefix +:+ to_string p) = Some (BuildValue o) -> ParseValue (BuildValue o) = Some o ->
  (Lookup p (s, w)).1 = None \/ (Lookup p (s, w)).1 = Some o.
Proof.
  intros ((_ & _ & _ & Hc & _) & _) Hp Hr Hk Hv. unfold Lookup. destruct (mRedis s) as [c|] eqn:Ec; [|done].
  unfold BuildKey. rewrite Hp. destruct (get_answer db c w _ _ (Hc c Ec) Hk) as [E|E];
    destruct (redisCommand c _ w) as [reply w']; simpl in E.
  - subst reply. right. done.
  - left. destruct reply as [[]|]; try done. by destruct (E s0).
Qed.

(** An entry that exists, whoever owns it, makes [Acquire] fail. *)
Lemma Acquire_taken db now w s p v :
  wf_service db s w -> mRedis s <> None -> mLeases s !! p = None -> redis_data db w !! BuildKey s p = Some v ->
  ok (Acquire now p (s, w)).1 = false.
Proof.
  intros (Ht & _ & _ & Hc & _) Hr Hp Hk. unfold Acquire. destruct (mRedis s) as [c|] eqn:Ec; [|done]. rewrite Hp.
  pose proof (ttl_positive s Ht) as Hpos. set (cmd := cmd_set_nx_px _ _ _).
  pose proof (redis_answer (law := law) c cmd w reply_nil (redis_data (redis_db c w) w)) as Ha.
  destruct (redisCommand c cmd w) as [[a|] w']; [|done]. simpl in Ha.
  assert (a <> reply_status "OK") as Hne.
  { intros ->. destruct (Ha (reply_status "OK")) as [E _]; [|done|done|done]. unfold cmd. cbn [kv_exec].
    rewrite (proj2 (Z.ltb_lt _ _)) by lia. by rewrite (Hc c Ec), Hk. }
  destruct a as [|x| | |]; try done. destruct (match_OK x) as [->|E]; [done|]. by rewrite E.
Qed.

(** A renewal that succeeds has found the entry. *)
Lemma refresh_confirmed db s p o w :
  ttl_ok s -> connected db s w -> (RefreshLeaseLocked s p o w).1 = None ->
  redis_data db w !! BuildKey s p = Some (BuildValue o).
Proof.
  intros Ht Hc. unfold RefreshLeaseLocked, connected in *. destruct (mRedis s) as [c|]; [|done].
  rewrite <- (Hc c eq_refl). pose proof (ttl_positive s Ht) as Hpos. set (cmd := cmd_eval _ _ _).
  set (d := redis_data (redis_db c w) w).
  pose proof (redis_answer (law := law) c cmd w
    (reply_integer (if bool_decide (d !! BuildKey s p = Some (BuildValue o)) then 1 else 0)) d) as Ha.
  destruct (redisCommand c cmd w) as [[a|] w']; [|done]. simpl in Ha. intros Hn.
  assert (a = reply_integer 1) as -> by (destruct a as [| | |z|]; try done; by destruct z as [|[]|]).
  destruct (Ha (reply_integer 1)) as [E _]; [|done|done|].
  - unfold cmd. cbn [kv_exec]. unfold lease_scripts. change lua_compare_then_expire with kRefreshScript.
    rewrite String.eqb_refl, stoll_to_string by lia.
    by rewrite (proj2 (Z.ltb_lt _ _)) by lia.
  - by case_bool_decide.
Qed.

Lemma renew_each_confirmed db l s w p o :
  ttl_ok s -> connected db s w -> (p, o) ∈ l -> p ∉ (renew_each l (s, w)).1 ->
  redis_data db w !! BuildKey s p = Some (BuildValue o).
Proof.
  revert s w. induction l as [|[q oq] l IH]; intros s w Ht Hc; [by intros ?%elem_of_nil|]. cbn [renew_each].
  pose proof (refresh_data db s q oq w Ht Hc) as [H1 H2]. pose proof (refresh_confirmed db s q oq w Ht Hc) as H3.
  destruct (RefreshLeaseLocked s q oq w) as [outcome w1]. simpl in H1, H2, H3.
  destruct (core_inj _ _ (core_count_renewal outcome s)) as (E1 & E2 & E3 & E4 & _).
  specialize (IH (count_renewal outcome s) w1). rewrite E4, E3, H2 in IH.
  destruct (renew_each l (count_renewal outcome s, w1)) as [lost [s2 w2]]. cbn [fst] in *.
  intros [E|Hin]%elem_of_cons Hlost.
  - injection E as -> ->. apply H3. destruct outcome; [|done]. by destruct Hlost; left.
  - apply IH; [done| |done|].
    + intros c. rewrite E1. intros Hs. rewrite H1. by apply Hc.
    + destruct outcome; [|done]. intros Hl. apply Hlost. by right.
Qed.

Lemma foldl_delete_notin {V} (lost : list Z) (m : gmap Z V) p v :
  foldl (fun m p => delete p m) m lost !! p = Some v -> p ∉ lost.
Proof.
  revert m. induction lost as [|q lost IH]; intros m; [by intros _ ?%elem_of_nil|]. simpl. intros E [->|Hin]%elem_of_cons.
  - apply foldl_delete_Some in E. by rewrite lookup_delete_eq in E.
  - by apply (IH _ E).
Qed.


(** A process never touches an entry that is not its own: whatever it does,
    an entry whose value is not that of a lease it tracks for that very key is
    kept, also when the lease has expired and belongs to another process now, and
    whether or not the replies of Redis arrive. *)
Theorem foreign_leases_untouched (db : Z) (a : action) (s : t) (w : W) (key value : string) :
  wf_service db s w -> enabled a s ->
  redis_data db w !! key = Some value ->
  (forall p o, mLeases s !! p = Some o -> key = BuildKey s p -> value <> BuildValue o) ->
  redis_data db (perform a (s, w)).2 !! key = Some value.
Proof.
  intros Hw He Hk Hf. apply (eff_spares _ _ _ _ _ (perform_effect db a s w Hw He)); [done|].
  intros p o Ho%elem_of_entries Hkey Hv. by apply (Hf p o).
Qed.

(** A renewal round keeps exactly confirmed leases: whatever happened to the
    database before, every player still tracked after a round of the thread has an
    entry with this process's value; the round adds no player and leaves the
    database as it is, and the counter shown equals the number of players left. *)
Theorem renewal_round_confirms (db now : Z) (s : t) (w : W) :
  wf_service db s w ->
  let s' := (Loop now (s, w)).2.1 in
  let w' := (Loop now (s, w)).2.2 in
  redis_data db w' = redis_data db w /\
  (forall p o, mLeases s' !! p = Some o ->
     mLeases s !! p = Some o /\ redis_data db w' !! BuildKey s p = Some (BuildValue o)) /\
  tracked_player_count (mSnapshot s') = Z.of_nat (size (mLeases s')).
Proof.
  intros (Ht & _ & _ & Hc & _). unfold Loop. set (s1 := s <| mSnapshot := _ |>).
  pose proof (renew_each_effect db (entries (mLeases s1)) s1 w Ht Hc) as He.
  pose proof (fun p o => renew_each_confirmed db (entries (mLeases s1)) s1 w p o Ht Hc) as Hk.
  destruct (renew_each _ (s1, w)) as [lost [s2 w2]]. destruct He as (E1 & E2 & E3). cbn [fst snd] in *.
  pose proof (drop_lost_leases lost s2) as Ed. unfold core in E1, Ed. injection E1 as F1 F2 F3 F4 F5 F6.
  simpl in Ed. injection Ed as G1 G2 G3 G4 G5 G6.
  split; [done|]. split; [|done]. intros p o Ho. simpl in Ho. rewrite G6, F6 in Ho.
  pose proof (foldl_delete_Some _ _ _ _ Ho) as Ho'. split; [exact Ho'|]. rewrite E3.
  apply (Hk p o); [by apply elem_of_entries|]. by eapply foldl_delete_notin.
Qed.

(** A renewal whose reply is lost locks the process out of its own player: the
    round drops the player although the entry is still this process's own, and
    until the entry expires [Acquire] fails for it with the message that another
    game holds the lease. *)
Theorem lost_renewal_locks_out (db now : Z) (s : t) (w : W) (p : Z) (o : PlayerLeaseOwner) :
  wf_service db s w -> mRedis s <> None ->
  mLeases s !! p = Some o -> redis_data db w !! BuildKey s p = Some (BuildValue o) ->
  let s' := (Loop now (s, w)).2.1 in
  let w' := (Loop now (s, w)).2.2 in
  mLeases s' !! p = None ->
  redis_data db w' !! BuildKey s' p = Some (BuildValue o) /\
  (game_service_type o, game_instance_id o) = identity s' /\
  forall now', ok (Acquire now' p (s', w')).1 = false.
Proof.
  intros Hw Hr Ho Hk s' w' Hlost. pose proof (Loop_effect db now s w Hw) as He. fold s' w' in He.
  pose proof Hw as (Ht & H1 & H2 & Hc & Hl). destruct He as [Edb Esp Es Econn El]. injection Es as E1 E2 E3.
  assert (redis_data db w' = redis_data db w /\ mRedis s' = mRedis s /\ BuildKey s' = BuildKey s) as (Ed & Er & Eb).
  { unfold s', w', Loop. set (s1 := s <| mSnapshot := _ |>).
    pose proof (renew_each_effect db (entries (mLeases s1)) s1 w Ht Hc) as Hx.
    destruct (renew_each _ (s1, w)) as [lost [s2 w2]]. destruct Hx as (F1 & _ & F3). cbn [fst snd].
    pose proof (drop_lost_leases lost s2) as Ed. unfold core in F1, Ed. injection F1 as _ _ _ G4 G5 _.
    simpl in Ed. injection Ed as _ _ _ I4 I5 _. split; [done|]. split; [simpl; congruence|].
    unfold BuildKey. simpl. by rewrite I4, G4. }
  rewrite Eb, Ed. split; [done|]. split.
  - destruct (Hl p o Ho) as (_ & n & _ & ->). unfold identity. simpl. congruence.
  - intros now'. eapply (Acquire_taken db now' w' s' p (BuildValue o)); [|congruence|done|rewrite Eb, Ed; done].
    split; [unfold ttl_ok; rewrite E3; done|]. split; [by rewrite E1|]. split; [by rewrite E2|].
    split; [intros c Ec; rewrite Edb; apply Hc; congruence|].
    intros q oq Hq. destruct (El q oq Hq) as [[Hq' _]|(Hin & _ & (n & Hn & ->) & _)].
    + destruct (Hl q oq Hq') as (Hin & n & Hn & ->). split; [done|]. exists n. unfold self_owner. by rewrite E1, E2.
    + split; [done|]. exists n. unfold self_owner. by rewrite E1, E2.
Qed.
End lease_properties.

(** ** Examples: one server, two games *)

Section lease_examples.
Import PlayerLeaseService LeaseProofs LeaseSystem.
#[local] Existing Instance order_Z.
#[local] Instance example_redis : Redis kv := kv_redis lease_scripts.
#[local] Instance example_redis_law : RedisLaw lease_scripts kv := kv_redis_law lease_scripts.

Definition example_prefix : string := "dev:game:player:lease:".
Definition example_service (instance_id : Z) : t :=
  (create "default" 10 instance_id 5) <| mRedis := Some 1 |> <| mRedisKeyPrefix := example_prefix |>.
Definition example_boot_1 : system := mkSystem (<[1 := example_service 1]> ∅) (∅ : kv).
Definition example_boot_2 : system := mkSystem (<[2 := example_service 2]> (services example_boot_1)) (world example_boot_1).
Definition example_acquired : t * kv := perform (a_acquire 1000 7) (example_service 1, world example_boot_2).
Definition example_system : system := mkSystem (<[1 := example_acquired.1]> (services example_boot_2)) example_acquired.2.

Lemma example_service_wf instance_id w : in_u32 instance_id -> wf_service 0 (example_service instance_id) w.
Proof. intros Hi. split; [by split|]. split; [done|]. split; [done|]. split; [done|]. intros p o. simpl. by rewrite lookup_empty. Qed.

Lemma example_acquired_wf : wf_service 0 example_acquired.1 example_acquired.2.
Proof.
  assert (mLeases example_acquired.1 = {[7 := self_owner (example_service 1) 1000 7]}) as E by by vm_compute.
  split; [by split|]. split; [done|]. split; [done|]. split; [by intros c _|].
  intros p o. rewrite E. intros [<- <-]%lookup_singleton_Some. split; [done|]. by exists 1000.
Qed.

Lemma example_reachable : rtc (step 0 example_prefix) (mkSystem ∅ (∅ : kv)) example_system.
Proof.
  apply (rtc_l _ _ example_boot_1).
  { apply (st_boot 0 example_prefix 1 (example_service 1) 1); try done. }
  apply (rtc_l _ _ example_boot_2).
  { apply (st_boot 0 example_prefix 2 (example_service 2) 1); try done.
    intros j s Hs. change ((<[1 := example_service 1]> (∅ : gmap Z t)) !! j = Some s) in Hs.
    apply lookup_insert_Some in Hs as [[<- <-]|[_ E]]; [done|by rewrite lookup_empty in E]. }
  apply rtc_once. by apply (st_action 0 example_prefix 1 (a_acquire 1000 7) (example_service 1) example_boot_2).
Qed.


Lemma foreign_leases_untouched_witness :
  redis_data 0 (perform a_stop (example_service 2, example_acquired.2)).2 !! (example_prefix +:+ "7")
    = Some (BuildValue (self_owner (example_service 1) 1000 7)).
Proof.
  refine (foreign_leases_untouched 0 a_stop (example_service 2) example_acquired.2 _ _ (example_service_wf 2 _ _) I _ _).
  - done.
  - by vm_compute.
  - intros p o. simpl. by rewrite lookup_empty.
Defined.

Lemma renewal_round_confirms_witness :
  redis_data 0 (Loop 3000 example_acquired).2.2 = redis_data 0 example_acquired.2.
Proof. exact (proj1 (renewal_round_confirms 0 3000 example_acquired.1 example_acquired.2 example_acquired_wf)). Defined.
End lease_examples.

(** A server that loses the reply of every script. *)
Section lossy_example.
Import PlayerLeaseService LeaseProofs LeaseSystem.
#[local] Existing Instance order_Z.

Definition lossy_redis : Redis kv := {|
  redisCommand := fun c cmd d =>
    match cmd with
    | cmd_eval _ _ _ => (None, d)
    | _ => @redisCommand kv (kv_redis lease_scripts) c cmd d
    end;
  redisConnectWithTimeout := fun _ _ => ret (Some 1);
  redisFree := fun _ => ret tt;
  redis_err := fun _ _ => 1;
  redis_errstr := fun _ _ => "Resource temporarily unavailable"
|}.

Definition lossy_redis_law : @RedisLaw lease_scripts kv lossy_redis.
Proof.
  refine (@Build_RedisLaw lease_scripts kv lossy_redis (fun _ _ => 0) (fun db d => if db =? 0 then d else ∅) _ _); [|done].
  intros c cmd w d reply result Hd E.
  pose proof (@redis_law _ _ _ (kv_redis_law lease_scripts) c cmd w d reply result Hd E) as Hl.
  destruct cmd; try exact Hl. simpl in Hd. subst d. split; [done|]. split; [|by left]. intros db Hdb. by destruct (Z.eqb_spec db 0).
Defined.

Lemma lost_renewal_locks_out_witness :
  ok (@Acquire kv lossy_redis 9000 7 (@Loop kv lossy_redis order_Z 3000 example_acquired).2).1 = false.
Proof.
  refine (proj2 (proj2 (@lost_renewal_locks_out kv lossy_redis lossy_redis_law order_Z 0 3000 example_acquired.1
    example_acquired.2 7 (self_owner (example_service 1) 1000 7) _ _ _ _ _)) 9000).
  - assert (mLeases example_acquired.1 = {[7 := self_owner (example_service 1) 1000 7]}) as E by by vm_compute.
    split; [by split|]. split; [done|]. split; [done|]. split; [by intros c _|].
    intros p o. rewrite E. intros [<- <-]%lookup_singleton_Some. split; [done|]. by exists 1000.
  - done.
  - by vm_compute.
  - by vm_compute.
  - by vm_compute.
Defined.
End lossy_example.
