(* ===== verification/Account.v ===== *)
(** * Account: [gate/services/account_directory_service.cpp]

    Which gate session an account is logged in on, shared by all gates through
    Redis.  [RemoveAccountIfMatches] is composed of its read and its deletion, as
    other gates may act between the two. *)

From S2P Require Import Prelude Text Base Redis.
From Stdlib Require Import Ascii.

Record GateAccountOwner : Type := mkGateAccountOwner {
  gate_service_type : Z;
  gate_instance_id : Z;
  gate_session_id : Z
}.
#[export] Instance gate_account_owner_eq_dec : EqDecision GateAccountOwner.
Proof. solve_decision. Defined.

Definition wf_account_owner (o : GateAccountOwner) : Prop :=
  in_u32 (gate_service_type o) /\ in_u32 (gate_instance_id o) /\ in_u64 (gate_session_id o).

Module GateAccountDirectoryService.

Record t : Type := mkGateAccountDirectoryService {
  mRedisName : string;
  mRedisKeyPrefix : string;
  mRedis : option redisContext
}.
#[export] Instance eta_account_directory : Eta t := fun s =>
  mkGateAccountDirectoryService (mRedisName s) (mRedisKeyPrefix s) (mRedis s).

Definition BuildValue (owner : GateAccountOwner) : string :=
  to_string (gate_service_type owner) +:+ ":" +:+ to_string (gate_instance_id owner) +:+ ":" +:+
  to_string (gate_session_id owner).

Definition ParseValue (value : string) : option GateAccountOwner :=
  match getline (Some value) ":" with
  | Some (service_type_text, stream) =>
      match getline stream ":" with
      | Some (instance_id_text, stream) =>
          match getline stream ":" with
          | Some (gate_session_id_text, _) =>
              match stoul service_type_text, stoul instance_id_text, stoull gate_session_id_text with
              | Some st, Some id, Some session => Some (mkGateAccountOwner (u32 st) (u32 id) session)
              | _, _, _ => None
              end
          | None => None
          end
      | None => None
      end
  | None => None
  end.

(** [mRedisKeyPrefix + account_id] *)
Definition account_key (s : t) (account_id : string) : string := mRedisKeyPrefix s +:+ account_id.

Section operations.
Context {W : Type} `{Redis W}.

Definition Load (common_redis : gmap string RedisConfiguration) : St (t * W) unit :=
  fun '(s, w) =>
    match common_redis !! mRedisName s with
    | None => (tt, (s, w))
    | Some configuration =>
        let '(result, w) := ConnectRedis configuration w in
        (tt, (s <| mRedis := rc_context result |> <| mRedisKeyPrefix := key_prefix configuration +:+ "gate:account:" |>, w))
    end.

Definition Unload : St (t * W) unit :=
  fun '(s, w) => (tt, (s <| mRedis := None |> <| mRedisKeyPrefix := "" |>, (CloseRedis (mRedis s) w).2)).

Definition LookupAccount (s : t) (account_id : string) : St W (option GateAccountOwner) :=
  fun w =>
    match mRedis s with
    | None => (None, w)
    | Some redis =>
        let '(reply, w) := redisCommand redis (cmd_get (account_key s account_id)) w in
        match reply with
        | Some (reply_string value) => (ParseValue value, w)
        | _ => (None, w)
        end
    end.

Definition BindAccount (s : t) (account_id : string) (owner : GateAccountOwner) : St W Result :=
  fun w =>
    match mRedis s with
    | None => (Failure "redis account directory is unavailable", w)
    | Some redis =>
        let '(reply, w) := redisCommand redis (cmd_set (account_key s account_id) (BuildValue owner)) w in
        match reply with
        | None => (Failure (redis_error redis "redis SET failed" w), w)
        | Some _ => (Success, w)
        end
    end.

(** The read of [RemoveAccountIfMatches]: an early result, or the decision. *)
Definition remove_check (s : t) (account_id : string) (owner : GateAccountOwner) (redis : redisContext)
    : St W (Result + bool) :=
  fun w =>
    let '(get_reply, w) := redisCommand redis (cmd_get (account_key s account_id)) w in
    match get_reply with
    | None => (inl (Failure (redis_error redis "redis GET failed" w)), w)
    | Some (reply_string value) =>
        (inr (match ParseValue value with
              | Some existing =>
                  (gate_service_type existing =? gate_service_type owner) &&
                  (gate_instance_id existing =? gate_instance_id owner) &&
                  (gate_session_id existing =? gate_session_id owner)
              | None => false
              end), w)
    | Some _ => (inr false, w)
    end.

Definition remove_delete (s : t) (account_id : string) (redis : redisContext) : St W Result :=
  fun w =>
    let '(del_reply, w) := redisCommand redis (cmd_del (account_key s account_id)) w in
    match del_reply with
    | None => (Failure (redis_error redis "redis DEL failed" w), w)
    | Some _ => (Success, w)
    end.

Definition RemoveAccountIfMatches (s : t) (account_id : string) (owner : GateAccountOwner) : St W Result :=
  fun w =>
    match mRedis s with
    | None => (Failure "redis account directory is unavailable", w)
    | Some redis =>
        let '(decision, w) := remove_check s account_id owner redis w in
        match decision with
        | inl failure => (failure, w)
        | inr should_delete => if negb should_delete then (Success, w) else remove_delete s account_id redis w
        end
    end.

End operations.

(** ** Lemmas *)

Lemma account_parse_build owner : wf_account_owner owner -> ParseValue (BuildValue owner) = Some owner.
Proof.
  intros (H1 & H2 & H3). unfold in_u32, in_u64 in *. unfold ParseValue, BuildValue.
  rewrite !colon_cons, !getline_field by (apply to_string_lacks_colon; lia).
  rewrite getline_last by (first [apply to_string_lacks_colon; lia|apply to_string_nonempty]).
  rewrite !stoul_to_string by (unfold in_u64; lia). rewrite !u32_id by done. by destruct owner.
Qed.

Lemma account_build_inj o o' : wf_account_owner o -> wf_account_owner o' -> BuildValue o = BuildValue o' -> o = o'.
Proof. intros H H' E. apply (f_equal ParseValue) in E. rewrite !account_parse_build in E by done. congruence. Qed.

Section laws.
Context {scripts : script_semantics} {W : Type} {r : Redis W} {law : RedisLaw scripts W}.
Implicit Types (s : t) (w : W).

Lemma check_kept s a owner c w : redis_view c (remove_check s a owner c w).2 = redis_view c w.
Proof.
  unfold remove_check. pose proof (redis_get_view c (account_key s a) w) as Hg.
  by destruct (redisCommand c _ w) as [[[]|] w'].
Qed.

(** A decision to delete has read this very owner. *)
Lemma check_true s a owner c w :
  (remove_check s a owner c w).1 = inr true ->
  exists v, redis_view c w !! account_key s a = Some v /\ ParseValue v = Some owner.
Proof.
  unfold remove_check. pose proof (redis_get_string c (account_key s a) w) as Hg.
  destruct (redisCommand c _ w) as [[[v| | | |]|] w']; try done. simpl in Hg. intros Hd.
  exists v. split; [by apply Hg|]. destruct (ParseValue v) as [e|]; [|done]. simpl in Hd. injection Hd as Hd.
  apply andb_true_iff in Hd as [[H1%Z.eqb_eq H2%Z.eqb_eq]%andb_true_iff H3%Z.eqb_eq].
  destruct e, owner; simpl in *. congruence.
Qed.

End laws.
End GateAccountDirectoryService.

(** ** Properties *)

Section account_properties.
Import GateAccountDirectoryService.
Context {scripts : script_semantics} {W : Type} {r : Redis W} {law : RedisLaw scripts W}.

(** Binding and removing an account do what their names say, with or without
    lost replies: a bind changes no other account, and when Redis accepted it an
    answered lookup names the owner just bound; a removal changes no other
    account either, and deletes the entry only if it names exactly the given
    session; an entry that does is gone when Redis answered every command. *)
Theorem account_bind_and_remove (s : t) (c : redisContext) (account other : string) (owner : GateAccountOwner) (w : W) :
  mRedis s = Some c -> wf_account_owner owner -> other <> account_key s account ->
  let w1 := (BindAccount s account owner w).2 in
  let w2 := (RemoveAccountIfMatches s account owner w).2 in
  redis_view c w1 !! other = redis_view c w !! other /\
  (redis_view c w1 !! account_key s account = Some (BuildValue owner) ->
   forall o, (LookupAccount s account w1).1 = Some o -> o = owner) /\
  redis_view c w2 !! other = redis_view c w !! other /\
  (redis_view c w2 !! account_key s account <> redis_view c w !! account_key s account ->
   redis_view c w2 !! account_key s account = None /\
   exists v, redis_view c w !! account_key s account = Some v /\ ParseValue v = Some owner).
Proof.
  intros Hc Hwf Hne w1 w2. split; [|split; [|split]].
  - unfold w1, BindAccount. rewrite Hc. pose proof (redis_set_view c (account_key s account) (BuildValue owner) w) as Hs.
    destruct (redisCommand c _ w) as [[a|] w']; simpl in *; destruct Hs as [-> | ->]; by rewrite ?lookup_insert_ne.
  - intros Hk o. unfold LookupAccount. rewrite Hc. pose proof (redis_get_string c (account_key s account) w1) as Hg.
    destruct (redisCommand c _ w1) as [[[v| | | |]|] w']; try done. simpl in *. specialize (Hg v eq_refl).
    rewrite Hk in Hg. injection Hg as <-. rewrite account_parse_build by done. congruence.
  - unfold w2, RemoveAccountIfMatches. rewrite Hc. pose proof (check_kept s account owner c w) as Hk.
    destruct (remove_check s account owner c w) as [[f|[]] w']; simpl in *; [by rewrite Hk| |by rewrite Hk].
    rewrite <- Hk. unfold remove_delete. pose proof (redis_del_view c (account_key s account) w') as Hd.
    destruct (redisCommand c _ w') as [[a|] w'']; simpl in *; destruct Hd as [-> | ->]; by rewrite ?lookup_delete_ne.
  - unfold w2, RemoveAccountIfMatches. rewrite Hc. pose proof (check_kept s account owner c w) as Hk.
    pose proof (check_true s account owner c w) as Ht.
    destruct (remove_check s account owner c w) as [[f|[]] w']; simpl in *; [by rewrite Hk| |by rewrite Hk].
    intros Hd. split; [|by apply Ht]. revert Hd. rewrite <- Hk. unfold remove_delete.
    pose proof (redis_del_view c (account_key s account) w') as Hv.
    destruct (redisCommand c _ w') as [[a|] w'']; simpl in *; destruct Hv as [-> | ->]; by rewrite ?lookup_delete_eq.
Qed.

(** [BindAccount] reports success whenever a reply arrives, an error reply
    (a read-only replica, memory exhausted) included, though nothing was stored. *)
Theorem account_bind_hides_error (s : t) (c : redisContext) (account error : string) (owner : GateAccountOwner) (w : W) :
  mRedis s = Some c ->
  (redisCommand c (cmd_set (account_key s account) (BuildValue owner)) w).1 = Some (reply_error error) ->
  (BindAccount s account owner w).1 = Success /\ redis_view c (BindAccount s account owner w).2 = redis_view c w.
Proof.
  intros Hc He. unfold BindAccount. rewrite Hc.
  pose proof (redis_view_error c (cmd_set (account_key s account) (BuildValue owner)) w _ _ error eq_refl eq_refl He) as Hv.
  by destruct (redisCommand c _ w) as [[a|] w'].
Qed.

(** [RemoveAccountIfMatches] is not atomic: when the account is bound to a
    session of another gate between its read and its deletion, that binding is
    deleted although it names another session. *)
Theorem account_removal_race (s s' : t) (c c' : redisContext) (account : string) (old new : GateAccountOwner) (w : W) :
  mRedis s' = Some c' -> mRedisKeyPrefix s' = mRedisKeyPrefix s -> redis_db c' w = redis_db c w ->
  wf_account_owner old ->
  redis_view c w !! account_key s account = Some (BuildValue old) ->
  (forall k x, exists v, (redisCommand c (cmd_get k) x).1 = Some v /\ is_error v = false) ->
  (forall k v x, exists a, (redisCommand c' (cmd_set k v) x).1 = Some a /\ is_error a = false) ->
  (forall k x, exists v, (redisCommand c (cmd_del k) x).1 = Some v /\ is_error v = false) ->
  let '(decision, w1) := remove_check s account old c w in
  let w2 := (BindAccount s' account new w1).2 in
  let '(result, w3) := remove_delete s account c w2 in
  decision = inr true /\ redis_view c w2 !! account_key s account = Some (BuildValue new) /\
  result = Success /\ redis_view c w3 !! account_key s account = None.
Proof.
  intros Hc' Hp Hdb Hold Hk Hget Hset Hdel. set (k := account_key s account) in *.
  assert ((remove_check s account old c w).1 = inr true) as Hd.
  { unfold remove_check. destruct (Hget k w) as (v & Hv & He).
    destruct (redis_view_answer c (cmd_get k) w _ _ v eq_refl Hv He) as [-> _]. rewrite Hk in Hv. fold k.
    destruct (redisCommand c _ w) as [a w']. simpl in *. subst a. rewrite account_parse_build by done. by rewrite !Z.eqb_refl. }
  assert (redis_db c' (remove_check s account old c w).2 = redis_db c (remove_check s account old c w).2) as Hdb1.
  { unfold remove_check. fold k. pose proof (proj1 (redis_either c (cmd_get k) w _ _ eq_refl)) as H1.
    destruct (redisCommand c (cmd_get k) w) as [[[]|] x]; simpl in *; congruence. }
  destruct (remove_check s account old c w) as [decision w1]. simpl in Hd, Hdb1. subst decision.
  assert (redis_view c (BindAccount s' account new w1).2 !! k = Some (BuildValue new)) as Hbound.
  { unfold BindAccount. rewrite Hc'. unfold account_key. rewrite Hp. fold (account_key s account). fold k.
    destruct (Hset k (BuildValue new) w1) as (a & Ha & He).
    destruct (redis_answer c' (cmd_set k (BuildValue new)) w1 _ _ a eq_refl Ha He) as [_ Hd].
    pose proof (proj1 (redis_either c' (cmd_set k (BuildValue new)) w1 _ _ eq_refl)) as H1.
    destruct (redisCommand c' _ w1) as [x w2]. simpl in *. subst x. unfold redis_view. simpl. rewrite H1, <- Hdb1, Hd.
    by rewrite lookup_insert_eq. }
  set (w2 := (BindAccount s' account new w1).2) in *. unfold remove_delete. fold k.
  destruct (Hdel k w2) as (v & Hv & He).
  destruct (redis_view_answer c (cmd_del k) w2 _ _ v eq_refl Hv He) as [_ Hd].
  destruct (redisCommand c _ w2) as [a w3]. simpl in *. subst a. split; [done|]. split; [done|]. split; [done|].
  by rewrite Hd, lookup_delete_eq.
Qed.
End account_properties.

Section account_examples.
Import GateAccountDirectoryService.
#[local] Instance account_redis : Redis kv := kv_redis no_scripts.
#[local] Instance account_redis_law : RedisLaw no_scripts kv := kv_redis_law no_scripts.

Definition example_directory : t := mkGateAccountDirectoryService "default" "dev:gate:account:" (Some 1).
Definition example_owner (session : Z) : GateAccountOwner := mkGateAccountOwner 20 1 session.

Lemma account_bind_and_remove_witness :
  redis_view (law := account_redis_law) 1 (BindAccount example_directory "alice" (example_owner 5) ∅).2 !! "dev:gate:account:bob" = None.
Proof.
  exact (proj1 (account_bind_and_remove (law := account_redis_law) example_directory 1 "alice" "dev:gate:account:bob"
    (example_owner 5) ∅ eq_refl ltac:(by vm_compute) ltac:(done))).
Defined.

(** A replica that refuses writes. *)
Definition readonly_redis : Redis kv := {|
  redisCommand := fun c cmd d =>
    match cmd with
    | cmd_set _ _ => (Some (reply_error "READONLY"), d)
    | _ => @redisCommand kv (kv_redis no_scripts) c cmd d
    end;
  redisConnectWithTimeout := fun _ _ => ret (Some 1);
  redisFree := fun _ => ret tt;
  redis_err := fun _ _ => 0;
  redis_errstr := fun _ _ => ""
|}.

Definition readonly_redis_law : @RedisLaw no_scripts kv readonly_redis.
Proof.
  refine (@Build_RedisLaw no_scripts kv readonly_redis (fun _ _ => 0) (fun db d => if db =? 0 then d else ∅) _ _); [|done].
  intros c cmd w d reply result Hd E.
  pose proof (@redis_law _ _ _ (kv_redis_law no_scripts) c cmd w d reply result Hd E) as Hl.
  destruct cmd; try exact Hl. simpl in Hd. subst d. split; [done|]. split; [|by right].
  intros db Hdb. by destruct (Z.eqb_spec db 0).
Defined.

Lemma account_bind_hides_error_witness :
  (@BindAccount kv readonly_redis example_directory "alice" (example_owner 5) ∅).1 = Success.
Proof.
  exact (proj1 (@account_bind_hides_error no_scripts kv readonly_redis readonly_redis_law example_directory 1 "alice" "READONLY"
    (example_owner 5) ∅ eq_refl eq_refl)).
Defined.

Lemma account_removal_race_witness :
  exists w3, (remove_delete example_directory "alice" 1
     (BindAccount example_directory "alice" (example_owner 6)
       (remove_check example_directory "alice" (example_owner 5) 1 {["dev:gate:account:alice" := BuildValue (example_owner 5)]}).2).2)
  = (Success, w3).
Proof.
  pose proof (account_removal_race (law := account_redis_law) example_directory example_directory 1 1 "alice" (example_owner 5)
    (example_owner 6) {["dev:gate:account:alice" := BuildValue (example_owner 5)]} eq_refl eq_refl eq_refl) as Hr.
  destruct (remove_check _ _ _ _ _) as [d w1]. cbv zeta in Hr. cbn [snd]. destruct (remove_delete _ _ _ _) as [result w3].
  destruct Hr as (_ & _ & -> & _).
  - by vm_compute.
  - by vm_compute.
  - intros k x. simpl. destruct (x !! k); by eexists.
  - intros k v x. by eexists.
  - intros k x. by eexists.
  - by exists w3.
Defined.
End account_examples.
