(* ===== verification/Storage.v ===== *)
(** * Storage: [framework/storage]

    [resolved_configuration.cpp] checks the data sets of the configuration;
    [service.cpp] keeps a Redis and a MariaDB connection per profile and reads and
    writes entries, MariaDB first and Redis as a cache.  The MariaDB client is the
    class [Maria]; [StorageLaw] states what the statements of the source do. *)

From S2P Require Import Prelude Text Base Redis.
From Stdlib Require Import Ascii.

(** ** The MariaDB client *)

Abbreviation MYSQL := Z.

(** A stored result: the number of fields, the rows with their null values. *)
Record maria_result : Type := mkMariaResult { num_fields : Z; rows : list (list (option string)) }.

Class Maria (W : Type) : Type := {
  mysql_init : St W (option MYSQL);
  mysql_real_connect : MYSQL -> string -> option string -> option string -> option string -> Z -> St W bool;
  mysql_ping : MYSQL -> St W bool;
  mysql_close : MYSQL -> St W unit;
  mysql_query : MYSQL -> string -> St W bool;
  mysql_store_result : MYSQL -> St W (option maria_result);
  mysql_field_count : MYSQL -> W -> Z;
  mysql_affected_rows : MYSQL -> W -> Z;
  mysql_error : MYSQL -> W -> string;
  mysql_real_escape_string : MYSQL -> string -> string
}.

(** ** Configuration *)

Record MariaConfiguration : Type := mkMariaConfiguration {
  maria_host : string;
  maria_port : Z;
  maria_database : string;
  maria_username : string;
  maria_password : string;
  maria_pool_size : Z
}.

Record CommonConfiguration : Type := mkCommonConfiguration {
  redis : gmap string RedisConfiguration;
  maria : gmap string MariaConfiguration
}.

Record DatasetTimingConfiguration : Type := mkDatasetTimingConfiguration {
  alive_time_seconds : Z;
  landing_time_seconds : Z;
  landing_min_time_seconds : Z
}.

Record DatasetConfiguration : Type := mkDatasetConfiguration {
  ds_redis : string;
  ds_maria : string;
  ds_redis_prefix : string;
  ds_table_prefix : string;
  ds_timing : DatasetTimingConfiguration
}.

(** [datasets] lists the map in its order, by name. *)
Record StorageConfiguration : Type := mkStorageConfiguration {
  defaults : DatasetTimingConfiguration;
  datasets : list (string * DatasetConfiguration)
}.

Record ResolvedDatasetConfiguration : Type := mkResolvedDatasetConfiguration {
  name : string;
  redis_name : string;
  maria_name : string;
  redis_configuration : RedisConfiguration;
  maria_configuration : MariaConfiguration;
  redis_prefix : string;
  table_prefix : string;
  full_redis_prefix : string;
  timing : DatasetTimingConfiguration
}.

Definition is_alnum (c : ascii) : bool :=
  let n := Z.of_N (N_of_ascii c) in
  ((48 <=? n) && (n <=? 57)) || ((65 <=? n) && (n <=? 90)) || ((97 <=? n) && (n <=? 122)).

Definition safe_char (c : ascii) : bool := is_alnum c || Ascii.eqb c "_".

Definition IsSafeTablePrefix (text : string) : bool := str_forall safe_char text && negb (String.eqb text "").
Definition IsSafeSqlIdentifier (text : string) : bool := negb (String.eqb text "") && str_forall safe_char text.

Definition ResolveTimingValue (dataset_value default_value : Z) : Z :=
  if negb (dataset_value =? 0) then dataset_value else default_value.

Definition resolve_timing (timing defaults : DatasetTimingConfiguration) : DatasetTimingConfiguration :=
  mkDatasetTimingConfiguration
    (ResolveTimingValue (alive_time_seconds timing) (alive_time_seconds defaults))
    (ResolveTimingValue (landing_time_seconds timing) (landing_time_seconds defaults))
    (ResolveTimingValue (landing_min_time_seconds timing) (landing_min_time_seconds defaults)).

(** One turn of the loop of [ResolveStorageConfiguration]: the error or the item. *)
Definition resolve_dataset (common : CommonConfiguration) (defaults : DatasetTimingConfiguration)
    (dataset_name : string) (dataset : DatasetConfiguration) : string + ResolvedDatasetConfiguration :=
  let prefix := "storage.datasets." +:+ dataset_name in
  if String.eqb (ds_redis dataset) "" then inl (prefix +:+ ".redis must not be empty")
  else if String.eqb (ds_maria dataset) "" then inl (prefix +:+ ".maria must not be empty")
  else if String.eqb (ds_redis_prefix dataset) "" then inl (prefix +:+ ".redis_prefix must not be empty")
  else if String.eqb (ds_table_prefix dataset) "" then inl (prefix +:+ ".table_prefix must not be empty")
  else if negb (IsSafeTablePrefix (ds_table_prefix dataset)) then
    inl (prefix +:+ ".table_prefix must contain only [A-Za-z0-9_]")
  else
    match redis common !! ds_redis dataset with
    | None => inl (prefix +:+ ".redis references unknown profile '" +:+ ds_redis dataset +:+ "'")
    | Some redis =>
        match maria common !! ds_maria dataset with
        | None => inl (prefix +:+ ".maria references unknown profile '" +:+ ds_maria dataset +:+ "'")
        | Some maria =>
            let timing := resolve_timing (ds_timing dataset) defaults in
            if alive_time_seconds timing =? 0 then
              inl (prefix +:+ " resolved alive_time_seconds must be greater than 0")
            else if landing_time_seconds timing =? 0 then
              inl (prefix +:+ " resolved landing_time_seconds must be greater than 0")
            else if landing_min_time_seconds timing =? 0 then
              inl (prefix +:+ " resolved landing_min_time_seconds must be greater than 0")
            else
              inr (mkResolvedDatasetConfiguration dataset_name (ds_redis dataset) (ds_maria dataset) redis maria
                     (ds_redis_prefix dataset) (ds_table_prefix dataset)
                     (key_prefix redis +:+ ds_redis_prefix dataset) timing)
        end
    end.

Abbreviation ResolvedStorageConfiguration := (gmap string ResolvedDatasetConfiguration).

(** [mDatasets.emplace] keeps an entry that exists. *)
Definition AddDataset (item : ResolvedDatasetConfiguration) (resolved : ResolvedStorageConfiguration)
    : ResolvedStorageConfiguration :=
  match resolved !! name item with
  | Some _ => resolved
  | None => <[name item := item]> resolved
  end.

Fixpoint resolve_datasets (common : CommonConfiguration) (defaults : DatasetTimingConfiguration)
    (datasets : list (string * DatasetConfiguration)) (resolved : ResolvedStorageConfiguration)
    : option string * ResolvedStorageConfiguration :=
  match datasets with
  | [] => (None, resolved)
  | (dataset_name, dataset) :: rest =>
      match resolve_dataset common defaults dataset_name dataset with
      | inl error => (Some error, ∅)
      | inr item => resolve_datasets common defaults rest (AddDataset item resolved)
      end
  end.

(** The error, or none, and the resolved configuration. *)
Definition ResolveStorageConfiguration (common : CommonConfiguration) (storage : StorageConfiguration)
    : option string * ResolvedStorageConfiguration :=
  resolve_datasets common (defaults storage) (datasets storage) ∅.

(** ** Connections to MariaDB ([connectivity_probe.cpp]) *)

Record MariaConnectResult : Type := mkMariaConnectResult { mc_handle : option MYSQL; mc_target : string; mc_error : string }.

Definition non_empty (s : string) : option string := if String.eqb s "" then None else Some s.

Section maria_probe.
Context {W : Type} `{Maria W}.

Definition ConnectMaria (configuration : MariaConfiguration) : St W MariaConnectResult :=
  fun w =>
    let target := maria_host configuration +:+ ":" +:+ to_string (maria_port configuration) in
    if String.eqb (maria_host configuration) "" then (mkMariaConnectResult None target "maria host must not be empty", w)
    else if maria_port configuration =? 0 then (mkMariaConnectResult None target "maria port must be greater than 0", w)
    else
      let '(mysql, w) := mysql_init w in
      match mysql with
      | None => (mkMariaConnectResult None target "mysql_init failed", w)
      | Some mysql =>
          let '(connected, w) :=
            mysql_real_connect mysql (maria_host configuration) (non_empty (maria_username configuration))
              (non_empty (maria_password configuration)) (non_empty (maria_database configuration))
              (maria_port configuration) w in
          if negb connected then (mkMariaConnectResult None target (mysql_error mysql w), (mysql_close mysql w).2)
          else (mkMariaConnectResult (Some mysql) target "", w)
      end.

Definition PingMaria (handle : MYSQL) : St W (option string) :=
  fun w =>
    let '(answered, w) := mysql_ping handle w in
    if negb answered then (Some (mysql_error handle w), w) else (None, w).

Definition CloseMaria (handle : option MYSQL) : St W unit :=
  match handle with
  | Some mysql => mysql_close mysql
  | None => ret tt
  end.

End maria_probe.

(** ** The service *)

Record ConnectionProbeStatus : Type := mkConnectionProbeStatus {
  cs_name : string;
  cs_target : string;
  cs_reachable : bool;
  cs_error : string
}.
#[export] Instance eta_probe_status : Eta ConnectionProbeStatus := fun s =>
  mkConnectionProbeStatus (cs_name s) (cs_target s) (cs_reachable s) (cs_error s).

(** A connection that is made, asked once and closed again. *)
Section probes.
Context {W : Type} `{Redis W} `{Maria W}.

Definition ProbeMariaConnection (name : string) (configuration : MariaConfiguration) : St W ConnectionProbeStatus :=
  fun w =>
    let '(connection, w) := ConnectMaria configuration w in
    let status := mkConnectionProbeStatus name (mc_target connection) false (mc_error connection) in
    match mc_handle connection with
    | None => (status, w)
    | Some handle =>
        let '(ping, w) := PingMaria handle w in
        (match ping with Some error => status <| cs_error := error |> | None => status <| cs_reachable := true |> end,
         (CloseMaria (Some handle) w).2)
    end.

Definition ProbeRedisConnection (name : string) (configuration : RedisConfiguration) : St W ConnectionProbeStatus :=
  fun w =>
    let '(connection, w) := ConnectRedis configuration w in
    let status := mkConnectionProbeStatus name (rc_target connection) false (rc_error connection) in
    match rc_context connection with
    | None => (status, w)
    | Some context =>
        let '(ping, w) := PingRedis context w in
        (match ping with Some error => status <| cs_error := error |> | None => status <| cs_reachable := true |> end,
         (CloseRedis (Some context) w).2)
    end.

(** A target is reported reachable exactly if it accepted the connection and
    answered the ping, and then without an error. *)
Lemma ProbeRedisConnection_reachable name configuration w :
  let connection := (ConnectRedis configuration w).1 in
  let status := (ProbeRedisConnection name configuration w).1 in
  (cs_reachable status = true <->
    exists context, rc_context connection = Some context /\ (PingRedis context (ConnectRedis configuration w).2).1 = None) /\
  cs_target status = rc_target connection /\ (cs_reachable status = true -> cs_error status = rc_error connection).
Proof.
  unfold ProbeRedisConnection. destruct (ConnectRedis configuration w) as [[context target error] w1]. cbn.
  destruct context as [c|]; cbn; [|split; [split; [done|by intros (c & ? & _)]|done]].
  destruct (PingRedis c w1) as [[e|] w2] eqn:E; cbn.
  - split; [|done]. split; [done|]. intros (c' & Hc & Hp). injection Hc as <-. by rewrite E in Hp.
  - split; [|done]. split; [|done]. intros _. exists c. by rewrite E.
Qed.
End probes.

Record StorageCommandResult : Type := mkStorageCommandResult { sc_ok : bool; sc_message : string }.

Module StorageService.

Record RedisConnectionState : Type := mkRedisConnectionState {
  rcs_configuration : option RedisConfiguration;
  rcs_context : option redisContext;
  rcs_status : ConnectionProbeStatus
}.
#[export] Instance eta_redis_connection : Eta RedisConnectionState := fun s =>
  mkRedisConnectionState (rcs_configuration s) (rcs_context s) (rcs_status s).

Record MariaConnectionState : Type := mkMariaConnectionState {
  mcs_configuration : option MariaConfiguration;
  mcs_handle : option MYSQL;
  mcs_status : ConnectionProbeStatus
}.
#[export] Instance eta_maria_connection : Eta MariaConnectionState := fun s =>
  mkMariaConnectionState (mcs_configuration s) (mcs_handle s) (mcs_status s).

Record t : Type := mkStorageService {
  mConfiguration : ResolvedStorageConfiguration;
  mRedisConnections : gmap string RedisConnectionState;
  mMariaConnections : gmap string MariaConnectionState;
  mDisabledMariaTargets : gset string
}.
#[export] Instance eta_storage : Eta t := fun s =>
  mkStorageService (mConfiguration s) (mRedisConnections s) (mMariaConnections s) (mDisabledMariaTargets s).

Definition Failure (message : string) : StorageCommandResult := mkStorageCommandResult false message.

(** The constructor: one connection for each profile that a data set names. *)
Definition add_connections (s : t) (dataset : ResolvedDatasetConfiguration) : t :=
  s <| mRedisConnections := <[redis_name dataset :=
         mkRedisConnectionState (Some (redis_configuration dataset)) None
           (mkConnectionProbeStatus (redis_name dataset) "" false "")]> (mRedisConnections s) |>
    <| mMariaConnections := <[maria_name dataset :=
         mkMariaConnectionState (Some (maria_configuration dataset)) None
           (mkConnectionProbeStatus (maria_name dataset) "" false "")]> (mMariaConnections s) |>.

Definition create {mo : MapOrder string} (configuration : ResolvedStorageConfiguration) : t :=
  foldl add_connections (mkStorageService configuration ∅ ∅ ∅) (entries configuration).*2.

Definition GetRedis (s : t) (name : string) : option redisContext := mRedisConnections s !! name ≫= rcs_context.

Definition GetMaria (s : t) (name : string) : option MYSQL :=
  match mMariaConnections s !! name with
  | None => None
  | Some state => if bool_decide (name ∈ mDisabledMariaTargets s) then None else mcs_handle state
  end.

Definition GetDataset (s : t) (dataset_name : string) : option ResolvedDatasetConfiguration := mConfiguration s !! dataset_name.

Definition GetRedisForDataset (s : t) (dataset_name : string) : option redisContext :=
  match GetDataset s dataset_name with
  | None => None
  | Some dataset => GetRedis s (redis_name dataset)
  end.

Definition GetMariaForDataset (s : t) (dataset_name : string) : option MYSQL :=
  match GetDataset s dataset_name with
  | None => None
  | Some dataset => GetMaria s (maria_name dataset)
  end.

Definition BuildRedisKey (s : t) (dataset_name suffix : string) : string :=
  match GetDataset s dataset_name with
  | None => ""
  | Some dataset => full_redis_prefix dataset +:+ suffix
  end.

Definition BuildMariaEntriesTableName (s : t) (dataset_name : string) : string :=
  match GetDataset s dataset_name with
  | None => ""
  | Some dataset =>
      if negb (IsSafeSqlIdentifier (table_prefix dataset)) then "" else table_prefix dataset +:+ "entries"
  end.

(** *** The statements *)

Definition create_table_sql (table : string) : string :=
  "CREATE TABLE IF NOT EXISTS `" +:+ table +:+
  "` (`entry_key` VARCHAR(255) NOT NULL,`entry_value` LONGBLOB NOT NULL,`updated_at` TIMESTAMP NOT NULL DEFAULT CURRENT_TIMESTAMP ON UPDATE CURRENT_TIMESTAMP,PRIMARY KEY (`entry_key`))".
Definition alter_table_sql (table : string) : string :=
  "ALTER TABLE `" +:+ table +:+ "` MODIFY COLUMN `entry_value` LONGBLOB NOT NULL".
Definition insert_sql (table escaped_key escaped_value : string) : string :=
  "INSERT INTO `" +:+ table +:+ "` (`entry_key`, `entry_value`) VALUES ('" +:+ escaped_key +:+ "', '" +:+ escaped_value +:+
  "') ON DUPLICATE KEY UPDATE `entry_value`=VALUES(`entry_value`)".
Definition select_sql (table escaped_key : string) : string :=
  "SELECT `entry_value` FROM `" +:+ table +:+ "` WHERE `entry_key`='" +:+ escaped_key +:+ "' LIMIT 1".
Definition delete_sql (table escaped_key : string) : string :=
  "DELETE FROM `" +:+ table +:+ "` WHERE `entry_key`='" +:+ escaped_key +:+ "'".

Section operations.
Context {W : Type} `{Redis W} `{Maria W}.

Definition EnsureMariaEntriesTable (s : t) (dataset_name : string) : St W StorageCommandResult :=
  fun w =>
    match GetMariaForDataset s dataset_name with
    | None => (Failure "maria connection is unavailable", w)
    | Some maria =>
        let table := BuildMariaEntriesTableName s dataset_name in
        if String.eqb table "" then (Failure "dataset table_prefix is invalid", w)
        else
          let '(done, w) := mysql_query maria (create_table_sql table) w in
          if negb done then (Failure (mysql_error maria w), w) else (mkStorageCommandResult true "OK", w)
    end.

Definition MigrateMariaEntriesTableToBinary (s : t) (dataset_name : string) : St W StorageCommandResult :=
  fun w =>
    match GetMariaForDataset s dataset_name with
    | None => (Failure "maria connection is unavailable", w)
    | Some maria =>
        let '(ensure, w) := EnsureMariaEntriesTable s dataset_name w in
        if negb (sc_ok ensure) then (ensure, w)
        else
          let table := BuildMariaEntriesTableName s dataset_name in
          if String.eqb table "" then (Failure "dataset table_prefix is invalid", w)
          else
            let '(done, w) := mysql_query maria (alter_table_sql table) w in
            if negb done then (Failure (mysql_error maria w), w) else (mkStorageCommandResult true "OK", w)
    end.

(** The guards that all five operations on Redis start with. *)
Definition with_redis {A : Type} (s : t) (dataset_name suffix : string) (failed : StorageCommandResult -> A)
    (run : redisContext -> string -> St W A) : St W A :=
  fun w =>
    match GetRedisForDataset s dataset_name with
    | None => (failed (Failure "redis connection is unavailable"), w)
    | Some redis =>
        let key := BuildRedisKey s dataset_name suffix in
        if String.eqb key "" then (failed (Failure "dataset is unknown"), w) else run redis key w
    end.

(** [{ok, message}] of a status reply. *)
Definition status_result (reply : redis_reply) (fallback : string) : StorageCommandResult :=
  match reply with
  | reply_status "OK" => mkStorageCommandResult true "OK"
  | _ => mkStorageCommandResult false (default fallback (reply_str reply))
  end.

Definition RedisSet (s : t) (dataset_name suffix value : string) : St W StorageCommandResult :=
  with_redis s dataset_name suffix id (fun redis key w =>
    let '(reply, w) := redisCommand redis (cmd_set key value) w in
    match reply with
    | None => (Failure (redis_error redis "redis SET failed" w), w)
    | Some reply => (status_result reply "redis SET failed", w)
    end).

Definition RedisSetIfAbsent (s : t) (dataset_name suffix value : string) : St W StorageCommandResult :=
  with_redis s dataset_name suffix id (fun redis key w =>
    let '(reply, w) := redisCommand redis (cmd_set_nx key value) w in
    match reply with
    | None => (Failure (redis_error redis "redis SET NX failed" w), w)
    | Some reply_nil => (mkStorageCommandResult false "exists", w)
    | Some reply => (status_result reply "redis SET NX failed", w)
    end).

(** The result with the value read, which stays as it was on a failure. *)
Definition RedisGet (s : t) (dataset_name suffix value : string) : St W (StorageCommandResult * string) :=
  with_redis s dataset_name suffix (fun r => (r, value)) (fun redis key w =>
    let '(reply, w) := redisCommand redis (cmd_get key) w in
    match reply with
    | None => ((Failure (redis_error redis "redis GET failed" w), value), w)
    | Some reply_nil => ((mkStorageCommandResult false "nil", value), w)
    | Some (reply_string read) => ((mkStorageCommandResult true "OK", read), w)
    | Some reply =>
        ((mkStorageCommandResult false (default "redis GET returned unexpected reply" (reply_str reply)), value), w)
    end).

Definition RedisDelete (s : t) (dataset_name suffix : string) : St W StorageCommandResult :=
  with_redis s dataset_name suffix id (fun redis key w =>
    let '(reply, w) := redisCommand redis (cmd_del key) w in
    match reply with
    | None => (Failure (redis_error redis "redis DEL failed" w), w)
    | Some (reply_integer deleted) => (mkStorageCommandResult true ("deleted=" +:+ to_string deleted), w)
    | Some reply => (mkStorageCommandResult false (default "redis DEL returned unexpected reply" (reply_str reply)), w)
    end).

Definition RedisIncrement (s : t) (dataset_name suffix : string) (delta value : Z) : St W (StorageCommandResult * Z) :=
  with_redis s dataset_name suffix (fun r => (r, value)) (fun redis key w =>
    let '(reply, w) := redisCommand redis (cmd_incrby key delta) w in
    match reply with
    | None => ((Failure (redis_error redis "redis INCRBY failed" w), value), w)
    | Some (reply_integer read) => ((mkStorageCommandResult true "OK", read), w)
    | Some reply =>
        ((mkStorageCommandResult false (default "redis INCRBY returned unexpected reply" (reply_str reply)), value), w)
    end).

Definition entry_suffix (entry_key : string) : string := "entries:" +:+ entry_key.

(** The guards and the table of [DatasetPut] and [DatasetDelete], then [run]. *)
Definition with_entries_table (s : t) (dataset_name entry_key : string)
    (run : MYSQL -> string -> St W StorageCommandResult) : St W StorageCommandResult :=
  fun w =>
    match GetMariaForDataset s dataset_name with
    | None => (Failure "maria connection is unavailable", w)
    | Some maria =>
        if String.eqb entry_key "" then (Failure "entry_key must not be empty", w)
        else
          let '(ensure, w) := EnsureMariaEntriesTable s dataset_name w in
          if negb (sc_ok ensure) then (ensure, w) else run maria (BuildMariaEntriesTableName s dataset_name) w
    end.

(** The result once MariaDB has done its part. *)
Definition after_maria (redis : StorageCommandResult) : StorageCommandResult :=
  if negb (sc_ok redis) then mkStorageCommandResult true ("maria=OK redis=" +:+ sc_message redis)
  else mkStorageCommandResult true "OK".

Definition DatasetPut (s : t) (dataset_name entry_key value : string) : St W StorageCommandResult :=
  with_entries_table s dataset_name entry_key (fun maria table w =>
    let sql := insert_sql table (mysql_real_escape_string maria entry_key) (mysql_real_escape_string maria value) in
    let '(done, w) := mysql_query maria sql w in
    if negb done then (Failure (mysql_error maria w), w)
    else
      let '(redis, w) := RedisSet s dataset_name (entry_suffix entry_key) value w in
      (after_maria redis, w)).

Definition DatasetDelete (s : t) (dataset_name entry_key : string) : St W StorageCommandResult :=
  with_entries_table s dataset_name entry_key (fun maria table w =>
    let '(done, w) := mysql_query maria (delete_sql table (mysql_real_escape_string maria entry_key)) w in
    if negb done then (Failure (mysql_error maria w), w)
    else
      let '(redis, w) := RedisDelete s dataset_name (entry_suffix entry_key) w in
      (after_maria redis, w)).

(** The part of [DatasetGet] behind a cache miss. *)
Definition get_from_maria (s : t) (dataset_name entry_key value : string) : St W (StorageCommandResult * string) :=
  fun w =>
    match GetMariaForDataset s dataset_name with
    | None => ((Failure "maria connection is unavailable", value), w)
    | Some maria =>
        let '(ensure, w) := EnsureMariaEntriesTable s dataset_name w in
        if negb (sc_ok ensure) then ((ensure, value), w)
        else
          let table := BuildMariaEntriesTableName s dataset_name in
          let '(done, w) := mysql_query maria (select_sql table (mysql_real_escape_string maria entry_key)) w in
          if negb done then ((Failure (mysql_error maria w), value), w)
          else
            let '(result, w) := mysql_store_result maria w in
            match result with
            | None => ((Failure (mysql_error maria w), value), w)
            | Some result =>
                match rows result with
                | (Some read :: _) :: _ =>
                    let '(_, w) := RedisSet s dataset_name (entry_suffix entry_key) read w in
                    ((mkStorageCommandResult true "maria", read), w)
                | _ => ((Failure "not found", value), w)
                end
            end
    end.

Definition DatasetGet (s : t) (dataset_name entry_key value : string) : St W (StorageCommandResult * string) :=
  fun w =>
    if String.eqb entry_key "" then ((Failure "entry_key must not be empty", value), w)
    else
      let '((redis_result, value), w) := RedisGet s dataset_name (entry_suffix entry_key) value w in
      if sc_ok redis_result then ((mkStorageCommandResult true "redis", value), w)
      else if negb (String.eqb (sc_message redis_result) "nil") then ((redis_result, value), w)
      else get_from_maria s dataset_name entry_key value w.

(** *** Connections *)

Definition DisableMariaTarget (name : string) : St (t * W) bool :=
  fun '(s, w) =>
    match mMariaConnections s !! name with
    | None => (false, (s, w))
    | Some state =>
        let state' := state <| mcs_handle := None |>
          <| mcs_status := (mcs_status state) <| cs_reachable := false |> <| cs_error := "disabled by runtime command" |> |> in
        (true, (s <| mDisabledMariaTargets := {[name]} ∪ mDisabledMariaTargets s |>
                  <| mMariaConnections := <[name := state']> (mMariaConnections s) |>,
                (CloseMaria (mcs_handle state) w).2))
    end.

Definition EnableMariaTarget (name : string) : St t bool :=
  fun s =>
    match mMariaConnections s !! name with
    | None => (false, s)
    | Some _ => (bool_decide (name ∈ mDisabledMariaTargets s),
                 s <| mDisabledMariaTargets := mDisabledMariaTargets s ∖ {[name]} |>)
    end.

Definition IsMariaTargetDisabled (s : t) (name : string) : bool := bool_decide (name ∈ mDisabledMariaTargets s).

Definition set_status (reachable : bool) (error : string) (s : ConnectionProbeStatus) : ConnectionProbeStatus :=
  s <| cs_reachable := reachable |> <| cs_error := error |>.

(** Connecting anew, the second half of [RefreshRedisConnection]. *)
Definition reconnect_redis (configuration : RedisConfiguration) (state : RedisConnectionState) : St W RedisConnectionState :=
  fun w =>
    let '(result, w) := ConnectRedis configuration w in
    let status := (rcs_status state) <| cs_target := rc_target result |> <| cs_error := rc_error result |> in
    match rc_context result with
    | None => (state <| rcs_context := None |> <| rcs_status := status <| cs_reachable := false |> |>, w)
    | Some context =>
        let '(ping, w) := PingRedis context w in
        match ping with
        | Some error => (state <| rcs_context := None |> <| rcs_status := set_status false error status |>,
                         (CloseRedis (Some context) w).2)
        | None => (state <| rcs_context := Some context |> <| rcs_status := set_status true "" status |>, w)
        end
    end.

Definition RefreshRedisConnection (name : string) (state : RedisConnectionState) : St W RedisConnectionState :=
  fun w =>
    let state := state <| rcs_status := (rcs_status state) <| cs_name := name |> |> in
    match rcs_configuration state with
    | None => (state <| rcs_status := set_status false "redis configuration is missing" (rcs_status state) |>, w)
    | Some configuration =>
        match rcs_context state with
        | Some context =>
            let '(ping, w) := PingRedis context w in
            match ping with
            | None => (state <| rcs_status := set_status true "" (rcs_status state) |>, w)
            | Some error =>
                reconnect_redis configuration
                  (state <| rcs_status := (rcs_status state) <| cs_error := error |> |> <| rcs_context := None |>)
                  (CloseRedis (Some context) w).2
            end
        | None => reconnect_redis configuration state w
        end
    end.

Definition reconnect_maria (configuration : MariaConfiguration) (state : MariaConnectionState) : St W MariaConnectionState :=
  fun w =>
    let '(result, w) := ConnectMaria configuration w in
    let status := (mcs_status state) <| cs_target := mc_target result |> <| cs_error := mc_error result |> in
    match mc_handle result with
    | None => (state <| mcs_handle := None |> <| mcs_status := status <| cs_reachable := false |> |>, w)
    | Some handle =>
        let '(ping, w) := PingMaria handle w in
        match ping with
        | Some error => (state <| mcs_handle := None |> <| mcs_status := set_status false error status |>,
                         (CloseMaria (Some handle) w).2)
        | None => (state <| mcs_handle := Some handle |> <| mcs_status := set_status true "" status |>, w)
        end
    end.

Definition RefreshMariaConnection (disabled : gset string) (name : string) (state : MariaConnectionState)
    : St W MariaConnectionState :=
  fun w =>
    let state := state <| mcs_status := (mcs_status state) <| cs_name := name |> |> in
    if bool_decide (name ∈ disabled) then
      (state <| mcs_handle := None |> <| mcs_status := set_status false "disabled by runtime command" (mcs_status state) |>,
       (CloseMaria (mcs_handle state) w).2)
    else
      match mcs_configuration state with
      | None => (state <| mcs_status := set_status false "maria configuration is missing" (mcs_status state) |>, w)
      | Some configuration =>
          match mcs_handle state with
          | Some handle =>
              let '(ping, w) := PingMaria handle w in
              match ping with
              | None => (state <| mcs_status := set_status true "" (mcs_status state) |>, w)
              | Some error =>
                  reconnect_maria configuration
                    (state <| mcs_status := (mcs_status state) <| cs_error := error |> |> <| mcs_handle := None |>)
                    (CloseMaria (Some handle) w).2
              end
          | None => reconnect_maria configuration state w
          end
      end.

(** The loops over the connections. *)
Fixpoint for_each {V : Type} (f : string -> V -> St W V) (l : list (string * V)) : St (gmap string V * W) unit :=
  fun '(m, w) =>
    match l with
    | [] => (tt, (m, w))
    | (name, state) :: rest => let '(state, w) := f name state w in for_each f rest (<[name := state]> m, w)
    end.

Definition RefreshConnections {mo : MapOrder string} : St (t * W) unit :=
  fun '(s, w) =>
    let '(_, (redis, w)) := for_each RefreshRedisConnection (entries (mRedisConnections s)) (mRedisConnections s, w) in
    let '(_, (maria, w)) :=
      for_each (RefreshMariaConnection (mDisabledMariaTargets s)) (entries (mMariaConnections s)) (mMariaConnections s, w) in
    (tt, (s <| mRedisConnections := redis |> <| mMariaConnections := maria |>, w)).

Definition close_redis_connection (_ : string) (state : RedisConnectionState) : St W RedisConnectionState :=
  fun w => (state <| rcs_context := None |> <| rcs_status := (rcs_status state) <| cs_reachable := false |> |>,
            (CloseRedis (rcs_context state) w).2).

Definition close_maria_connection (_ : string) (state : MariaConnectionState) : St W MariaConnectionState :=
  fun w => (state <| mcs_handle := None |> <| mcs_status := (mcs_status state) <| cs_reachable := false |> |>,
            (CloseMaria (mcs_handle state) w).2).

Definition CloseConnections {mo : MapOrder string} : St (t * W) unit :=
  fun '(s, w) =>
    let '(_, (redis, w)) := for_each close_redis_connection (entries (mRedisConnections s)) (mRedisConnections s, w) in
    let '(_, (maria, w)) := for_each close_maria_connection (entries (mMariaConnections s)) (mMariaConnections s, w) in
    (tt, (s <| mRedisConnections := redis |> <| mMariaConnections := maria |>, w)).

Definition Load {mo : MapOrder string} : St (t * W) unit := RefreshConnections.
Definition Unload {mo : MapOrder string} : St (t * W) unit := CloseConnections.

(** The text of a row: its values, separated by commas. *)
Fixpoint row_text (row : list (option string)) : string :=
  match row with
  | [] => ""
  | [v] => default "NULL" v
  | v :: rest => default "NULL" v +:+ "," +:+ row_text rest
  end.

(** The rows from number [index] on. *)
Fixpoint rows_text (index : Z) (rows : list (list (option string))) : string :=
  match rows with
  | [] => ""
  | row :: rest =>
      (if negb (index =? 0) then " | " else "") +:+ "row" +:+ to_string index +:+ "=" +:+ row_text row +:+
      rows_text (index + 1) rest
  end.

(** The result and the summary, of which at most ten rows are part. *)
Definition MariaExecute (s : t) (dataset_name sql summary : string) : St W (StorageCommandResult * string) :=
  fun w =>
    match GetMariaForDataset s dataset_name with
    | None => ((Failure "maria connection is unavailable", summary), w)
    | Some maria =>
        if String.eqb sql "" then ((Failure "sql must not be empty", summary), w)
        else
          let '(done, w) := mysql_query maria sql w in
          if negb done then ((Failure (mysql_error maria w), summary), w)
          else
            let '(result, w) := mysql_store_result maria w in
            match result with
            | None =>
                if mysql_field_count maria w =? 0 then
                  ((mkStorageCommandResult true "OK", "affected_rows=" +:+ to_string (mysql_affected_rows maria w)), w)
                else ((Failure (mysql_error maria w), summary), w)
            | Some result =>
                let shown := take 10 (rows result) in
                let text := rows_text 0 shown in
                ((mkStorageCommandResult true "OK",
                  "rows=" +:+ to_string (Z.of_nat (length shown)) +:+ (if String.eqb text "" then "" else " " +:+ text)), w)
            end
    end.

End operations.

Record StorageSnapshot : Type := mkStorageSnapshot {
  dataset_count : Z;
  snapshot_redis : gmap string ConnectionProbeStatus;
  snapshot_maria : gmap string ConnectionProbeStatus
}.

Definition ProbeAll (s : t) : StorageSnapshot :=
  mkStorageSnapshot (Z.of_nat (size (mConfiguration s))) (rcs_status <$> mRedisConnections s) (mcs_status <$> mMariaConnections s).

End StorageService.

(** ** Documented behaviour of the statements

    For keys of decimal digits, as the services use them: other keys may be equal
    under the collation of the table.  A statement that reports an error may have
    been executed or not (a lost connection). *)

Definition plain_key (k : string) : Prop := str_forall is_digit k = true /\ k <> "" /\ (String.length k <= 255)%nat.
Definition safe_table (table : string) : Prop := str_forall safe_char table = true.

Abbreviation tables := (gmap string kv).

Definition with_table (table : string) (m : tables) : tables :=
  match m !! table with Some _ => m | None => <[table := ∅]> m end.

Class MariaLaw (W : Type) `{Maria W} : Type := {
  maria_tables : MYSQL -> W -> tables;
  maria_create_law : forall m table w, safe_table table ->
    let '(done, w') := mysql_query m (StorageService.create_table_sql table) w in
    maria_tables m w' = with_table table (maria_tables m w) \/ (done = false /\ maria_tables m w' = maria_tables m w);
  maria_insert_law : forall m table e k v w, safe_table table -> plain_key k -> maria_tables m w !! table = Some e ->
    let '(done, w') :=
      mysql_query m (StorageService.insert_sql table (mysql_real_escape_string m k) (mysql_real_escape_string m v)) w in
    maria_tables m w' = <[table := <[k := v]> e]> (maria_tables m w) \/
    (done = false /\ maria_tables m w' = maria_tables m w);
  maria_delete_law : forall m table e k w, safe_table table -> plain_key k -> maria_tables m w !! table = Some e ->
    let '(done, w') := mysql_query m (StorageService.delete_sql table (mysql_real_escape_string m k)) w in
    maria_tables m w' = <[table := delete k e]> (maria_tables m w) \/ (done = false /\ maria_tables m w' = maria_tables m w);
  maria_select_law : forall m table e k w, safe_table table -> plain_key k -> maria_tables m w !! table = Some e ->
    let '(done, w') := mysql_query m (StorageService.select_sql table (mysql_real_escape_string m k)) w in
    let '(result, w'') := mysql_store_result m w' in
    maria_tables m w' = maria_tables m w /\ maria_tables m w'' = maria_tables m w /\
    (done = true -> forall r, result = Some r -> rows r = match e !! k with Some v => [[Some v]] | None => [] end)
}.

(** The two servers are independent of each other. *)
Class StorageLaw (scripts : script_semantics) (W : Type) `{Redis W} `{Maria W} : Type := {
  storage_redis_law :: RedisLaw scripts W;
  storage_maria_law :: MariaLaw W;
  redis_keeps_maria : forall c cmd m w, maria_tables m (redisCommand c cmd w).2 = maria_tables m w;
  query_keeps_redis : forall m sql c db w,
    redis_db c (mysql_query m sql w).2 = redis_db c w /\ redis_data db (mysql_query m sql w).2 = redis_data db w;
  result_keeps_redis : forall m c db w,
    redis_db c (mysql_store_result m w).2 = redis_db c w /\ redis_data db (mysql_store_result m w).2 = redis_data db w
}.

(** ** Entries of a data set *)

Module StorageProofs.
Import StorageService.

(** *** Resolving the configuration *)

(** What a resolved data set promises to the service. *)
Definition resolved_ok (common : CommonConfiguration) (storage : StorageConfiguration) (item : ResolvedDatasetConfiguration) : Prop :=
  exists dataset, (name item, dataset) ∈ datasets storage /\
    redis_name item = ds_redis dataset /\ maria_name item = ds_maria dataset /\
    redis common !! redis_name item = Some (redis_configuration item) /\
    maria common !! maria_name item = Some (maria_configuration item) /\
    safe_table (table_prefix item) /\ table_prefix item <> "" /\
    full_redis_prefix item = key_prefix (redis_configuration item) +:+ ds_redis_prefix dataset /\ ds_redis_prefix dataset <> "" /\
    timing item = resolve_timing (ds_timing dataset) (defaults storage) /\
    alive_time_seconds (timing item) <> 0 /\ landing_time_seconds (timing item) <> 0 /\ landing_min_time_seconds (timing item) <> 0.

Lemma resolve_dataset_ok common storage dataset_name dataset item :
  (dataset_name, dataset) ∈ datasets storage ->
  resolve_dataset common (defaults storage) dataset_name dataset = inr item ->
  name item = dataset_name /\ resolved_ok common storage item.
Proof.
  intros Hin. unfold resolve_dataset.
  destruct (String.eqb_spec (ds_redis dataset) ""), (String.eqb_spec (ds_maria dataset) ""),
    (String.eqb_spec (ds_redis_prefix dataset) ""), (String.eqb_spec (ds_table_prefix dataset) ""); try done.
  destruct (IsSafeTablePrefix (ds_table_prefix dataset)) eqn:Hs; [|done]. cbn [negb].
  destruct (redis common !! ds_redis dataset) as [r|] eqn:Er; [|done].
  destruct (maria common !! ds_maria dataset) as [m|] eqn:Em; [|done].
  set (timing := resolve_timing _ _).
  destruct (Z.eqb_spec (alive_time_seconds timing) 0), (Z.eqb_spec (landing_time_seconds timing) 0),
    (Z.eqb_spec (landing_min_time_seconds timing) 0); try done.
  intros E. injection E as <-. split; [done|]. apply andb_true_iff in Hs as [Hs _].
  exists dataset. simpl. by repeat split.
Qed.

Lemma resolve_datasets_ok common storage l resolved :
  (forall d, d ∈ l -> d ∈ datasets storage) ->
  (forall n item, resolved !! n = Some item -> name item = n /\ resolved_ok common storage item) ->
  let '(error, result) := resolve_datasets common (defaults storage) l resolved in
  (forall n item, result !! n = Some item -> name item = n /\ resolved_ok common storage item) /\
  match error with
  | Some _ => result = ∅
  | None => (forall n, is_Some (resolved !! n) -> is_Some (result !! n)) /\
            forall d, d ∈ l -> is_Some (result !! d.1)
  end.
Proof.
  revert resolved. induction l as [|[n d] l IH]; intros resolved Hl Hr; simpl.
  - split; [done|]. split; [done|]. by intros d ?%elem_of_nil.
  - destruct (resolve_dataset common (defaults storage) n d) as [error|item] eqn:Ei.
    + split; [|done]. intros n' item'. by rewrite lookup_empty.
    + destruct (resolve_dataset_ok common storage n d item) as [En Hi]; [apply Hl; by left|done|].
      assert (forall n', is_Some (resolved !! n') \/ n' = n -> is_Some (AddDataset item resolved !! n')) as Hadd.
      { intros n' Hn'. unfold AddDataset. destruct (resolved !! name item) eqn:Ex.
        - destruct Hn' as [?| ->]; [done|]. rewrite <- En. by eexists.
        - destruct (decide (n' = name item)) as [->|Hne]; [rewrite lookup_insert_eq; by eexists|].
          rewrite lookup_insert_ne by done. destruct Hn' as [?| ->]; [done|]. by rewrite En in Hne. }
      specialize (IH (AddDataset item resolved)). destruct (resolve_datasets _ _ l _) as [error result].
      destruct IH as [H1 H2].
      * intros x Hx. apply Hl. by right.
      * intros n' item'. unfold AddDataset. destruct (resolved !! name item); [apply Hr|].
        intros [[<- <-]|[_ E]]%lookup_insert_Some; [done|by apply Hr].
      * split; [done|]. destruct error as [error|]; [done|]. destruct H2 as [H2 H3]. split.
        -- intros n' Hn'. apply H2, Hadd. by left.
        -- intros x [->|Hx]%elem_of_cons; [apply H2, Hadd; by right|by apply H3].
Qed.

(** *** Reading and writing entries *)

Section entries.
Context {scripts : script_semantics} {W : Type} {r : Redis W} {mr : Maria W} {law : StorageLaw scripts W}.
(** A service whose data set is known and has both connections. *)
Context (s : t) (dataset_name : string) (dataset : ResolvedDatasetConfiguration) (c : redisContext) (m : MYSQL).
Context (Hdataset : GetDataset s dataset_name = Some dataset).
Context (Hredis : GetRedisForDataset s dataset_name = Some c) (Hmaria : GetMariaForDataset s dataset_name = Some m).
Context (Hprefix : safe_table (table_prefix dataset)) (Hne : table_prefix dataset <> "").
Context (Hkey : full_redis_prefix dataset <> "").
Implicit Types (w : W) (k v : string).

Definition table : string := table_prefix dataset +:+ "entries".

(** The entry in MariaDB and the one in the cache. *)
Definition stored w k : option string := maria_tables m w !! table ≫= (.!! k).
Definition cached w k : option string := redis_view c w !! (full_redis_prefix dataset +:+ entry_suffix k).

(** The cache holds no value that MariaDB does not. *)
Definition coherent w : Prop := forall k v, plain_key k -> cached w k = Some v -> stored w k = Some v.

Lemma str_forall_app P (a b : string) : str_forall P (a +:+ b) = str_forall P a && str_forall P b.
Proof. induction a as [|x a IH]; [done|]. simpl. by rewrite IH, andb_assoc. Qed.

Lemma table_safe : safe_table table.
Proof. unfold safe_table, table. rewrite str_forall_app. unfold safe_table in Hprefix. by rewrite Hprefix. Qed.

Lemma table_name : BuildMariaEntriesTableName s dataset_name = table.
Proof.
  unfold BuildMariaEntriesTableName, IsSafeSqlIdentifier. rewrite Hdataset. unfold safe_table in Hprefix. rewrite Hprefix.
  destruct (String.eqb_spec (table_prefix dataset) ""); done.
Qed.

Lemma table_nonempty : String.eqb table "" = false.
Proof. unfold table. by destruct (table_prefix dataset). Qed.

Lemma key_of suffix : BuildRedisKey s dataset_name suffix = full_redis_prefix dataset +:+ suffix.
Proof. unfold BuildRedisKey. by rewrite Hdataset. Qed.

Lemma key_nonempty suffix : String.eqb (full_redis_prefix dataset +:+ suffix) "" = false.
Proof. by destruct (full_redis_prefix dataset). Qed.

Lemma with_redis_run {A} suffix (failed : StorageCommandResult -> A) run w :
  with_redis s dataset_name suffix failed run w = run c (full_redis_prefix dataset +:+ suffix) w.
Proof. unfold with_redis. by rewrite Hredis, key_of, key_nonempty. Qed.

Lemma app_inj_head (a b x : string) : x +:+ a = x +:+ b -> a = b.
Proof. induction x as [|y x IH]; [done|]. simpl. intros E. apply IH. by injection E. Qed.

Lemma entry_key_ne k k' : k <> k' -> full_redis_prefix dataset +:+ entry_suffix k <> full_redis_prefix dataset +:+ entry_suffix k'.
Proof. intros Hk E%app_inj_head%app_inj_head. done. Qed.

Lemma status_result_ok a fallback : sc_ok (status_result a fallback) = true -> a = reply_status "OK" /\ sc_message (status_result a fallback) = "OK".
Proof.
  unfold status_result. destruct a as [|x| | |]; try done.
  destruct (match_OK x) as [->|E]; [done|]. by rewrite E.
Qed.

Lemma RedisSet_spec k v w :
  let '(result, w') := RedisSet s dataset_name (entry_suffix k) v w in
  maria_tables m w' = maria_tables m w /\
  (redis_view c w' = redis_view c w \/
   redis_view c w' = <[full_redis_prefix dataset +:+ entry_suffix k := v]> (redis_view c w)) /\
  (sc_ok result = true -> redis_view c w' = <[full_redis_prefix dataset +:+ entry_suffix k := v]> (redis_view c w)).
Proof.
  unfold RedisSet. rewrite with_redis_run. set (key := full_redis_prefix dataset +:+ entry_suffix k).
  pose proof (redis_set_view c key v w) as H1. pose proof (redis_set_status c key v w "OK") as H2.
  pose proof (redis_keeps_maria c (cmd_set key v) m w) as H3.
  destruct (redisCommand c (cmd_set key v) w) as [[a|] w']; simpl in *; (split; [done|]; split; [done|]); [|done].
  intros [-> _]%status_result_ok. by apply H2.
Qed.

Lemma RedisDelete_spec k w :
  let '(result, w') := RedisDelete s dataset_name (entry_suffix k) w in
  maria_tables m w' = maria_tables m w /\
  (redis_view c w' = redis_view c w \/ redis_view c w' = delete (full_redis_prefix dataset +:+ entry_suffix k) (redis_view c w)) /\
  (sc_ok result = true -> redis_view c w' = delete (full_redis_prefix dataset +:+ entry_suffix k) (redis_view c w)).
Proof.
  unfold RedisDelete. rewrite with_redis_run. set (key := full_redis_prefix dataset +:+ entry_suffix k).
  pose proof (redis_del_view c key w) as H1. pose proof (redis_del_integer c key w) as H2.
  pose proof (redis_keeps_maria c (cmd_del key) m w) as H3.
  destruct (redisCommand c (cmd_del key) w) as [[[| | |z|]|] w']; simpl in *; (split; [done|]; split; [done|]); try done.
  intros _. by apply (H2 z).
Qed.

Lemma RedisGet_spec k v w :
  let '((result, v'), w') := RedisGet s dataset_name (entry_suffix k) v w in
  maria_tables m w' = maria_tables m w /\ redis_view c w' = redis_view c w /\
  (sc_ok result = true -> cached w k = Some v').
Proof.
  unfold RedisGet, cached. rewrite with_redis_run. set (key := full_redis_prefix dataset +:+ entry_suffix k).
  pose proof (redis_get_view c key w) as H1. pose proof (redis_get_string c key w) as H2.
  pose proof (redis_keeps_maria c (cmd_get key) m w) as H3.
  destruct (redisCommand c (cmd_get key) w) as [[[x| | | |]|] w']; simpl in *; (split; [done|]; split; [done|]); try done.
  intros _. by apply H2.
Qed.

Lemma query_view sql w : redis_view c (mysql_query m sql w).2 = redis_view c w.
Proof. unfold redis_view. destruct (query_keeps_redis m sql c (redis_db c w) w) as [-> ->]. done. Qed.

Lemma result_view w : redis_view c (mysql_store_result m w).2 = redis_view c w.
Proof. unfold redis_view. destruct (result_keeps_redis m c (redis_db c w) w) as [-> ->]. done. Qed.

(** [CREATE TABLE IF NOT EXISTS] changes no entry. *)
Lemma with_table_stored w w' :
  maria_tables m w' = with_table table (maria_tables m w) \/ maria_tables m w' = maria_tables m w ->
  forall k, stored w' k = stored w k.
Proof.
  unfold stored, with_table. intros [-> | ->] k; [|done]. destruct (maria_tables m w !! table) as [e|] eqn:Ee; [by rewrite Ee|].
  rewrite lookup_insert_eq. simpl. by rewrite lookup_empty.
Qed.

Lemma Ensure_spec w :
  let '(result, w') := EnsureMariaEntriesTable s dataset_name w in
  redis_view c w' = redis_view c w /\ (forall k, stored w' k = stored w k) /\
  (sc_ok result = true -> is_Some (maria_tables m w' !! table)).
Proof.
  unfold EnsureMariaEntriesTable. rewrite Hmaria, table_name, table_nonempty.
  pose proof (maria_create_law m table w table_safe) as H1. pose proof (query_view (create_table_sql table) w) as H2.
  destruct (mysql_query m (create_table_sql table) w) as [done w']. simpl in H2.
  assert (forall k, stored w' k = stored w k) as Hst by (apply with_table_stored; destruct H1 as [?|[_ ?]]; auto).
  destruct done; cbn [negb]; (split; [trivial|]; split; [trivial|]).
  - intros _. destruct H1 as [-> | [? _]]; [|discriminate]. unfold with_table.
    destruct (maria_tables m w !! table) as [e|] eqn:Ee; [rewrite Ee; by eexists|]. rewrite lookup_insert_eq. by eexists.
  - intros E. discriminate E.
Qed.

(** An operation with the entry [k] that leaves the other entries alone. *)
Definition others_kept k w w' : Prop :=
  forall k', k' <> k -> stored w' k' = stored w k' /\ cached w' k' = cached w k'.

Lemma others_refl k w w' : redis_view c w' = redis_view c w -> (forall k', stored w' k' = stored w k') -> others_kept k w w'.
Proof. intros Hv Hs k' _. unfold cached. by rewrite Hv. Qed.

Lemma others_trans k w w1 w2 : others_kept k w w1 -> others_kept k w1 w2 -> others_kept k w w2.
Proof. intros H1 H2 k' Hk'. destruct (H1 k' Hk'), (H2 k' Hk'). split; congruence. Qed.

(** What a change of the cache entry of [k] alone does. *)
Lemma cache_write_others k w w' (f : option string) :
  maria_tables m w' = maria_tables m w ->
  redis_view c w' = redis_view c w \/
  redis_view c w' = partial_alter (fun _ => f) (full_redis_prefix dataset +:+ entry_suffix k) (redis_view c w) ->
  others_kept k w w'.
Proof.
  intros Ht Hv k' Hk'. unfold stored, cached. rewrite Ht. split; [done|]. destruct Hv as [-> | ->]; [done|].
  rewrite lookup_partial_alter_ne; [done|]. by apply entry_key_ne.
Qed.

(** What a statement on the row of [k] does. *)
Lemma table_write_others k w w' e (f : option string) :
  maria_tables m w !! table = Some e -> redis_view c w' = redis_view c w ->
  maria_tables m w' = <[table := partial_alter (fun _ => f) k e]> (maria_tables m w) \/ maria_tables m w' = maria_tables m w ->
  others_kept k w w'.
Proof.
  intros He Hv Ht k' Hk'. unfold stored, cached. rewrite Hv. split; [|done]. destruct Ht as [-> | ->]; [|done].
  rewrite lookup_insert_eq, He. simpl. by rewrite lookup_partial_alter_ne.
Qed.

Lemma DatasetPut_spec k v w :
  plain_key k ->
  let '(result, w') := DatasetPut s dataset_name k v w in
  others_kept k w w' /\
  (sc_ok result = true -> stored w' k = Some v) /\
  (result = mkStorageCommandResult true "OK" -> cached w' k = Some v) /\
  (stored w' k = stored w k \/ stored w' k = Some v).
Proof.
  intros Hk. unfold DatasetPut, with_entries_table. rewrite Hmaria.
  destruct Hk as (Hd & Hkne & Hlen). destruct (String.eqb_spec k ""); [done|].
  pose proof (Ensure_spec w) as He. destruct (EnsureMariaEntriesTable s dataset_name w) as [ensure w1].
  destruct He as (V1 & S1 & T1). assert (others_kept k w w1) as O1 by by apply others_refl.
  destruct (sc_ok ensure) eqn:Eok; cbn [negb]; [|split; [done|split; [congruence|split; [by intros ->|by left]]]].
  destruct (T1 eq_refl) as [e Ee]. rewrite table_name. set (sql := insert_sql _ _ _).
  pose proof (maria_insert_law m table e k v w1 table_safe ltac:(done) Ee) as Hi. fold sql in Hi.
  pose proof (query_view sql w1) as V2. destruct (mysql_query m sql w1) as [done w2]. simpl in V2.
  assert (others_kept k w1 w2) as O2.
  { apply (table_write_others k w1 w2 e (Some v) Ee V2). destruct Hi as [?|[_ ?]]; auto. }
  assert (forall x, maria_tables m x = maria_tables m w2 -> stored x k = stored w k \/ stored x k = Some v) as Hout.
  { intros x Hx. unfold stored at 1 3. rewrite Hx. destruct Hi as [-> | [_ ->]]; [right|left; by apply S1].
    rewrite lookup_insert_eq. simpl. by rewrite lookup_insert_eq. }
  destruct done; cbn [negb]; [|split; [by eapply others_trans|split; [done|split; [done|by apply Hout]]]].
  destruct Hi as [Hi|[? _]]; [|discriminate].
  pose proof (RedisSet_spec k v w2) as Hset. destruct (RedisSet _ _ _ _ w2) as [redis w3]. destruct Hset as (M3 & V3 & R3).
  assert (others_kept k w2 w3) as O3 by by apply (cache_write_others k w2 w3 (Some v) M3).
  split; [by eapply others_trans; [exact O1|eapply others_trans]|]. split; [|split; [|by apply Hout]].
  - intros _. unfold stored. by rewrite M3, Hi, lookup_insert_eq; simpl; rewrite lookup_insert_eq.
  - unfold after_maria. destruct (sc_ok redis) eqn:Er; cbn [negb]; [|discriminate]. intros _. unfold cached.
    rewrite R3 by done. by rewrite lookup_insert_eq.
Qed.

Lemma DatasetDelete_spec k w :
  plain_key k ->
  let '(result, w') := DatasetDelete s dataset_name k w in
  others_kept k w w' /\
  (sc_ok result = true -> stored w' k = None) /\
  (result = mkStorageCommandResult true "OK" -> cached w' k = None).
Proof.
  intros Hk. unfold DatasetDelete, with_entries_table. rewrite Hmaria.
  destruct Hk as (Hd & Hkne & Hlen). destruct (String.eqb_spec k ""); [done|].
  pose proof (Ensure_spec w) as He. destruct (EnsureMariaEntriesTable s dataset_name w) as [ensure w1].
  destruct He as (V1 & S1 & T1). assert (others_kept k w w1) as O1 by by apply others_refl.
  destruct (sc_ok ensure) eqn:Eok; cbn [negb]; [|by split; [|split; [congruence|intros ->]]].
  destruct (T1 eq_refl) as [e Ee]. rewrite table_name. set (sql := delete_sql _ _).
  pose proof (maria_delete_law m table e k w1 table_safe ltac:(done) Ee) as Hi. fold sql in Hi.
  pose proof (query_view sql w1) as V2. destruct (mysql_query m sql w1) as [done w2]. simpl in V2.
  assert (others_kept k w1 w2) as O2.
  { apply (table_write_others k w1 w2 e None Ee V2). destruct Hi as [?|[_ ?]]; auto. }
  destruct done; cbn [negb]; [|split; [by eapply others_trans|by split]].
  destruct Hi as [Hi|[? _]]; [|discriminate].
  pose proof (RedisDelete_spec k w2) as Hset. destruct (RedisDelete _ _ _ w2) as [redis w3]. destruct Hset as (M3 & V3 & R3).
  assert (others_kept k w2 w3) as O3 by by apply (cache_write_others k w2 w3 None M3).
  split; [by eapply others_trans; [exact O1|eapply others_trans]|]. split.
  - intros _. unfold stored. by rewrite M3, Hi, lookup_insert_eq; simpl; rewrite lookup_delete_eq.
  - unfold after_maria. destruct (sc_ok redis) eqn:Er; cbn [negb]; [|discriminate]. intros _. unfold cached.
    rewrite R3 by done. by rewrite lookup_delete_eq.
Qed.

(** A coherent cache stays coherent when one of its entries is made equal to the row. *)
Lemma coherent_step k w w' :
  coherent w -> others_kept k w w' -> (forall v, cached w' k = Some v -> stored w' k = Some v) -> coherent w'.
Proof.
  intros Hc Ho Hk k' v Hp Hv. destruct (decide (k' = k)) as [->|Hkk]; [by apply Hk|].
  destruct (Ho k' Hkk) as [E1 E2]. rewrite E1. apply Hc; [done|]. by rewrite <- E2.
Qed.

Lemma get_from_maria_spec k v w :
  plain_key k ->
  let '((result, v'), w') := get_from_maria s dataset_name k v w in
  others_kept k w w' /\ (forall k', stored w' k' = stored w k') /\
  (sc_ok result = true -> stored w k = Some v') /\
  (cached w' k = cached w k \/ cached w' k = stored w k).
Proof.
  intros Hk. unfold get_from_maria. rewrite Hmaria.
  pose proof (Ensure_spec w) as He. destruct (EnsureMariaEntriesTable s dataset_name w) as [ensure w1].
  destruct He as (V1 & S1 & T1). assert (others_kept k w w1) as O1 by by apply others_refl.
  assert (forall x, redis_view c x = redis_view c w -> cached x k = cached w k) as Hc by (intros x Hx; unfold cached; by rewrite Hx).
  destruct (sc_ok ensure) eqn:Eok; cbn [negb];
    [|split; [done|]; split; [done|]; split; [rewrite Eok; done|left; by apply Hc]].
  destruct (T1 eq_refl) as [e Ee]. rewrite table_name. set (sql := select_sql _ _).
  pose proof (maria_select_law m table e k w1 table_safe Hk Ee) as Hs. fold sql in Hs.
  pose proof (query_view sql w1) as V2. destruct (mysql_query m sql w1) as [done w2]. simpl in V2.
  pose proof (result_view w2) as V3. destruct (mysql_store_result m w2) as [res w3] eqn:Eres.
  destruct Hs as (M2 & M3 & Hrows). simpl in V3.
  assert (forall x, maria_tables m x = maria_tables m w1 -> forall k', stored x k' = stored w k') as Hst.
  { intros x Hx k'. rewrite <- S1. unfold stored. by rewrite Hx. }
  assert (forall x, maria_tables m x = maria_tables m w1 -> redis_view c x = redis_view c w1 ->
            others_kept k w x /\ (forall k', stored x k' = stored w k') /\ cached x k = cached w k) as Hsame.
  { intros x Hx Hvx. split; [apply others_refl; [congruence|by apply Hst]|]. split; [by apply Hst|]. apply Hc. congruence. }
  destruct done; cbn [negb]; [|destruct (Hsame w2 M2 V2) as (? & ? & ?);
    split; [trivial|split; [trivial|split; [intros E; discriminate E|by left]]]].
  destruct (Hsame w3 M3 ltac:(congruence)) as (O3 & S3 & C3).
  destruct res as [res|]; [|split; [trivial|split; [trivial|split; [intros E; discriminate E|by left]]]]. specialize (Hrows eq_refl res eq_refl). rewrite Hrows.
  assert (stored w k = e !! k) as Esk by (rewrite <- S1; unfold stored; by rewrite Ee).
  destruct (e !! k) as [read|] eqn:Eek; [|split; [trivial|split; [trivial|split; [intros E; discriminate E|by left]]]].
  pose proof (RedisSet_spec k read w3) as Hset. destruct (RedisSet _ _ _ _ w3) as [redis w4]. destruct Hset as (M4 & V4 & R4).
  split; [eapply others_trans; [exact O3|by apply (cache_write_others k w3 w4 (Some read) M4)]|].
  split; [apply Hst; congruence|]. split; [done|]. destruct V4 as [V4|V4].
  - left. rewrite <- C3. unfold cached in *. by rewrite V4.
  - right. unfold cached. by rewrite V4, lookup_insert_eq.
Qed.

Lemma DatasetGet_spec k v w :
  plain_key k -> coherent w ->
  let '((result, v'), w') := DatasetGet s dataset_name k v w in
  coherent w' /\ (forall k', stored w' k' = stored w k') /\ (sc_ok result = true -> stored w k = Some v').
Proof.
  intros Hk Hcoh. unfold DatasetGet. destruct (String.eqb_spec k ""); [by destruct Hk as (_ & ? & _)|].
  pose proof (RedisGet_spec k v w) as Hg. destruct (RedisGet _ _ _ v w) as [[redis v1] w1]. destruct Hg as (M1 & V1 & R1).
  assert (coherent w1 /\ forall k', stored w1 k' = stored w k') as [C1 S1].
  { unfold coherent, cached, stored. rewrite V1, M1. by split. }
  destruct (sc_ok redis) eqn:Er.
  { split; [done|]. split; [done|]. intros _. apply Hcoh; [done|]. by apply R1. }
  destruct (negb (String.eqb (sc_message redis) "nil")); [by split; [|split; [|congruence]]|].
  pose proof (get_from_maria_spec k v1 w1 Hk) as Hm.
  destruct (get_from_maria _ _ _ _ w1) as [[result v'] w']. destruct Hm as (O & S & R & C).
  split; [|split; [intros k'; by rewrite S, S1|intros Hok; rewrite <- S1; by apply R]].
  apply (coherent_step k w1 w' C1 O). intros x Hx. rewrite S. destruct C as [C|C]; [|congruence].
  apply C1; [done|congruence].
Qed.

End entries.
End StorageProofs.

(** *** The connections and their status *)

Module ConnectionProofs.
Import StorageService.

Section status.
Context {W : Type} `{Redis W} `{Maria W} {mo : MapOrder string}.

Definition redis_status_ok (_ : string) (state : RedisConnectionState) : Prop :=
  is_Some (rcs_configuration state) /\ cs_reachable (rcs_status state) = bool_decide (is_Some (rcs_context state)).

Definition maria_status_ok (disabled : gset string) (name : string) (state : MariaConnectionState) : Prop :=
  is_Some (mcs_configuration state) /\ cs_reachable (mcs_status state) = bool_decide (is_Some (mcs_handle state)) /\
  (name ∈ disabled -> mcs_handle state = None).

Definition status_ok (s : t) : Prop :=
  map_Forall redis_status_ok (mRedisConnections s) /\
  map_Forall (maria_status_ok (mDisabledMariaTargets s)) (mMariaConnections s).

(** What runs between start and stop, commands of the console included. *)
Inductive service_step : t * W -> t * W -> Prop :=
| ss_load s w : service_step (s, w) (Load (s, w)).2
| ss_probe s w : service_step (s, w) (RefreshConnections (s, w)).2
| ss_unload s w : service_step (s, w) (Unload (s, w)).2
| ss_disable name s w : service_step (s, w) (DisableMariaTarget name (s, w)).2
| ss_enable name s w : service_step (s, w) ((EnableMariaTarget name s).2, w)
| ss_world s w w' : service_step (s, w) (s, w').

Lemma for_each_ok {V} (P : string -> V -> Prop) (f : string -> V -> St W V) l m w :
  (forall name state w, P name state -> P name (f name state w).1) ->
  (forall name state, (name, state) ∈ l -> P name state) -> map_Forall P m ->
  map_Forall P (for_each f l (m, w)).2.1.
Proof.
  intros Hf. revert m w. induction l as [|[name state] l IH]; intros m w Hl Hm; [done|]. simpl.
  pose proof (Hf name state w (Hl name state ltac:(by left))) as Hs. destruct (f name state w) as [state' w'].
  apply IH; [intros; apply Hl; by right|]. by apply map_Forall_insert_2.
Qed.

Lemma entries_ok {V} (P : string -> V -> Prop) (m : gmap string V) name state :
  map_Forall P m -> (name, state) ∈ entries m -> P name state.
Proof. intros Hm Hin%elem_of_entries. by apply (Hm name state). Qed.

Lemma reconnect_redis_ok name configuration state w :
  is_Some (rcs_configuration state) -> redis_status_ok name (reconnect_redis configuration state w).1.
Proof.
  intros Hc. unfold reconnect_redis. destruct (ConnectRedis configuration w) as [result w1].
  destruct (rc_context result); [|by split]. destruct (PingRedis _ w1) as [[e|] w2]; by split.
Qed.

Lemma RefreshRedisConnection_ok name state w :
  redis_status_ok name state -> redis_status_ok name (RefreshRedisConnection name state w).1.
Proof.
  intros [[configuration Hc] Hr]. unfold RefreshRedisConnection. simpl. rewrite Hc.
  destruct (rcs_context state) as [context|] eqn:Ec; [|by apply reconnect_redis_ok].
  destruct (PingRedis context w) as [[e|] w1]; [by apply reconnect_redis_ok|].
  split; simpl; rewrite ?Hc, ?Ec; [by eexists|done].
Qed.

Lemma reconnect_maria_ok disabled name configuration state w :
  is_Some (mcs_configuration state) -> name ∉ disabled -> maria_status_ok disabled name (reconnect_maria configuration state w).1.
Proof.
  intros Hc Hn. unfold reconnect_maria. destruct (ConnectMaria configuration w) as [result w1].
  destruct (mc_handle result); [|by split]. destruct (PingMaria _ w1) as [[e|] w2]; by split.
Qed.

Lemma RefreshMariaConnection_ok disabled name state w :
  maria_status_ok disabled name state -> maria_status_ok disabled name (RefreshMariaConnection disabled name state w).1.
Proof.
  intros ([configuration Hc] & Hr & Hd). unfold RefreshMariaConnection. cbv zeta.
  destruct (bool_decide (name ∈ disabled)) eqn:Hn.
  { split; [by exists configuration|by split]. }
  apply bool_decide_eq_false in Hn.
  simpl. rewrite Hc. destruct (mcs_handle state) as [handle|] eqn:Eh; [|by apply reconnect_maria_ok].
  destruct (PingMaria handle w) as [[e|] w1]; [by apply reconnect_maria_ok|].
  split; [|split]; simpl; rewrite ?Hc, ?Eh; [by eexists|done|done].
Qed.

Lemma RefreshConnections_ok s w : status_ok s -> status_ok (RefreshConnections (s, w)).2.1.
Proof.
  intros [Hr Hm]. unfold RefreshConnections.
  pose proof (for_each_ok redis_status_ok RefreshRedisConnection (entries (mRedisConnections s)) _ w
    RefreshRedisConnection_ok (fun name state => entries_ok _ _ name state Hr) Hr) as H1.
  destruct (for_each RefreshRedisConnection _ _) as [u1 [redis w1]].
  pose proof (for_each_ok (maria_status_ok (mDisabledMariaTargets s)) (RefreshMariaConnection (mDisabledMariaTargets s))
    (entries (mMariaConnections s)) _ w1 (RefreshMariaConnection_ok _) (fun name state => entries_ok _ _ name state Hm) Hm) as H2.
  destruct (for_each (RefreshMariaConnection _) _ _) as [u2 [maria w2]]. by split.
Qed.

Lemma CloseConnections_ok s w : status_ok s -> status_ok (CloseConnections (s, w)).2.1.
Proof.
  intros [Hr Hm]. unfold CloseConnections.
  pose proof (for_each_ok redis_status_ok close_redis_connection (entries (mRedisConnections s)) _ w
    (fun _ _ _ H => conj (proj1 H) eq_refl) (fun name state => entries_ok _ _ name state Hr) Hr) as H1.
  destruct (for_each close_redis_connection _ _) as [u1 [redis w1]].
  pose proof (for_each_ok (maria_status_ok (mDisabledMariaTargets s)) close_maria_connection (entries (mMariaConnections s)) _ w1
    (fun _ _ _ H => conj (proj1 H) (conj eq_refl (fun _ => eq_refl))) (fun name state => entries_ok _ _ name state Hm) Hm) as H2.
  destruct (for_each close_maria_connection _ _) as [u2 [maria w2]]. by split.
Qed.

Lemma status_ok_step sw sw' : service_step sw sw' -> status_ok sw.1 -> status_ok sw'.1.
Proof.
  intros Hstep Hs. destruct Hstep as [s w|s w|s w|name s w|name s w|s w w'].
  - by apply RefreshConnections_ok.
  - by apply RefreshConnections_ok.
  - by apply CloseConnections_ok.
  - unfold DisableMariaTarget. destruct (mMariaConnections s !! name) as [state|] eqn:E; [|done].
    destruct Hs as [Hr Hm]. destruct (Hm name state E) as (Hc & _ & _). split; [done|]. simpl.
    intros n st [[<- <-]|[Hne Hn]]%lookup_insert_Some; [by split|]. destruct (Hm n st Hn) as (H1 & H2 & H3).
    split; [done|]. split; [done|]. intros [->%elem_of_singleton|Hin]%elem_of_union; [done|by apply H3].
  - unfold EnableMariaTarget. destruct (mMariaConnections s !! name) as [state|]; [|done].
    destruct Hs as [Hr Hm]. split; [done|]. intros n st Hn. destruct (Hm n st Hn) as (H1 & H2 & H3).
    split; [done|]. split; [done|]. intros [Hmem _]%elem_of_difference. by apply H3.
  - done.
Qed.

Lemma status_ok_create configuration : status_ok (create configuration).
Proof.
  unfold create. assert (status_ok (mkStorageService configuration ∅ ∅ ∅)) as H1 by (split; apply map_Forall_empty).
  revert H1. generalize (mkStorageService configuration ∅ ∅ ∅). generalize (entries configuration).*2.
  intros l. induction l as [|d l IH]; intros s Hs; [done|]. simpl. apply IH. destruct Hs as [Hr Hm].
  split; simpl; apply map_Forall_insert_2; try done; by split.
Qed.

End status.
End ConnectionProofs.

(** ** Properties *)

Section storage_properties.
Import StorageService StorageProofs.

(** The service knows the data set and has both its connections. *)
Record attached {W : Type} `{Redis W} (s : t) (dataset_name : string) (dataset : ResolvedDatasetConfiguration)
    (c : redisContext) (m : MYSQL) : Prop := mkAttached {
  at_dataset : GetDataset s dataset_name = Some dataset;
  at_redis : GetRedisForDataset s dataset_name = Some c;
  at_maria : GetMariaForDataset s dataset_name = Some m;
  at_table : safe_table (table_prefix dataset) /\ table_prefix dataset <> "";
  at_prefix : full_redis_prefix dataset <> ""
}.

(** A configuration is accepted with every data set resolved, or rejected with
    none: accepted, exactly the named data sets exist, each with the profiles it
    names, a table prefix of letters, digits and underscores, its key prefix
    behind that of the profile and positive times, its own or the default ones. *)
Theorem configuration_all_or_nothing (common : CommonConfiguration) (storage : StorageConfiguration) :
  let '(error, resolved) := ResolveStorageConfiguration common storage in
  match error with
  | Some _ => resolved = ∅
  | None =>
      (forall n, is_Some (resolved !! n) <-> n ∈ (datasets storage).*1) /\
      forall n item, resolved !! n = Some item -> name item = n /\ resolved_ok common storage item
  end.
Proof.
  unfold ResolveStorageConfiguration.
  pose proof (resolve_datasets_ok common storage (datasets storage) ∅ ltac:(done)
    ltac:(intros n item; by rewrite lookup_empty)) as Hr.
  destruct (resolve_datasets _ _ _ _) as [[error|] resolved]; destruct Hr as [H1 H2]; [done|].
  destruct H2 as [_ H2]. split; [|done]. intros n. rewrite list_elem_of_fmap. split.
  - intros [item Hi]. destruct (H1 n item Hi) as (<- & dataset & Hin & _). by exists (name item, dataset).
  - intros ([n' d] & -> & Hin). by apply (H2 (n', d)).
Qed.

Context {scripts : script_semantics} {W : Type} {r : Redis W} {mr : Maria W} {law : StorageLaw scripts W}.


(** A write whose cache update fails still reports success, and from then on
    reads return the value that was there before, as long as Redis answers. *)
Theorem failed_cache_update_is_stale (s : t) (dataset_name : string) (dataset : ResolvedDatasetConfiguration)
    (c : redisContext) (m : MYSQL) (k old new v : string) (w : W) :
  attached s dataset_name dataset c m -> plain_key k ->
  cached dataset c w k = Some old ->
  let '(result, w1) := DatasetPut s dataset_name k new w in
  sc_ok result = true -> redis_view c w1 = redis_view c w ->
  is_Some (redisCommand c (cmd_get (full_redis_prefix dataset +:+ entry_suffix k)) w1).1 ->
  (forall e, (redisCommand c (cmd_get (full_redis_prefix dataset +:+ entry_suffix k)) w1).1 <> Some (reply_error e)) ->
  stored dataset m w1 k = Some new /\
  (DatasetGet s dataset_name k v w1).1 = (mkStorageCommandResult true "redis", old).
Proof.
  intros [Hd Hr Hm [Ht Htne] Hp] Hk Hold.
  pose proof (DatasetPut_spec s dataset_name dataset c m Hd Hr Hm Ht Htne Hp k new w Hk) as Hput.
  destruct (DatasetPut s dataset_name k new w) as [result w1]. destruct Hput as (_ & Hs & _).
  intros Hok Hv [a Ha] He. split; [by apply Hs|].
  unfold DatasetGet. destruct (String.eqb_spec k ""); [by destruct Hk as (_ & ? & _)|].
  unfold RedisGet. rewrite (with_redis_run s dataset_name dataset c Hd Hr Hp).
  set (key := full_redis_prefix dataset +:+ entry_suffix k) in *.
  assert (is_error a = false) as Hea by (destruct a; try done; by destruct (He s0)).
  destruct (redis_view_answer c (cmd_get key) w1 _ _ a eq_refl Ha Hea) as [E _].
  unfold cached in Hold. fold key in Hold. rewrite Hv, Hold in E.
  destruct (redisCommand c (cmd_get key) w1) as [x w2]. simpl in Ha. subst x a. done.
Qed.

(** The status the service shows is true in every reachable state: a Redis or
    MariaDB target is shown reachable exactly when the service has a connection
    to it, and a disabled MariaDB target has none. *)
Theorem connection_status_accurate {mo : MapOrder string} (configuration : ResolvedStorageConfiguration) (w : W) (sw : t * W) :
  rtc ConnectionProofs.service_step (create configuration, w) sw ->
  (forall n status, snapshot_redis (ProbeAll sw.1) !! n = Some status ->
     cs_reachable status = bool_decide (is_Some (GetRedis sw.1 n))) /\
  (forall n status, snapshot_maria (ProbeAll sw.1) !! n = Some status -> IsMariaTargetDisabled sw.1 n = false ->
     cs_reachable status = bool_decide (is_Some (GetMaria sw.1 n))) /\
  (forall n, IsMariaTargetDisabled sw.1 n = true -> (mMariaConnections sw.1 !! n) ≫= mcs_handle = None).
Proof.
  intros Hr. assert (ConnectionProofs.status_ok sw.1) as [H1 H2].
  { pose proof (ConnectionProofs.status_ok_create configuration) as H0.
    remember (create configuration, w) as sw0 eqn:E. assert (ConnectionProofs.status_ok sw0.1) as H1 by by rewrite E.
    clear E. induction Hr as [|x y z Hs _ IH]; [done|]. apply IH. by eapply ConnectionProofs.status_ok_step. }
  split; [|split].
  - intros n status. unfold ProbeAll, GetRedis. simpl. rewrite lookup_fmap.
    destruct (mRedisConnections sw.1 !! n) as [st|] eqn:E; [|done]. intros [= <-]. by apply (H1 n st).
  - intros n status. unfold ProbeAll, GetMaria, IsMariaTargetDisabled. simpl. rewrite lookup_fmap.
    destruct (mMariaConnections sw.1 !! n) as [st|] eqn:E; [|done]. intros [= <-] ->. by apply (H2 n st).
  - intros n Hn%bool_decide_eq_true. destruct (mMariaConnections sw.1 !! n) as [st|] eqn:E; [|done]. by apply (H2 n st).
Qed.
End storage_properties.

(** ** A pair of servers that obeys the laws *)

Module ExampleServers.
Import StorageService.

Record servers : Type := mkServers { sv_redis : kv; sv_tables : tables; sv_result : option maria_result }.

(** The escapes of the example: a backslash before a backslash, [\q] for a quote. *)
Fixpoint escape (s : string) : string :=
  match s with
  | EmptyString => EmptyString
  | String x s' =>
      if Ascii.eqb x "'" then String "\" (String "q" (escape s'))
      else if Ascii.eqb x "\" then String "\" (String "\" (escape s'))
      else String x (escape s')
  end.

Fixpoint unescape (s : string) : string :=
  match s with
  | String "\" (String x s') => String (if Ascii.eqb x "q" then "'"%char else x) (unescape s')
  | String x s' => String x (unescape s')
  | EmptyString => EmptyString
  end.

(** The text between the next two delimiters and what follows. *)
Definition quoted (c : ascii) (s : string) : string * string :=
  let rest := default "" (split_at c s).2 in
  let '(text, rest') := split_at c rest in (text, default "" rest').

Inductive statement : Type :=
| st_create (table : string)
| st_insert (table key value : string)
| st_delete (table key : string)
| st_select (table key : string)
| st_other.

(** The first table name, the first and the second literal. *)
Definition parse_statement (sql : string) : statement :=
  if String.prefix "CREATE TABLE" sql then st_create (quoted "`" sql).1
  else if String.prefix "INSERT INTO" sql then
    let '(table, rest) := quoted "`" sql in
    let '(key, rest) := quoted "'" rest in
    st_insert table (unescape key) (unescape (quoted "'" rest).1)
  else if String.prefix "DELETE FROM" sql then
    let '(table, rest) := quoted "`" sql in st_delete table (unescape (quoted "'" rest).1)
  else if String.prefix "SELECT" sql then
    let rest := (quoted "`" sql).2 in
    let '(table, rest) := quoted "`" rest in st_select table (unescape (quoted "'" rest).1)
  else st_other.

Definition run_statement (st : statement) (w : servers) : bool * servers :=
  match st with
  | st_create table => (true, mkServers (sv_redis w) (with_table table (sv_tables w)) (sv_result w))
  | st_insert table key value =>
      match sv_tables w !! table with
      | Some e => (true, mkServers (sv_redis w) (<[table := <[key := value]> e]> (sv_tables w)) (sv_result w))
      | None => (false, w)
      end
  | st_delete table key =>
      match sv_tables w !! table with
      | Some e => (true, mkServers (sv_redis w) (<[table := delete key e]> (sv_tables w)) (sv_result w))
      | None => (false, w)
      end
  | st_select table key =>
      match sv_tables w !! table with
      | Some e => (true, mkServers (sv_redis w) (sv_tables w)
          (Some (mkMariaResult 1 (match e !! key with Some v => [[Some v]] | None => [] end))))
      | None => (false, w)
      end
  | st_other => (false, w)
  end.

Definition example_maria : Maria servers := {|
  mysql_init := ret (Some 1);
  mysql_real_connect := fun _ _ _ _ _ _ => ret true;
  mysql_ping := fun _ => ret true;
  mysql_close := fun _ => ret tt;
  mysql_query := fun _ sql w => run_statement (parse_statement sql) w;
  mysql_store_result := fun _ w => (sv_result w, w);
  mysql_field_count := fun _ _ => 0;
  mysql_affected_rows := fun _ _ => 1;
  mysql_error := fun _ _ => "unknown table";
  mysql_real_escape_string := fun _ => escape
|}.

Lemma escape_lacks s : lacks "'" (escape s) = true.
Proof.
  induction s as [|x s IH]; [done|]. simpl. destruct (Ascii.eqb_spec x "'") as [->|Hx]; [done|].
  destruct (Ascii.eqb_spec x "\") as [->|Hy]; [done|]. unfold lacks in *. simpl. rewrite IH, andb_true_r.
  by destruct (Ascii.eqb_spec x "'").
Qed.

Lemma unescape_escape s : unescape (escape s) = s.
Proof.
  induction s as [|x s IH]; [done|]. simpl. destruct (Ascii.eqb_spec x "'") as [->|Hx]; [simpl; by rewrite IH|].
  destruct (Ascii.eqb_spec x "\") as [->|Hy]; [simpl; by rewrite IH|]. simpl. rewrite IH.
  by destruct x as [[] [] [] [] [] [] [] []].
Qed.

Lemma safe_lacks table : safe_table table -> lacks "`" table = true.
Proof.
  unfold safe_table. apply str_forall_impl. intros x Hx. destruct (Ascii.eqb_spec x "`") as [->|]; [done|done].
Qed.

#[local] Arguments String.append : simpl nomatch.

Ltac parse_sql :=
  unfold parse_statement, quoted; simpl;
  repeat (rewrite split_at_app by (first [by apply safe_lacks|apply escape_lacks]); simpl);
  rewrite ?unescape_escape.

Lemma parse_create table : safe_table table -> parse_statement (create_table_sql table) = st_create table.
Proof. intros Ht. unfold create_table_sql. by parse_sql. Qed.

Lemma parse_insert table k v : safe_table table -> parse_statement (insert_sql table (escape k) (escape v)) = st_insert table k v.
Proof. intros Ht. unfold insert_sql. by parse_sql. Qed.

Lemma parse_delete table k : safe_table table -> parse_statement (delete_sql table (escape k)) = st_delete table k.
Proof. intros Ht. unfold delete_sql. by parse_sql. Qed.

Lemma parse_select table k : safe_table table -> parse_statement (select_sql table (escape k)) = st_select table k.
Proof. intros Ht. unfold select_sql. by parse_sql. Qed.

Definition example_maria_law : @MariaLaw servers example_maria.
Proof.
  refine (@Build_MariaLaw servers example_maria (fun _ w => sv_tables w) _ _ _ _).
  - intros m table w Ht. cbn [mysql_query mysql_real_escape_string mysql_store_result example_maria]. rewrite parse_create by done. by left.
  - intros m table e k v w Ht _ He. cbn [mysql_query mysql_real_escape_string mysql_store_result example_maria]. rewrite parse_insert by done. simpl. rewrite He. by left.
  - intros m table e k w Ht _ He. cbn [mysql_query mysql_real_escape_string mysql_store_result example_maria]. rewrite parse_delete by done. simpl. rewrite He. by left.
  - intros m table e k w Ht _ He. cbn [mysql_query mysql_real_escape_string mysql_store_result example_maria]. rewrite parse_select by done. simpl. rewrite He. simpl.
    split; [done|]. split; [done|]. intros _ r [= <-]. done.
Defined.

(** The Redis server answers every command, or loses the connection on writes. *)
Definition lost (answers_writes : bool) (cmd : redis_cmd) : bool :=
  match cmd with cmd_set _ _ => negb answers_writes | _ => false end.

Definition example_redis (answers_writes : bool) : Redis servers := {|
  redisCommand := fun c cmd w =>
    if lost answers_writes cmd then (None, w)
    else
      let '(reply, d) := @redisCommand kv (kv_redis no_scripts) c cmd (sv_redis w) in
      (reply, mkServers d (sv_tables w) (sv_result w));
  redisConnectWithTimeout := fun _ _ => ret (Some 1);
  redisFree := fun _ => ret tt;
  redis_err := fun _ _ => 1;
  redis_errstr := fun _ _ => "Connection reset by peer"
|}.

Definition example_redis_law (answers_writes : bool) : @RedisLaw no_scripts servers (example_redis answers_writes).
Proof.
  refine (@Build_RedisLaw no_scripts servers (example_redis answers_writes) (fun _ _ => 0)
    (fun db w => if db =? 0 then sv_redis w else ∅) _ _); [|done].
  intros c cmd w d reply result Hd E. simpl in Hd. subst d. cbn [redisCommand example_redis].
  destruct (lost answers_writes cmd); [split; [done|]; split; [done|by left]|].
  cbn [redisCommand kv_redis]. rewrite E. split; [done|]. split; [|by left].
  intros db Hdb. simpl. by destruct (Z.eqb_spec db 0).
Defined.

Definition example_storage_law (answers_writes : bool) :
  @StorageLaw no_scripts servers (example_redis answers_writes) example_maria.
Proof.
  refine (@Build_StorageLaw no_scripts servers (example_redis answers_writes) example_maria
    (example_redis_law answers_writes) example_maria_law _ _ _).
  - intros c cmd m w. cbn [redisCommand example_redis]. destruct (lost answers_writes cmd); [done|].
    by destruct (@redisCommand kv (kv_redis no_scripts) c cmd (sv_redis w)).
  - intros m sql c db w. cbn [mysql_query example_maria]. unfold run_statement.
    destruct (parse_statement sql) as [t|t k v|t k|t k|]; try destruct (sv_tables w !! t); by split.
  - done.
Defined.

(** A service with one data set, connected. *)
Definition example_dataset : ResolvedDatasetConfiguration :=
  mkResolvedDatasetConfiguration "player" "default" "default" (mkRedisConfiguration ["127.0.0.1:6379"] "" 0 "dev:")
    (mkMariaConfiguration "127.0.0.1" 3306 "game" "" "" 16) "player:" "player_" "dev:player:"
    (mkDatasetTimingConfiguration 86400 1800 60).
Definition example_service : t :=
  let status := mkConnectionProbeStatus "default" "127.0.0.1" true "" in
  mkStorageService {["player" := example_dataset]}
    {["default" := mkRedisConnectionState (Some (redis_configuration example_dataset)) (Some 1) status]}
    {["default" := mkMariaConnectionState (Some (maria_configuration example_dataset)) (Some 2) status]} ∅.
Definition example_world : servers := mkServers {["dev:player:entries:100" := "old"]} {["player_entries" := {["100" := "old"]}]} None.

Lemma example_attached answers_writes :
  @attached servers (example_redis answers_writes) example_service "player" example_dataset 1 2.
Proof. by constructor. Qed.

Lemma example_coherent answers_writes :
  @StorageProofs.coherent no_scripts servers (example_redis answers_writes) example_maria
    (example_storage_law answers_writes) example_dataset 1 2 example_world.
Proof.
  intros k v _. unfold StorageProofs.cached, StorageProofs.stored, redis_view. cbn -[lookup].
  intros [E <-]%lookup_singleton_Some. injection E as E. by subst k.
Qed.


Lemma failed_cache_update_is_stale_witness :
  (@DatasetGet servers (example_redis false) example_maria example_service "player" "100" ""
    (@DatasetPut servers (example_redis false) example_maria example_service "player" "100" "new" example_world).2).1
  = (mkStorageCommandResult true "redis", "old").
Proof.
  pose proof (@failed_cache_update_is_stale no_scripts servers (example_redis false) example_maria (example_storage_law false)
    example_service "player" example_dataset 1 2 "100" "old" "new" "" example_world (example_attached false)
    ltac:(split; [reflexivity|split; [discriminate|simpl; lia]]) ltac:(by vm_compute)) as Hs.
  assert (@DatasetPut servers (example_redis false) example_maria example_service "player" "100" "new" example_world
    = (mkStorageCommandResult true "maria=OK redis=Connection reset by peer",
       mkServers {["dev:player:entries:100" := "old"]} {["player_entries" := {["100" := "new"]}]} None)) as E by by vm_compute.
  rewrite E in Hs |- *. refine (proj2 (Hs eq_refl _ _ _)).
  - reflexivity.
  - vm_compute. by eexists.
  - intros e. vm_compute. discriminate.
Defined.

#[local] Instance order_string : MapOrder string := canonical_order string.

Definition example_loaded : t * servers :=
  (@Load servers (example_redis true) example_maria order_string (create {["player" := example_dataset]}, example_world)).2.

Lemma connection_status_accurate_witness :
  exists status, snapshot_redis (ProbeAll example_loaded.1) !! "default" = Some status /\
    cs_reachable status = bool_decide (is_Some (GetRedis example_loaded.1 "default")).
Proof.
  pose proof (@connection_status_accurate servers (example_redis true) example_maria order_string
    {["player" := example_dataset]} example_world example_loaded) as Hs.
  destruct Hs as (Hs & _).
  - apply rtc_once. apply (@ConnectionProofs.ss_load servers (example_redis true) example_maria order_string).
  - eexists. split; [by vm_compute|]. apply Hs. by vm_compute.
Defined.
End ExampleServers.
