(* ===== verification/Directory.v ===== *)
(** * Directory: [game/services/player_directory_service.cpp]

    The player id of an account on a platform in an area.  Ids are allotted by a
    counter in Redis and written down there with [NX], so that several games can
    create players at the same time; a game whose Redis fails counts by itself.
    [DirectoryMachine] is [ResolveOrCreate] cut at its calls of Redis, which
    [resolve_refines_machine] justifies; a pool of such machines interleaves the
    calls of several games. *)

From S2P Require Import Prelude Text Base Redis Storage.
From Stdlib Require Import Ascii.

Record PlayerDirectoryResolveResult : Type := mkPlayerDirectoryResolveResult { player_id : Z; created : bool }.

(** How a call ends: [std::stoull] may throw, the loop may still be running. *)
Inductive outcome (A : Type) : Type :=
| returned (a : A)
| thrown
| out_of_fuel.
Arguments returned {A} a.
Arguments thrown {A}.
Arguments out_of_fuel {A}.

Definition MakeKey (platform account_id : string) (area_id : Z) : string :=
  platform +:+ ":" +:+ account_id +:+ ":" +:+ to_string area_id.
Definition BuildDirectoryEntrySuffix (key : string) : string := "directory:entry:" +:+ key.
Definition BuildNextPlayerIdSuffix : string := "directory:next_player_id".

Module PlayerDirectoryService.

Record t : Type := mkPlayerDirectoryService {
  mStorageService : option StorageService.t;
  mDatasetName : string;
  mEntries : gmap string Z;
  mNextPlayerId : Z
}.
#[export] Instance eta_player_directory : Eta t := fun s =>
  mkPlayerDirectoryService (mStorageService s) (mDatasetName s) (mEntries s) (mNextPlayerId s).

Definition create (storage : option StorageService.t) (dataset_name : string) : t :=
  mkPlayerDirectoryService storage dataset_name ∅ 100000.

(** [mEntries.emplace] keeps an entry that exists. *)
Definition emplace (key : string) (id : Z) (s : t) : t :=
  match mEntries s !! key with
  | Some _ => s
  | None => s <| mEntries := <[key := id]> (mEntries s) |>
  end.

(** How the loop over Redis ends: with a result, by [break], or with an exception. *)
Inductive loop_exit : Type :=
| le_found (id : Z) (created : bool)
| le_break
| le_throw
| le_fuel.

Section operations.
Context {W : Type} `{Redis W}.

(** A value read is the id. *)
Definition read_id (value : string) : loop_exit :=
  match stoull value with
  | Some id => le_found id false
  | None => le_throw
  end.

(** The counter starts at 99999, and is raised to it when it is lower. *)
Definition prepare_counter (storage : StorageService.t) (dataset_name : string) : St W unit :=
  fun w =>
    let '((current, current_counter), w) := StorageService.RedisGet storage dataset_name BuildNextPlayerIdSuffix "" w in
    if negb (sc_ok current) then
      (tt, (StorageService.RedisSetIfAbsent storage dataset_name BuildNextPlayerIdSuffix "99999" w).2)
    else
      match stoll current_counter with
      | Some n =>
          if n <? 99999 then (tt, (StorageService.RedisSet storage dataset_name BuildNextPlayerIdSuffix "99999" w).2)
          else (tt, w)
      | None => (tt, (StorageService.RedisSet storage dataset_name BuildNextPlayerIdSuffix "99999" w).2)
      end.

(** [while (true)]: it turns again when the entry exists but cannot be read. *)
Fixpoint create_loop (fuel : nat) (storage : StorageService.t) (dataset_name key : string) : St W loop_exit :=
  fun w =>
    match fuel with
    | O => (le_fuel, w)
    | S fuel =>
        let '(_, w) := prepare_counter storage dataset_name w in
        let '((increment, next_player_id), w) :=
          StorageService.RedisIncrement storage dataset_name BuildNextPlayerIdSuffix 1 0 w in
        if negb (sc_ok increment) then (le_break, w)
        else
          let player_id := u64 next_player_id in
          let '(create, w) :=
            StorageService.RedisSetIfAbsent storage dataset_name (BuildDirectoryEntrySuffix key) (to_string player_id) w in
          if sc_ok create then (le_found player_id true, w)
          else if negb (String.eqb (sc_message create) "exists") then (le_break, w)
          else
            let '((retry_get, value), w) :=
              StorageService.RedisGet storage dataset_name (BuildDirectoryEntrySuffix key) "" w in
            if sc_ok retry_get then (read_id value, w) else create_loop fuel storage dataset_name key w
    end.

(** The calls of Redis when the key is not cached. *)
Definition resolve_in_redis (fuel : nat) (storage : StorageService.t) (dataset_name key : string) : St W loop_exit :=
  fun w =>
    let '((get, value), w) := StorageService.RedisGet storage dataset_name (BuildDirectoryEntrySuffix key) "" w in
    if sc_ok get then (read_id value, w) else create_loop fuel storage dataset_name key w.

(** The id the process counts by itself. *)
Definition local_player_id (key : string) (s : t) : PlayerDirectoryResolveResult * t :=
  let id := mNextPlayerId s in
  (mkPlayerDirectoryResolveResult id true, emplace key id (s <| mNextPlayerId := u64 (id + 1) |>)).

Definition ResolveOrCreate (fuel : nat) (platform account_id : string) (area_id : Z)
    : St (t * W) (outcome PlayerDirectoryResolveResult) :=
  fun '(s, w) =>
    let key := MakeKey platform account_id area_id in
    match mEntries s !! key with
    | Some id => (returned (mkPlayerDirectoryResolveResult id false), (s, w))
    | None =>
        let '(exit, w) := match mStorageService s with
                          | Some storage => resolve_in_redis fuel storage (mDatasetName s) key w
                          | None => (le_break, w)
                          end in
        match exit with
        | le_found id created => (returned (mkPlayerDirectoryResolveResult id created), (emplace key id s, w))
        | le_break => let '(result, s) := local_player_id key s in (returned result, (s, w))
        | le_throw => (thrown, (s, w))
        | le_fuel => (out_of_fuel, (s, w))
        end
    end.

Definition Lookup (platform account_id : string) (area_id : Z) : St (t * W) (outcome (option Z)) :=
  fun '(s, w) =>
    let key := MakeKey platform account_id area_id in
    match mEntries s !! key with
    | Some id => (returned (Some id), (s, w))
    | None =>
        match mStorageService s with
        | None => (returned None, (s, w))
        | Some storage =>
            let '((get, value), w) :=
              StorageService.RedisGet storage (mDatasetName s) (BuildDirectoryEntrySuffix key) "" w in
            if negb (sc_ok get) then (returned None, (s, w))
            else
              match stoull value with
              | Some id => (returned (Some id), (emplace key id s, w))
              | None => (thrown, (s, w))
              end
        end
    end.

Definition NextPlayerIdCounter : St (t * W) (option Z) :=
  fun '(s, w) =>
    match mStorageService s with
    | None => (None, (s, w))
    | Some storage =>
        let '((get, value), w) := StorageService.RedisGet storage (mDatasetName s) BuildNextPlayerIdSuffix "" w in
        if negb (sc_ok get) then (None, (s, w)) else (stoull value, (s, w))
    end.

End operations.
End PlayerDirectoryService.

(** ** The calls of Redis as a machine *)

Module DirectoryMachine.
Import PlayerDirectoryService.

(** Where [ResolveOrCreate] is, between two calls of Redis. *)
Inductive pc : Type :=
| pc_get_entry
| pc_get_counter
| pc_init_counter
| pc_reset_counter
| pc_increment
| pc_create (id : Z)
| pc_retry_get
| pc_exit (e : loop_exit).

Section machine.
(** The key of the entry and of the counter. *)
Context (entry_key counter_key : string).

(** The command that is sent next. *)
Definition command (p : pc) : option redis_cmd :=
  match p with
  | pc_get_entry | pc_retry_get => Some (cmd_get entry_key)
  | pc_get_counter => Some (cmd_get counter_key)
  | pc_init_counter => Some (cmd_set_nx counter_key "99999")
  | pc_reset_counter => Some (cmd_set counter_key "99999")
  | pc_increment => Some (cmd_incrby counter_key 1)
  | pc_create id => Some (cmd_set_nx entry_key (to_string id))
  | pc_exit _ => None
  end.

(** Where the reply leads.  A failure (no reply, an error, a reply of another
    type) carries its message. *)
Inductive answer : Type :=
| an_reply (r : redis_reply)
| an_failure (message : string).

Definition next (p : pc) (a : answer) : pc :=
  match p with
  | pc_get_entry => match a with an_reply (reply_string v) => pc_exit (read_id v) | _ => pc_get_counter end
  | pc_get_counter =>
      match a with
      | an_reply (reply_string v) =>
          match stoll v with
          | Some n => if n <? 99999 then pc_reset_counter else pc_increment
          | None => pc_reset_counter
          end
      | _ => pc_init_counter
      end
  | pc_init_counter | pc_reset_counter => pc_increment
  | pc_increment => match a with an_reply (reply_integer n) => pc_create (u64 n) | _ => pc_exit le_break end
  | pc_create id =>
      match a with
      | an_reply (reply_status _) => pc_exit (le_found id true)
      | an_reply reply_nil => pc_retry_get
      | an_reply _ => pc_exit le_break
      | an_failure message => if String.eqb message "exists" then pc_retry_get else pc_exit le_break
      end
  | pc_retry_get => match a with an_reply (reply_string v) => pc_exit (read_id v) | _ => pc_get_counter end
  | pc_exit e => pc_exit e
  end.

(** One call: executed and answered, or failed with or without being executed. *)
Inductive call : pc * kv -> pc * kv -> Prop :=
| call_answered p d cmd reply d' :
    command p = Some cmd -> kv_exec no_scripts cmd d = Some (reply, d') -> call (p, d) (next p (an_reply reply), d')
| call_failed p d cmd message :
    command p = Some cmd -> call (p, d) (next p (an_failure message), d)
| call_lost p d cmd reply d' message :
    command p = Some cmd -> kv_exec no_scripts cmd d = Some (reply, d') -> call (p, d) (next p (an_failure message), d').

End machine.

(** The requests of several processes on one database; requests come and go. *)
Section pool.
Context (entry_key_of : string -> string) (counter_key : string).

Record request : Type := mkRequest { rq_key : string; rq_pc : pc }.
Record pool : Type := mkPool { requests : gmap Z request; database : kv }.

Inductive step : pool -> pool -> Prop :=
| st_request i key ps :
    requests ps !! i = None -> step ps (mkPool (<[i := mkRequest key pc_get_entry]> (requests ps)) (database ps))
| st_call i rq p' d' ps :
    requests ps !! i = Some rq -> call (entry_key_of (rq_key rq)) counter_key (rq_pc rq, database ps) (p', d') ->
    step ps (mkPool (<[i := mkRequest (rq_key rq) p']> (requests ps)) d').

End pool.
End DirectoryMachine.

(** ** The machine is what the code does *)

Module DirectoryProofs.
Import PlayerDirectoryService DirectoryMachine.

Section refinement.
Context {W : Type} {r : Redis W} {law : RedisLaw no_scripts W}.
Context (storage : StorageService.t) (dataset_name : string) (dataset : ResolvedDatasetConfiguration) (c : redisContext).
Context (Hdataset : StorageService.GetDataset storage dataset_name = Some dataset).
Context (Hredis : StorageService.GetRedisForDataset storage dataset_name = Some c).
Context (Hprefix : full_redis_prefix dataset <> "").
Implicit Types (w : W).

Definition entry_key (key : string) : string := full_redis_prefix dataset +:+ BuildDirectoryEntrySuffix key.
Definition counter_key : string := full_redis_prefix dataset +:+ BuildNextPlayerIdSuffix.

(** The reply of a command, or a failure, after which it may have been executed. *)
Lemma command_cases cmd w reply d' :
  kv_exec no_scripts cmd (redis_view c w) = Some (reply, d') ->
  let '(a, w') := redisCommand c cmd w in
  (a = Some reply /\ redis_view c w' = d') \/
  ((a = None \/ exists e, a = Some (reply_error e)) /\ (redis_view c w' = redis_view c w \/ redis_view c w' = d')).
Proof.
  intros E. pose proof (redis_law c cmd w _ _ _ eq_refl E) as Hl. unfold redis_view in *.
  destruct (redisCommand c cmd w) as [[a|] w']; destruct Hl as (H1 & _ & H2).
  - rewrite !H1. destruct H2 as [[-> H2]|[Ha H2]]; [by left|]. right. split; [|by left].
    right. destruct a; try done. by eexists.
  - rewrite !H1. right. split; [by left|done].
Qed.

Section calls.
Context (key : string).
Abbreviation calls := (call (entry_key key) counter_key).

(** A failed call, executed or not. *)
Lemma call_failure p w w' cmd reply d' message :
  command (entry_key key) counter_key p = Some cmd -> kv_exec no_scripts cmd (redis_view c w) = Some (reply, d') ->
  redis_view c w' = redis_view c w \/ redis_view c w' = d' ->
  calls (p, redis_view c w) (next p (an_failure message), redis_view c w').
Proof. intros Hp E [-> | ->]; [by eapply call_failed|by eapply call_lost]. Qed.

Lemma RedisGet_call p suffix w :
  command (entry_key key) counter_key p = Some (cmd_get (full_redis_prefix dataset +:+ suffix)) ->
  let '((result, value), w') := StorageService.RedisGet storage dataset_name suffix "" w in
  exists a, calls (p, redis_view c w) (next p a, redis_view c w') /\
    if sc_ok result then a = an_reply (reply_string value) else forall v, a <> an_reply (reply_string v).
Proof.
  intros Hp. unfold StorageService.RedisGet.
  rewrite (StorageProofs.with_redis_run storage dataset_name dataset c Hdataset Hredis Hprefix).
  set (k := full_redis_prefix dataset +:+ suffix) in *. set (d := redis_view c w).
  assert (kv_exec no_scripts (cmd_get k) d = Some (match d !! k with Some v => reply_string v | None => reply_nil end, d)) as E by done.
  destruct (d !! k) as [v|]; pose proof (command_cases (cmd_get k) w _ _ E) as Hc;
    destruct (redisCommand c (cmd_get k) w) as [a w']; (destruct Hc as [[-> Hv]|[Ha Hv]];
      [|destruct Ha as [->|[e ->]]; (exists (an_failure ""); split; [by eapply call_failure|done])]).
  - exists (an_reply (reply_string v)). rewrite Hv. split; [by eapply call_answered|done].
  - exists (an_reply reply_nil). rewrite Hv. split; [by eapply call_answered|done].
Qed.

Lemma RedisSet_call p suffix value w :
  command (entry_key key) counter_key p = Some (cmd_set (full_redis_prefix dataset +:+ suffix) value) ->
  exists a, calls (p, redis_view c w) (next p a, redis_view c (StorageService.RedisSet storage dataset_name suffix value w).2).
Proof.
  intros Hp. unfold StorageService.RedisSet.
  rewrite (StorageProofs.with_redis_run storage dataset_name dataset c Hdataset Hredis Hprefix).
  set (k := full_redis_prefix dataset +:+ suffix) in *.
  pose proof (command_cases (cmd_set k value) w _ _ eq_refl) as Hc.
  destruct (redisCommand c (cmd_set k value) w) as [a w']. destruct Hc as [[-> Hv]|[Ha Hv]].
  - exists (an_reply (reply_status "OK")). simpl. rewrite Hv. by eapply call_answered.
  - exists (an_failure ""). destruct Ha as [->|[e ->]]; by eapply call_failure.
Qed.

Lemma RedisSetIfAbsent_call p suffix value w :
  command (entry_key key) counter_key p = Some (cmd_set_nx (full_redis_prefix dataset +:+ suffix) value) ->
  let '(result, w') := StorageService.RedisSetIfAbsent storage dataset_name suffix value w in
  exists a, calls (p, redis_view c w) (next p a, redis_view c w') /\
    if sc_ok result then a = an_reply (reply_status "OK")
    else if String.eqb (sc_message result) "exists" then a = an_reply reply_nil \/ a = an_failure "exists"
    else a = an_failure (sc_message result).
Proof.
  intros Hp. unfold StorageService.RedisSetIfAbsent.
  rewrite (StorageProofs.with_redis_run storage dataset_name dataset c Hdataset Hredis Hprefix).
  set (k := full_redis_prefix dataset +:+ suffix) in *. set (d := redis_view c w).
  set (reply := match d !! k with Some _ => reply_nil | None => reply_status "OK" end).
  set (d' := match d !! k with Some _ => d | None => <[k := value]> d end).
  assert (kv_exec no_scripts (cmd_set_nx k value) d = Some (reply, d')) as E.
  { unfold reply, d'. cbn [kv_exec]. by destruct (d !! k). }
  pose proof (command_cases (cmd_set_nx k value) w _ _ E) as Hc.
  assert (forall message w', redis_view c w' = redis_view c w \/ redis_view c w' = d' ->
    exists a, calls (p, d) (next p a, redis_view c w') /\
      if String.eqb message "exists" then a = an_reply reply_nil \/ a = an_failure "exists" else a = an_failure message) as Hfail.
  { intros message w' Hv. exists (an_failure message). split; [by eapply call_failure|].
    destruct (String.eqb_spec message "exists") as [->|]; [by right|done]. }
  destruct (redisCommand c (cmd_set_nx k value) w) as [a w']. destruct Hc as [[-> Hv]|[Ha Hv]].
  - assert (calls (p, d) (next p (an_reply reply), redis_view c w')) as Hcall by (rewrite Hv; by eapply call_answered).
    unfold reply in *. destruct (d !! k).
    + exists (an_reply reply_nil). split; [done|by left].
    + by exists (an_reply (reply_status "OK")).
  - destruct Ha as [->|[e ->]]; by apply Hfail.
Qed.

Lemma RedisIncrement_call p suffix w :
  command (entry_key key) counter_key p = Some (cmd_incrby (full_redis_prefix dataset +:+ suffix) 1) ->
  let '((result, n), w') := StorageService.RedisIncrement storage dataset_name suffix 1 0 w in
  exists a, calls (p, redis_view c w) (next p a, redis_view c w') /\
    if sc_ok result then a = an_reply (reply_integer n) else forall z, a <> an_reply (reply_integer z).
Proof.
  intros Hp. unfold StorageService.RedisIncrement.
  rewrite (StorageProofs.with_redis_run storage dataset_name dataset c Hdataset Hredis Hprefix).
  set (k := full_redis_prefix dataset +:+ suffix) in *. set (d := redis_view c w).
  assert (exists reply d', kv_exec no_scripts (cmd_incrby k 1) d = Some (reply, d') /\
            match reply with reply_integer _ | reply_error _ => True | _ => False end) as (reply & d' & E & Hr).
  { cbn [kv_exec]. destruct (stored_counter (d !! k)); [case_match|]; by eexists _, _. }
  pose proof (command_cases (cmd_incrby k 1) w _ _ E) as Hc.
  destruct (redisCommand c (cmd_incrby k 1) w) as [a w']. destruct Hc as [[-> Hv]|[Ha Hv]].
  - assert (calls (p, d) (next p (an_reply reply), d')) by by eapply call_answered.
    destruct reply as [| |e|z|]; try done; [exists (an_reply (reply_error e))|exists (an_reply (reply_integer z))];
      rewrite Hv; by split.
  - destruct Ha as [->|[e ->]]; (exists (an_failure ""); split; [by eapply call_failure|done]).
Qed.

Lemma prepare_counter_calls w :
  rtc calls (pc_get_counter, redis_view c w) (pc_increment, redis_view c (prepare_counter storage dataset_name w).2).
Proof.
  unfold prepare_counter. pose proof (RedisGet_call pc_get_counter BuildNextPlayerIdSuffix w eq_refl) as Hg.
  destruct (StorageService.RedisGet _ _ _ _ w) as [[result value] w1]. destruct Hg as (a & Hcall & Ha).
  eapply rtc_l; [exact Hcall|]. clear Hcall. destruct (sc_ok result); cbn [negb].
  - subst a. cbn [next]. destruct (stoll value) as [n|]; [destruct (n <? 99999)|].
    + destruct (RedisSet_call pc_reset_counter BuildNextPlayerIdSuffix "99999" w1 eq_refl) as [a Hs]. by apply rtc_once.
    + done.
    + destruct (RedisSet_call pc_reset_counter BuildNextPlayerIdSuffix "99999" w1 eq_refl) as [a Hs]. by apply rtc_once.
  - assert (next pc_get_counter a = pc_init_counter) as ->.
    { destruct a as [[v| | | |]|]; try done. by destruct (Ha v). }
    pose proof (RedisSetIfAbsent_call pc_init_counter BuildNextPlayerIdSuffix "99999" w1 eq_refl) as Hs. cbn [snd].
    destruct (StorageService.RedisSetIfAbsent _ _ _ _ w1) as [result' w2]. destruct Hs as (a' & Hs & _). by apply rtc_once.
Qed.

Lemma create_loop_calls fuel w :
  (create_loop fuel storage dataset_name key w).1 <> le_fuel ->
  rtc calls (pc_get_counter, redis_view c w)
    (pc_exit (create_loop fuel storage dataset_name key w).1, redis_view c (create_loop fuel storage dataset_name key w).2).
Proof.
  revert w. induction fuel as [|fuel IH]; intros w; [done|]. cbn [create_loop].
  pose proof (prepare_counter_calls w) as H0. destruct (prepare_counter storage dataset_name w) as [u w1]. cbn [snd] in H0.
  pose proof (RedisIncrement_call pc_increment BuildNextPlayerIdSuffix w1 eq_refl) as Hi.
  destruct (StorageService.RedisIncrement _ _ _ _ _ w1) as [[increment n] w2]. destruct Hi as (ai & Hi & Hai).
  destruct (sc_ok increment); cbn [negb]; intros Hfuel; (etransitivity; [exact H0|]; eapply rtc_l; [exact Hi|]).
  2:{ assert (next pc_increment ai = pc_exit le_break) as ->; [|done].
      destruct ai as [[| | |z|]|]; try done. by destruct (Hai z). }
  subst ai. cbn [next]. revert Hfuel. clear Hi H0.
  pose proof (RedisSetIfAbsent_call (pc_create (u64 n)) (BuildDirectoryEntrySuffix key) (to_string (u64 n)) w2 eq_refl) as Hc.
  destruct (StorageService.RedisSetIfAbsent _ _ _ _ w2) as [create w3]. destruct Hc as (ac & Hc & Hac).
  destruct (sc_ok create); [intros _; subst ac; by apply rtc_once|].
  destruct (String.eqb_spec (sc_message create) "exists") as [Em|Em]; cbn [negb]; intros Hfuel; (eapply rtc_l; [exact Hc|]).
  2:{ subst ac. cbn [next]. destruct (String.eqb_spec (sc_message create) "exists"); done. }
  assert (next (pc_create (u64 n)) ac = pc_retry_get) as -> by by destruct Hac as [-> | ->].
  revert Hfuel. clear Hc Hac.
  pose proof (RedisGet_call pc_retry_get (BuildDirectoryEntrySuffix key) w3 eq_refl) as Hg.
  destruct (StorageService.RedisGet _ _ _ _ w3) as [[retry value] w4]. destruct Hg as (ag & Hg & Hag).
  destruct (sc_ok retry); intros Hfuel; (eapply rtc_l; [exact Hg|]); [by subst ag|].
  assert (next pc_retry_get ag = pc_get_counter) as ->; [|by apply IH].
  destruct ag as [[v| | | |]|]; try done. by destruct (Hag v).
Qed.

(** Every run of [resolve_in_redis] is a run of the machine on the database. *)
Lemma resolve_calls fuel w :
  (resolve_in_redis fuel storage dataset_name key w).1 <> le_fuel ->
  rtc calls (pc_get_entry, redis_view c w)
    (pc_exit (resolve_in_redis fuel storage dataset_name key w).1, redis_view c (resolve_in_redis fuel storage dataset_name key w).2).
Proof.
  unfold resolve_in_redis. pose proof (RedisGet_call pc_get_entry (BuildDirectoryEntrySuffix key) w eq_refl) as Hg.
  destruct (StorageService.RedisGet _ _ _ _ w) as [[get value] w1]. destruct Hg as (a & Hg & Ha).
  destruct (sc_ok get); intros Hfuel; (eapply rtc_l; [exact Hg|]); [by subst a|].
  assert (next pc_get_entry a = pc_get_counter) as ->; [|by apply create_loop_calls].
  destruct a as [[v| | | |]|]; try done. by destruct (Ha v).
Qed.

(** When Redis answers, the loop ends in its first turn: an entry that exists can be read. *)
Lemma create_loop_first_turn fuel w :
  (forall k v x, exists a, (redisCommand c (cmd_set_nx k v) x).1 = Some a /\ is_error a = false) ->
  (forall k x, exists a, (redisCommand c (cmd_get k) x).1 = Some a /\ is_error a = false) ->
  (create_loop (S fuel) storage dataset_name key w).1 <> le_fuel.
Proof.
  intros Hnx Hget. cbn [create_loop]. destruct (prepare_counter storage dataset_name w) as [u w1].
  destruct (StorageService.RedisIncrement _ _ _ _ _ w1) as [[increment n] w2].
  destruct (sc_ok increment); cbn [negb]; [|done].
  unfold StorageService.RedisSetIfAbsent.
  rewrite (StorageProofs.with_redis_run storage dataset_name dataset c Hdataset Hredis Hprefix).
  set (k := full_redis_prefix dataset +:+ BuildDirectoryEntrySuffix key). set (v := to_string (u64 n)).
  destruct (Hnx k v w2) as (a & Ha & Hea). pose proof (redis_set_nx_nil c k v w2) as Hnil.
  assert (a = reply_nil \/ a = reply_status "OK") as Hcases.
  { destruct (redis_view c w2 !! k) eqn:Ek;
      destruct (redis_view_answer c (cmd_set_nx k v) w2 _ _ a ltac:(cbn [kv_exec]; rewrite Ek; reflexivity) Ha Hea); auto. }
  destruct (redisCommand c (cmd_set_nx k v) w2) as [x w3]. simpl in Ha, Hnil. subst x.
  destruct Hcases as [-> | ->]; [|done]. cbn -[StorageService.RedisGet].
  unfold StorageService.RedisGet. rewrite (StorageProofs.with_redis_run storage dataset_name dataset c Hdataset Hredis Hprefix).
  fold k. destruct (Hget k w3) as (b & Hb & Heb). destruct (Hnil eq_refl) as [[y Hy] Hview].
  destruct (redis_view_answer c (cmd_get k) w3 _ _ b eq_refl Hb Heb) as [E _]. rewrite Hview, Hy in E.
  destruct (redisCommand c (cmd_get k) w3) as [x w4]. simpl in Hb. subst x b. cbn. unfold read_id. by destruct (stoull y).
Qed.

End calls.
End refinement.

(** *** Ids are unique *)

Section unique.
Context (E : string -> string) (C : string).
Context (E_inj : forall k k', E k = E k' -> k = k') (E_counter : forall k, E k <> C).

Definition max_counter : Z := 9223372036854775807.

(** An initialised directory: the counter is set and above all ids, which are distinct. *)
Definition wf_directory (n : Z) (d : kv) : Prop :=
  99999 <= n <= max_counter /\ d !! C = Some (to_string n) /\
  (forall k v, d !! E k = Some v -> exists id, v = to_string id /\ 100000 <= id <= n) /\
  (forall k k' v, d !! E k = Some v -> d !! E k' = Some v -> k = k').

Definition pc_ok (n : Z) (d : kv) (rq : request) : Prop :=
  match rq_pc rq with
  | pc_reset_counter => False
  | pc_create id => 100000 <= id <= n /\ forall k, d !! E k <> Some (to_string id)
  | pc_exit (le_found id _) => d !! E (rq_key rq) = Some (to_string id)
  | pc_exit le_throw => False
  | pc_exit le_fuel => False
  | _ => True
  end.

Definition creating (rq : request) (id : Z) : Prop := rq_pc rq = pc_create id.
Definition created_new (rq : request) : Prop := exists id, rq_pc rq = pc_exit (le_found id true).

Definition inv_at (n : Z) (ps : pool) : Prop :=
  wf_directory n (database ps) /\
  (forall i rq, requests ps !! i = Some rq -> pc_ok n (database ps) rq) /\
  (forall i j rq rq' id, requests ps !! i = Some rq -> requests ps !! j = Some rq' -> creating rq id -> creating rq' id -> i = j) /\
  (forall i j rq rq', requests ps !! i = Some rq -> requests ps !! j = Some rq' -> created_new rq -> created_new rq' ->
     rq_key rq = rq_key rq' -> i = j).

(** One request moves to [p'], the database to [d']. *)
Lemma inv_update n n' ps i rq p' d' :
  inv_at n ps -> requests ps !! i = Some rq -> n <= n' -> wf_directory n' d' ->
  (forall k v, database ps !! E k = Some v -> d' !! E k = Some v) ->
  (forall k v, d' !! E k = Some v -> database ps !! E k = Some v \/ exists id, v = to_string id /\ creating rq id) ->
  pc_ok n' d' (mkRequest (rq_key rq) p') ->
  (forall id, p' = pc_create id -> n < id) ->
  (forall id, p' = pc_exit (le_found id true) -> database ps !! E (rq_key rq) = None) ->
  inv_at n' (mkPool (<[i := mkRequest (rq_key rq) p']> (requests ps)) d').
Proof.
  intros (Hwf & Hpc & Hcr & Hnew) Hi Hn Hwf' Hkeep Hfrom Hp Hid Hc. split; [done|]. split; [|split]; cbn [requests database].
  - intros j rj [[<- <-]|[Hne Hj]]%lookup_insert_Some; [done|]. pose proof (Hpc j rj Hj) as Hok. unfold pc_ok in *.
    destruct (rq_pc rj) as [| | | | |id| |e] eqn:Ep; try done.
    + destruct Hok as [Hrange Hno]. split; [lia|]. intros k Hk. destruct (Hfrom k _ Hk) as [Hk'|(id' & Eid & Hcre)].
      * by apply (Hno k).
      * assert (in_u64 id') as Hr' by (pose proof (Hpc i rq Hi) as Hx; unfold pc_ok, creating in *; rewrite Hcre in Hx;
          unfold in_u64; destruct Hwf as (? & _); unfold max_counter in *; lia).
        apply to_string_inj in Eid; [|lia|unfold in_u64 in Hr'; lia]. subst id'. apply Hne. by apply (Hcr i j rq rj id).
    + destruct e; try done. by apply Hkeep.
  - intros j k rj rk id [[<- <-]|[Hne Hj]]%lookup_insert_Some [[<- <-]|[Hne' Hk]]%lookup_insert_Some H1 H2; [done| | |by eapply Hcr].
    + exfalso. unfold creating in *. simpl in H1. pose proof (Hpc k rk Hk) as Hx. unfold pc_ok in Hx. rewrite H2 in Hx.
      pose proof (Hid id H1). lia.
    + exfalso. unfold creating in *. simpl in H2. pose proof (Hpc j rj Hj) as Hx. unfold pc_ok in Hx. rewrite H1 in Hx.
      pose proof (Hid id H2). lia.
  - assert (forall j rj, requests ps !! j = Some rj -> created_new rj -> created_new (mkRequest (rq_key rq) p') ->
              rq_key rj = rq_key rq -> False) as Hno.
    { intros j rj Hj [id Hid'] [id' Hp'] Ek. simpl in Hp'. pose proof (Hpc j rj Hj) as Hx. unfold pc_ok in Hx.
      rewrite Hid' in Hx. rewrite Ek, (Hc id' Hp') in Hx. done. }
    intros j k rj rk [[<- <-]|[Hne Hj]]%lookup_insert_Some [[<- <-]|[Hne' Hk]]%lookup_insert_Some H1 H2 Ek; [done| | |by eapply Hnew].
    + destruct (Hno k rk Hk H2 H1 (eq_sym Ek)).
    + destruct (Hno j rj Hj H1 H2 Ek).
Qed.

(** A call that leaves the database alone. *)
Lemma inv_same n ps i rq p' :
  inv_at n ps -> requests ps !! i = Some rq -> pc_ok n (database ps) (mkRequest (rq_key rq) p') ->
  (forall id, p' <> pc_create id) -> (forall id, p' <> pc_exit (le_found id true)) ->
  inv_at n (mkPool (<[i := mkRequest (rq_key rq) p']> (requests ps)) (database ps)).
Proof.
  intros Hinv Hi Hp H1 H2. apply (inv_update n n ps i rq p' (database ps)); [done|done|lia|apply Hinv|done|by left|done| |].
  - intros id E1. by destruct (H1 id).
  - intros id E1. by destruct (H2 id).
Qed.

Lemma read_entry n d k v : wf_directory n d -> d !! E k = Some v -> exists id, read_id v = le_found id false /\ v = to_string id.
Proof.
  intros (Hn & _ & He & _) Hv. destruct (He k v Hv) as (id & -> & Hid). exists id. split; [|done].
  unfold read_id. rewrite stoull_to_string; [done|]. unfold in_u64, max_counter in *. lia.
Qed.

Lemma signed_nonneg n : 0 <= n -> signed_string n = to_string n.
Proof. intros Hn. unfold signed_string. by destruct (Z.ltb_spec n 0); [lia|]. Qed.

Lemma wf_increment n d : wf_directory n d -> n < max_counter -> wf_directory (n + 1) (<[C := to_string (n + 1)]> d).
Proof.
  intros (Hn & Hc & He & Hi) Hlt. split; [lia|]. split; [by rewrite lookup_insert_eq|]. split.
  - intros k v. rewrite lookup_insert_ne by (intros E1; by destruct (E_counter k)). intros Hv.
    destruct (He k v Hv) as (id & ? & ?). exists id. split; [done|lia].
  - intros k k' v. rewrite !lookup_insert_ne by (intros E1; by eapply E_counter). apply Hi.
Qed.

Lemma wf_new_entry n d key id :
  wf_directory n d -> 100000 <= id <= n -> (forall k, d !! E k <> Some (to_string id)) ->
  wf_directory n (<[E key := to_string id]> d).
Proof.
  intros (Hn & Hc & He & Hi) Hid Hno. split; [done|]. split; [rewrite lookup_insert_ne by done; done|]. split.
  - intros k v [[_ <-]|[_ Hv]]%lookup_insert_Some; [by exists id|by apply (He k)].
  - intros k k' v [[E1 <-]|[_ Hv]]%lookup_insert_Some [[E2 E3]|[_ Hv']]%lookup_insert_Some.
    + apply E_inj. congruence.
    + by destruct (Hno k').
    + subst v. by destruct (Hno k).
    + by apply (Hi k k' v).
Qed.

Lemma inv_call n ps i rq p' d' :
  inv_at n ps -> requests ps !! i = Some rq -> call (E (rq_key rq)) C (rq_pc rq, database ps) (p', d') ->
  exists n', inv_at n' (mkPool (<[i := mkRequest (rq_key rq) p']> (requests ps)) d').
Proof.
  intros Hinv Hi Hcall. pose proof Hinv as (Hwf & Hpc & _). pose proof (Hpc i rq Hi) as Hok.
  pose proof Hwf as (Hn & Hc & _). unfold pc_ok in Hok.
  assert (exists cmd a, command (E (rq_key rq)) C (rq_pc rq) = Some cmd /\ p' = next (rq_pc rq) a /\
    ((exists reply, a = an_reply reply /\ kv_exec no_scripts cmd (database ps) = Some (reply, d')) \/
     (exists message, a = an_failure message /\
        (d' = database ps \/ exists reply, kv_exec no_scripts cmd (database ps) = Some (reply, d'))))) as (cmd & a & Ecmd & -> & Ha).
  { inversion Hcall; subst; eexists _, _; (split; [done|]; split; [done|]).
    - left. by eexists.
    - right. eexists. split; [done|]. by left.
    - right. eexists. split; [done|]. right. by eexists. }
  clear Hcall.
  (* the database after a read *)
  assert (forall k, cmd = cmd_get k -> d' = database ps) as Hget.
  { intros k ->. destruct Ha as [(reply & _ & Ex)|(m & _ & [?|(reply & Ex)])]; [|done|]; simpl in Ex; congruence. }
  destruct (rq_pc rq) as [| | | | |id| |e] eqn:Ep; simpl in Ecmd; try done; injection Ecmd as <-.
  - rewrite (Hget _ eq_refl). exists n. destruct Ha as [(reply & -> & Ex)|(m & -> & _)]; [|by apply inv_same].
    simpl in Ex. destruct (database ps !! E (rq_key rq)) as [v|] eqn:Ev; injection Ex as <- _; [|by apply inv_same].
    destruct (read_entry n _ _ v Hwf Ev) as (id & Er & ->). cbn [next]. rewrite Er. by apply inv_same.
  - rewrite (Hget _ eq_refl). exists n. destruct Ha as [(reply & -> & Ex)|(m & -> & _)]; [|by apply inv_same].
    simpl in Ex. rewrite Hc in Ex. injection Ex as <- _. cbn [next]. rewrite stoll_to_string by (unfold max_counter in *; lia).
    destruct (Z.ltb_spec n 99999); [lia|]. by apply inv_same.
  - assert (d' = database ps) as ->.
    { destruct Ha as [(reply & _ & Ex)|(m & _ & [?|(reply & Ex)])]; [|done|]; simpl in Ex; rewrite Hc in Ex; congruence. }
    exists n. by apply inv_same.
  - assert (kv_exec no_scripts (cmd_incrby C 1) (database ps)
      = if n <? max_counter then Some (reply_integer (n + 1), <[C := to_string (n + 1)]> (database ps))
        else Some (reply_error "ERR increment or decrement would overflow", database ps)) as Einc.
    { cbn [kv_exec]. unfold stored_counter. rewrite Hc, stoll_to_string by (unfold max_counter in *; lia).
      rewrite signed_nonneg, String.eqb_refl by lia. rewrite signed_nonneg by lia. unfold max_counter.
      destruct (Z.leb_spec (-9223372036854775808) (n + 1)); [|lia]. simpl.
      destruct (Z.leb_spec (n + 1) 9223372036854775807), (Z.ltb_spec n 9223372036854775807); try lia; done. }
    rewrite Einc in Ha. destruct (Z.ltb_spec n max_counter) as [Hlt|Hge].
    + assert (forall p, (p = pc_create (n + 1) \/ p = pc_exit le_break) ->
        inv_at (n + 1) (mkPool (<[i := mkRequest (rq_key rq) p]> (requests ps)) (<[C := to_string (n + 1)]> (database ps)))) as Hinc.
      { intros p Hp. apply (inv_update n (n + 1) ps i rq); [done|done|lia|by apply wf_increment| | | | |].
        - intros k v. by rewrite lookup_insert_ne by (intros E1; by destruct (E_counter k)).
        - intros k v. rewrite lookup_insert_ne by (intros E1; by destruct (E_counter k)). by left.
        - destruct Hp as [-> | ->]; [|done]. split; [lia|]. intros k. simpl.
          rewrite lookup_insert_ne by (intros E1; by destruct (E_counter k)). intros Hk.
          destruct Hwf as (_ & _ & He & _). destruct (He k _ Hk) as (id & Eid & Hid). apply to_string_inj in Eid; lia.
        - intros id E1. destruct Hp as [-> | ->]; [|done]. injection E1 as <-. lia.
        - intros id E1. by destruct Hp as [-> | ->]. }
      destruct Ha as [(reply & -> & Ex)|(m & -> & [->|(reply & Ex)])].
      * injection Ex as <- <-. exists (n + 1). cbn [next]. rewrite u64_id by (unfold in_u64, max_counter in *; lia). apply Hinc. by left.
      * exists n. by apply inv_same.
      * injection Ex as <- <-. exists (n + 1). apply Hinc. by right.
    + exists n. destruct Ha as [(reply & -> & Ex)|(m & -> & [->|(reply & Ex)])]; [injection Ex as <- <-| |injection Ex as <- <-]; by apply inv_same.
  - destruct Hok as [Hid Hno]. cbn [kv_exec] in Ha. exists n.
    assert (forall m, next (pc_create id) (an_failure m) = pc_retry_get \/ next (pc_create id) (an_failure m) = pc_exit le_break) as Hm.
    { intros m. cbn [next]. destruct (String.eqb m "exists"); auto. }
    destruct (database ps !! E (rq_key rq)) as [v|] eqn:Ev.
    + assert (d' = database ps) as -> by (destruct Ha as [(reply & _ & Ex)|(m & _ & [?|(reply & Ex)])]; [congruence|done|congruence]).
      destruct Ha as [(reply & -> & Ex)|(m & -> & _)]; [injection Ex as <-; by apply inv_same|].
      destruct (Hm m) as [-> | ->]; by apply inv_same.
    + assert (forall p, (p = pc_exit (le_found id true) \/ p = pc_retry_get \/ p = pc_exit le_break) ->
        inv_at n (mkPool (<[i := mkRequest (rq_key rq) p]> (requests ps)) (<[E (rq_key rq) := to_string id]> (database ps)))) as Hins.
      { intros p Hp. apply (inv_update n n ps i rq); [done|done|lia|by apply wf_new_entry| | | | |].
        - intros k v Hk. rewrite lookup_insert_ne; [done|]. intros E1%E_inj. subst k. congruence.
        - intros k v [[_ <-]|[_ Hk]]%lookup_insert_Some; [right; by exists id|by left].
        - destruct Hp as [-> | [-> | ->]]; try done. unfold pc_ok. simpl. by rewrite lookup_insert_eq.
        - intros x E1. by destruct Hp as [-> | [-> | ->]].
        - done. }
      destruct Ha as [(reply & -> & Ex)|(m & -> & [->|(reply & Ex)])].
      * injection Ex as <- <-. apply Hins. by left.
      * destruct (Hm m) as [-> | ->]; by apply inv_same.
      * injection Ex as <- <-. apply Hins. destruct (Hm m); auto.
  - rewrite (Hget _ eq_refl). exists n. destruct Ha as [(reply & -> & Ex)|(m & -> & _)]; [|by apply inv_same].
    simpl in Ex. destruct (database ps !! E (rq_key rq)) as [v|] eqn:Ev; injection Ex as <- _; [|by apply inv_same].
    destruct (read_entry n _ _ v Hwf Ev) as (id & Er & ->). cbn [next]. rewrite Er. by apply inv_same.
Qed.

Lemma pool_inv_step n ps ps' : inv_at n ps -> step E C ps ps' -> exists n', inv_at n' ps'.
Proof.
  intros Hinv Hstep. destruct Hstep as [i key ps Hi|i rq p' d' ps Hi Hcall]; [|by eapply inv_call].
  exists n. destruct Hinv as (Hwf & Hpc & Hcr & Hnew). split; [done|]. split; [|split]; simpl.
  - intros j rj [[<- <-]|[_ Hj]]%lookup_insert_Some; [done|by apply (Hpc j)].
  - intros j k rj rk id [[<- <-]|[_ Hj]]%lookup_insert_Some [[<- <-]|[_ Hk]]%lookup_insert_Some H1 H2; [done|done|done|by eapply Hcr].
  - intros j k rj rk [[<- <-]|[_ Hj]]%lookup_insert_Some [[<- <-]|[_ Hk]]%lookup_insert_Some H1 H2 Ek; [done| | |by eapply Hnew].
    + by destruct H1.
    + by destruct H2.
Qed.

Lemma pool_inv_reachable n d ps : wf_directory n d -> rtc (step E C) (mkPool ∅ d) ps -> exists n', inv_at n' ps.
Proof.
  intros Hwf Hr. assert (exists n', inv_at n' (mkPool ∅ d)) as H0 by (exists n; by split).
  remember (mkPool ∅ d) as ps0 eqn:E0. clear E0. induction Hr as [|x y z Hs _ IH]; [done|].
  destruct H0 as [m Hm]. apply IH. by eapply pool_inv_step.
Qed.

End unique.
End DirectoryProofs.

(** ** Properties *)

Section directory_properties.
Import PlayerDirectoryService DirectoryMachine DirectoryProofs.

Lemma entry_key_inj dataset k k' : entry_key dataset k = entry_key dataset k' -> k = k'.
Proof. unfold entry_key, BuildDirectoryEntrySuffix. by intros E%StorageProofs.app_inj_head%StorageProofs.app_inj_head. Qed.

Lemma entry_key_counter dataset k : entry_key dataset k <> counter_key dataset.
Proof. unfold entry_key, counter_key. by intros E%StorageProofs.app_inj_head. Qed.


(** C26: the machine is faithful: a call of [ResolveOrCreate] for a key that is not
    cached is a run of the machine on the contents of the database, whatever Redis
    answers; it returns what the machine ends with, counting by itself where the
    machine gives up; and when Redis answers, the loop ends in its first turn. *)
Theorem resolve_refines_machine {W : Type} {r : Redis W} {law : RedisLaw no_scripts W} (fuel : nat)
    (s : t) (storage : StorageService.t) (dataset : ResolvedDatasetConfiguration) (c : redisContext)
    (platform account_id : string) (area_id : Z) (w : W) :
  let key := MakeKey platform account_id area_id in
  mStorageService s = Some storage -> mEntries s !! key = None ->
  StorageService.GetDataset storage (mDatasetName s) = Some dataset ->
  StorageService.GetRedisForDataset storage (mDatasetName s) = Some c -> full_redis_prefix dataset <> "" ->
  let '(result, (s', w')) := ResolveOrCreate fuel platform account_id area_id (s, w) in
  (result <> out_of_fuel ->
   exists e, rtc (call (entry_key dataset key) (counter_key dataset)) (pc_get_entry, redis_view c w) (pc_exit e, redis_view c w') /\
     match e with
     | le_found id created => result = returned (mkPlayerDirectoryResolveResult id created) /\ mEntries s' !! key = Some id
     | le_break => result = returned (mkPlayerDirectoryResolveResult (mNextPlayerId s) true) /\
                   mEntries s' !! key = Some (mNextPlayerId s) /\ mNextPlayerId s' = u64 (mNextPlayerId s + 1)
     | le_throw => result = thrown /\ s' = s
     | le_fuel => False
     end) /\
  ((forall k v x, exists a, (redisCommand c (cmd_set_nx k v) x).1 = Some a /\ is_error a = false) ->
   (forall k x, exists a, (redisCommand c (cmd_get k) x).1 = Some a /\ is_error a = false) ->
   (0 < fuel)%nat -> result <> out_of_fuel).
Proof.
  intros key Hs Hkey Hd Hc Hp. unfold ResolveOrCreate. fold key. rewrite Hkey, Hs.
  pose proof (resolve_calls storage (mDatasetName s) dataset c Hd Hc Hp key fuel w) as Hrun.
  assert ((forall k v x, exists a, (redisCommand c (cmd_set_nx k v) x).1 = Some a /\ is_error a = false) ->
   (forall k x, exists a, (redisCommand c (cmd_get k) x).1 = Some a /\ is_error a = false) ->
   (0 < fuel)%nat -> (resolve_in_redis fuel storage (mDatasetName s) key w).1 <> le_fuel) as Hfirst.
  { intros H1 H2 H3. destruct fuel as [|fuel]; [lia|]. unfold resolve_in_redis.
    destruct (StorageService.RedisGet _ _ _ _ w) as [[get value] w1]. destruct (sc_ok get); [unfold read_id; by destruct (stoull value)|].
    by apply (create_loop_first_turn storage (mDatasetName s) dataset c Hd Hc Hp key fuel w1). }
  assert (forall id s0, mEntries s0 = mEntries s -> mEntries (emplace key id s0) !! key = Some id) as Hemplace.
  { intros id s0 E0. unfold emplace. rewrite E0, Hkey. simpl. by rewrite lookup_insert_eq. }
  destruct (resolve_in_redis fuel storage (mDatasetName s) key w) as [e w']. cbn [fst snd] in *.
  destruct e as [id created| | |]; cbn [local_player_id].
  - split; [|done]. intros _. exists (le_found id created). split; [by apply Hrun|]. split; [done|by apply Hemplace].
  - split; [|done]. intros _. exists le_break. split; [by apply Hrun|]. split; [done|]. split; [by apply Hemplace|].
    unfold emplace. simpl. by rewrite Hkey.
  - split; [|done]. intros _. exists le_throw. split; [by apply Hrun|done].
  - split; [done|]. intros H1 H2 H3. by destruct (Hfirst H1 H2 H3).
Qed.

End directory_properties.

(** ** Where uniqueness ends *)

Section duplicates.
Import PlayerDirectoryService DirectoryMachine DirectoryProofs.

(** Runs one call that Redis answers. *)
Definition answered_call (E : string -> string) (C : string) (i : Z) (ps : pool) : option pool :=
  match requests ps !! i with
  | Some rq =>
      match command (E (rq_key rq)) C (rq_pc rq) with
      | Some cmd =>
          match kv_exec no_scripts cmd (database ps) with
          | Some (reply, d') => Some (mkPool (<[i := mkRequest (rq_key rq) (next (rq_pc rq) (an_reply reply))]> (requests ps)) d')
          | None => None
          end
      | None => None
      end
  | None => None
  end.

Lemma answered_call_step E C i ps ps' : answered_call E C i ps = Some ps' -> step E C ps ps'.
Proof.
  unfold answered_call. destruct (requests ps !! i) as [rq|] eqn:Hi; [|done].
  destruct (command (E (rq_key rq)) C (rq_pc rq)) as [cmd|] eqn:Hc; [|done].
  destruct (kv_exec no_scripts cmd (database ps)) as [[reply d']|] eqn:He; [|done]. intros [= <-].
  apply (st_call E C i rq); [done|]. by eapply call_answered.
Qed.

Fixpoint answered_calls (E : string -> string) (C : string) (l : list Z) (ps : pool) : option pool :=
  match l with
  | [] => Some ps
  | i :: l => answered_call E C i ps ≫= answered_calls E C l
  end.

Lemma answered_calls_steps E C l ps ps' : answered_calls E C l ps = Some ps' -> rtc (step E C) ps ps'.
Proof.
  revert ps. induction l as [|i l IH]; intros ps; simpl; [by intros [= ->]|].
  destruct (answered_call E C i ps) as [ps1|] eqn:E1; [|done]. intros Hr. eapply rtc_l; [by eapply answered_call_step|by apply IH].
Qed.

(** The pool after a list of answered calls, by what can be seen of it. *)
Lemma answered_calls_reach {A} E C l ps (see : pool -> A) a :
  see <$> answered_calls E C l ps = Some a ->
  exists ps', rtc (step E C) ps ps' /\ answered_calls E C l ps = Some ps' /\ see ps' = a.
Proof. intros (ps' & H & ->)%fmap_Some_1. exists ps'. split; [by eapply answered_calls_steps|done]. Qed.

(** Three requests for different accounts on an empty database. *)
Definition three_requests : pool :=
  mkPool (<[3 := mkRequest "web:carol:1" pc_get_entry]> (<[2 := mkRequest "web:bob:1" pc_get_entry]>
    (<[1 := mkRequest "web:alice:1" pc_get_entry]> ∅))) ∅.

(** Without an initialised counter one failed command is enough for two accounts
    to get the same player id: the first request fails to set the counter to 99999
    and counts from nothing, the second reads a counter below 99999 and resets it
    after the third has done so and created a player. *)
Theorem counter_reset_duplicates (dataset : ResolvedDatasetConfiguration) :
  full_redis_prefix dataset = "dev:player:" ->
  exists ps, rtc (step (entry_key dataset) (counter_key dataset)) (mkPool ∅ ∅) ps /\
    database ps !! entry_key dataset "web:bob:1" = Some "100000" /\
    database ps !! entry_key dataset "web:carol:1" = Some "100000".
Proof.
  intros Hp. set (E := fun k : string => "dev:player:" +:+ BuildDirectoryEntrySuffix k). set (C := "dev:player:directory:next_player_id").
  assert (entry_key dataset = E /\ counter_key dataset = C) as [-> ->] by (unfold entry_key, counter_key; by rewrite Hp).
  assert (rtc (step E C) (mkPool ∅ ∅) three_requests) as H1.
  { eapply rtc_l; [by apply (st_request E C 1 "web:alice:1")|]. eapply rtc_l; [by apply (st_request E C 2 "web:bob:1")|].
    eapply rtc_l; [by apply (st_request E C 3 "web:carol:1")|]. done. }
  set (after_failure := fun ps => mkPool (<[1 := mkRequest "web:alice:1" pc_increment]> (requests ps)) (database ps)).
  destruct (answered_calls_reach E C [1; 1] three_requests (fun ps => requests ps !! 1) (Some (mkRequest "web:alice:1" pc_init_counter)))
    as (p2 & H2 & E2 & R2); [by vm_compute|].
  assert (step E C p2 (after_failure p2)) as H3.
  { apply (st_call E C 1 (mkRequest "web:alice:1" pc_init_counter)); [done|].
    by apply (call_failed (E "web:alice:1") C pc_init_counter _ (cmd_set_nx C "99999") "connection reset"). }
  assert (exists p4, rtc (step E C) (after_failure p2) p4 /\
    (database p4 !! E "web:bob:1", database p4 !! E "web:carol:1") = (Some "100000", Some "100000")) as (p4 & H4 & [= Rb Rc]).
  { assert (p2 = default three_requests (answered_calls E C [1; 1] three_requests)) as -> by (by rewrite E2).
    destruct (answered_calls_reach E C [1; 1; 2; 2; 3; 3; 3; 3; 3; 2; 2; 2] (after_failure (default three_requests (answered_calls E C [1; 1] three_requests)))
      (fun ps => (database ps !! E "web:bob:1", database ps !! E "web:carol:1")) (Some "100000", Some "100000")) as (p4 & H4 & _ & R4);
      [by vm_compute|by exists p4]. }
  exists p4. split; [|done]. etransitivity; [exact H1|]. etransitivity; [exact H2|]. eapply rtc_l; [exact H3|exact H4].
Qed.

(** A process that cannot use Redis counts by itself from 100000, the id that the
    first player created through Redis gets as well. *)
Lemma local_ids_collide {W : Type} `{Redis W} fuel platform account_id area_id (w : W) :
  (ResolveOrCreate fuel platform account_id area_id (create None "player", w)).1
    = returned (mkPlayerDirectoryResolveResult 100000 true).
Proof. done. Qed.

(** The parts of a key are not delimited: different accounts may share a key. *)
Lemma MakeKey_collision : MakeKey "web" "eu:alice" 1 = MakeKey "web:eu" "alice" 1.
Proof. done. Qed.

Lemma counter_reset_duplicates_witness :
  exists ps, rtc (step (entry_key ExampleServers.example_dataset) (counter_key ExampleServers.example_dataset)) (mkPool ∅ ∅) ps /\
    database ps !! entry_key ExampleServers.example_dataset "web:bob:1" = Some "100000" /\
    database ps !! entry_key ExampleServers.example_dataset "web:carol:1" = Some "100000".
Proof. exact (counter_reset_duplicates ExampleServers.example_dataset eq_refl). Defined.

(** Two requests for two accounts and one for an account that exists. *)
Definition initialised_database : kv :=
  {["dev:player:directory:next_player_id" := "100000"; "dev:player:directory:entry:web:alice:1" := "100000"]}.

Lemma initialised_wf :
  wf_directory (entry_key ExampleServers.example_dataset) (counter_key ExampleServers.example_dataset) 100000 initialised_database.
Proof.
  split; [unfold max_counter; lia|]. split; [by vm_compute|].
  assert (forall k v, initialised_database !! entry_key ExampleServers.example_dataset k = Some v -> k = "web:alice:1" /\ v = "100000") as Hk.
  { intros k v. unfold initialised_database. intros [[Hc _]|[_ [Ha <-]%lookup_singleton_Some]]%lookup_insert_Some; [done|].
    split; [|done]. unfold entry_key, BuildDirectoryEntrySuffix in Ha. change (full_redis_prefix ExampleServers.example_dataset) with "dev:player:" in Ha.
    by injection Ha. }
  split.
  - intros k v [_ ->]%Hk. exists 100000. split; [by vm_compute|lia].
  - intros k k' v [-> _]%Hk [-> _]%Hk. done.
Qed.

Definition two_requests : pool :=
  mkPool (<[2 := mkRequest "web:bob:1" pc_get_entry]> (<[1 := mkRequest "web:alice:1" pc_get_entry]> ∅)) initialised_database.


Lemma resolve_refines_machine_witness :
  let run := @ResolveOrCreate ExampleServers.servers (ExampleServers.example_redis true) 1 "web" "bob" 1
    (create (Some ExampleServers.example_service) "player", ExampleServers.mkServers initialised_database ∅ None) in
  run.1 = returned (mkPlayerDirectoryResolveResult 100001 true) /\
  exists e, rtc (call (entry_key ExampleServers.example_dataset "web:bob:1") (counter_key ExampleServers.example_dataset))
    (pc_get_entry, initialised_database) (pc_exit e, ExampleServers.sv_redis run.2.2).
Proof.
  pose proof (@resolve_refines_machine ExampleServers.servers (ExampleServers.example_redis true) (ExampleServers.example_redis_law true) 1
    (create (Some ExampleServers.example_service) "player") ExampleServers.example_service ExampleServers.example_dataset 1
    "web" "bob" 1 (ExampleServers.mkServers initialised_database ∅ None) eq_refl eq_refl eq_refl eq_refl ltac:(discriminate)) as Hr.
  cbv zeta. assert ((@ResolveOrCreate ExampleServers.servers (ExampleServers.example_redis true) 1 "web" "bob" 1
    (create (Some ExampleServers.example_service) "player", ExampleServers.mkServers initialised_database ∅ None)).1
    = returned (mkPlayerDirectoryResolveResult 100001 true)) as E by by vm_compute.
  destruct (@ResolveOrCreate _ _ _ _ _ _ _) as [result [s' w']]. simpl in E. subst result.
  split; [done|]. destruct Hr as [Hr _]. destruct (Hr ltac:(discriminate)) as (e & He & _). by exists e.
Defined.
End duplicates.
