(* ===== verification/Repository.v ===== *)
(** * Repository: [game/services/player_repository.cpp] and [player_runtime_service.cpp]

    The data of the players a game has loaded, with what is not saved yet, and
    the instances that handle the players' commands.  Every operation reads the
    clock once; the source reads it anew for each time stamp of a call. *)

From S2P Require Import Prelude Text Base Redis Storage.
From Stdlib Require Import Ascii.

(** [pb::PlayerData]; a part that is not set reads as its defaults. *)
Record PlayerData : Type := mkPlayerData {
  pd_player_id : Z;
  pd_display_name : string;
  pd_created_at_ms : Z;
  pd_last_login_at_ms : Z;
  pd_level : Z;
  pd_experience : Z;
  pd_login_count : Z;
  pd_opaque_blob : string
}.
#[export] Instance eta_player_data : Eta PlayerData := fun d =>
  mkPlayerData (pd_player_id d) (pd_display_name d) (pd_created_at_ms d) (pd_last_login_at_ms d) (pd_level d)
    (pd_experience d) (pd_login_count d) (pd_opaque_blob d).
#[export] Instance player_data_eq_dec : EqDecision PlayerData.
Proof. solve_decision. Defined.

Definition cleared : PlayerData := mkPlayerData 0 "" 0 0 0 0 0 "".

(** The generated code.  Parsing clears the message first; a text that cannot be
    parsed leaves some message behind. *)
Class PlayerDataCodec : Type := {
  SerializeToString : PlayerData -> option string;
  ParseFromString : string -> bool * PlayerData
}.

(** What can be sent is read back. *)
Class PlayerDataCodecLaw `{PlayerDataCodec} (fits : PlayerData -> Prop) : Prop :=
  parse_serialized : forall d payload, fits d -> SerializeToString d = Some payload -> ParseFromString payload = (true, d).

Record PlayerRepositoryRecord : Type := mkPlayerRepositoryRecord {
  loaded : bool;
  dirty : bool;
  pending_initial_persist : bool;
  created_without_maria : bool;
  load_count : Z;
  flush_count : Z;
  last_load_ms : Z;
  last_dirty_ms : Z;
  last_flush_ms : Z;
  data : PlayerData
}.
#[export] Instance eta_repository_record : Eta PlayerRepositoryRecord := fun r =>
  mkPlayerRepositoryRecord (loaded r) (dirty r) (pending_initial_persist r) (created_without_maria r) (load_count r)
    (flush_count r) (last_load_ms r) (last_dirty_ms r) (last_flush_ms r) (data r).

Definition new_record : PlayerRepositoryRecord := mkPlayerRepositoryRecord false false false false 0 0 0 0 0 cleared.

Definition InitializeDefaultPlayerData (now player_id : Z) : PlayerRepositoryRecord :=
  mkPlayerRepositoryRecord false false false false 0 0 0 0 0
    (mkPlayerData player_id ("player_" +:+ to_string player_id) now 0 1 0 0 "").

Module PlayerRepository.

Record t : Type := mkPlayerRepository {
  mStorageService : option StorageService.t;
  mDatasetName : string;
  mPlayers : gmap Z PlayerRepositoryRecord
}.
#[export] Instance eta_repository : Eta t := fun s => mkPlayerRepository (mStorageService s) (mDatasetName s) (mPlayers s).

Definition Snapshot (s : t) (player_id : Z) : option PlayerRepositoryRecord := mPlayers s !! player_id.

Definition LoadedPlayerIds {mo : MapOrder Z} (s : t) : list Z :=
  omap (fun '(player_id, record) => if loaded record then Some player_id else None) (entries (mPlayers s)).

Definition put (player_id : Z) (record : PlayerRepositoryRecord) (s : t) : t :=
  s <| mPlayers := <[player_id := record]> (mPlayers s) |>.

(** The default record of a player that is to be saved first. *)
Definition fresh_record (now player_id : Z) (without_maria : bool) : PlayerRepositoryRecord :=
  (InitializeDefaultPlayerData now player_id) <| dirty := true |> <| pending_initial_persist := true |>
    <| created_without_maria := without_maria |> <| last_dirty_ms := now |>.

(** The end of [LoadPlayer]. *)
Definition mark_loaded (now : Z) (record : PlayerRepositoryRecord) : PlayerRepositoryRecord :=
  record <| loaded := true |> <| last_load_ms := now |> <| load_count := u64 (load_count record + 1) |>.

Section operations.
Context {W : Type} `{Redis W} `{Maria W} `{PlayerDataCodec}.

Definition LoadPlayer (now player_id : Z) (allow_create_without_maria : bool) : St (t * W) Result :=
  fun '(s, w) =>
    match mStorageService s with
    | None => (Failure "storage service is not registered", (s, w))
    | Some storage =>
        match StorageService.GetDataset storage (mDatasetName s) with
        | None => (Failure "player dataset is not configured", (s, w))
        | Some _ =>
            let record := default new_record (mPlayers s !! player_id) in
            let '((result, value), w) := StorageService.DatasetGet storage (mDatasetName s) (to_string player_id) "" w in
            if sc_ok result then
              let '(parsed, d) := ParseFromString value in
              let record := record <| data := d |> in
              if negb parsed then (Failure "stored player data is corrupted", (put player_id record s, w))
              else (Success, (put player_id (mark_loaded now record) s, w))
            else if String.eqb (sc_message result) "not found" then
              (Success, (put player_id (mark_loaded now (fresh_record now player_id false)) s, w))
            else if allow_create_without_maria && String.eqb (sc_message result) "maria connection is unavailable" then
              (Success, (put player_id (mark_loaded now (fresh_record now player_id true)) s, w))
            else (Failure (sc_message result), (put player_id record s, w))
        end
    end.

(** What a successful flush leaves of the record. *)
Definition mark_flushed (now : Z) (record : PlayerRepositoryRecord) : PlayerRepositoryRecord :=
  record <| dirty := false |> <| pending_initial_persist := false |> <| created_without_maria := false |>
    <| last_dirty_ms := 0 |> <| last_flush_ms := now |> <| flush_count := u64 (flush_count record + 1) |>.

(** A loaded record has been read through the storage service, which therefore is
    there. *)
Definition FlushPlayer (now player_id : Z) : St (t * W) Result :=
  fun '(s, w) =>
    match mPlayers s !! player_id with
    | Some record =>
        if negb (loaded record) then (Failure "player is not loaded in repository", (s, w))
        else
          match SerializeToString (data record), mStorageService s with
          | Some payload, Some storage =>
              let '(store_result, w) := StorageService.DatasetPut storage (mDatasetName s) (to_string player_id) payload w in
              if negb (sc_ok store_result) then (Failure (sc_message store_result), (s, w))
              else (Success, (put player_id (mark_flushed now record) s, w))
          | _, _ => (Failure "failed to serialize player data", (s, w))
          end
    | None => (Failure "player is not loaded in repository", (s, w))
    end.

End operations.

Definition ReleasePlayer (player_id : Z) : St t Result :=
  fun s =>
    match mPlayers s !! player_id with
    | None => (Failure "player is not tracked by repository", s)
    | Some _ => (Success, s <| mPlayers := delete player_id (mPlayers s) |>)
    end.

(** A change of the data of a loaded player. *)
Definition change_data (now player_id : Z) (f : PlayerData -> PlayerData) : St t Result :=
  fun s =>
    match mPlayers s !! player_id with
    | Some record =>
        if negb (loaded record) then (Failure "player is not loaded in repository", s)
        else (Success, put player_id (record <| data := f (data record) |> <| dirty := true |> <| last_dirty_ms := now |>) s)
    | None => (Failure "player is not loaded in repository", s)
    end.

Definition TouchLogin (now player_id : Z) : St t Result :=
  change_data now player_id (fun d => d <| pd_last_login_at_ms := now |> <| pd_login_count := u64 (pd_login_count d + 1) |>).

Definition SetDisplayName (now player_id : Z) (display_name : string) : St t Result :=
  change_data now player_id (fun d => d <| pd_display_name := display_name |>).

End PlayerRepository.

(** ** Player instances *)

Record PlayerEchoResponse : Type := mkPlayerEchoResponse { er_player_id : Z; er_text : string; er_display_name : string; er_login_count : Z }.
Record RenamePlayerResponse : Type := mkRenamePlayerResponse { rr_player_id : Z; rr_display_name : string }.
Record PlayerProfilePush : Type := mkPlayerProfilePush { pp_player_id : Z; pp_display_name : string; pp_level : Z; pp_login_count : Z }.
Record PlayerRuntimeSnapshot : Type := mkPlayerRuntimeSnapshot { rt_present : bool; rt_player_id : Z; rt_command_count : Z }.

Module PlayerRuntimeService.
Import PlayerRepository.

(** The instances, by player: their command counts. *)
Abbreviation t := (gmap Z Z).

(** [mPlayers] of the repository; the handlers read and change it. *)
Definition loaded_record (repository : PlayerRepository.t) (player_id : Z) : option PlayerRepositoryRecord :=
  match PlayerRepository.Snapshot repository player_id with
  | Some record => if loaded record then Some record else None
  | None => None
  end.

Definition EnsurePlayer (repository : PlayerRepository.t) (player_id : Z) : St t Result :=
  fun players =>
    match loaded_record repository player_id with
    | None => (Failure "player repository is not loaded", players)
    | Some _ => (Success, match players !! player_id with Some _ => players | None => <[player_id := 0]> players end)
    end.

Definition RemovePlayer (player_id : Z) : St t Result :=
  fun players =>
    match players !! player_id with
    | None => (Failure "player runtime is not tracked", players)
    | Some _ => (Success, delete player_id players)
    end.

Definition HandleEcho (repository : PlayerRepository.t) (player_id : Z) (text : string) : St t (Result * option PlayerEchoResponse) :=
  fun players =>
    match players !! player_id with
    | None => ((Failure "player runtime is not tracked", None), players)
    | Some count =>
        match loaded_record repository player_id with
        | None => ((Failure "player repository is not loaded", None), players)
        | Some record =>
            ((Success, Some (mkPlayerEchoResponse player_id text (pd_display_name (data record)) (pd_login_count (data record)))),
             <[player_id := u64 (count + 1)]> players)
        end
    end.

Definition HandleRename (now player_id : Z) (display_name : string) : St (t * PlayerRepository.t) (Result * option RenamePlayerResponse) :=
  fun '(players, repository) =>
    match players !! player_id with
    | None => ((Failure "player runtime is not tracked", None), (players, repository))
    | Some count =>
        if String.eqb display_name "" then ((Failure "display_name must not be empty", None), (players, repository))
        else
          let '(set_name, repository) := SetDisplayName now player_id display_name repository in
          if negb (ok set_name) then ((set_name, None), (players, repository))
          else ((Success, Some (mkRenamePlayerResponse player_id display_name)), (<[player_id := u64 (count + 1)]> players, repository))
    end.

(** The push message, before it is serialised. *)
Definition BuildProfilePushPayload (repository : PlayerRepository.t) (players : t) (player_id : Z) : option PlayerProfilePush :=
  match players !! player_id with
  | None => None
  | Some _ =>
      match loaded_record repository player_id with
      | None => None
      | Some record =>
          Some (mkPlayerProfilePush player_id (pd_display_name (data record)) (pd_level (data record)) (pd_login_count (data record)))
      end
  end.

Definition Snapshot (players : t) (player_id : Z) : PlayerRuntimeSnapshot :=
  match players !! player_id with
  | None => mkPlayerRuntimeSnapshot false 0 0
  | Some count => mkPlayerRuntimeSnapshot true player_id count
  end.

End PlayerRuntimeService.

(** ** What is saved *)

Module RepositoryProofs.
Import PlayerRepository StorageService StorageProofs.

Lemma to_string_aux_length fuel n acc :
  (String.length (to_string_aux fuel n acc) <= fuel + String.length acc)%nat.
Proof.
  revert n acc. induction fuel as [|fuel IH]; intros n acc; simpl; [lia|]. destruct (n <? 10); simpl; [lia|].
  etrans; [apply IH|]. simpl. lia.
Qed.

Lemma to_string_plain player_id : in_u64 player_id -> plain_key (to_string player_id).
Proof.
  intros Hp. split; [apply to_string_digits; unfold in_u64 in Hp; lia|]. split; [apply to_string_nonempty|].
  unfold to_string. etrans; [apply to_string_aux_length|]. simpl.
  pose proof (Z.log2_nonneg player_id). assert (Z.log2 player_id < 64); [|lia].
  unfold in_u64 in Hp. destruct (Z.eq_dec player_id 0) as [->|Hne]; [done|]. apply Z.log2_lt_pow2; lia.
Qed.

Section repository.
Context {scripts : script_semantics} {W : Type} {r : Redis W} {mr : Maria W} {law : StorageLaw scripts W}.
Context {codec : PlayerDataCodec} {fits : PlayerData -> Prop} {codec_law : PlayerDataCodecLaw fits}.
(** The data set of the players and the connections to it. *)
Context (dataset : ResolvedDatasetConfiguration) (c : redisContext) (m : MYSQL).
Implicit Types (s : PlayerRepository.t) (w : W).

Definition serves s : Prop :=
  exists storage, mStorageService s = Some storage /\ attached storage (mDatasetName s) dataset c m.

(** MariaDB has the data. *)
Definition saved w (player_id : Z) (d : PlayerData) : Prop :=
  exists payload, stored dataset m w (to_string player_id) = Some payload /\ ParseFromString payload = (true, d).

(** A loaded record without unsaved changes is what MariaDB has. *)
Definition clean_saved s w : Prop :=
  forall player_id record, mPlayers s !! player_id = Some record -> in_u64 player_id ->
    loaded record = true -> dirty record = false -> saved w player_id (data record).

(** The other entries of the data set, as they are named by players. *)
Definition others_saved (player_id : Z) w w' : Prop :=
  forall p, in_u64 p -> p <> player_id -> stored dataset m w' (to_string p) = stored dataset m w (to_string p).

Lemma others_kept_saved player_id w w' :
  in_u64 player_id -> others_kept dataset c m (to_string player_id) w w' -> others_saved player_id w w'.
Proof.
  intros Hp Ho p Hpp Hne. refine (proj1 (Ho _ _)). intros E. apply Hne. unfold in_u64 in *.
  apply to_string_inj in E; lia.
Qed.

(** A change of the record and of the entry of one player. *)
Lemma clean_saved_put s w w' player_id record :
  clean_saved s w -> others_saved player_id w w' ->
  (in_u64 player_id -> loaded record = true -> dirty record = false -> saved w' player_id (data record)) ->
  clean_saved (put player_id record s) w'.
Proof.
  intros Hc Ho Hr p x Hx Hp Hl Hd. simpl in Hx. destruct (decide (p = player_id)) as [->|Hne].
  - rewrite lookup_insert_eq in Hx. injection Hx as <-. by apply Hr.
  - rewrite lookup_insert_ne in Hx by done. destruct (Hc p x Hx Hp Hl Hd) as (payload & Hs & Hv).
    exists payload. by rewrite Ho.
Qed.

Lemma clean_saved_world s w w' :
  clean_saved s w -> (forall p, in_u64 p -> is_Some (mPlayers s !! p) ->
    stored dataset m w' (to_string p) = stored dataset m w (to_string p)) -> clean_saved s w'.
Proof.
  intros Hc Ho p x Hx Hp Hl Hd. destruct (Hc p x Hx Hp Hl Hd) as (payload & Hs & Hv). exists payload. by rewrite Ho by done.
Qed.

Lemma LoadPlayer_spec now player_id allow s w :
  serves s -> in_u64 player_id -> coherent dataset c m w ->
  let '(result, (s', w')) := LoadPlayer now player_id allow (s, w) in
  serves s' /\ coherent dataset c m w' /\ (forall k, stored dataset m w' k = stored dataset m w k) /\
  (clean_saved s w -> clean_saved s' w') /\
  (ok result = true -> exists record, mPlayers s' !! player_id = Some record /\ loaded record = true).
Proof.
  intros (storage & Es & Hat) Hp Hcoh. pose proof Hat as [Hd Hr Hm [Ht Htne] Hpre]. unfold LoadPlayer. rewrite Es, Hd.
  pose proof (DatasetGet_spec storage _ dataset c m Hd Hr Hm Ht Htne Hpre (to_string player_id) "" w
    (to_string_plain player_id Hp) Hcoh) as Hg.
  destruct (DatasetGet _ _ _ _ w) as [[result value] w']. destruct Hg as (Hcoh' & Hst & Hval).
  assert (clean_saved s w -> loaded (default new_record (mPlayers s !! player_id)) = true ->
    dirty (default new_record (mPlayers s !! player_id)) = false ->
    saved w' player_id (data (default new_record (mPlayers s !! player_id)))) as Hold.
  { intros Hc Hl Hdi. destruct (mPlayers s !! player_id) as [record|] eqn:Ex; [|done].
    destruct (Hc player_id record Ex Hp Hl Hdi) as (payload & Hs & Hv). exists payload. by rewrite Hst. }
  assert (forall res record,
    (clean_saved s w -> loaded record = true -> dirty record = false -> saved w' player_id (data record)) ->
    (ok res = true -> loaded record = true) ->
    serves (put player_id record s) /\ coherent dataset c m w' /\
    (forall k, stored dataset m w' k = stored dataset m w k) /\
    (clean_saved s w -> clean_saved (put player_id record s) w') /\
    (ok res = true -> exists record', mPlayers (put player_id record s) !! player_id = Some record' /\ loaded record' = true))
    as Hput.
  { intros res record Hrec Hl. split; [by exists storage|]. split; [done|]. split; [done|]. split.
    - intros Hc. apply (clean_saved_put s w); [done|intros p _ _; by rewrite Hst|auto].
    - intros Hok. exists record. simpl. rewrite lookup_insert_eq. auto. }
  destruct (sc_ok result) eqn:Eok.
  - destruct (ParseFromString value) as [parsed d] eqn:Epar. specialize (Hval eq_refl). destruct parsed; cbn [negb].
    + apply Hput; [|done]. intros _ _ _. exists value. by rewrite Hst.
    + apply Hput; [|done]. intros Hc Hl Hdi. cbn in Hl, Hdi.
      destruct (Hold Hc Hl Hdi) as (payload & Hs & Hv). rewrite Hst, Hval in Hs. congruence.
  - destruct (String.eqb (sc_message result) "not found"); [by apply Hput|].
    destruct (allow && _); apply Hput; auto; done.
Qed.

Lemma FlushPlayer_spec now player_id s w :
  serves s -> in_u64 player_id ->
  (forall record, mPlayers s !! player_id = Some record -> fits (data record)) ->
  let '(result, (s', w')) := FlushPlayer now player_id (s, w) in
  serves s' /\ others_saved player_id w w' /\ (clean_saved s w -> clean_saved s' w') /\
  match mPlayers s !! player_id with
  | Some record =>
      mPlayers s' = (if ok result then <[player_id := mark_flushed now record]> (mPlayers s) else mPlayers s) /\
      (ok result = true -> loaded record = true /\ saved w' player_id (data record))
  | None => ok result = false /\ s' = s
  end.
Proof.
  intros (storage & Es & Hat) Hp Hfits. pose proof Hat as [Hd Hr Hm [Ht Htne] Hpre]. unfold FlushPlayer.
  assert (serves s) as Hserves by by exists storage.
  destruct (mPlayers s !! player_id) as [record|] eqn:Ex; [|done].
  destruct (loaded record) eqn:El; cbn [negb]; [|done].
  destruct (SerializeToString (data record)) as [payload|] eqn:Eser; [|done]. rewrite Es.
  pose proof (DatasetPut_spec storage _ dataset c m Hd Hr Hm Ht Htne Hpre (to_string player_id) payload w
    (to_string_plain player_id Hp)) as Hput.
  destruct (DatasetPut _ _ _ _ w) as [result w']. destruct Hput as (Ho & Hs & _ & Hout).
  apply others_kept_saved in Ho; [|done].
  destruct (sc_ok result) eqn:Eok; cbn [negb].
  - specialize (Hs eq_refl).
    assert (saved w' player_id (data record)) as Hsaved.
    { exists payload. split; [done|]. apply parse_serialized; auto. }
    split; [by exists storage|]. split; [done|]. split; [|done]. intros Hc. by apply (clean_saved_put s w).
  - split; [done|]. split; [done|]. split; [|done]. intros Hc p x Hx Hpp Hl Hdi.
    destruct (decide (p = player_id)) as [->|Hne]; [|destruct (Hc p x Hx Hpp Hl Hdi) as (y & Hy & Hv); exists y; by rewrite Ho].
    rewrite Ex in Hx. injection Hx as <-. destruct Hout as [E|E]; [destruct (Hc player_id record Ex Hp Hl Hdi) as (y & Hy & Hv);
      exists y; by rewrite E|exists payload; split; [done|]; apply parse_serialized; auto].
Qed.

(** [LoadPlayer] tells a missing entry from an error by the text of the message;
    the clients' texts for errors are none of the two it knows. *)
Definition plain_text (x : string) : Prop := x <> "not found" /\ x <> "maria connection is unavailable".
Definition plain_errors : Prop :=
  forall w, plain_text (mysql_error m w) /\ plain_text (redis_errstr c w) /\
    forall k, match (redisCommand c (cmd_get k) w).1 with Some (reply_error x) | Some (reply_status x) => plain_text x | _ => True end.

Lemma RedisGet_plain storage dataset_name k v w :
  attached storage dataset_name dataset c m -> plain_errors ->
  let '((result, v'), w') := RedisGet storage dataset_name (entry_suffix k) v w in
  maria_tables m w' = maria_tables m w /\ (sc_ok result = false -> plain_text (sc_message result)).
Proof.
  intros [Hd Hr Hm _ Hpre] Herr. pose proof (RedisGet_spec storage dataset_name dataset c m Hd Hr Hpre k v w) as Hget.
  unfold RedisGet in *. rewrite (with_redis_run storage dataset_name dataset c Hd Hr Hpre) in *.
  set (key := full_redis_prefix dataset +:+ entry_suffix k) in *.
  pose proof (proj2 (proj2 (Herr w)) key) as Hreply. pose proof (fun x => proj1 (proj2 (Herr x))) as Hstr.
  destruct (redisCommand c (cmd_get key) w) as [[[x|x|x|x|]|] w1]; cbn in Hreply, Hget |- *; destruct Hget as [Hget _];
    (split; [done|]); intros E; try discriminate E; try exact Hreply; try (split; simpl; discriminate).
  unfold redis_error. case_match; [apply Hstr|split; discriminate].
Qed.

Lemma get_from_maria_missing storage dataset_name k v w :
  attached storage dataset_name dataset c m -> plain_errors -> plain_key k ->
  let '((result, v'), w') := get_from_maria storage dataset_name k v w in
  sc_ok result = false -> sc_message result <> "maria connection is unavailable" /\
    (sc_message result = "not found" -> stored dataset m w k = None).
Proof.
  intros [Hd Hr Hm [Ht Htne] Hpre] Herr Hk. unfold get_from_maria. rewrite Hm.
  assert (forall x, plain_text (sc_message (StorageService.Failure (mysql_error m x)))) as Hplain by (intros x; apply Herr).
  assert (forall text (P : Prop), plain_text text -> text <> "maria connection is unavailable" /\ (text = "not found" -> P)) as Hfail
    by (intros text P [H1 H2]; split; [done|intros E; by destruct H1]).
  assert (sc_ok (EnsureMariaEntriesTable storage dataset_name w).1 = false ->
    plain_text (sc_message (EnsureMariaEntriesTable storage dataset_name w).1)) as Hensure.
  { unfold EnsureMariaEntriesTable. rewrite Hm, (table_name storage dataset_name dataset Hd Ht Htne), table_nonempty by done.
    destruct (mysql_query m _ w) as [[] w1]; cbn; [discriminate|intros _; apply Hplain]. }
  pose proof (Ensure_spec storage dataset_name dataset c m Hd Hm Ht Htne w) as He.
  destruct (EnsureMariaEntriesTable storage dataset_name w) as [ensure w1]. destruct He as (_ & S1 & T1). simpl in Hensure.
  destruct (sc_ok ensure) eqn:Eok; cbn [negb]; [|intros _; by apply Hfail, Hensure].
  destruct (T1 eq_refl) as [e Ee]. rewrite (table_name storage dataset_name dataset Hd Ht Htne).
  pose proof (maria_select_law m (table dataset) e k w1 (table_safe dataset Ht) Hk Ee) as Hs.
  destruct (mysql_query m _ w1) as [[] w2]; cbn [negb]; [|intros _; apply Hfail, Hplain].
  destruct (mysql_store_result m w2) as [[res|] w3]; [|intros _; apply Hfail, Hplain]. destruct Hs as (_ & _ & Hrows).
  rewrite (Hrows eq_refl res eq_refl). destruct (e !! k) as [read|] eqn:Eek.
  - destruct (RedisSet _ _ _ _ w3). discriminate.
  - intros _. split; [done|]. intros _. rewrite <- S1. unfold stored. rewrite Ee. done.
Qed.

Lemma DatasetGet_missing storage dataset_name k v w :
  attached storage dataset_name dataset c m -> plain_errors -> plain_key k ->
  let '((result, v'), w') := DatasetGet storage dataset_name k v w in
  sc_ok result = false -> sc_message result <> "maria connection is unavailable" /\
    (sc_message result = "not found" -> stored dataset m w k = None).
Proof.
  intros Hat Herr Hk. unfold DatasetGet. destruct (String.eqb_spec k ""); [by destruct Hk as (_ & ? & _)|].
  pose proof (RedisGet_plain storage dataset_name k v w Hat Herr) as Hget.
  destruct (RedisGet _ _ _ v w) as [[redis v1] w1]. destruct Hget as [M1 P1].
  destruct (sc_ok redis) eqn:Er; [discriminate|]. destruct (P1 eq_refl) as [P2 P3].
  destruct (negb (String.eqb (sc_message redis) "nil")); [by intros _; split|].
  pose proof (get_from_maria_missing storage dataset_name k v1 w1 Hat Herr Hk) as Hm.
  destruct (get_from_maria _ _ _ _ w1) as [[result v'] w']. unfold stored in *. by rewrite M1 in Hm.
Qed.

(** The operations of one repository, and what the rest of the world does: the
    data of a player in memory here is written by nobody else. *)
Inductive step : PlayerRepository.t * W -> PlayerRepository.t * W -> Prop :=
| rs_load now player_id allow s w : in_u64 player_id -> coherent dataset c m w ->
    step (s, w) (LoadPlayer now player_id allow (s, w)).2
| rs_flush now player_id s w : in_u64 player_id ->
    (forall record, mPlayers s !! player_id = Some record -> fits (data record)) -> step (s, w) (FlushPlayer now player_id (s, w)).2
| rs_release player_id s w : step (s, w) ((ReleasePlayer player_id s).2, w)
| rs_login now player_id s w : step (s, w) ((TouchLogin now player_id s).2, w)
| rs_rename now player_id display_name s w : step (s, w) ((SetDisplayName now player_id display_name s).2, w)
| rs_world s w w' :
    (forall p, in_u64 p -> is_Some (mPlayers s !! p) -> stored dataset m w' (to_string p) = stored dataset m w (to_string p)) ->
    step (s, w) (s, w').

Lemma change_data_inv now player_id f s w :
  serves s -> clean_saved s w -> serves (change_data now player_id f s).2 /\ clean_saved (change_data now player_id f s).2 w.
Proof.
  intros Hs Hc. unfold change_data. destruct (mPlayers s !! player_id) as [record|]; [|done].
  destruct (loaded record); cbn [negb]; [|done]. split; [exact Hs|]. by apply (clean_saved_put s w).
Qed.

Lemma step_inv sw sw' : step sw sw' -> serves sw.1 /\ clean_saved sw.1 sw.2 -> serves sw'.1 /\ clean_saved sw'.1 sw'.2.
Proof.
  intros [now p allow s w Hp Hcoh|now p s w Hp Hf|p s w|now p s w|now p name s w|s w w' Hw]; intros [Hs Hc]; cbn [fst snd] in *.
  - pose proof (LoadPlayer_spec now p allow s w Hs Hp Hcoh) as Hl. destruct (LoadPlayer _ _ _ _) as [? [s' w']].
    destruct Hl as (? & _ & _ & Hinv & _). auto.
  - pose proof (FlushPlayer_spec now p s w Hs Hp Hf) as Hl. destruct (FlushPlayer _ _ _) as [? [s' w']].
    destruct Hl as (? & _ & Hinv & _). auto.
  - unfold PlayerRepository.ReleasePlayer. destruct (mPlayers s !! p); [|done]. split; [exact Hs|].
    intros q x Hx. simpl in Hx. apply lookup_delete_Some in Hx as [_ Hx]. by apply Hc.
  - by apply change_data_inv.
  - by apply change_data_inv.
  - split; [done|]. by apply (clean_saved_world s w).
Qed.

End repository.
End RepositoryProofs.

Section properties.
Import PlayerRepository StorageProofs RepositoryProofs.
Context {scripts : script_semantics} {W : Type} {r : Redis W} {mr : Maria W} {law : StorageLaw scripts W}.
Context {codec : PlayerDataCodec} {fits : PlayerData -> Prop} {codec_law : PlayerDataCodecLaw fits}.



End properties.

(** ** A concrete run *)

Module ExampleRepository.
Import PlayerRepository StorageProofs RepositoryProofs ExampleServers.

(** Any countable message as a text of zeroes and ones. *)
Fixpoint bits_of (p : positive) : string :=
  match p with
  | xH => ""
  | xO p => String "0"%char (bits_of p)
  | xI p => String "1"%char (bits_of p)
  end.
Fixpoint of_bits (text : string) : positive :=
  match text with
  | EmptyString => xH
  | String b text => if Ascii.eqb b "0"%char then xO (of_bits text) else xI (of_bits text)
  end.

Lemma of_bits_of p : of_bits (bits_of p) = p.
Proof. induction p as [p IH|p IH|]; simpl; by rewrite ?IH. Qed.

(** The fields one after the other; positives encode lists in linear size. *)
Definition fields (d : PlayerData) : list positive :=
  [encode (pd_player_id d); encode (pd_display_name d); encode (pd_created_at_ms d); encode (pd_last_login_at_ms d);
   encode (pd_level d); encode (pd_experience d); encode (pd_login_count d); encode (pd_opaque_blob d)].
Definition of_fields (l : list positive) : option PlayerData :=
  match l with
  | [a; b; c; d; e; f; g; h] =>
      a ← decode a; b ← decode b; c ← decode c; d ← decode d; e ← decode e; f ← decode f; g ← decode g; h ← decode h;
      Some (mkPlayerData a b c d e f g h)
  | _ => None
  end.
#[local] Instance player_data_countable : Countable PlayerData.
Proof. refine (inj_countable fields of_fields _). intros []. unfold of_fields, fields. by rewrite !decode_encode. Defined.

#[export] Instance example_data_codec : PlayerDataCodec := {|
  SerializeToString := fun d => Some (bits_of (encode d));
  ParseFromString := fun text =>
    match decode (of_bits text) with Some d => (true, d) | None => (false, cleared) end
|}.

#[export] Instance example_data_codec_law : PlayerDataCodecLaw (fun _ => True).
Proof. intros d payload _ [= <-]. simpl. by rewrite of_bits_of, decode_encode. Qed.

#[local] Existing Instance example_maria.
#[local] Instance redis_servers : Redis servers := example_redis true.
#[local] Instance storage_servers : StorageLaw no_scripts servers := example_storage_law true.

Definition no_rows : servers := mkServers ∅ ∅ None.
Definition empty_repository : t := mkPlayerRepository (Some example_service) "player" ∅.

(** A new player is loaded, logs in, is renamed, saved and released; another game
    loads it. *)
Definition created : t * servers := (LoadPlayer 1000 7 false (empty_repository, no_rows)).2.
Definition logged_in : t := (TouchLogin 1500 7 created.1).2.
Definition renamed : t := (SetDisplayName 2000 7 "Ada" logged_in).2.
Definition flushed : Result * (t * servers) := FlushPlayer 3000 7 (renamed, created.2).
Definition reloaded : Result * (t * servers) := LoadPlayer 4000 7 false (empty_repository, flushed.2.2).

Definition ada : PlayerData := mkPlayerData 7 "Ada" 1000 1500 1 0 1 "".

Lemma pair_eta {A B C} (x : A * (B * C)) : x = (x.1, (x.2.1, x.2.2)).
Proof. by destruct x as [? [? ?]]. Qed.

Lemma example_serves s : mStorageService s = Some example_service -> mDatasetName s = "player" -> serves example_dataset 1 2 s.
Proof. intros E1 E2. exists example_service. split; [done|]. rewrite E2. apply example_attached. Qed.

Lemma no_rows_coherent : coherent example_dataset 1 2 no_rows.
Proof. intros k v _. unfold cached, redis_view. cbn -[lookup]. by rewrite lookup_empty. Qed.


End ExampleRepository.
