(* ===== verification/Protocol.v ===== *)
(** * Protocol: the messages of [proto/ipc] and [proto/game]

    What games and gates send to each other and what clients and gates send to
    each other, with the fields of the [.proto] files.  Code generated by [protoc]
    turns them into bytes; it is the class [MessageCodec].  [ProcessSender] is the
    IPC service as the services above it see it. *)

From S2P Require Import Prelude Base.

(** ** proto/ipc/common.proto *)

Inductive ResultCode : Type :=
| RESULT_CODE_UNSPECIFIED
| RESULT_CODE_OK
| RESULT_CODE_INVALID_ARGUMENT
| RESULT_CODE_UNAUTHORIZED
| RESULT_CODE_PLAYER_NOT_FOUND
| RESULT_CODE_PLAYER_HELD_BY_OTHER_GAME
| RESULT_CODE_SESSION_EXPIRED
| RESULT_CODE_ROUTE_MISMATCH
| RESULT_CODE_INTERNAL.
#[export] Instance result_code_eq_dec : EqDecision ResultCode.
Proof. solve_decision. Defined.

Inductive DisconnectReason : Type :=
| DISCONNECT_REASON_UNSPECIFIED
| DISCONNECT_REASON_CLIENT_CLOSED
| DISCONNECT_REASON_HEARTBEAT_TIMEOUT
| DISCONNECT_REASON_KICKED
| DISCONNECT_REASON_GATE_SHUTDOWN.
#[export] Instance disconnect_reason_eq_dec : EqDecision DisconnectReason.
Proof. solve_decision. Defined.

(** A gate session as the messages name it: three fields of each of them. *)
Record GateSession : Type := mkGateSession { gs_service_type : Z; gs_instance_id : Z; gs_session_id : Z }.
#[export] Instance gate_session_eq_dec : EqDecision GateSession.
Proof. solve_decision. Defined.

(** ** proto/ipc/login.proto *)

Record LoginPlayerRequest : Type := mkLoginPlayerRequest {
  lq_request_id : Z;
  lq_gate : GateSession;
  lq_platform : string;
  lq_account_id : string;
  lq_area_id : Z;
  lq_client_version : Z;
  lq_channel : string;
  lq_login_token : string
}.

Record LoginPlayerResponse : Type := mkLoginPlayerResponse {
  lr_request_id : Z;
  lr_result_code : ResultCode;
  lr_player_id : Z;
  lr_game_service_type : Z;
  lr_game_instance_id : Z;
  lr_is_reconnect : bool;
  lr_initial_player_snapshot : ByteBuffer;
  lr_error_message : string
}.

Record ReconnectPlayerRequest : Type := mkReconnectPlayerRequest {
  rq_request_id : Z;
  rq_player_id : Z;
  rq_gate : GateSession;
  rq_account_id : string;
  rq_client_version : Z
}.

Record ReconnectPlayerResponse : Type := mkReconnectPlayerResponse {
  rs_request_id : Z;
  rs_result_code : ResultCode;
  rs_player_id : Z;
  rs_game_service_type : Z;
  rs_game_instance_id : Z;
  rs_player_snapshot : ByteBuffer;
  rs_error_message : string
}.

(** ** proto/ipc/session.proto *)

Record KickAccountSession : Type := mkKickAccountSession {
  ka_request_id : Z;
  ka_account_id : string;
  ka_old_gate : GateSession;
  ka_new_gate_service_type : Z;
  ka_new_gate_instance_id : Z;
  ka_reason : string
}.

Record PlayerDisconnected : Type := mkPlayerDisconnected {
  pd_player : Z;
  pd_gate : GateSession;
  pd_reason : DisconnectReason;
  pd_occurred_at_ms : Z
}.

Record UnbindPlayerSession : Type := mkUnbindPlayerSession {
  ub_player_id : Z;
  ub_gate : GateSession;
  ub_reason : DisconnectReason
}.

(** ** proto/ipc/player_message.proto and push.proto *)

Record ForwardPlayerMessageRequest : Type := mkForwardPlayerMessageRequest {
  fq_request_id : Z;
  fq_gate : GateSession;
  fq_player_id : Z;
  fq_message_id : Z;
  fq_payload_bytes : ByteBuffer;
  fq_client_sequence : Z;
  fq_timestamp_ms : Z
}.

Record ForwardPlayerMessageResponse : Type := mkForwardPlayerMessageResponse {
  fr_request_id : Z;
  fr_player_id : Z;
  fr_message_id : Z;
  fr_result_code : ResultCode;
  fr_response_payload_bytes : ByteBuffer;
  fr_server_sequence : Z;
  fr_error_message : string
}.

Record PushPlayerMessage : Type := mkPushPlayerMessage {
  pm_player_id : Z;
  pm_gate : GateSession;
  pm_message_id : Z;
  pm_payload_bytes : ByteBuffer;
  pm_push_sequence : Z
}.

(** What processes send to each other with [SendProcessPayload]. *)
Inductive process_message : Type :=
| msg_login_request (m : LoginPlayerRequest)
| msg_login_response (m : LoginPlayerResponse)
| msg_reconnect_request (m : ReconnectPlayerRequest)
| msg_reconnect_response (m : ReconnectPlayerResponse)
| msg_kick_account (m : KickAccountSession)
| msg_player_disconnected (m : PlayerDisconnected)
| msg_unbind_player (m : UnbindPlayerSession)
| msg_forward_request (m : ForwardPlayerMessageRequest)
| msg_forward_response (m : ForwardPlayerMessageResponse)
| msg_push (m : PushPlayerMessage).

Class ProcessSender (N : Type) : Type := SendProcessPayload : ProcessId -> process_message -> St N Result.

(** ** proto/game: what clients and gates send to each other *)

Inductive ErrorCode : Type :=
| ERROR_CODE_UNSPECIFIED
| ERROR_CODE_OK
| ERROR_CODE_INVALID_REQUEST
| ERROR_CODE_UNAUTHORIZED
| ERROR_CODE_INTERNAL.
#[export] Instance error_code_eq_dec : EqDecision ErrorCode.
Proof. solve_decision. Defined.

Record RequestHeader : Type := mkRequestHeader { qh_message_id : Z; qh_sequence : Z; qh_timestamp_ms : Z }.
Record ResponseHeader : Type := mkResponseHeader {
  rh_message_id : Z;
  rh_sequence : Z;
  rh_error_code : ErrorCode;
  rh_error_message : string
}.

Record LoginRequest : Type := mkLoginRequest {
  cl_header : RequestHeader;
  cl_platform : string;
  cl_account_id : string;
  cl_credential : string;
  cl_client_version : Z;
  cl_channel : string
}.
Record LoginResponse : Type := mkLoginResponse {
  cr_header : ResponseHeader;
  cr_player_id : Z;
  cr_initial_snapshot : ByteBuffer;
  cr_is_reconnect : bool
}.
Record HeartbeatRequest : Type := mkHeartbeatRequest { hq_header : RequestHeader }.
Record HeartbeatResponse : Type := mkHeartbeatResponse { hr_header : ResponseHeader; hr_server_time_ms : Z }.
Record KickNotification : Type := mkKickNotification { kn_reason : string }.

Record PlayerMessageRequest : Type := mkPlayerMessageRequest { mq_header : RequestHeader; mq_payload : ByteBuffer }.
Record PlayerMessageResponse : Type := mkPlayerMessageResponse { mr_header : ResponseHeader; mr_payload : ByteBuffer }.
Record PlayerPushMessage : Type := mkPlayerPushMessage { pp_message_id : Z; pp_payload : ByteBuffer }.

Definition MESSAGE_ID_LOGIN_REQUEST : Z := 1001.
Definition MESSAGE_ID_HEARTBEAT_REQUEST : Z := 1002.
Definition MESSAGE_ID_LOGIN_RESPONSE : Z := 2001.
Definition MESSAGE_ID_HEARTBEAT_RESPONSE : Z := 2002.
Definition MESSAGE_ID_KICK_NOTIFICATION : Z := 2003.
Definition MESSAGE_ID_PLAYER_MESSAGE_REQUEST : Z := 3001.
Definition MESSAGE_ID_PLAYER_MESSAGE_RESPONSE : Z := 3002.
Definition MESSAGE_ID_PLAYER_PUSH : Z := 3003.
Definition MESSAGE_ID_PLAYER_ECHO_REQUEST : Z := 3101.
Definition MESSAGE_ID_PLAYER_RENAME_REQUEST : Z := 3102.
Definition MESSAGE_ID_PLAYER_PROFILE_PUSH : Z := 5101.

(** [SerializeToString] fails on messages that are too long. *)
Class MessageCodec (M : Type) : Type := {
  SerializeMessage : M -> option ByteBuffer;
  ParseMessage : ByteBuffer -> option M
}.

Class MessageCodecLaw (M : Type) `{MessageCodec M} (fits : M -> Prop) : Prop :=
  parse_serialized : forall m, fits m -> exists bytes, SerializeMessage m = Some bytes /\ ParseMessage bytes = Some m.

(** The requests that players send to their instances. *)
Record PlayerEchoRequest : Type := mkPlayerEchoRequest { eq_text : string }.
Record RenamePlayerRequest : Type := mkRenamePlayerRequest { nq_display_name : string }.
