(* ===== verification/Session.v ===== *)
(** * Session: [game/services/player_session_service.cpp]

    Which players are in a game and through which gate session they are online.
    The service works on the leases, the repository, the player instances and the
    IPC service of its process; the record [game] holds them all.  Every operation
    reads the clock once. *)

From S2P Require Import Prelude Text Base Receiver Messaging IpcNode Redis Lease Storage Repository Protocol.

(** ** The IPC service, as the other services of a game see it *)

Class GameIpc (N : Type) : Type := {
  BindLocalPlayer : Z -> St N Result;
  UnbindLocalPlayer : Z -> St N Result;
  #[global] game_sender :: ProcessSender N
}.

Definition already_bound : string := "player is already bound locally".

(** What it promises: which players are bound, and who changes that. *)
Class GameIpcLaw (N : Type) `{GameIpc N} : Type := {
  bound : N -> Z -> Prop;
  bind_law : forall p n, let '(r, n') := BindLocalPlayer p n in
    (ok r = true \/ message r = already_bound -> bound n' p) /\ (forall q, q <> p -> bound n' q <-> bound n q) /\
    (ok r = false -> bound n' p <-> bound n p);
  unbind_law : forall p n, let '(r, n') := UnbindLocalPlayer p n in
    (forall q, q <> p -> bound n' q <-> bound n q) /\
    (ok r = true -> bound n p /\ ~ bound n' p) /\ (ok r = false -> bound n' p <-> bound n p);
  send_law : forall target m n q, bound (SendProcessPayload target m n).2 q <-> bound n q
}.

(** ** Sessions *)

Inductive PlayerSessionState : Type := loading | online | detached | unloading.
#[export] Instance player_session_state_eq_dec : EqDecision PlayerSessionState.
Proof. solve_decision. Defined.

Definition ToString (s : PlayerSessionState) : string :=
  match s with loading => "loading" | online => "online" | detached => "detached" | unloading => "unloading" end.

Record PlayerSessionRecord : Type := mkPlayerSessionRecord {
  state : PlayerSessionState;
  gate_service_type : Z;
  gate_instance_id : Z;
  gate_session_id : Z;
  activate_count : Z;
  last_state_change_ms : Z;
  detach_deadline_ms : Z
}.
#[export] Instance eta_session_record : Eta PlayerSessionRecord := fun r =>
  mkPlayerSessionRecord (state r) (gate_service_type r) (gate_instance_id r) (gate_session_id r) (activate_count r)
    (last_state_change_ms r) (detach_deadline_ms r).

Definition new_session : PlayerSessionRecord := mkPlayerSessionRecord loading 0 0 0 0 0 0.

(** The services of a game process. *)
Record game (N W : Type) : Type := mkGame {
  repository : PlayerRepository.t;
  lease : PlayerLeaseService.t;
  runtime : PlayerRuntimeService.t;
  ipc : N;
  sessions : gmap Z PlayerSessionRecord;
  mDetachedTtlSeconds : Z;
  mStopping : bool;
  mThread : bool;
  world : W
}.
Arguments mkGame {N W}. Arguments repository {N W}. Arguments lease {N W}. Arguments runtime {N W}. Arguments ipc {N W}.
Arguments sessions {N W}. Arguments mDetachedTtlSeconds {N W}. Arguments mStopping {N W}. Arguments mThread {N W}.
Arguments world {N W}.
#[export] Instance eta_game {N W : Type} : Eta (game N W) := fun g =>
  mkGame (repository g) (lease g) (runtime g) (ipc g) (sessions g) (mDetachedTtlSeconds g) (mStopping g) (mThread g) (world g).

Section parts.
Context {N W : Type}.

(** The operations of the other services as operations of the game. *)
Definition on_repository {A : Type} (m : St (PlayerRepository.t * W) A) : St (game N W) A :=
  fun g => let '(a, (r, w)) := m (repository g, world g) in (a, g <| repository := r |> <| world := w |>).
Definition on_lease {A : Type} (m : St (PlayerLeaseService.t * W) A) : St (game N W) A :=
  fun g => let '(a, (l, w)) := m (lease g, world g) in (a, g <| lease := l |> <| world := w |>).
Definition on_runtime {A : Type} (m : St PlayerRuntimeService.t A) : St (game N W) A :=
  fun g => let '(a, r) := m (runtime g) in (a, g <| runtime := r |>).
Definition on_ipc {A : Type} (m : St N A) : St (game N W) A :=
  fun g => let '(a, n) := m (ipc g) in (a, g <| ipc := n |>).
Definition on_players (m : St PlayerRepository.t Result) : St (game N W) Result :=
  fun g => let '(a, r) := m (repository g) in (a, g <| repository := r |>).

Definition on_instances {A : Type} (m : St (PlayerRuntimeService.t * PlayerRepository.t) A) : St (game N W) A :=
  fun g => let '(a, (i, r)) := m (runtime g, repository g) in (a, g <| runtime := i |> <| repository := r |>).

(** [if (const auto r = m; !r.ok) { undo; return r; } k] *)
Definition attempt (m : St (game N W) Result) (undo : St (game N W) unit) (k : St (game N W) Result) : St (game N W) Result :=
  fun g => let '(r, g) := m g in if negb (ok r) then (r, (undo g).2) else k g.

(** [(void)m] *)
Definition ignore {A : Type} (m : St (game N W) A) : St (game N W) unit := fun g => (tt, (m g).2).

End parts.

Module PlayerSessionService.
Section service.
Context {N W : Type} `{Redis W} `{Maria W} `{PlayerDataCodec} `{GameIpc N} {mo : MapOrder Z}.
Implicit Types g : game N W.

Definition put_session (player_id : Z) (record : PlayerSessionRecord) g : game N W :=
  g <| sessions := <[player_id := record]> (sessions g) |>.

Definition Snapshot g (player_id : Z) : option PlayerSessionRecord := sessions g !! player_id.

(** A gate session takes the player over. *)
Definition attach (now gate_type gate_instance gate_session : Z) (record : PlayerSessionRecord) : PlayerSessionRecord :=
  record <| gate_service_type := gate_type |> <| gate_instance_id := gate_instance |> <| gate_session_id := gate_session |>
    <| last_state_change_ms := now |> <| activate_count := u64 (activate_count record + 1) |>.

Definition make_online (now gate_type gate_instance gate_session : Z) (record : PlayerSessionRecord) : PlayerSessionRecord :=
  (attach now gate_type gate_instance gate_session record) <| state := online |> <| detach_deadline_ms := 0 |>.

Definition release_lease (player_id : Z) : St (game N W) unit := ignore (on_lease (PlayerLeaseService.Release player_id)).
Definition unbind (player_id : Z) : St (game N W) unit := ignore (on_ipc (UnbindLocalPlayer player_id)).
Definition release_record (player_id : Z) : St (game N W) unit := ignore (on_players (PlayerRepository.ReleasePlayer player_id)).
Definition ensure_instance (player_id : Z) : St (game N W) Result :=
  fun g => on_runtime (PlayerRuntimeService.EnsurePlayer (repository g) player_id) g.

(** A player that is bound already is good enough. *)
Definition bind_player (player_id : Z) : St (game N W) Result :=
  fun g =>
    let '(r, g) := on_ipc (BindLocalPlayer player_id) g in
    (if negb (ok r) && negb (String.eqb (message r) already_bound) then r else Success, g).

Section activate.
Variables (now player_id gate_type gate_instance gate_session : Z) (allow_create_without_maria : bool).

(** The second half of [ActivatePlayer] for a session without lease. *)
Definition recover_session : St (game N W) Result :=
  attempt
    (fun g =>
       match PlayerRepository.Snapshot (repository g) player_id with
       | Some _ => (Success, g)
       | None => on_repository (PlayerRepository.LoadPlayer now player_id allow_create_without_maria) g
       end)
    (release_lease player_id)
    (attempt (bind_player player_id) (release_lease player_id)
       (attempt (ensure_instance player_id) (release_lease player_id;;; unbind player_id)
          (fun g =>
             match sessions g !! player_id with
             | None => (Failure "player session disappeared during lease recovery", (release_lease player_id g).2)
             | Some record =>
                 match state record with
                 | loading | unloading =>
                     (Failure "player is transitioning and cannot be activated", (release_lease player_id g).2)
                 | online | detached =>
                     (Success, put_session player_id (make_online now gate_type gate_instance gate_session record) g)
                 end
             end))).

(** The one for a player without session. *)
Definition open_session : St (game N W) Result :=
  attempt (on_repository (PlayerRepository.LoadPlayer now player_id allow_create_without_maria)) (release_lease player_id)
    (attempt (bind_player player_id) (release_lease player_id;;; release_record player_id)
       (attempt (ensure_instance player_id) (release_lease player_id;;; unbind player_id;;; release_record player_id)
          (fun g =>
             (Success,
              put_session player_id
                (make_online now gate_type gate_instance gate_session (default new_session (sessions g !! player_id))) g)))).

Definition with_lease (k : St (game N W) Result) : St (game N W) Result :=
  attempt (on_lease (PlayerLeaseService.Acquire now player_id)) (ret tt) k.

Definition ActivatePlayer : St (game N W) Result :=
  fun g =>
    match sessions g !! player_id with
    | None => with_lease open_session g
    | Some record =>
        match state record with
        | loading | unloading => (Failure "player is transitioning and cannot be activated", g)
        | online =>
            if PlayerLeaseService.IsHeldLocally (lease g) player_id then
              (Success, put_session player_id (attach now gate_type gate_instance gate_session record) g)
            else with_lease recover_session g
        | detached =>
            if PlayerLeaseService.IsHeldLocally (lease g) player_id then
              (Success, put_session player_id (make_online now gate_type gate_instance gate_session record) g)
            else with_lease recover_session g
        end
    end.

End activate.

Definition make_detached (now : Z) g (record : PlayerSessionRecord) : PlayerSessionRecord :=
  record <| state := detached |> <| last_state_change_ms := now |>
    <| detach_deadline_ms := u64 (now + mDetachedTtlSeconds g * 1000) |>
    <| gate_service_type := 0 |> <| gate_instance_id := 0 |> <| gate_session_id := 0 |>.

(** The two overloads of [DetachPlayer]; the second one compares the gate session. *)
Definition detach_if (now player_id : Z) (matches : PlayerSessionRecord -> bool) : St (game N W) Result :=
  fun g =>
    match sessions g !! player_id with
    | None => (Failure "player session is not tracked", g)
    | Some record =>
        if negb (bool_decide (state record = online)) then (Failure "player is not online", g)
        else if negb (matches record) then (Failure "player gate session does not match", g)
        else (Success, put_session player_id (make_detached now g record) g)
    end.

Definition DetachPlayer (now player_id : Z) : St (game N W) Result := detach_if now player_id (fun _ => true).

Definition DetachPlayer_of (now player_id gate_type gate_instance gate_session : Z) : St (game N W) Result :=
  detach_if now player_id (fun record =>
    (gate_service_type record =? gate_type) && (gate_instance_id record =? gate_instance) && (gate_session_id record =? gate_session)).

(** The end of [ReleasePlayer], once the data is saved. *)
Definition finish_release (player_id : Z) : St (game N W) Result :=
  attempt (on_ipc (UnbindLocalPlayer player_id)) (ret tt)
    (ignore (on_runtime (PlayerRuntimeService.RemovePlayer player_id));;;
     attempt (on_players (PlayerRepository.ReleasePlayer player_id)) (ret tt)
       (release_lease player_id;;; (fun g => (Success, g <| sessions := delete player_id (sessions g) |>)))).

Definition has_dirty_record g (player_id : Z) : bool :=
  match PlayerRepository.Snapshot (repository g) player_id with Some record => dirty record | None => false end.

Definition ReleasePlayer (now player_id : Z) : St (game N W) Result :=
  fun g =>
    match sessions g !! player_id with
    | None => (Failure "player session is not tracked", g)
    | Some previous_record =>
        let g := put_session player_id (previous_record <| state := unloading |> <| last_state_change_ms := now |>) g in
        if has_dirty_record g player_id then
          let '(flush_result, g) := on_repository (PlayerRepository.FlushPlayer now player_id) g in
          if negb (ok flush_result) then
            (Failure ("player flush before release failed: " +:+ message flush_result),
             match sessions g !! player_id with Some _ => put_session player_id previous_record g | None => g end)
          else finish_release player_id g
        else finish_release player_id g
    end.

Definition is_expired (now : Z) (record : PlayerSessionRecord) : bool :=
  bool_decide (state record = detached) && negb (detach_deadline_ms record =? 0) && (detach_deadline_ms record <=? now).

Fixpoint release_all (now : Z) (players : list Z) : St (game N W) Z :=
  fun g =>
    match players with
    | [] => (0, g)
    | player_id :: rest =>
        let '(r, g) := ReleasePlayer now player_id g in
        let '(released, g) := release_all now rest g in
        (if ok r then released + 1 else released, g)
    end.

Definition ExpireDetachedPlayers (now : Z) : St (game N W) Z :=
  fun g =>
    release_all now
      (omap (fun '(player_id, record) => if is_expired now record then Some player_id else None) (entries (sessions g))) g.

Definition is_lost g (player_id : Z) (record : PlayerSessionRecord) : bool :=
  bool_decide (state record = online \/ state record = detached) && negb (PlayerLeaseService.IsHeldLocally (lease g) player_id).

(** The notice to the gate of a lost player that was online. *)
Definition notify_gate (player_id : Z) (record : PlayerSessionRecord) : St (game N W) unit :=
  when (bool_decide (state record = online) && negb (gate_service_type record =? 0) && negb (gate_instance_id record =? 0) &&
        negb (gate_session_id record =? 0))
    (ignore (on_ipc (SendProcessPayload (mkProcessId (gate_service_type record) (gate_instance_id record))
       (msg_unbind_player (mkUnbindPlayerSession player_id
          (mkGateSession (gate_service_type record) (gate_instance_id record) (gate_session_id record)) DISCONNECT_REASON_KICKED))))).

(** One turn of the second loop of [ReconcileLeaseLosses]: whether it counts. *)
Definition reconcile_one (now player_id : Z) (record : PlayerSessionRecord) : St (game N W) bool :=
  notify_gate player_id record;;; unbind player_id;;;
  fun g =>
    match sessions g !! player_id with
    | None => (false, g)
    | Some current =>
        if PlayerLeaseService.IsHeldLocally (lease g) player_id then (false, g)
        else
          match state current with
          | online => (true, put_session player_id (make_detached now g current) g)
          | detached => (true, g)
          | loading | unloading => (false, g)
          end
    end.

Fixpoint reconcile_all (now : Z) (lost : list (Z * PlayerSessionRecord)) : St (game N W) Z :=
  fun g =>
    match lost with
    | [] => (0, g)
    | (player_id, record) :: rest =>
        let '(counts, g) := reconcile_one now player_id record g in
        let '(reconciled, g) := reconcile_all now rest g in
        (if counts : bool then reconciled + 1 else reconciled, g)
    end.

Definition ReconcileLeaseLosses (now : Z) : St (game N W) Z :=
  fun g => reconcile_all now (filter (fun '(player_id, record) => is_lost g player_id record = true) (entries (sessions g))) g.

(** The thread reconciles once a second. *)
Definition Loop (now : Z) : St (game N W) unit :=
  fun g => if mStopping g then (tt, g) else (tt, (ReconcileLeaseLosses now g).2).
Definition Start g : game N W := g <| mStopping := false |> <| mThread := true |>.
Definition Stop g : game N W := g <| mStopping := true |> <| mThread := false |>.

End service.
End PlayerSessionService.

(** ** The tables of a game agree *)

Module SessionProofs.
Import PlayerSessionService.

Section session.
Context {N W : Type} `{Redis W} `{Maria W} `{PlayerDataCodec} `{GameIpcLaw N} {mo : MapOrder Z}.
Implicit Types (g : game N W) (p q : Z).

(** What the services know of a player: its session, whether its data is loaded,
    whether it has an instance, whether its lease is held; and whether it is bound. *)
Definition is_loaded g p : bool := match PlayerRepository.mPlayers (repository g) !! p with Some record => loaded record | None => false end.
Definition view g p : option PlayerSessionRecord * bool * bool * bool :=
  (sessions g !! p, is_loaded g p, bool_decide (is_Some (runtime g !! p)), PlayerLeaseService.IsHeldLocally (lease g) p).

(** The other players are left alone. *)
Definition frame p g g' : Prop := forall q, q <> p -> view g' q = view g q /\ (bound (ipc g') q <-> bound (ipc g) q).

#[export] Instance frame_preorder p : PreOrder (frame p).
Proof.
  split; [by intros g q|]. intros g1 g2 g3 H12 H23 q Hq. destruct (H12 q Hq) as [E1 B1], (H23 q Hq) as [E2 B2].
  split; [congruence|tauto].
Qed.

Definition agrees (v : option PlayerSessionRecord * bool * bool * bool) (is_bound : Prop) : Prop :=
  let '(session, is_loaded, has_instance, held) := v in
  is_loaded = bool_decide (is_Some session) /\ has_instance = bool_decide (is_Some session) /\
  (held = true -> is_Some session) /\ (is_bound -> is_Some session) /\
  (forall record, session = Some record -> state record <> loading /\
    (state record = online \/ state record = detached -> held = true -> is_bound)).

Definition tables_agree g : Prop := forall p, agrees (view g p) (bound (ipc g) p).

Lemma agrees_iff v (P Q : Prop) : (P <-> Q) -> agrees v P -> agrees v Q.
Proof. destruct v as [[[s l] i] h]. intros E (A & B & C & D & F). split_and!; [done..|tauto|]. intros r Hr. destruct (F r Hr). tauto. Qed.

Lemma tables_agree_frame p g g' :
  frame p g g' -> tables_agree g -> agrees (view g' p) (bound (ipc g') p) -> tables_agree g'.
Proof.
  intros Hf Hg Hp q. destruct (decide (q = p)) as [->|Hq]; [done|]. destruct (Hf q Hq) as [-> E].
  eapply agrees_iff; [symmetry; exact E|]. apply Hg.
Qed.

(** *** What the operations of the parts do to the views *)

Lemma acquire_view now p g s l i h :
  view g p = (s, l, i, h) ->
  let '(r, g') := on_lease (PlayerLeaseService.Acquire now p) g in
  frame p g g' /\ ipc g' = ipc g /\
  view g' p = (s, l, i, ok r || h).
Proof.
  intros [= <- <- <- <-].
  unfold on_lease, PlayerLeaseService.Acquire, frame, view, is_loaded, PlayerLeaseService.IsHeldLocally.
  destruct (PlayerLeaseService.mRedis (lease g)) as [c|]; [|done].
  destruct (PlayerLeaseService.mLeases (lease g) !! p) as [o|] eqn:Ep.
  { simpl. rewrite Ep. done. }
  destruct (redisCommand _ _ _) as [[[x|x|x|x|]|] w]; try (simpl; rewrite ?Ep; done).
  destruct (match_OK x) as [->|E]; [|rewrite E; simpl; by rewrite Ep].
  simpl. rewrite lookup_insert_eq. split; [|done]. intros q Hq. by rewrite lookup_insert_ne.
Qed.

Lemma release_lease_view p g s l i h :
  view g p = (s, l, i, h) ->
  let g' := (release_lease p g).2 in
  frame p g g' /\ ipc g' = ipc g /\ view g' p = (s, l, i, false).
Proof.
  intros [= <- <- <- <-].
  unfold release_lease, ignore, on_lease, PlayerLeaseService.Release, frame, view, is_loaded, PlayerLeaseService.IsHeldLocally.
  destruct (PlayerLeaseService.mLeases (lease g) !! p) as [o|] eqn:Ep; [|simpl; rewrite Ep; done].
  destruct (PlayerLeaseService.ReleaseLeaseLocked _ _ _ _) as [outcome w]. simpl. rewrite lookup_delete_eq.
  assert (forall o s, PlayerLeaseService.mLeases (PlayerLeaseService.count_release o s) = PlayerLeaseService.mLeases s) as Hc
    by by intros [].
  split; [|done]. intros q Hq. rewrite lookup_delete_ne, Hc by done. done.
Qed.

(** A record of the repository is written: only whether it is loaded matters. *)
Lemma put_record_view p record g w s l i h b :
  view g p = (s, l, i, h) -> loaded record = b ->
  let g' := g <| repository := PlayerRepository.put p record (repository g) |> <| world := w |> in
  frame p g g' /\ ipc g' = ipc g /\ view g' p = (s, b, i, h).
Proof.
  intros [= <- <- <- <-] <-.
  unfold frame, view, is_loaded. simpl. rewrite lookup_insert_eq. split; [|done]. intros q Hq. by rewrite lookup_insert_ne.
Qed.

Lemma world_view p g w v :
  view g p = v -> let g' := g <| repository := repository g |> <| world := w |> in
  frame p g g' /\ ipc g' = ipc g /\ view g' p = v.
Proof. intros <-. done. Qed.

Lemma load_view now p allow g s l i h :
  view g p = (s, l, i, h) ->
  let '(r, g') := on_repository (PlayerRepository.LoadPlayer now p allow) g in
  frame p g g' /\ ipc g' = ipc g /\ view g' p = (s, ok r || l, i, h).
Proof.
  intros [= <- <- <- <-].
  unfold on_repository, PlayerRepository.LoadPlayer.
  destruct (PlayerRepository.mStorageService (repository g)) as [storage|]; [|apply (world_view p g (world g) _ eq_refl)].
  destruct (StorageService.GetDataset _ _); [|apply (world_view p g (world g) _ eq_refl)].
  destruct (StorageService.DatasetGet _ _ _ _ _) as [[result value] w].
  assert (loaded (default new_record (PlayerRepository.mPlayers (repository g) !! p)) = is_loaded g p) as E.
  { unfold is_loaded. by destruct (PlayerRepository.mPlayers (repository g) !! p). }
  destruct (sc_ok result).
  - destruct (ParseFromString value) as [[] d]; cbn [negb]; [by eapply put_record_view|]. by eapply put_record_view.
  - destruct (String.eqb _ "not found"); [by eapply put_record_view|].
    destruct (allow && _); by eapply put_record_view.
Qed.

Lemma flush_view now p g :
  let '(r, g') := on_repository (PlayerRepository.FlushPlayer now p) g in
  frame p g g' /\ ipc g' = ipc g /\ view g' p = view g p.
Proof.
  unfold on_repository, PlayerRepository.FlushPlayer.
  destruct (PlayerRepository.mPlayers (repository g) !! p) as [record|] eqn:Ep; [|apply (world_view p g (world g) _ eq_refl)].
  destruct (loaded record) eqn:El; cbn [negb]; [|apply (world_view p g (world g) _ eq_refl)].
  destruct (SerializeToString _); [|apply (world_view p g (world g) _ eq_refl)].
  destruct (PlayerRepository.mStorageService (repository g)) as [storage|]; [|apply (world_view p g (world g) _ eq_refl)].
  destruct (StorageService.DatasetPut _ _ _ _ _) as [result w]. destruct (sc_ok result); cbn [negb]; [|apply (world_view p g w _ eq_refl)].
  destruct (put_record_view p (PlayerRepository.mark_flushed now record) g w _ _ _ _ _ eq_refl eq_refl) as (? & ? & E).
  split_and!; [done..|]. rewrite E. unfold view, is_loaded. by rewrite Ep.
Qed.

Lemma release_record_view p g s l i h :
  view g p = (s, l, i, h) ->
  let '(r, g') := on_players (PlayerRepository.ReleasePlayer p) g in
  frame p g g' /\ ipc g' = ipc g /\ view g' p = (s, false, i, h) /\
  (l = true -> ok r = true).
Proof.
  intros [= <- <- <- <-].
  unfold on_players, PlayerRepository.ReleasePlayer, frame, view, is_loaded.
  destruct (PlayerRepository.mPlayers (repository g) !! p) as [record|] eqn:Ep; simpl; [|by rewrite Ep].
  rewrite lookup_delete_eq. split; [|done]. intros q Hq. by rewrite lookup_delete_ne.
Qed.

Lemma ensure_view p g s l i h :
  view g p = (s, l, i, h) ->
  let '(r, g') := ensure_instance p g in
  frame p g g' /\ ipc g' = ipc g /\ ok r = l /\
  view g' p = (s, l, l || i, h).
Proof.
  intros [= <- <- <- <-].
  unfold ensure_instance, on_runtime, PlayerRuntimeService.EnsurePlayer, PlayerRuntimeService.loaded_record,
    PlayerRepository.Snapshot, frame, view, is_loaded.
  destruct (PlayerRepository.mPlayers (repository g) !! p) as [record|] eqn:Ep; [|simpl; by rewrite Ep].
  destruct (loaded record) eqn:El; [|simpl; by rewrite Ep, El].
  destruct (runtime g !! p) as [count|] eqn:Er; simpl; rewrite Ep, ?Er, El; [done|].
  rewrite lookup_insert_eq. split; [|done]. intros q Hq. by rewrite lookup_insert_ne.
Qed.

Lemma remove_instance_view p g s l i h :
  view g p = (s, l, i, h) ->
  let g' := (ignore (on_runtime (PlayerRuntimeService.RemovePlayer p)) g).2 in
  frame p g g' /\ ipc g' = ipc g /\ view g' p = (s, l, false, h).
Proof.
  intros [= <- <- <- <-].
  unfold ignore, on_runtime, PlayerRuntimeService.RemovePlayer, frame, view, is_loaded.
  destruct (runtime g !! p) as [count|] eqn:Er; simpl; [|by rewrite Er].
  rewrite lookup_delete_eq. split; [|done]. intros q Hq. by rewrite lookup_delete_ne.
Qed.

Lemma bind_view p g :
  let '(r, g') := bind_player p g in
  frame p g g' /\ view g' p = view g p /\
  (ok r = true -> bound (ipc g') p) /\ (ok r = false -> bound (ipc g') p <-> bound (ipc g) p).
Proof.
  unfold bind_player, on_ipc. pose proof (bind_law p (ipc g)) as B. destruct (BindLocalPlayer p (ipc g)) as [r n].
  destruct B as (B1 & B2 & B3). cbn [ipc update].
  assert (frame p g (g <| ipc := n |>)) as Hf by (intros q Hq; split; [done|by apply B2]).
  destruct (ok r) eqn:Er; cbn [negb andb]; [by split_and!; auto|].
  destruct (String.eqb_spec (message r) already_bound); cbn [negb]; [split_and!; auto; done|].
  split_and!; auto. congruence.
Qed.

Lemma unbind_view p g :
  let '(r, g') := on_ipc (UnbindLocalPlayer p) g in
  frame p g g' /\ view g' p = view g p /\
  (ok r = true -> bound (ipc g) p /\ ~ bound (ipc g') p) /\ (ok r = false -> bound (ipc g') p <-> bound (ipc g) p).
Proof.
  unfold on_ipc. pose proof (unbind_law p (ipc g)) as B. destruct (UnbindLocalPlayer p (ipc g)) as [r n].
  destruct B as (B1 & B2 & B3). split_and!; [|done..]. intros q Hq. split; [done|by apply B1].
Qed.

Lemma put_session_view p record g s l i h :
  view g p = (s, l, i, h) ->
  let g' := put_session p record g in
  frame p g g' /\ ipc g' = ipc g /\
  view g' p = (Some record, l, i, h).
Proof.
  intros [= <- <- <- <-].
  unfold put_session, frame, view, is_loaded. simpl. rewrite lookup_insert_eq. split; [|done].
  intros q Hq. by rewrite lookup_insert_ne.
Qed.

Lemma drop_session_view p g s l i h :
  view g p = (s, l, i, h) ->
  let g' := g <| sessions := delete p (sessions g) |> in
  frame p g g' /\ ipc g' = ipc g /\
  view g' p = (None, l, i, h).
Proof.
  intros [= <- <- <- <-].
  unfold frame, view, is_loaded. simpl. rewrite lookup_delete_eq. split; [|done]. intros q Hq. by rewrite lookup_delete_ne.
Qed.

(** *** Operations on one player *)

(** One player's part of the game changes from [g] to [g']. *)
Definition moves p g g' : Prop := frame p g g' /\ agrees (view g' p) (bound (ipc g') p).

Lemma moves_frame p g g1 g2 : frame p g g1 -> moves p g1 g2 -> moves p g g2.
Proof. intros Hf [Hg Ha]. split; [by etrans|done]. Qed.

Lemma moves_agree p g g' : moves p g g' -> tables_agree g -> tables_agree g'.
Proof. intros [Hf Ha] Hg. by eapply tables_agree_frame. Qed.

(** The lease of a player without session is given back. *)
Lemma moves_release_lease p g s l i h :
  view g p = (s, l, i, h) -> agrees (s, l, i, false) (bound (ipc g) p) -> moves p g (release_lease p g).2.
Proof. intros V Ha. destruct (release_lease_view p g s l i h V) as (F & I & V'). split; [done|]. by rewrite V', I. Qed.

Section activation.
Variables (now p gate_type gate_instance gate_session : Z) (allow : bool).

Lemma open_session_moves g :
  view g p = (None, false, false, true) -> ~ bound (ipc g) p ->
  let '(r, g') := open_session now p gate_type gate_instance gate_session allow g in
  moves p g g' /\ (ok r = true -> sessions g' !! p = Some (make_online now gate_type gate_instance gate_session new_session)).
Proof.
  intros V Hb. unfold open_session. unfold attempt at 1.
  pose proof (load_view now p allow g _ _ _ _ V) as Hload. destruct (on_repository _ g) as [r1 g1].
  destruct Hload as (F1 & I1 & V1). rewrite orb_false_r in V1.
  destruct (ok r1) eqn:E1; cbn [negb].
  2:{ split; [|congruence]. apply (moves_frame p g g1 _ F1), (moves_release_lease p g1 _ _ _ _ V1).
      rewrite I1. by split_and!. }
  unfold attempt at 1. pose proof (bind_view p g1) as Hbind. destruct (bind_player p g1) as [r2 g2].
  destruct Hbind as (F2 & V2 & B2 & B2'). rewrite V1 in V2. rewrite I1 in B2'.
  destruct (ok r2) eqn:E2; cbn [negb].
  2:{ unfold bind. split; [|congruence]. destruct (release_lease_view p g2 _ _ _ _ V2) as (F3 & I3 & V3).
      destruct (release_lease p g2) as [[] g3]. simpl in *.
      pose proof (release_record_view p g3 _ _ _ _ V3) as Hre. unfold release_record, ignore.
      destruct (on_players _ g3) as [r4 g4]. destruct Hre as (F4 & I4 & V4 & _). simpl.
      split; [by etrans; [etrans; [exact F1|exact F2]|etrans; [exact F3|exact F4]]|].
      rewrite V4, I4, I3. specialize (B2' eq_refl). split_and!; [done..|tauto|done]. }
  unfold attempt. pose proof (ensure_view p g2 _ _ _ _ V2) as Hen. destruct (ensure_instance p g2) as [r3 g3].
  destruct Hen as (F3 & I3 & E3 & V3). rewrite E3. cbn [negb].
  assert (sessions g3 !! p = None) as -> by by injection V3. change (default new_session None) with new_session.
  destruct (put_session_view p (make_online now gate_type gate_instance gate_session new_session) g3 _ _ _ _ V3) as (F4 & I4 & V4).
  split; [|intros _; simpl; by rewrite lookup_insert_eq].
  split; [by etrans; [etrans; [exact F1|exact F2]|etrans; [exact F3|exact F4]]|].
  rewrite V4, I4, I3. specialize (B2 eq_refl).
  split_and!; [done..|]. intros record [= <-]. by split.
Qed.

Lemma recover_session_moves g record :
  view g p = (Some record, true, true, true) -> (state record = online \/ state record = detached) ->
  let '(r, g') := recover_session now p gate_type gate_instance gate_session allow g in
  moves p g g' /\ (ok r = true -> sessions g' !! p = Some (make_online now gate_type gate_instance gate_session record)).
Proof.
  intros V Hst. unfold recover_session. unfold attempt at 1. unfold PlayerRepository.Snapshot.
  assert (is_Some (PlayerRepository.mPlayers (repository g) !! p)) as [x ->].
  { injection V as _ El _ _. unfold is_loaded in El. destruct (_ !! p); [by eexists|done]. }
  cbn [negb ok Success]. unfold attempt at 1.
  pose proof (bind_view p g) as Hbind. destruct (bind_player p g) as [r2 g2].
  destruct Hbind as (F2 & V2 & B2 & B2'). rewrite V in V2.
  assert (state record <> loading) as Hne by (destruct Hst; congruence).
  destruct (ok r2) eqn:E2; cbn [negb].
  2:{ split; [|congruence]. apply (moves_frame p g g2 _ F2), (moves_release_lease p g2 _ _ _ _ V2).
      split_and!; [done..|by intros _; eexists|]. intros x' [= <-]. split; [done|intros _ ?; discriminate]. }
  unfold attempt. pose proof (ensure_view p g2 _ _ _ _ V2) as Hen. destruct (ensure_instance p g2) as [r3 g3].
  destruct Hen as (F3 & I3 & E3 & V3). rewrite E3. cbn [negb].
  assert (sessions g3 !! p = Some record) as -> by by injection V3.
  destruct (put_session_view p (make_online now gate_type gate_instance gate_session record) g3 _ _ _ _ V3) as (F4 & I4 & V4).
  assert (moves p g (put_session p (make_online now gate_type gate_instance gate_session record) g3)) as Hm.
  { split; [by etrans; [exact F2|etrans; [exact F3|exact F4]]|]. rewrite V4, I4, I3. specialize (B2 eq_refl).
    split_and!; [done..|by intros _; eexists|]. intros x' [= <-]. by split. }
  destruct Hst as [-> | ->]; (split; [exact Hm|]); intros _; simpl; by rewrite lookup_insert_eq.
Qed.

(** The session as it is once its gate session has it. *)
Definition gate_has g : Prop := exists record,
  sessions g !! p = Some record /\ state record = online /\ gate_service_type record = gate_type /\
  gate_instance_id record = gate_instance /\ gate_session_id record = gate_session.

Lemma gate_has_put record g : sessions g !! p = Some (make_online now gate_type gate_instance gate_session record) -> gate_has g.
Proof. intros E. eexists. split; [exact E|done]. Qed.

Lemma with_lease_moves k g s l i :
  view g p = (s, l, i, false) -> agrees (view g p) (bound (ipc g) p) ->
  (forall g1, view g1 p = (s, l, i, true) -> ipc g1 = ipc g -> let '(r, g') := k g1 in moves p g1 g' /\ (ok r = true -> gate_has g')) ->
  let '(r, g') := with_lease now p k g in moves p g g' /\ (ok r = true -> gate_has g').
Proof.
  intros V Ha Hk. unfold with_lease, attempt. pose proof (acquire_view now p g _ _ _ _ V) as Hacq.
  destruct (on_lease _ g) as [r1 g1]. destruct Hacq as (F1 & I1 & V1). rewrite orb_false_r in V1.
  destruct (ok r1) eqn:E1; cbn [negb].
  - specialize (Hk g1 V1 I1). destruct (k g1) as [r g']. destruct Hk as [Hm Hg]. split; [|done]. by apply (moves_frame p g g1).
  - split; [|congruence]. unfold ret. cbn [snd]. split; [exact F1|]. by rewrite V1, I1, <- V.
Qed.

Lemma ActivatePlayer_moves g :
  agrees (view g p) (bound (ipc g) p) ->
  let '(r, g') := ActivatePlayer now p gate_type gate_instance gate_session allow g in
  moves p g g' /\ (ok r = true -> gate_has g').
Proof.
  intros Ha. unfold ActivatePlayer. destruct (view g p) as [[[s l] i] h] eqn:V. pose proof V as V0.
  injection V as Es _ _ Eh. rewrite Es. destruct Ha as (-> & -> & Hh & Hb & Hs) eqn:Ea.
  destruct s as [record|].
  2:{ assert (h = false) as -> by (destruct h; [by destruct (Hh eq_refl)|done]).
      apply (with_lease_moves _ g _ _ _ V0); [by rewrite V0|]. intros g1 V1 I1.
      pose proof (open_session_moves g1 V1) as Ho. rewrite I1 in Ho.
      destruct (open_session _ _ _ _ _ _ g1) as [r g']. destruct Ho as [Hm Hp]; [intros Hbd; by destruct (Hb Hbd)|].
      split; [done|]. intros Hok. by apply (gate_has_put new_session), Hp. }
  destruct (Hs record eq_refl) as [Hne Hbound].
  assert (forall r', state r' = online -> h = true -> (state record = online \/ state record = detached) ->
    moves p g (put_session p r' g)) as Hput.
  { intros r' Hr' -> Hst. destruct (put_session_view p r' g _ _ _ _ V0) as (F & I & V). split; [done|]. rewrite V, I.
    split_and!; [done..|by intros _; eexists|by intros _; eexists|]. intros x [= <-]. split; [congruence|auto]. }
  assert (h = false -> (state record = online \/ state record = detached) ->
    let '(r, g') := with_lease now p (recover_session now p gate_type gate_instance gate_session allow) g in
    moves p g g' /\ (ok r = true -> gate_has g')) as Hrec.
  { intros -> Hst. apply (with_lease_moves _ g _ _ _ V0); [by rewrite V0|]. intros g1 V1 I1.
    pose proof (recover_session_moves g1 record V1 Hst) as Ho. destruct (recover_session _ _ _ _ _ _ g1) as [r g'].
    destruct Ho as [Hm Hp]. split; [done|]. intros Hok. by apply (gate_has_put record), Hp. }
  rewrite Eh. destruct (state record) eqn:Est; [by destruct Hne| | |].
  - destruct h; [|by apply Hrec; [|left]]. split; [apply Hput; auto|]. intros _.
    exists (attach now gate_type gate_instance gate_session record). simpl. by rewrite lookup_insert_eq.
  - destruct h; [|by apply Hrec; [|right]]. split; [apply Hput; auto|]. intros _. apply (gate_has_put record). simpl.
    by rewrite lookup_insert_eq.
  - split; [|done]. split; [done|]. by rewrite V0.
Qed.

End activation.

Lemma detach_moves now p matches g :
  agrees (view g p) (bound (ipc g) p) -> moves p g (detach_if now p matches g).2.
Proof.
  intros Ha. destruct (view g p) as [[[s l] i] h] eqn:V. assert (moves p g g) as Hsame by (split; [done|by rewrite V]).
  unfold detach_if. assert (sessions g !! p = s) as -> by by injection V.
  destruct s as [record|]; [|done]. destruct (bool_decide (state record = online)) eqn:Eo; cbn [negb]; [|done].
  destruct (matches record); cbn [negb]; [|done]. apply bool_decide_eq_true in Eo.
  destruct (put_session_view p (make_detached now g record) g _ _ _ _ V) as (F & I & V'). split; [done|]. cbn [snd]. rewrite V', I.
  destruct Ha as (-> & -> & Hh & Hb & Hs). destruct (Hs record eq_refl) as [_ Hbound].
  split_and!; [done..|by intros _; eexists|by intros _; eexists|]. intros x [= <-]. split; [done|auto].
Qed.

Lemma finish_release_moves p g record :
  view g p = (Some record, true, true, PlayerLeaseService.IsHeldLocally (lease g) p) -> state record = unloading ->
  let '(r, g') := finish_release p g in
  moves p g g' /\
  (if ok r then view g' p = (None, false, false, false) /\ ~ bound (ipc g') p /\ bound (ipc g) p
   else view g' p = view g p /\ (bound (ipc g') p <-> bound (ipc g) p) /\ ok (UnbindLocalPlayer p (ipc g)).1 = false).
Proof.
  intros V Hst. unfold finish_release. unfold attempt at 1.
  pose proof (unbind_view p g) as Hun. assert ((on_ipc (UnbindLocalPlayer p) g).1 = (UnbindLocalPlayer p (ipc g)).1) as E1.
  { unfold on_ipc. by destruct (UnbindLocalPlayer p (ipc g)). }
  destruct (on_ipc _ g) as [r1 g1]. simpl in E1. destruct Hun as (F1 & V1 & B1 & B1').
  assert (forall b, agrees (Some record, true, true, b) (bound (ipc g1) p)) as Hag.
  { intros b. split_and!; [done..|by intros _; eexists|by intros _; eexists|]. intros x [= <-]. split; [congruence|intros [?|?]; congruence]. }
  destruct (ok r1) eqn:Eok; cbn [negb].
  2:{ rewrite Eok. unfold ret. cbn [snd]. split; [split; [done|rewrite V1, V; apply Hag]|]. split_and!; [done|auto|congruence]. }
  destruct (B1 eq_refl) as [Hb Hnb]. unfold bind at 1. rewrite V in V1.
  destruct (remove_instance_view p g1 _ _ _ _ V1) as (F2 & I2 & V2).
  destruct (ignore (on_runtime _) g1) as [[] g2]. cbn [snd] in F2, I2, V2.
  unfold attempt. pose proof (release_record_view p g2 _ _ _ _ V2) as Hre. destruct (on_players _ g2) as [r3 g3].
  destruct Hre as (F3 & I3 & V3 & O3). rewrite O3 by done. cbn [negb]. unfold bind.
  destruct (release_lease_view p g3 _ _ _ _ V3) as (F4 & I4 & V4). destruct (release_lease p g3) as [[] g4].
  cbn [snd] in F4, I4, V4.
  destruct (drop_session_view p g4 _ _ _ _ V4) as (F5 & I5 & V5). cbn [ok Success].
  split; [|by rewrite V5, I5, I4, I3, I2]. split; [|by rewrite V5, I5, I4, I3, I2; split_and!].
  etrans; [etrans; [exact F1|exact F2]|]. etrans; [etrans; [exact F3|exact F4]|exact F5].
Qed.

Lemma view_parts g p s l i h :
  view g p = (s, l, i, h) ->
  sessions g !! p = s /\ is_loaded g p = l /\ bool_decide (is_Some (runtime g !! p)) = i /\ PlayerLeaseService.IsHeldLocally (lease g) p = h.
Proof. by intros [= -> -> -> ->]. Qed.

Lemma view_sessions g p s l i h : view g p = (s, l, i, h) -> sessions g !! p = s.
Proof. by intros [= -> _ _ _]. Qed.

(** Whether [ReleasePlayer] fails to save the data. *)
Definition flush_fails now p g : bool :=
  has_dirty_record g p && negb (ok (PlayerRepository.FlushPlayer now p (repository g, world g)).1).

Lemma ReleasePlayer_spec now p g record :
  agrees (view g p) (bound (ipc g) p) -> sessions g !! p = Some record ->
  let '(r, g') := ReleasePlayer now p g in
  moves p g g' /\
  if flush_fails now p g then ok r = false /\ view g' p = view g p /\ (bound (ipc g') p <-> bound (ipc g) p)
  else if ok r then view g' p = (None, false, false, false) /\ ~ bound (ipc g') p /\ bound (ipc g) p
  else (exists record', view g' p = (Some record', true, true, PlayerLeaseService.IsHeldLocally (lease g) p) /\
          state record' = unloading) /\ (bound (ipc g') p <-> bound (ipc g) p).
Proof.
  intros Ha Es. destruct (view g p) as [[[s l] i] h] eqn:V. pose proof (view_sessions _ _ _ _ _ _ V) as Es'.
  unfold ReleasePlayer. rewrite Es. rewrite Es' in Es. subst s. destruct Ha as (-> & -> & Hh & Hb & Hs).
  set (record' := record <| state := unloading |> <| last_state_change_ms := now |>).
  destruct (put_session_view p record' g _ _ _ _ V) as (F1 & I1 & V1). set (g1 := put_session p record' g) in *.
  assert (forall g2, frame p g g2 -> ipc g2 = ipc g -> view g2 p = view g1 p ->
    let '(r, g') := finish_release p g2 in
    moves p g g' /\
    if ok r then view g' p = (None, false, false, false) /\ ~ bound (ipc g') p /\ bound (ipc g) p
    else (exists record', view g' p = (Some record', true, true, PlayerLeaseService.IsHeldLocally (lease g) p) /\
            state record' = unloading) /\ (bound (ipc g') p <-> bound (ipc g) p)) as Hfin.
  { intros g2 F2 I2 V2. rewrite V1 in V2. pose proof V2 as V2'.
    assert (PlayerLeaseService.IsHeldLocally (lease g2) p = h) as Eh by by injection V2.
    assert (PlayerLeaseService.IsHeldLocally (lease g) p = h) as Eh' by by injection V.
    rewrite <- Eh in V2. pose proof (finish_release_moves p g2 record' V2 eq_refl) as Hf.
    destruct (finish_release p g2) as [r g']. destruct Hf as [Hm Hr]. split; [by apply (moves_frame p g g2)|].
    rewrite I2 in Hr. destruct (ok r); [done|]. destruct Hr as (V3 & B3 & _). split; [|done].
    exists record'. rewrite V3, V2', Eh'. done. }
  unfold flush_fails. change (has_dirty_record g p) with (has_dirty_record g1 p).
  destruct (has_dirty_record g1 p); cbn [andb]; [|by apply Hfin].
  pose proof (flush_view now p g1) as Hfl. unfold on_repository in *. change (repository g) with (repository g1).
  change (world g) with (world g1).
  destruct (PlayerRepository.FlushPlayer now p (repository g1, world g1)) as [r2 [rp w]]. cbn [fst].
  destruct Hfl as (F2 & I2 & V2). set (g2 := g1 <| repository := rp |> <| world := w |>) in *.
  destruct (ok r2); cbn [negb].
  - apply Hfin; [by etrans|congruence|done].
  - rewrite V1 in V2. rewrite (view_sessions _ _ _ _ _ _ V2).
    destruct (put_session_view p record g2 _ _ _ _ V2) as (F3 & I3 & V3).
    assert (frame p g (put_session p record g2)) as F by (etrans; [exact F1|etrans; [exact F2|exact F3]]).
    split; [split; [done|]|]; rewrite V3, I3, I2, I1; by split_and!.
Qed.

Lemma ReleasePlayer_moves now p g :
  agrees (view g p) (bound (ipc g) p) -> moves p g (ReleasePlayer now p g).2.
Proof.
  intros Ha. destruct (sessions g !! p) as [record|] eqn:Es.
  - pose proof (ReleasePlayer_spec now p g record Ha Es) as Hr. by destruct (ReleasePlayer now p g) as [r g'], Hr.
  - unfold ReleasePlayer. rewrite Es. by split.
Qed.

Lemma release_all_agree now players g : tables_agree g -> tables_agree (release_all now players g).2.
Proof.
  revert g. induction players as [|p players IH]; intros g Hg; simpl; [done|].
  pose proof (ReleasePlayer_moves now p g (Hg p)) as Hm. destruct (ReleasePlayer now p g) as [r g1].
  specialize (IH g1 (moves_agree p g g1 Hm Hg)). by destruct (release_all now players g1).
Qed.

Lemma notify_view p record g :
  let g' := (notify_gate p record g).2 in
  (forall q, bound (ipc g') q <-> bound (ipc g) q) /\ lease g' = lease g /\ forall q, view g' q = view g q.
Proof.
  unfold notify_gate, when. destruct (_ && _); [|done]. unfold ignore, on_ipc.
  match goal with |- context [SendProcessPayload ?target ?m _] => pose proof (send_law target m (ipc g)) as Hs end.
  by destruct (SendProcessPayload _ _ (ipc g)) as [r n].
Qed.

Lemma reconcile_one_moves now p record g :
  agrees (view g p) (bound (ipc g) p) -> PlayerLeaseService.IsHeldLocally (lease g) p = false ->
  let g' := (reconcile_one now p record g).2 in moves p g g' /\ lease g' = lease g.
Proof.
  intros Ha Hh. unfold reconcile_one, bind. destruct (notify_view p record g) as (B1 & L1 & V1).
  destruct (notify_gate p record g) as [[] g1]. cbn [snd] in B1, L1, V1. unfold unbind, ignore.
  pose proof (unbind_view p g1) as Hun. assert (lease (on_ipc (UnbindLocalPlayer p) g1).2 = lease g1) as L2
    by (unfold on_ipc; by destruct (UnbindLocalPlayer p (ipc g1))).
  destruct (on_ipc _ g1) as [r g2]. cbn [snd] in L2 |- *. destruct Hun as (F2 & V2 & B2 & B2').
  assert (lease g2 = lease g) as L by congruence. rewrite L, Hh.
  assert (frame p g g2) as F.
  { etrans; [|exact F2]. intros q _. split; [apply V1|apply B1]. }
  destruct (view g p) as [[[s l] i] h] eqn:V. rewrite V1, V in V2. rewrite (view_sessions _ _ _ _ _ _ V2).
  assert (h = false) as -> by (injection V as _ _ _ <-; done). destruct Ha as (-> & -> & _ & Hb & Hs).
  assert (bound (ipc g2) p -> is_Some s) as Hb2.
  { intros Hbd. apply Hb. destruct (ok r); [by destruct (B2 eq_refl)|]. apply B1. by apply B2'. }
  assert (moves p g g2) as Hm.
  { split; [done|]. rewrite V2. split_and!; [done|done|done|exact Hb2|]. intros x E. destruct (Hs x E) as [Hne _]. split; [done|]. intros _ E'. discriminate E'. }
  destruct s as [current|]; [|by split]. destruct (state current) eqn:Est; try by split. cbn [snd].
  destruct (put_session_view p (make_detached now g2 current) g2 _ _ _ _ V2) as (F3 & I3 & V3).
  split; [|exact L]. split; [by etrans; [exact F|exact F3]|]. rewrite V3, I3.
  split_and!; [done..|by intros _; eexists|]. intros x [= <-]. split; [done|]. intros _ E'. discriminate E'.
Qed.

Lemma reconcile_all_agree now lost g :
  tables_agree g -> (forall p record, (p, record) ∈ lost -> PlayerLeaseService.IsHeldLocally (lease g) p = false) ->
  tables_agree (reconcile_all now lost g).2.
Proof.
  revert g. induction lost as [|[p record] lost IH]; intros g Hg Hl; simpl; [done|].
  destruct (reconcile_one_moves now p record g (Hg p) (Hl p record ltac:(by left))) as [Hm L].
  destruct (reconcile_one now p record g) as [c g1]. cbn [snd] in Hm, L.
  specialize (IH g1 (moves_agree p g g1 Hm Hg)). destruct (reconcile_all now lost g1). apply IH.
  intros q r Hq. rewrite L. apply (Hl q r). by right.
Qed.

Lemma Reconcile_agree now g : tables_agree g -> tables_agree (ReconcileLeaseLosses now g).2.
Proof.
  intros Hg. apply reconcile_all_agree; [done|]. intros p record [Hl _]%list_elem_of_filter. unfold is_lost in Hl.
  apply andb_true_iff in Hl as [_ Hl]. by apply negb_true_iff in Hl.
Qed.

(** A renewal round only gives leases up. *)
Lemma lease_loop_agree now g : tables_agree g -> tables_agree (on_lease (PlayerLeaseService.Loop now) g).2.
Proof.
  intros Hg p. specialize (Hg p). unfold on_lease. destruct (PlayerLeaseService.Loop now _) as [[] [l w]] eqn:E.
  assert (PlayerLeaseService.IsHeldLocally l p = true -> PlayerLeaseService.IsHeldLocally (lease g) p = true) as Hh.
  { unfold PlayerLeaseService.IsHeldLocally. rewrite !bool_decide_eq_true. intros [o Ho]. exists o.
    apply (LeaseProofs.Loop_leases now (lease g) (world g)). by rewrite E. }
  unfold view, is_loaded in *. simpl in *. destruct Hg as (A & B & C & D & F).
  split_and!; [done|done| |done|].
  - intros Hl. apply C. by apply Hh.
  - intros record Hr. destruct (F record Hr) as [Hne Hb]. split; [done|]. intros Hst Hl. apply Hb; [done|]. by apply Hh.
Qed.

(** A change of the repository and the instances that keeps who is loaded and present. *)
Lemma same_views_agree g g' :
  (forall p, view g' p = view g p) -> (forall p, bound (ipc g') p <-> bound (ipc g) p) -> tables_agree g -> tables_agree g'.
Proof. intros Hv Hb Hg p. rewrite Hv. eapply agrees_iff; [symmetry; apply Hb|apply Hg]. Qed.

Lemma change_data_loaded now p f repository q :
  match PlayerRepository.mPlayers (PlayerRepository.change_data now p f repository).2 !! q with Some r => loaded r | None => false end
  = match PlayerRepository.mPlayers repository !! q with Some r => loaded r | None => false end.
Proof.
  unfold PlayerRepository.change_data. destruct (PlayerRepository.mPlayers repository !! p) as [r|] eqn:Er; [|done].
  destruct (loaded r) eqn:El; [|done]. cbn [negb snd]. simpl. destruct (decide (q = p)) as [->|Hq].
  - by rewrite lookup_insert_eq, Er.
  - by rewrite lookup_insert_ne.
Qed.

Lemma change_agree now p f g : tables_agree g -> tables_agree (on_players (PlayerRepository.change_data now p f) g).2.
Proof.
  intros Hg. unfold on_players. pose proof (change_data_loaded now p f (repository g)) as E.
  destruct (PlayerRepository.change_data _ _ _ _) as [r s]. simpl in E. apply (same_views_agree g); [|done|done].
  intros q. unfold view, is_loaded. simpl. by rewrite E.
Qed.

(** What the handlers, threads and commands of a game do, in any order.  The rest
    of the world may change the databases and, behind the IPC service, everything
    but the bound players. *)
Inductive game_step : game N W -> game N W -> Prop :=
| gs_activate g now p gate_type gate_instance gate_session allow :
    game_step g (ActivatePlayer now p gate_type gate_instance gate_session allow g).2
| gs_detach g now p : game_step g (DetachPlayer now p g).2
| gs_detach_of g now p gate_type gate_instance gate_session :
    game_step g (DetachPlayer_of now p gate_type gate_instance gate_session g).2
| gs_release g now p : game_step g (ReleasePlayer now p g).2
| gs_expire g now : game_step g (ExpireDetachedPlayers now g).2
| gs_loop g now : game_step g (Loop now g).2
| gs_start g : game_step g (Start g)
| gs_stop g : game_step g (Stop g)
| gs_lease_round g now : game_step g (on_lease (PlayerLeaseService.Loop now) g).2
| gs_flush g now p : game_step g (on_repository (PlayerRepository.FlushPlayer now p) g).2
| gs_login g now p : game_step g (on_players (PlayerRepository.TouchLogin now p) g).2
| gs_set_name g now p name : game_step g (on_players (PlayerRepository.SetDisplayName now p name) g).2
| gs_echo g p text : game_step g (on_runtime (PlayerRuntimeService.HandleEcho (repository g) p text) g).2
| gs_rename g now p name : game_step g (on_instances (PlayerRuntimeService.HandleRename now p name) g).2
| gs_world g n w : (forall q, bound n q <-> bound (ipc g) q) -> game_step g (g <| ipc := n |> <| world := w |>).

Lemma count_present (players : PlayerRuntimeService.t) p c count q :
  players !! p = Some c -> bool_decide (is_Some (<[p := count]> players !! q)) = bool_decide (is_Some (players !! q)).
Proof.
  intros E. destruct (decide (q = p)) as [->|Hq]; [by rewrite lookup_insert_eq, E|by rewrite lookup_insert_ne].
Qed.

Lemma rename_ipc now p name g q : bound (ipc (on_instances (PlayerRuntimeService.HandleRename now p name) g).2) q <-> bound (ipc g) q.
Proof. unfold on_instances. by destruct (PlayerRuntimeService.HandleRename _ _ _ _) as [a [i r]]. Qed.

Lemma rename_view now p name g q : view (on_instances (PlayerRuntimeService.HandleRename now p name) g).2 q = view g q.
Proof.
  unfold on_instances, PlayerRuntimeService.HandleRename, view, is_loaded.
  destruct (runtime g !! p) as [c|] eqn:Er; [|done]. destruct (String.eqb name ""); [done|].
  pose proof (change_data_loaded now p (fun d => d <| pd_display_name := name |>) (repository g) q) as E.
  unfold PlayerRepository.SetDisplayName. destruct (PlayerRepository.change_data _ _ _ _) as [r s]. simpl in E.
  destruct (ok r); simpl; rewrite E; [|done]. by rewrite (count_present _ _ _ _ _ Er).
Qed.

Lemma game_step_agree g g' : game_step g g' -> tables_agree g -> tables_agree g'.
Proof.
  intros Hs Hg. destruct Hs as [g now p gt gi gs allow|g now p|g now p gt gi gs|g now p|g now|g now|g|g|g now|g now p|g now p|g now p name|
    g p text|g now p name|g n w Hn].
  - pose proof (ActivatePlayer_moves now p gt gi gs allow g (Hg p)) as Hm. destruct (ActivatePlayer _ _ _ _ _ _ g).
    destruct Hm as [Hm _]. by eapply moves_agree.
  - eapply moves_agree; [by apply detach_moves|done].
  - eapply moves_agree; [by apply detach_moves|done].
  - eapply moves_agree; [by apply ReleasePlayer_moves|done].
  - by apply release_all_agree.
  - unfold Loop. destruct (mStopping g); [done|]. by apply Reconcile_agree.
  - done.
  - done.
  - by apply lease_loop_agree.
  - pose proof (flush_view now p g) as Hf. destruct (on_repository _ g) as [r g1]. destruct Hf as (F & I & V). simpl.
    eapply tables_agree_frame; [exact F|done|]. by rewrite V, I.
  - by apply change_agree.
  - by apply change_agree.
  - unfold on_runtime, PlayerRuntimeService.HandleEcho. destruct (runtime g !! p) as [c|] eqn:Er; [|done].
    destruct (PlayerRuntimeService.loaded_record _ _); [|done]. apply (same_views_agree g); [|done|done]. intros q.
    unfold view, is_loaded. simpl. by rewrite (count_present _ _ _ _ _ Er).
  - apply (same_views_agree g); [|intros q; apply rename_ipc|done]. intros q. apply rename_view.
  - by apply (same_views_agree g).
Qed.

(** *** A player that is being unloaded and is not bound stays so *)

Definition stranded p g : Prop :=
  tables_agree g /\ ~ bound (ipc g) p /\ exists record, sessions g !! p = Some record /\ state record = unloading.

Lemma frame_stranded p q g g' : q <> p -> frame q g g' -> tables_agree g' -> stranded p g -> stranded p g'.
Proof.
  intros Hq Hf Ha (_ & Hb & record & Hr & Hs). destruct (Hf p ltac:(congruence)) as [V B]. split; [done|].
  split; [by rewrite B|]. exists record. split; [|done]. injection V as -> _ _ _. done.
Qed.

Lemma stranded_same p g g' :
  tables_agree g' -> view g' p = view g p -> (bound (ipc g') p <-> bound (ipc g) p) -> stranded p g -> stranded p g'.
Proof.
  intros Ha V B (_ & Hb & record & Hr & Hs). split; [done|]. split; [by rewrite B|]. exists record. split; [|done].
  injection V as -> _ _ _. done.
Qed.

(** [ReleasePlayer] can do nothing for it. *)
Lemma stranded_release now p g : stranded p g -> stranded p (ReleasePlayer now p g).2.
Proof.
  intros (Ha & Hb & record & Hr & Hs). pose proof (ReleasePlayer_spec now p g record (Ha p) Hr) as Hm.
  destruct (ReleasePlayer now p g) as [r g']. destruct Hm as [Hm Hout]. cbn [snd].
  split; [by eapply moves_agree|]. destruct (flush_fails now p g).
  - destruct Hout as (_ & V & B). split; [by rewrite B|]. exists record. split; [|done]. injection V as -> _ _ _. done.
  - destruct (ok r); [by destruct Hout as (_ & _ & ?)|]. destruct Hout as [(record' & V & Hs') B].
    split; [by rewrite B|]. exists record'. split; [|done]. by injection V.
Qed.

Lemma stranded_release_all now players p g : stranded p g -> stranded p (release_all now players g).2.
Proof.
  revert g. induction players as [|q players IH]; intros g Hg; [done|]. simpl.
  assert (stranded p (ReleasePlayer now q g).2) as Hq.
  { destruct (decide (q = p)) as [->|Hne]; [by apply stranded_release|]. pose proof Hg as (Ha & _).
    pose proof (ReleasePlayer_moves now q g (Ha q)) as Hm.
    apply (frame_stranded p q g); [done|apply Hm|by eapply moves_agree|done]. }
  destruct (ReleasePlayer now q g) as [r g1]. cbn [snd] in Hq. specialize (IH g1 Hq). by destruct (release_all now players g1).
Qed.

Lemma stranded_reconcile_all now lost p g :
  stranded p g -> (forall q record, (q, record) ∈ lost -> q <> p /\ PlayerLeaseService.IsHeldLocally (lease g) q = false) ->
  stranded p (reconcile_all now lost g).2.
Proof.
  revert g. induction lost as [|[q record] lost IH]; intros g Hg Hl; [done|]. simpl.
  destruct (Hl q record ltac:(by left)) as [Hq Hh]. pose proof Hg as (Ha & _).
  destruct (reconcile_one_moves now q record g (Ha q) Hh) as [Hm L].
  pose proof (frame_stranded p q g _ Hq (proj1 Hm) (moves_agree q g _ Hm Ha) Hg) as H1g.
  destruct (reconcile_one now q record g) as [b g1]. cbn [snd] in *. specialize (IH g1 H1g).
  destruct (reconcile_all now lost g1). apply IH. intros x y Hxy. rewrite L. apply (Hl x y). by right.
Qed.

Lemma stranded_move p q g g' : tables_agree g' -> stranded p g -> (q = p -> g' = g) -> moves q g g' -> stranded p g'.
Proof.
  intros Ha Hg Hp [Hf _]. destruct (decide (q = p)) as [E|Hne]; [by rewrite (Hp E)|]. by apply (frame_stranded p q g).
Qed.

Lemma stranded_activate now p q gt gi gs allow g :
  stranded p g -> q = p -> ActivatePlayer now q gt gi gs allow g = (Failure "player is transitioning and cannot be activated", g).
Proof. intros (_ & _ & record & Hr & Hs) ->. unfold ActivatePlayer. by rewrite Hr, Hs. Qed.

Lemma stranded_detach now p q matches g : stranded p g -> q = p -> (detach_if now q matches g).2 = g.
Proof. intros (_ & _ & record & Hr & Hs) ->. unfold detach_if. by rewrite Hr, Hs. Qed.

Lemma game_step_stranded p g g' : game_step g g' -> stranded p g -> stranded p g'.
Proof.
  intros Hs Hg. pose proof (game_step_agree g g' Hs (proj1 Hg)) as Ha. pose proof (proj1 Hg) as Ha0.
  destruct Hs as [g now q gt gi gs allow|g now q|g now q gt gi gs|g now q|g now|g now|g|g|g now|g now q|g now q|g now q name|
    g q text|g now q name|g n w Hn].
  - apply (stranded_move p q g); [done|done|intros E; by rewrite (stranded_activate now p q gt gi gs allow g Hg E)|].
    pose proof (ActivatePlayer_moves now q gt gi gs allow g (Ha0 q)) as Hm. by destruct (ActivatePlayer _ _ _ _ _ _ g), Hm.
  - apply (stranded_move p q g); [done|done|by apply stranded_detach|by apply detach_moves].
  - apply (stranded_move p q g); [done|done|by apply stranded_detach|by apply detach_moves].
  - destruct (decide (q = p)) as [->|Hne]; [by apply stranded_release|].
    apply (stranded_move p q g); [done|done|done|by apply ReleasePlayer_moves].
  - by apply stranded_release_all.
  - unfold Loop in *. destruct (mStopping g); [done|]. apply stranded_reconcile_all; [done|].
    intros q record [Hl Hin]%list_elem_of_filter. unfold is_lost in Hl. apply andb_true_iff in Hl as [Hst Hl].
    split; [|by apply negb_true_iff in Hl]. intros ->. apply elem_of_entries in Hin.
    destruct Hg as (_ & _ & r & Hr & Hu). rewrite Hr in Hin. injection Hin as ->. apply bool_decide_eq_true in Hst.
    rewrite Hu in Hst. by destruct Hst.
  - done.
  - done.
  - destruct Hg as (_ & Hb & record & Hr & Hst). split; [done|].
    unfold on_lease in *. destruct (PlayerLeaseService.Loop now _) as [[] [l w]]. split; [done|by exists record].
  - pose proof (flush_view now q g) as Hf. destruct (on_repository _ g) as [r g1]. destruct Hf as (F & I & V). cbn [snd] in *.
    destruct (decide (q = p)) as [->|Hne]; [|by apply (frame_stranded p q g)]. apply (stranded_same p g); [done|done|by rewrite I|done].
  - destruct Hg as (_ & Hb & record & Hr & Hst). split; [done|]. unfold on_players in *.
    destruct (PlayerRepository.TouchLogin _ _ _). split; [done|by exists record].
  - destruct Hg as (_ & Hb & record & Hr & Hst). split; [done|]. unfold on_players in *.
    destruct (PlayerRepository.SetDisplayName _ _ _ _). split; [done|by exists record].
  - destruct Hg as (_ & Hb & record & Hr & Hst). split; [done|]. unfold on_runtime in *.
    destruct (PlayerRuntimeService.HandleEcho _ _ _ _). split; [done|by exists record].
  - apply (stranded_same p g); [done|apply rename_view|apply rename_ipc|done].
  - destruct Hg as (_ & Hb & record & Hr & Hst). split; [done|]. simpl. rewrite Hn. split; [done|by exists record].
Qed.

End session.
End SessionProofs.

(** ** Properties *)

Section properties.
Import PlayerSessionService SessionProofs.
Context {N W : Type} {r : Redis W} {mr : Maria W} {codec : PlayerDataCodec} {gi : GameIpc N} {gl : GameIpcLaw N} {mo : MapOrder Z}.
Implicit Types g : game N W.

(** A game that has just been started. *)
Definition fresh_game g : Prop :=
  PlayerRepository.mPlayers (repository g) = ∅ /\ PlayerLeaseService.mLeases (lease g) = ∅ /\ runtime g = ∅ /\
  sessions g = ∅ /\ forall p, ~ bound (ipc g) p.

Lemma fresh_agree g : fresh_game g -> tables_agree g.
Proof.
  intros (A & B & C & D & E) p. unfold view, is_loaded, PlayerLeaseService.IsHeldLocally. rewrite A, B, C, D, !lookup_empty.
  split_and!; [done|done|intros Hh; discriminate Hh|intros Hb; by destruct (E p)|done].
Qed.

Lemma steps_agree g g' : rtc game_step g g' -> tables_agree g -> tables_agree g'.
Proof. induction 1 as [|g1 g2 g3 Hs _ IH]; [done|]. intros Hg. apply IH. by eapply game_step_agree. Qed.

Lemma steps_stranded p g g' : rtc game_step g g' -> stranded p g -> stranded p g'.
Proof. induction 1 as [|g1 g2 g3 Hs _ IH]; [done|]. intros Hg. apply IH. by eapply game_step_stranded. Qed.


(** C30: the newest gate session has the player: after a successful activation the
    player is online with exactly the gate session that activated it; a disconnect
    reported for any other gate session is refused and changes nothing; one
    reported for this session detaches the player and sets its deadline. *)
Theorem newest_gate_session_wins g0 g now now' p gate_type gate_instance gate_session gate_type' gate_instance' gate_session' allow :
  fresh_game g0 -> rtc game_step g0 g ->
  let '(r, g1) := ActivatePlayer now p gate_type gate_instance gate_session allow g in
  ok r = true ->
  (exists record, Snapshot g1 p = Some record /\ state record = online /\ gate_service_type record = gate_type /\
     gate_instance_id record = gate_instance /\ gate_session_id record = gate_session) /\
  if bool_decide ((gate_type', gate_instance', gate_session') = (gate_type, gate_instance, gate_session)) then
    let '(r2, g2) := DetachPlayer_of now' p gate_type' gate_instance' gate_session' g1 in
    r2 = Success /\ exists record, Snapshot g2 p = Some record /\ state record = detached /\
      detach_deadline_ms record = u64 (now' + mDetachedTtlSeconds g1 * 1000) /\ gate_session_id record = 0
  else DetachPlayer_of now' p gate_type' gate_instance' gate_session' g1 = (Failure "player gate session does not match", g1).
Proof.
  intros Hf Hr. pose proof (steps_agree g0 g Hr (fresh_agree g0 Hf) p) as Ha.
  pose proof (ActivatePlayer_moves now p gate_type gate_instance gate_session allow g Ha) as Hm.
  destruct (ActivatePlayer _ _ _ _ _ _ g) as [r1 g1]. destruct Hm as [_ Hg]. intros Hok. pose proof (Hg Hok) as Hhas. split; [exact Hhas|].
  destruct Hhas as (record & Es & Eo & E1 & E2 & E3). unfold DetachPlayer_of, detach_if. rewrite Es, Eo, E1, E2, E3.
  rewrite (bool_decide_eq_true_2 (online = online)) by done. cbn [negb].
  case_bool_decide as Hd.
  - injection Hd as -> -> ->. rewrite !Z.eqb_refl. cbn [negb andb]. split; [done|]. unfold Snapshot, put_session. simpl.
    rewrite lookup_insert_eq. eexists. by split_and!.
  - destruct (Z.eqb_spec gate_type gate_type'), (Z.eqb_spec gate_instance gate_instance'), (Z.eqb_spec gate_session gate_session');
      try done. destruct Hd. congruence.
Qed.

(** *** Releasing players *)

Context {scripts : script_semantics} {law : StorageLaw scripts W} {fits : PlayerData -> Prop} {codec_law : PlayerDataCodecLaw fits}.
Import StorageProofs RepositoryProofs.

Lemma finish_release_repository p g : ok (UnbindLocalPlayer p (ipc g)).1 = false -> repository (finish_release p g).2 = repository g.
Proof.
  unfold finish_release, attempt, on_ipc. destruct (UnbindLocalPlayer p (ipc g)) as [r1 n]. cbn [fst]. intros ->. done.
Qed.

Lemma finish_release_stored dataset m p g k : stored dataset m (world (finish_release p g).2) k = stored dataset m (world g) k.
Proof.
  unfold finish_release, attempt, on_ipc. destruct (UnbindLocalPlayer p (ipc g)) as [r1 n]. destruct (ok r1); [|done]. cbn [negb].
  unfold bind, ignore, on_runtime, on_players. simpl. destruct (PlayerRuntimeService.RemovePlayer p (runtime g)) as [r2 i]. simpl.
  destruct (PlayerRepository.ReleasePlayer p (repository g)) as [r3 rp]. destruct (ok r3); [|done]. cbn [negb].
  unfold release_lease, ignore, on_lease. simpl. unfold PlayerLeaseService.Release.
  destruct (PlayerLeaseService.mLeases (lease g) !! p) as [o|]; [|done]. unfold PlayerLeaseService.ReleaseLeaseLocked.
  destruct (PlayerLeaseService.mRedis (lease g)) as [c'|]; [|done].
  pose proof (redis_keeps_maria c' (cmd_eval kReleaseScript (PlayerLeaseService.BuildKey (lease g) p) [BuildValue o]) m (world g)) as Hk.
  destruct (redisCommand c' _ (world g)) as [[[]|] w]; simpl in *; unfold stored; by rewrite Hk.
Qed.

Lemma finish_release_fails p g :
  is_Some (PlayerRepository.mPlayers (repository g) !! p) -> ok (finish_release p g).1 = false ->
  repository (finish_release p g).2 = repository g.
Proof.
  intros [x Hx] Hok. apply finish_release_repository. revert Hok. unfold finish_release, attempt, on_ipc.
  destruct (UnbindLocalPlayer p (ipc g)) as [r1 n]. cbn [fst]. destruct (ok r1); [|done]. cbn [negb].
  unfold bind, ignore, on_runtime, on_players. simpl. destruct (PlayerRuntimeService.RemovePlayer p (runtime g)) as [r2 i].
  unfold PlayerRepository.ReleasePlayer. simpl. rewrite Hx. simpl.
  done.
Qed.

(** What [ReleasePlayer] does with the data of a player that has a session. *)
Lemma ReleasePlayer_data dataset c m now p g session x :
  serves dataset c m (repository g) -> in_u64 p -> Snapshot g p = Some session ->
  PlayerRepository.Snapshot (repository g) p = Some x -> fits (data x) ->
  let '(r, g') := ReleasePlayer now p g in
  (dirty x = true -> flush_fails now p g = false -> saved dataset m (world g') p (data x)) /\
  (ok r = false -> exists x', PlayerRepository.Snapshot (repository g') p = Some x' /\ data x' = data x).
Proof.
  intros Hserve Hp Hs Hx Hf. unfold ReleasePlayer, Snapshot in *. rewrite Hs. set (g1 := put_session p _ g).
  unfold flush_fails. change (has_dirty_record g p) with (has_dirty_record g1 p).
  change (repository g) with (repository g1) in *. change (world g) with (world g1).
  assert (has_dirty_record g1 p = dirty x) as -> by (unfold has_dirty_record; by rewrite Hx).
  assert (forall g2 x', PlayerRepository.mPlayers (repository g2) !! p = Some x' -> data x' = data x ->
    let '(r, g') := finish_release p g2 in
    (saved dataset m (world g2) p (data x) -> saved dataset m (world g') p (data x)) /\
    (ok r = false -> exists x', PlayerRepository.Snapshot (repository g') p = Some x' /\ data x' = data x)) as Hfin.
  { intros g2 x' Hx' Hd. pose proof (finish_release_fails p g2 ltac:(by eexists)) as Hff.
    pose proof (finish_release_stored dataset m p g2) as Hst. destruct (finish_release p g2) as [r1 g']. cbn [fst snd] in *. split.
    - intros (payload & Hsp & Hpar). exists payload. by rewrite Hst.
    - intros Hok. exists x'. unfold PlayerRepository.Snapshot. by rewrite Hff. }
  destruct (dirty x); cbn [andb].
  - pose proof (FlushPlayer_spec (fits := fits) dataset c m now p (repository g1) (world g1) Hserve Hp) as Hfl. unfold on_repository.
    destruct (PlayerRepository.FlushPlayer now p (repository g1, world g1)) as [r2 [rp w]]. cbn [fst].
    unfold PlayerRepository.Snapshot in Hx. rewrite Hx in Hfl.
    destruct Hfl as (_ & _ & _ & Hm & Hsaved); [by intros y [= <-]|].
    destruct (ok r2) eqn:Eok; cbn [negb].
    + assert (PlayerRepository.mPlayers (repository (g1 <| repository := rp |> <| world := w |>)) !! p
        = Some (PlayerRepository.mark_flushed now x)) as E by (simpl; by rewrite Hm, lookup_insert_eq).
      specialize (Hfin _ _ E eq_refl).
      destruct (finish_release p _) as [r3 g']. destruct Hfin as [H1 H2]. split; [|done]. intros _ _. by apply H1, Hsaved.
    + split; [done|]. intros _. exists x. unfold PlayerRepository.Snapshot. case_match; simpl; by rewrite Hm.
  - specialize (Hfin g1 x Hx eq_refl). destruct (finish_release p g1) as [r3 g']. by destruct Hfin.
Qed.


(** A lost lease strands the player: once the reconciliation has unbound a
    player whose lease is lost, its release, which still writes unsaved data to
    MariaDB although another game may hold the player by now, fails; from then on,
    whatever happens, the session stays [unloading], every activation of the player
    is refused and every release fails. *)
Theorem lost_lease_strands_player dataset c m g0 g now p session x :
  fresh_game g0 -> rtc game_step g0 g -> Snapshot g p = Some session -> (state session = online \/ state session = detached) ->
  ~ bound (ipc g) p -> flush_fails now p g = false ->
  serves dataset c m (repository g) -> in_u64 p -> PlayerRepository.Snapshot (repository g) p = Some x -> fits (data x) ->
  PlayerLeaseService.IsHeldLocally (lease g) p = false /\
  let '(r, g1) := ReleasePlayer now p g in
  ok r = false /\ (dirty x = true -> saved dataset m (world g1) p (data x)) /\
  forall g2 now' gate_type gate_instance gate_session allow, rtc game_step g1 g2 ->
    (exists record, Snapshot g2 p = Some record /\ state record = unloading) /\
    ActivatePlayer now' p gate_type gate_instance gate_session allow g2
      = (Failure "player is transitioning and cannot be activated", g2) /\
    ok (ReleasePlayer now' p g2).1 = false.
Proof.
  intros Hf Hr Hs Hst Hb Hfl Hserve Hp Hx Hfit. pose proof (steps_agree g0 g Hr (fresh_agree g0 Hf)) as Ha.
  split.
  { specialize (Ha p). unfold view, agrees in Ha. destruct Ha as (_ & _ & _ & _ & Hall).
    destruct (Hall session Hs) as [_ Hheld]. destruct (PlayerLeaseService.IsHeldLocally _ _); [|done]. by destruct (Hb (Hheld Hst eq_refl)). }
  pose proof (ReleasePlayer_spec now p g session (Ha p) Hs) as Hrel. rewrite Hfl in Hrel.
  pose proof (ReleasePlayer_data dataset c m now p g session x Hserve Hp Hs Hx Hfit) as Hd.
  destruct (ReleasePlayer now p g) as [r1 g1]. destruct Hrel as [Hm Hrel], Hd as [Hd _].
  destruct (ok r1); [by destruct Hrel as (_ & _ & ?)|]. split; [done|]. split; [auto|].
  destruct Hrel as [(record & V & Hu) B]. intros g2 now' gt gn gs allow Hsteps.
  assert (stranded p g1) as Hstr.
  { split; [by eapply moves_agree|]. split; [by rewrite B|]. exists record. split; [by injection V|done]. }
  pose proof (steps_stranded p g1 g2 Hsteps Hstr) as H2. pose proof H2 as (Ha2 & Hb2 & record2 & Hr2 & Hu2).
  split; [by exists record2|]. split; [by eapply stranded_activate|].
  pose proof (ReleasePlayer_spec now' p g2 record2 (Ha2 p) Hr2) as Hrel2.
  destruct (ReleasePlayer now' p g2) as [r3 g3]. destruct Hrel2 as [_ Hrel2]. destruct (flush_fails now' p g2); [by destruct Hrel2|].
  destruct (ok r3) eqn:E3; [by destruct Hrel2 as (_ & _ & ?)|exact E3].
Qed.

End properties.

(** ** The IPC service of a game is the node of [IpcNode] *)

Section node_ipc.
Context {V T : Type}.
Lemma directory_bind_message receiver owner d :
  ok (LocalReceiverDirectory.Bind receiver owner d).1 = false -> message (LocalReceiverDirectory.Bind receiver owner d).1 <> already_bound.
Proof. unfold LocalReceiverDirectory.Bind. repeat case_match; simpl; done. Qed.

Lemma node_bind_law p (n : IpcNode.node V T) :
  let '(r, n') := IpcNode.BindLocalPlayer p n in
  (ok r = true \/ message r = already_bound -> p ∈ IpcNode.mBoundPlayers n') /\
  (forall q, q <> p -> q ∈ IpcNode.mBoundPlayers n' <-> q ∈ IpcNode.mBoundPlayers n) /\
  (ok r = false -> p ∈ IpcNode.mBoundPlayers n' <-> p ∈ IpcNode.mBoundPlayers n).
Proof.
  unfold IpcNode.BindLocalPlayer, Hosts.PlayerBind, Hosts.PlayerUnbind. destruct (IpcNode.mSelf n) as [self|].
  2:{ simpl. split; [intros [E|E]; discriminate E|done]. }
  destruct (bool_decide (p ∈ IpcNode.mBoundPlayers n)) eqn:Ed; cbn [negb].
  - apply bool_decide_eq_true in Ed. simpl. split; [set_solver|]. split; [set_solver|]. set_solver.
  - apply bool_decide_eq_false in Ed. pose proof (directory_bind_message (IpcNode.PlayerReceiverAddress p) (process self)
      (IpcNode.mReceiverDirectory n)) as Hm. simpl. destruct (LocalReceiverDirectory.Bind _ _ _) as [r d]. simpl in Hm.
    destruct (ok r) eqn:Eok; cbn [negb]; simpl; rewrite ?Eok.
    + split; [set_solver|]. split; [set_solver|done].
    + split; [intros [E|E]; [congruence|by destruct (Hm eq_refl)]|]. set_solver.
Qed.

Lemma node_unbind_law p (n : IpcNode.node V T) :
  let '(r, n') := IpcNode.UnbindLocalPlayer p n in
  (forall q, q <> p -> q ∈ IpcNode.mBoundPlayers n' <-> q ∈ IpcNode.mBoundPlayers n) /\
  (ok r = true -> p ∈ IpcNode.mBoundPlayers n /\ ~ p ∈ IpcNode.mBoundPlayers n') /\
  (ok r = false -> p ∈ IpcNode.mBoundPlayers n' <-> p ∈ IpcNode.mBoundPlayers n).
Proof.
  unfold IpcNode.UnbindLocalPlayer, Hosts.PlayerIsBound, Hosts.PlayerUnbind. destruct (IpcNode.mSelf n) as [self|]; [|done].
  destruct (bool_decide (p ∈ IpcNode.mBoundPlayers n)) eqn:Ed; cbn [negb]; [|done]. apply bool_decide_eq_true in Ed.
  destruct (LocalReceiverDirectory.Resolve _ _) as [k owners v]; cbn [rl_kind processes version].
  destruct k; try done. destruct owners as [|owner [|]]; try done.
  destruct (bool_decide (owner = process self)); cbn [negb]; [|done].
  destruct (LocalReceiverDirectory.Invalidate _ _ _ _) as [r d]. simpl. destruct (ok r) eqn:Eok; cbn [negb]; [|by rewrite Eok].
  simpl. split; [set_solver|]. split; [set_solver|done].
Qed.

(** [SendProcessPayload] of the node with the encoded message; the messenger hands it to
    the transport, which knows nothing of the bound players. *)
Variable send : ProcessId -> process_message -> St (IpcNode.node V T) Result.
Hypothesis send_keeps : forall target m n, IpcNode.mBoundPlayers (send target m n).2 = IpcNode.mBoundPlayers n.

Definition node_ipc : GameIpc (IpcNode.node V T) := {|
  BindLocalPlayer := IpcNode.BindLocalPlayer;
  UnbindLocalPlayer := IpcNode.UnbindLocalPlayer;
  game_sender := send
|}.

Definition node_ipc_law : @GameIpcLaw (IpcNode.node V T) node_ipc.
Proof.
  refine (@Build_GameIpcLaw _ node_ipc (fun n p => p ∈ IpcNode.mBoundPlayers n) node_bind_law node_unbind_law _).
  intros target m n q. simpl. by rewrite send_keeps.
Defined.
End node_ipc.

(** ** A concrete game *)

Module ExampleGame.
Import PlayerSessionService SessionProofs ExampleServers ExampleRepository.

#[local] Existing Instance order_Z.
#[local] Existing Instance example_maria.
#[local] Instance redis_servers : Redis servers := example_redis true.
#[local] Instance storage_servers : StorageLaw no_scripts servers := example_storage_law true.

(** IPC is not active: every send is rejected. *)
Definition rejected_send (target : ProcessId) (m : process_message) : St (IpcNode.node unit unit) Result :=
  fun n => (Failure "ipc is not active", n).
#[local] Instance game_ipc : GameIpc (IpcNode.node unit unit) := node_ipc rejected_send.
#[local] Instance game_ipc_law : GameIpcLaw (IpcNode.node unit unit) := node_ipc_law rejected_send (fun _ _ _ => eq_refl).

Definition example_lease : PlayerLeaseService.t :=
  PlayerLeaseService.mkPlayerLeaseService "default" 10 1 30 "dev:game:player:lease:" false true (Some 1) ∅
    (mkPlayerLeaseSnapshot true 0 0 0 0 0 0 0 "").

Definition started : game (IpcNode.node unit unit) servers :=
  mkGame empty_repository example_lease ∅ loaded_game ∅ 60 false false no_rows.

(** Player 7 logs in through session 5 of gate 1.  Its lease is lost (the server
    knows no scripts), which the next round of the thread notices. *)
Definition activated : game (IpcNode.node unit unit) servers := (ActivatePlayer 1000 7 20 1 5 false started).2.
Definition lease_lost : game (IpcNode.node unit unit) servers := (on_lease (PlayerLeaseService.Loop 2000) activated).2.
Definition reconciled : game (IpcNode.node unit unit) servers := (Loop 3000 lease_lost).2.

Lemma started_fresh : fresh_game started.
Proof. split_and!; try done. Qed.

Lemma activated_reached : rtc game_step started activated.
Proof. apply rtc_once. exact (gs_activate started 1000 7 20 1 5 false). Qed.

Lemma reconciled_reached : rtc game_step started reconciled.
Proof.
  apply rtc_l with activated; [exact (gs_activate started 1000 7 20 1 5 false)|]. apply rtc_l with lease_lost; [exact (gs_lease_round activated 2000)|].
  apply rtc_once. exact (gs_loop lease_lost 3000).
Qed.


Lemma newest_gate_session_wins_witness :
  DetachPlayer_of 1500 7 20 1 4 activated = (Failure "player gate session does not match", activated).
Proof.
  pose proof (newest_gate_session_wins started started 1000 1500 7 20 1 5 20 1 4 false started_fresh (rtc_refl _ _)) as Hs.
  assert (ActivatePlayer 1000 7 20 1 5 false started = (Success, activated)) as E
    by (rewrite (surjective_pairing (ActivatePlayer _ _ _ _ _ _ _)); f_equal; by vm_compute).
  rewrite E in Hs. by destruct (Hs eq_refl) as [_ Ho].
Defined.

Lemma game_serves (repo : PlayerRepository.t) :
  PlayerRepository.mStorageService repo = Some example_service -> PlayerRepository.mDatasetName repo = "player" ->
  RepositoryProofs.serves example_dataset 1 2 repo.
Proof. apply example_serves. Qed.

(** The record of a player that has just been created. *)
Definition created_record : PlayerRepositoryRecord :=
  PlayerRepository.mark_loaded 1000 (PlayerRepository.fresh_record 1000 7 false).

Definition released : Result * game (IpcNode.node unit unit) servers := ReleasePlayer 5000 7 activated.


Definition stranded_game : Result * game (IpcNode.node unit unit) servers := ReleasePlayer 5000 7 reconciled.

Lemma lost_lease_strands_player_witness :
  ActivatePlayer 9000 7 20 1 6 false stranded_game.2 = (Failure "player is transitioning and cannot be activated", stranded_game.2).
Proof.
  pose proof (lost_lease_strands_player (fits := fun _ => True) example_dataset 1 2 started reconciled 5000 7
    (default new_session (Snapshot reconciled 7)) created_record started_fresh reconciled_reached) as Hs.
  assert (ReleasePlayer 5000 7 reconciled = (stranded_game.1, stranded_game.2)) as E by exact (surjective_pairing stranded_game).
  rewrite E in Hs. cbv beta iota in Hs.
  destruct Hs as (_ & _ & _ & Hs);
    [by vm_compute|right; by vm_compute| |by vm_compute|apply game_serves; by vm_compute|by split|by vm_compute|exact I|].
  - intros Hb. apply (bool_decide_eq_true_2 _) in Hb. vm_compute in Hb. discriminate Hb.
  - by apply (Hs stranded_game.2 9000 20 1 6 false (rtc_refl _ _)).
Defined.
End ExampleGame.
