(* ===== verification/Persistence.v ===== *)
(** * Persistence: [game/services/player_persistence_service.cpp]

    The thread that saves players: once a second it goes over the loaded records,
    writes those that are due and remembers for how long to leave those alone whose
    write failed. *)

From S2P Require Import Prelude Text Base IpcNode Redis Lease Storage Repository Session.

Record RetryState : Type := mkRetryState {
  consecutive_failure_count : Z;
  next_retry_ms : Z;
  last_failure_ms : Z;
  retry_last_error : string
}.

Record PlayerPersistenceSnapshot : Type := mkPlayerPersistenceSnapshot {
  running : bool;
  scan_count : Z;
  tracked_player_count : Z;
  pending_initial_persist_count : Z;
  created_without_maria_count : Z;
  flush_attempt_count : Z;
  flush_success_count : Z;
  flush_failure_count : Z;
  last_scan_ms : Z;
  last_flush_player_id : Z;
  snapshot_last_flush_ms : Z;
  last_error : string
}.
#[export] Instance eta_persistence_snapshot : Eta PlayerPersistenceSnapshot := fun s =>
  mkPlayerPersistenceSnapshot (running s) (scan_count s) (tracked_player_count s) (pending_initial_persist_count s)
    (created_without_maria_count s) (flush_attempt_count s) (flush_success_count s) (flush_failure_count s) (last_scan_ms s)
    (last_flush_player_id s) (snapshot_last_flush_ms s) (last_error s).

Record PlayerPersistencePlayerSnapshot : Type := mkPlayerPersistencePlayerSnapshot {
  pp_player_id : Z;
  pp_tracked : bool;
  pp_repository_present : bool;
  pp_loaded : bool;
  pp_dirty : bool;
  pp_pending_initial_persist : bool;
  pp_created_without_maria : bool;
  pp_flush_count : Z;
  pp_last_dirty_ms : Z;
  pp_last_flush_ms : Z;
  pp_consecutive_failure_count : Z;
  pp_next_retry_ms : Z;
  pp_last_failure_ms : Z;
  pp_last_error : string
}.

Definition kMaxBackoffMultiplier : Z := 8.

Module PlayerPersistenceService.

Record t : Type := mkPlayerPersistenceService {
  mStorageConfiguration : ResolvedStorageConfiguration;
  mSnapshot : PlayerPersistenceSnapshot;
  mRetryStates : gmap Z RetryState;
  mStopping : bool;
  mThread : bool
}.
#[export] Instance eta_persistence : Eta t := fun s =>
  mkPlayerPersistenceService (mStorageConfiguration s) (mSnapshot s) (mRetryStates s) (mStopping s) (mThread s).

Definition create (configuration : ResolvedStorageConfiguration) : t :=
  mkPlayerPersistenceService configuration (mkPlayerPersistenceSnapshot false 0 0 0 0 0 0 0 0 0 0 "") ∅ false false.

Definition FindDataset (s : t) : option ResolvedDatasetConfiguration := mStorageConfiguration s !! "player".

(** The loop of [ComputeRetryDelayMs]; the multiplier reaches its bound in three
    turns. *)
Fixpoint backoff (fuel : nat) (i consecutive_failure_count multiplier : Z) : Z :=
  match fuel with
  | O => multiplier
  | S fuel =>
      if (i <? consecutive_failure_count) && (multiplier <? kMaxBackoffMultiplier)
      then backoff fuel (i + 1) consecutive_failure_count (multiplier * 2) else multiplier
  end.

Definition min_ms (dataset : ResolvedDatasetConfiguration) : Z := u64 (landing_min_time_seconds (timing dataset) * 1000).
Definition max_ms (dataset : ResolvedDatasetConfiguration) : Z := u64 (landing_time_seconds (timing dataset) * 1000).

Definition ComputeRetryDelayMs (s : t) (consecutive_failure_count : Z) : Z :=
  match FindDataset s with
  | None => 5000
  | Some dataset =>
      let delay_ms := u64 (min_ms dataset * backoff 3 1 consecutive_failure_count 1) in
      if delay_ms <? max_ms dataset then delay_ms else max_ms dataset
  end.

Definition ShouldFlush (s : t) (player_id : Z) (repository : PlayerRepositoryRecord) (session : option PlayerSessionRecord)
    (now_ms : Z) : bool :=
  if negb (loaded repository) || negb (dirty repository) then false
  else if pending_initial_persist repository then true
  else
    match FindDataset s with
    | None => false
    | Some dataset =>
        if match mRetryStates s !! player_id with Some retry => now_ms <? next_retry_ms retry | None => false end then false
        else if match session with Some session => bool_decide (state session = detached) | None => false end then true
        else if last_dirty_ms repository =? 0 then true
        else (last_dirty_ms repository <=? now_ms) && (min_ms dataset <=? now_ms - last_dirty_ms repository)
    end.

Definition count_attempt (now_ms player_id : Z) (s : t) : t :=
  s <| mSnapshot := (mSnapshot s) <| flush_attempt_count := u64 (flush_attempt_count (mSnapshot s) + 1) |>
         <| last_flush_player_id := player_id |> <| snapshot_last_flush_ms := now_ms |> |>.

Definition record_failure (now_ms player_id : Z) (error : string) (s : t) : t :=
  let failures := u64 (match mRetryStates s !! player_id with Some retry => consecutive_failure_count retry | None => 0 end + 1) in
  s <| mSnapshot := (mSnapshot s) <| flush_failure_count := u64 (flush_failure_count (mSnapshot s) + 1) |> <| last_error := error |> |>
    <| mRetryStates := <[player_id := mkRetryState failures (u64 (now_ms + ComputeRetryDelayMs s failures)) now_ms error]> (mRetryStates s) |>.

Definition record_success (player_id : Z) (s : t) : t :=
  s <| mRetryStates := delete player_id (mRetryStates s) |>
    <| mSnapshot := (mSnapshot s) <| flush_success_count := u64 (flush_success_count (mSnapshot s) + 1) |> |>.

(** The counters of a scan that are local to [FlushDuePlayersOnce]. *)
Record Scan : Type := mkScan { tracked : Z; pending_initial : Z; without_maria : Z; flushed : Z }.

Definition count_seen (record : PlayerRepositoryRecord) (scan : Scan) : Scan :=
  mkScan (u64 (tracked scan + 1))
    (if pending_initial_persist record then u64 (pending_initial scan + 1) else pending_initial scan)
    (if created_without_maria record then u64 (without_maria scan + 1) else without_maria scan) (flushed scan).

Definition count_flushed (record : PlayerRepositoryRecord) (scan : Scan) : Scan :=
  mkScan (tracked scan)
    (if pending_initial_persist record && (0 <? pending_initial scan) then pending_initial scan - 1 else pending_initial scan)
    (if created_without_maria record && (0 <? without_maria scan) then without_maria scan - 1 else without_maria scan)
    (flushed scan + 1).

Section service.
Context {N W : Type} `{Redis W} `{Maria W} `{PlayerDataCodec} {mo : MapOrder Z}.

(** One turn of the loop of [FlushDuePlayersOnce]. *)
Definition flush_one (now_ms player_id : Z) (scan : Scan) : St (t * game N W) Scan :=
  fun '(s, g) =>
    match PlayerRepository.Snapshot (repository g) player_id with
    | None => (scan, (s, g))
    | Some record =>
        let scan := count_seen record scan in
        if negb (PlayerLeaseService.IsHeldLocally (lease g) player_id) then (scan, (s, g))
        else if negb (ShouldFlush s player_id record (PlayerSessionService.Snapshot g player_id) now_ms) then (scan, (s, g))
        else
          let s := count_attempt now_ms player_id s in
          let '(flush, g) := on_repository (PlayerRepository.FlushPlayer now_ms player_id) g in
          if negb (ok flush) then (scan, (record_failure now_ms player_id (message flush) s, g))
          else (count_flushed record scan, (record_success player_id s, g))
    end.

Fixpoint flush_each (now_ms : Z) (players : list Z) (scan : Scan) : St (t * game N W) Scan :=
  fun sg =>
    match players with
    | [] => (scan, sg)
    | player_id :: rest => let '(scan, sg) := flush_one now_ms player_id scan sg in flush_each now_ms rest scan sg
    end.

Definition begin_scan (now_ms : Z) (s : t) : t :=
  s <| mSnapshot := (mSnapshot s) <| scan_count := u64 (scan_count (mSnapshot s) + 1) |> <| last_scan_ms := now_ms |> |>.

Definition end_scan (scan : Scan) (s : t) : t :=
  s <| mSnapshot := (mSnapshot s) <| tracked_player_count := tracked scan |>
         <| pending_initial_persist_count := pending_initial scan |> <| created_without_maria_count := without_maria scan |> |>.

Definition FlushDuePlayersOnce (now_ms : Z) : St (t * game N W) Z :=
  fun '(s, g) =>
    let '(scan, (s, g)) :=
      flush_each now_ms (PlayerRepository.LoadedPlayerIds (repository g)) (mkScan 0 0 0 0) (begin_scan now_ms s, g) in
    (flushed scan, (end_scan scan s, g)).

(** One turn of the thread. *)
Definition Loop (now_ms : Z) : St (t * game N W) unit :=
  fun '(s, g) => if mStopping s then (tt, (s, g)) else (tt, (FlushDuePlayersOnce now_ms (s, g)).2).

Definition PlayerSnapshot (s : t) (g : game N W) (player_id : Z) : PlayerPersistencePlayerSnapshot :=
  let record := PlayerRepository.Snapshot (repository g) player_id in
  let retry := mRetryStates s !! player_id in
  let flag (f : PlayerRepositoryRecord -> bool) := match record with Some record => f record | None => false end in
  let number (f : PlayerRepositoryRecord -> Z) := match record with Some record => f record | None => 0 end in
  let failure (f : RetryState -> Z) := match retry with Some retry => f retry | None => 0 end in
  mkPlayerPersistencePlayerSnapshot player_id (bool_decide (is_Some retry)) (bool_decide (is_Some record))
    (flag loaded) (flag dirty) (flag pending_initial_persist) (flag created_without_maria) (number flush_count)
    (number last_dirty_ms) (number last_flush_ms) (failure consecutive_failure_count) (failure next_retry_ms)
    (failure last_failure_ms) (match retry with Some retry => retry_last_error retry | None => "" end).

End service.

Definition ResetRetryStates : St t Z :=
  fun s => (Z.of_nat (size (mRetryStates s)), s <| mRetryStates := ∅ |> <| mSnapshot := (mSnapshot s) <| last_error := "" |> |>).
Definition ResetRetryState (player_id : Z) : St t bool :=
  fun s => (bool_decide (is_Some (mRetryStates s !! player_id)), s <| mRetryStates := delete player_id (mRetryStates s) |>).
Definition Snapshot (s : t) : PlayerPersistenceSnapshot := mSnapshot s.
Definition Start (s : t) : t :=
  s <| mStopping := false |> <| mSnapshot := (mSnapshot s) <| running := true |> <| last_error := "" |> |> <| mThread := true |>.
Definition Stop (s : t) : t :=
  s <| mStopping := true |> <| mThread := false |> <| mSnapshot := (mSnapshot s) <| running := false |> |>.

End PlayerPersistenceService.

(** ** Retry delays *)

Module PersistenceProofs.
Import PlayerPersistenceService.

Lemma backoff_power fuel i count m :
  0 <= i -> 1 <= m -> kMaxBackoffMultiplier <= m * 2 ^ Z.of_nat fuel -> (m = 1 \/ m = 2 \/ m = 4 \/ m = 8) ->
  backoff fuel i count m = if i <? count then Z.min kMaxBackoffMultiplier (m * 2 ^ (count - i)) else m.
Proof.
  revert i m. induction fuel as [|fuel IH]; intros i m Hi Hm Hf Hp.
  - simpl in *. unfold kMaxBackoffMultiplier in *. destruct (Z.ltb_spec i count); [|done].
    assert (0 < 2 ^ (count - i)) by (apply Z.pow_pos_nonneg; lia). nia.
  - cbn [backoff]. destruct (Z.ltb_spec i count) as [Hc|Hc]; cbn [andb]; [|done].
    assert (2 ^ (count - i) = 2 * 2 ^ (count - (i + 1))) as E.
    { replace (count - i) with (Z.succ (count - (i + 1))) by lia. apply Z.pow_succ_r. lia. }
    assert (0 < 2 ^ (count - (i + 1))) by (apply Z.pow_pos_nonneg; lia).
    unfold kMaxBackoffMultiplier in *. destruct (Z.ltb_spec m 8).
    + rewrite IH; [|lia|lia|rewrite Nat2Z.inj_succ, Z.pow_succ_r in Hf by lia; nia|lia].
      destruct (Z.ltb_spec (i + 1) count); [rewrite E; f_equal; lia|].
      assert (count = i + 1) as -> by lia. replace (i + 1 - i) with 1 by lia. lia.
    + nia.
Qed.

Definition in_u32_timing (dataset : ResolvedDatasetConfiguration) : Prop :=
  in_u32 (landing_min_time_seconds (timing dataset)) /\ in_u32 (landing_time_seconds (timing dataset)).

Lemma delay_value s dataset count :
  FindDataset s = Some dataset -> in_u32_timing dataset -> 1 <= count ->
  ComputeRetryDelayMs s count
  = Z.min (landing_min_time_seconds (timing dataset) * 1000 * Z.min 8 (2 ^ (count - 1))) (landing_time_seconds (timing dataset) * 1000).
Proof.
  intros Hd [H1 H2] Hc. unfold ComputeRetryDelayMs, min_ms, max_ms. rewrite Hd. unfold in_u32 in *.
  rewrite backoff_power by (unfold kMaxBackoffMultiplier; simpl; lia). unfold kMaxBackoffMultiplier.
  assert (0 < 2 ^ (count - 1)) by (apply Z.pow_pos_nonneg; lia).
  assert ((if 1 <? count then Z.min 8 (1 * 2 ^ (count - 1)) else 1) = Z.min 8 (2 ^ (count - 1))) as ->.
  { destruct (Z.ltb_spec 1 count); [f_equal; lia|]. assert (count = 1) as -> by lia. reflexivity. }
  rewrite !(u64_id (_ * 1000)) by (unfold in_u64; lia). rewrite u64_id by (unfold in_u64; nia).
  destruct (Z.ltb_spec (landing_min_time_seconds (timing dataset) * 1000 * Z.min 8 (2 ^ (count - 1))) (landing_time_seconds (timing dataset) * 1000)); lia.
Qed.

(** ** One round *)

Section round.
Context {scripts : script_semantics} {N W : Type} {r : Redis W} {mr : Maria W} {law : StorageLaw scripts W}.
Context {codec : PlayerDataCodec} {fits : PlayerData -> Prop} {codec_law : PlayerDataCodecLaw fits} {mo : MapOrder Z}.
Context (dataset : ResolvedDatasetConfiguration) (c : redisContext) (m : MYSQL).
Implicit Types (s : t) (g : game N W) (p q now : Z).

(** The players of the game are stored under their ids and can be serialised. *)
Definition storable g : Prop :=
  RepositoryProofs.serves dataset c m (repository g) /\
  forall p record, PlayerRepository.Snapshot (repository g) p = Some record -> in_u64 p /\ fits (data record).

(** Whether a round at [now] writes the player. *)
Definition due now p s g : bool :=
  match PlayerRepository.Snapshot (repository g) p with
  | Some record => PlayerLeaseService.IsHeldLocally (lease g) p && ShouldFlush s p record (PlayerSessionService.Snapshot g p) now
  | None => false
  end.

Definition entry g p : option string := StorageProofs.stored dataset m (world g) (to_string p).

(** Nothing that concerns the player changes. *)
Definition untouched p s g s' g' : Prop :=
  PlayerRepository.Snapshot (repository g') p = PlayerRepository.Snapshot (repository g) p /\
  mRetryStates s' !! p = mRetryStates s !! p /\ (in_u64 p -> entry g' p = entry g p).

Definition same_services s g s' g' : Prop :=
  lease g' = lease g /\ sessions g' = sessions g /\ mStorageConfiguration s' = mStorageConfiguration s.

Definition failures_before s p : Z := match mRetryStates s !! p with Some retry => consecutive_failure_count retry | None => 0 end.

(** The storage service refused the record at some time of the round. *)
Definition refused now p record : Prop := exists (repo : PlayerRepository.t) (w : W),
  RepositoryProofs.serves dataset c m repo /\ PlayerRepository.Snapshot repo p = Some record /\
  ok (PlayerRepository.FlushPlayer now p (repo, w)).1 = false.

(** The player is saved, or its next attempt is put off. *)
Definition attempted now p s g s' g' : Prop := exists record,
  PlayerRepository.Snapshot (repository g) p = Some record /\
  ((PlayerRepository.Snapshot (repository g') p = Some (PlayerRepository.mark_flushed now record) /\
    RepositoryProofs.saved dataset m (world g') p (data record) /\ mRetryStates s' !! p = None) \/
   (PlayerRepository.Snapshot (repository g') p = Some record /\ refused now p record /\
    exists error, mRetryStates s' !! p =
      Some (mkRetryState (u64 (failures_before s p + 1)) (u64 (now + ComputeRetryDelayMs s (u64 (failures_before s p + 1)))) now error))).

Definition outcome now p s g s' g' : Prop :=
  if due now p s g then attempted now p s g s' g' else untouched p s g s' g'.

Lemma due_untouched now p s g s' g' : untouched p s g s' g' -> same_services s g s' g' -> due now p s' g' = due now p s g.
Proof.
  intros (E1 & E2 & _) (L & S & C). unfold due, ShouldFlush, FindDataset, PlayerSessionService.Snapshot. rewrite E1, L, S, C.
  by rewrite E2.
Qed.

Lemma flush_one_outcome now p scan s g :
  storable g ->
  let '(_, (s', g')) := flush_one now p scan (s, g) in
  storable g' /\ same_services s g s' g' /\ outcome now p s g s' g' /\ forall q, q <> p -> untouched q s g s' g'.
Proof.
  intros [Hserve Hfit]. unfold flush_one, outcome, due.
  destruct (PlayerRepository.Snapshot (repository g) p) as [record|] eqn:Ep; [|done].
  destruct (PlayerLeaseService.IsHeldLocally (lease g) p); cbn [negb andb]; [|done].
  destruct (ShouldFlush s p record _ now) eqn:Ed; cbn [negb]; [|done].
  destruct (Hfit p record Ep) as [Hp Hf].
  pose proof (RepositoryProofs.FlushPlayer_spec (fits := fits) dataset c m now p (repository g) (world g) Hserve Hp) as Hfl.
  unfold on_repository. unfold PlayerRepository.Snapshot in *. rewrite Ep in Hfl.
  assert (ok (PlayerRepository.FlushPlayer now p (repository g, world g)).1 = false -> refused now p record) as Href
    by (intros E; by exists (repository g), (world g)).
  destruct (PlayerRepository.FlushPlayer now p (repository g, world g)) as [result [rp w]]. cbn [fst] in Href.
  destruct Hfl as (Hserve' & Ho & _ & Hm & Hs); [by intros y [= <-]|].
  destruct (ok result) eqn:Eok; cbn [negb].
  - specialize (Hs eq_refl) as [_ Hs]. assert (forall q, q <> p -> PlayerRepository.mPlayers rp !! q = PlayerRepository.mPlayers (repository g) !! q) as Hq
      by (intros q Hq; by rewrite Hm, lookup_insert_ne).
    split; [split; [exact Hserve'|]|split; [done|split]].
    + intros q x. unfold PlayerRepository.Snapshot. simpl. destruct (decide (q = p)) as [->|Hne]; [|rewrite Hq by done; apply Hfit].
      rewrite Hm, lookup_insert_eq. intros [= <-]. done.
    + exists record. split; [done|]. left. unfold PlayerRepository.Snapshot. simpl. rewrite Hm, lookup_insert_eq, lookup_delete_eq. done.
    + intros q Hne. unfold untouched, PlayerRepository.Snapshot, entry. simpl. rewrite Hq, lookup_delete_ne by done.
      split_and!; [done..|]. intros Hqq. by apply Ho.
  - split; [split; [exact Hserve'|]|split; [done|split]].
    + intros q x. unfold PlayerRepository.Snapshot. simpl. rewrite Hm. apply Hfit.
    + exists record. split; [done|]. right. unfold PlayerRepository.Snapshot. simpl. rewrite Hm, Ep. split; [done|]. split; [by apply Href|]. exists (message result).
      rewrite lookup_insert_eq. done.
    + intros q Hne. unfold untouched, PlayerRepository.Snapshot, entry. simpl. rewrite Hm, lookup_insert_ne by done.
      split_and!; [done..|]. intros Hqq. by apply Ho.
Qed.

Lemma untouched_trans p s g s1 g1 s2 g2 : untouched p s g s1 g1 -> untouched p s1 g1 s2 g2 -> untouched p s g s2 g2.
Proof. intros (A1 & B1 & C1) (A2 & B2 & C2). split_and!; [congruence..|]. intros Hp. rewrite C2, C1; auto. Qed.

Lemma flush_each_outcome now players scan s g :
  storable g -> NoDup players ->
  let '(_, (s', g')) := flush_each now players scan (s, g) in
  storable g' /\ same_services s g s' g' /\ forall p, if decide (p ∈ players) then outcome now p s g s' g' else untouched p s g s' g'.
Proof.
  intros Hst Hnd. revert scan s g Hst. induction Hnd as [|q players Hq Hnd IH]; intros scan s g Hst; cbn [flush_each].
  { split_and!; [done..|]. intros p. by rewrite decide_False by set_solver. }
  pose proof (flush_one_outcome now q scan s g Hst) as H1. destruct (flush_one now q scan (s, g)) as [scan1 [s1 g1]].
  destruct H1 as (Hst1 & Hs1 & Ho1 & Hu1). specialize (IH scan1 s1 g1 Hst1).
  destruct (flush_each now players scan1 (s1, g1)) as [scan2 [s2 g2]]. destruct IH as (Hst2 & Hs2 & Ho2).
  split; [done|]. split; [destruct Hs1 as (? & ? & ?), Hs2 as (? & ? & ?); split_and!; congruence|].
  intros p. specialize (Ho2 p). destruct (decide (p = q)) as [->|Hne].
  - rewrite decide_True by by left. rewrite decide_False in Ho2 by done. unfold outcome in *.
    destruct (due now q s g); [|by eapply untouched_trans]. destruct Ho2 as (E1 & E2 & E3).
    destruct Ho1 as (record & Er & Hcase). exists record. split; [done|]. destruct Hcase as [(F1 & F2 & F3)|(F1 & F2)].
    + left. split_and!; [congruence| |congruence]. destruct F2 as (payload & Hp1 & Hp2). exists payload. split; [|done].
      rewrite <- Hp1. apply E3. by apply (proj2 Hst q record).
    + right. split; [congruence|]. by rewrite E2.
  - specialize (Hu1 p Hne). destruct (decide (p ∈ players)) as [Hin|Hout].
    + rewrite decide_True by by right. unfold outcome in *. rewrite (due_untouched now p s g s1 g1 Hu1 Hs1) in Ho2.
      destruct (due now p s g); [|by eapply untouched_trans]. destruct Hu1 as (E1 & E2 & E3). destruct Hs1 as (_ & _ & Ec).
      destruct Ho2 as (record & Er & Hcase). exists record. split; [congruence|].
      assert (failures_before s1 p = failures_before s p) as Ef by (unfold failures_before; by rewrite E2).
      assert (forall n, ComputeRetryDelayMs s1 n = ComputeRetryDelayMs s n) as Ed by (intros n; unfold ComputeRetryDelayMs, FindDataset; by rewrite Ec).
      rewrite Ef, Ed in Hcase. done.
    + rewrite decide_False by (intros [?|?]%elem_of_cons; done). by eapply untouched_trans.
Qed.

Lemma LoadedPlayerIds_spec (repo : PlayerRepository.t) :
  NoDup (PlayerRepository.LoadedPlayerIds repo) /\
  forall p, p ∈ PlayerRepository.LoadedPlayerIds repo <-> exists record, PlayerRepository.Snapshot repo p = Some record /\ loaded record = true.
Proof.
  unfold PlayerRepository.LoadedPlayerIds, PlayerRepository.Snapshot. split.
  - pose proof (NoDup_entries (PlayerRepository.mPlayers repo)) as Hnd. induction (entries _) as [|[p x] l IH]; [constructor|].
    simpl in *. apply NoDup_cons in Hnd as [Hp Hnd]. destruct (loaded x); [|by apply IH]. constructor; [|by apply IH].
    intros ((q & y) & Hq & E)%list_elem_of_omap. apply Hp. apply list_elem_of_fmap. exists (q, y). split; [|done].
    destruct (loaded y); [by injection E|done].
  - intros p. rewrite list_elem_of_omap. split.
    + intros ([q x] & Hin & E). apply elem_of_entries in Hin. exists x. destruct (loaded x) eqn:El; [|done]. injection E as ->. done.
    + intros (x & Hx & El). exists (p, x). rewrite El. split; [by apply elem_of_entries|done].
Qed.

Lemma FlushDuePlayersOnce_outcome now s g :
  storable g ->
  let '(_, (s', g')) := FlushDuePlayersOnce now (s, g) in
  storable g' /\ same_services s g s' g' /\ forall p, outcome now p s g s' g'.
Proof.
  intros Hst. unfold FlushDuePlayersOnce. destruct (LoadedPlayerIds_spec (repository g)) as [Hnd Hin].
  pose proof (flush_each_outcome now _ (mkScan 0 0 0 0) (begin_scan now s) g Hst Hnd) as He.
  destruct (flush_each _ _ _ _) as [scan [s1 g1]]. destruct He as (Hst1 & Hs1 & Ho1). split; [done|]. split; [exact Hs1|].
  intros p. specialize (Ho1 p). case_decide as Hp; [exact Ho1|]. unfold outcome.
  assert (due now p s g = false) as ->; [|exact Ho1]. unfold due.
  destruct (PlayerRepository.Snapshot (repository g) p) as [record|] eqn:Er; [|done].
  assert (loaded record = false) as El.
  { destruct (loaded record) eqn:El; [|done]. destruct Hp. apply Hin. by exists record. }
  unfold ShouldFlush. rewrite El. by rewrite andb_false_r.
Qed.

(** *** Retry states *)

Definition retries_bounded s : Prop :=
  forall p retry, mRetryStates s !! p = Some retry ->
    next_retry_ms retry <= last_failure_ms retry + landing_time_seconds (timing dataset) * 1000.

(** The life of the service next to its game. *)
Inductive persistence_step : t * game N W -> t * game N W -> Prop :=
| ps_round now s g : in_u64 (now + landing_time_seconds (timing dataset) * 1000) -> 0 <= now -> storable g ->
    persistence_step (s, g) (FlushDuePlayersOnce now (s, g)).2
| ps_reset_all s g : persistence_step (s, g) ((ResetRetryStates s).2, g)
| ps_reset p s g : persistence_step (s, g) ((ResetRetryState p s).2, g)
| ps_start s g : persistence_step (s, g) (Start s, g)
| ps_stop s g : persistence_step (s, g) (Stop s, g)
| ps_game s g g' : persistence_step (s, g) (s, g').

Lemma delay_bound s count : FindDataset s = Some dataset -> in_u32_timing dataset ->
  0 <= ComputeRetryDelayMs s (u64 count) <= landing_time_seconds (timing dataset) * 1000.
Proof.
  intros Hd Ht. destruct (Z.le_gt_cases 1 (u64 count)) as [Hc|Hc].
  - rewrite (delay_value s dataset) by done. destruct Ht as [H1 H2]. unfold in_u32 in *.
    assert (0 < 2 ^ (u64 count - 1)) by (apply Z.pow_pos_nonneg; lia). nia.
  - pose proof (u64_range count) as Hr. unfold in_u64 in Hr. assert (u64 count = 0) as -> by lia.
    unfold ComputeRetryDelayMs, max_ms, min_ms. rewrite Hd. destruct Ht as [H1 H2]. unfold in_u32 in *. simpl.
    rewrite !(u64_id (_ * 1000)) by (unfold in_u64; lia). rewrite u64_id by (unfold in_u64; lia).
    destruct (Z.ltb_spec (landing_min_time_seconds (timing dataset) * 1000 * 1) (landing_time_seconds (timing dataset) * 1000)); lia.
Qed.

Definition service_inv (sg : t * game N W) : Prop := FindDataset sg.1 = Some dataset /\ retries_bounded sg.1.

Lemma round_inv now s g :
  in_u32_timing dataset -> in_u64 (now + landing_time_seconds (timing dataset) * 1000) -> 0 <= now -> storable g ->
  service_inv (s, g) -> service_inv (FlushDuePlayersOnce now (s, g)).2.
Proof.
  intros Ht Hn Hn0 Hst [Hd Hr]. pose proof (FlushDuePlayersOnce_outcome now s g Hst) as Ho.
  destruct (FlushDuePlayersOnce now (s, g)) as [z [s' g']]. destruct Ho as (_ & (_ & _ & Ec) & Ho).
  split; [unfold FindDataset in *; simpl in *; by rewrite Ec|]. intros p retry Hp. simpl in Hp, Hd. specialize (Ho p). unfold outcome in Ho.
  destruct (due now p s g).
  - destruct Ho as (record & _ & [(_ & _ & Hno)|(_ & _ & error & He)]); [congruence|]. rewrite He in Hp. injection Hp as <-. simpl.
    pose proof (delay_bound s (failures_before s p + 1) Hd Ht). unfold in_u64 in Hn. rewrite u64_id by (unfold in_u64; lia). lia.
  - destruct Ho as (_ & E & _). apply (Hr p retry). simpl. congruence.
Qed.

Lemma step_service_inv sg sg' : in_u32_timing dataset -> persistence_step sg sg' -> service_inv sg -> service_inv sg'.
Proof.
  intros Ht [now s g Hn Hn0 Hst|s g|p s g|s g|s g|s g g'] Hi; [by apply round_inv|..]; destruct Hi as [Hd Hr];
    (split; [exact Hd|]); intros q retry; simpl; [by rewrite lookup_empty|..|apply Hr|apply Hr|apply Hr].
  intros [_ Hq]%lookup_delete_Some. by apply (Hr q).
Qed.

Lemma reachable_service_inv configuration g0 sg :
  configuration !! "player" = Some dataset -> in_u32_timing dataset -> rtc persistence_step (create configuration, g0) sg ->
  service_inv sg.
Proof.
  intros Hc Ht Hsteps. assert (service_inv (create configuration, g0)) as Hi
    by (split; [exact Hc|]; intros q x; simpl; by rewrite lookup_empty).
  induction Hsteps as [|x y z Hs _ IH]; [done|]. apply IH. by eapply step_service_inv.
Qed.

(** *** A player that is changed all the time *)

(** Rounds that come before the last change of the player is old enough, and changes. *)
Inductive busy_step p : t * game N W -> t * game N W -> Prop :=
| bs_round now s g :
    (forall record, PlayerRepository.Snapshot (repository g) p = Some record ->
       last_dirty_ms record <= now < last_dirty_ms record + landing_min_time_seconds (timing dataset) * 1000) ->
    busy_step p (s, g) (FlushDuePlayersOnce now (s, g)).2
| bs_change now name s g :
    0 < now -> (forall d, fits d -> fits (d <| pd_display_name := name |>)) ->
    busy_step p (s, g) (s, (on_players (PlayerRepository.SetDisplayName now p name) g).2).

Definition busy_state p (sg : t * game N W) (stored : option string) : Prop :=
  storable sg.2 /\ FindDataset sg.1 = Some dataset /\ entry sg.2 p = stored /\
  (exists session, sessions sg.2 !! p = Some session /\ state session = online) /\
  exists record, PlayerRepository.Snapshot (repository sg.2) p = Some record /\ loaded record = true /\ dirty record = true /\
    pending_initial_persist record = false /\ 0 < last_dirty_ms record.

Lemma busy_not_due now p s g stored :
  in_u32_timing dataset -> busy_state p (s, g) stored ->
  (forall record, PlayerRepository.Snapshot (repository g) p = Some record ->
     last_dirty_ms record <= now < last_dirty_ms record + landing_min_time_seconds (timing dataset) * 1000) ->
  due now p s g = false.
Proof.
  intros [Ht _] (_ & Hd & _ & (session & Hs & Ho) & record & Hr & Hl & Hdi & Hpe & Hpos) Hb. specialize (Hb record Hr).
  unfold due, ShouldFlush, PlayerSessionService.Snapshot. simpl in *. rewrite Hr, Hl, Hdi, Hpe, Hd, Hs, Ho. cbn [negb orb].
  apply andb_false_iff. right. destruct (match mRetryStates s !! p with Some _ => _ | None => _ end); [done|].
  rewrite bool_decide_eq_false_2 by done. destruct (Z.eqb_spec (last_dirty_ms record) 0); [lia|].
  unfold min_ms, in_u32 in *. rewrite u64_id by (unfold in_u64; lia). apply andb_false_iff. right. apply Z.leb_gt. lia.
Qed.

Lemma busy_step_state p sg sg' stored :
  in_u32_timing dataset -> in_u64 p -> busy_step p sg sg' -> busy_state p sg stored -> busy_state p sg' stored.
Proof.
  intros Ht Hp [now s g Hb|now name s g Hn Hf] Hs.
  - pose proof (busy_not_due now p s g stored Ht Hs Hb) as Hdue. destruct Hs as (Hst & Hd & He & Hsess & Hrec).
    pose proof (FlushDuePlayersOnce_outcome now s g Hst) as Ho. destruct (FlushDuePlayersOnce now (s, g)) as [z [s' g']].
    destruct Ho as (Hst' & (_ & Es & Ec) & Ho). specialize (Ho p). unfold outcome in Ho. rewrite Hdue in Ho.
    destruct Ho as (E1 & _ & E3). unfold busy_state, FindDataset in *. simpl in *. rewrite Es, Ec, E1.
    split; [done|]. split; [done|]. split; [by rewrite E3|done].
  - destruct Hs as ([Hserve Hfit] & Hd & He & Hsess & record & Hr & Hl & Hdi & Hpe & Hpos). simpl in *.
    unfold on_players, PlayerRepository.SetDisplayName, PlayerRepository.change_data, PlayerRepository.Snapshot in *.
    rewrite Hr, Hl. cbn [negb]. unfold busy_state, storable. cbn [fst snd]. split_and!; [done| |done|done|done|].
    + intros q x. unfold PlayerRepository.Snapshot. simpl. destruct (decide (q = p)) as [->|Hne].
      * rewrite lookup_insert_eq. intros [= <-]. split; [done|]. simpl. apply Hf. by apply (Hfit p record).
      * rewrite lookup_insert_ne by done. apply Hfit.
    + eexists. unfold PlayerRepository.Snapshot. simpl. rewrite lookup_insert_eq. split; [done|]. simpl. by split_and!.
Qed.

Lemma busy_steps_state p sg sg' stored :
  in_u32_timing dataset -> in_u64 p -> rtc (busy_step p) sg sg' -> busy_state p sg stored -> busy_state p sg' stored.
Proof. intros Ht Hp. induction 1 as [|x y z Hxy _ IH]; [done|]. intros Hx. apply IH. by eapply busy_step_state. Qed.

End round.
End PersistenceProofs.

Section properties.
Import PlayerPersistenceService PersistenceProofs RepositoryProofs.


Context {scripts : script_semantics} {N W : Type} {r : Redis W} {mr : Maria W} {law : StorageLaw scripts W}.
Context {codec : PlayerDataCodec} {fits : PlayerData -> Prop} {codec_law : PlayerDataCodecLaw fits} {mo : MapOrder Z}.
Implicit Types (s : t) (g : game N W).

(** A round does for every player what its state asks for: a player that is due
    (loaded, lease held, and new, or dirty for long enough and not put off) is either
    saved, clean and without retry state, or refused by the storage service, left
    as it is and put off by the delay of its number of failures; every other
    player, in particular one whose lease is not held, is not touched, neither in
    memory nor in MariaDB. *)
Theorem flush_round_outcome dataset c m now s g :
  storable (fits := fits) dataset c m g ->
  let '(_, (s', g')) := FlushDuePlayersOnce now (s, g) in
  lease g' = lease g /\ sessions g' = sessions g /\
  forall p, if due now p s g then attempted dataset c m now p s g s' g' else untouched dataset m p s g s' g'.
Proof.
  intros Hst. pose proof (FlushDuePlayersOnce_outcome dataset c m now s g Hst) as Ho.
  destruct (FlushDuePlayersOnce now (s, g)) as [z [s' g']]. by destruct Ho as (_ & (? & ? & _) & ?).
Qed.


(** A player that is changed all the time is never saved: as long as each round
    comes less than the minimal landing time after the latest change, an online
    player's changes are not written, however long this goes on. *)
Theorem busy_player_never_saved dataset c m s g s' g' p session record :
  FindDataset s = Some dataset -> in_u32_timing dataset -> in_u64 p -> storable (fits := fits) dataset c m g ->
  sessions g !! p = Some session -> state session = online ->
  PlayerRepository.Snapshot (repository g) p = Some record -> loaded record = true -> dirty record = true ->
  pending_initial_persist record = false -> 0 < last_dirty_ms record ->
  rtc (busy_step (fits := fits) dataset p) (s, g) (s', g') ->
  entry dataset m g' p = entry dataset m g p /\
  exists record', PlayerRepository.Snapshot (repository g') p = Some record' /\ dirty record' = true.
Proof.
  intros Hd Ht Hp Hst Hs Ho Hr Hl Hdi Hpe Hpos Hsteps.
  assert (busy_state (fits := fits) dataset c m p (s, g) (entry dataset m g p)) as Hb.
  { split_and!; [done|done|done|by exists session|by exists record]. }
  destruct (busy_steps_state (fits := fits) dataset c m p _ _ _ Ht Hp Hsteps Hb) as (_ & _ & He & _ & record' & Hr' & _ & Hd' & _). split; [exact He|]. by exists record'.
Qed.

End properties.

Module ExamplePersistence.
Import PlayerPersistenceService PersistenceProofs RepositoryProofs ExampleServers ExampleRepository Session.ExampleGame.

#[local] Existing Instance order_Z.
#[local] Existing Instance example_maria.
#[local] Existing Instance Session.ExampleGame.redis_servers.
#[local] Existing Instance Session.ExampleGame.storage_servers.

Definition example_configuration : ResolvedStorageConfiguration := {["player" := example_dataset]}.
Definition service : t := Start (create example_configuration).

Lemma example_timing : in_u32_timing example_dataset.
Proof. split; vm_compute; by split. Qed.

(** The servers of the example accept every record. *)
Lemma example_put_accepted (storage : StorageService.t) name k v w :
  attached storage name example_dataset 1 2 -> k <> "" ->
  sc_ok (StorageService.DatasetPut storage name k v w).1 = true.
Proof.
  intros [Hd _ Hm Ht _] Hk. unfold StorageService.DatasetPut, StorageService.with_entries_table. rewrite Hm.
  destruct (String.eqb_spec k ""); [done|].
  assert (StorageService.BuildMariaEntriesTableName storage name = "player_entries") as Etable.
  { by rewrite (StorageProofs.table_name storage name example_dataset Hd (proj1 Ht)). }
  assert (safe_table "player_entries") as Hsafe by done.
  unfold StorageService.EnsureMariaEntriesTable. rewrite Hm, Etable.
  cbn [String.eqb Ascii.eqb Bool.eqb mysql_query mysql_real_escape_string example_maria].
  rewrite parse_create by done. cbn [run_statement negb sc_ok]. rewrite parse_insert by done.
  cbn [run_statement sv_tables].
  assert (exists e, with_table "player_entries" (sv_tables w) !! "player_entries" = Some e) as [e ->].
  { unfold with_table. destruct (sv_tables w !! "player_entries") as [e|] eqn:E; [by exists e|]. exists ∅. by rewrite lookup_insert_eq. }
  cbn [negb]. destruct (StorageService.RedisSet _ _ _ _ _) as [redis w']. unfold StorageService.after_maria. by destruct (sc_ok redis).
Qed.

Lemma example_accepts now repo w record :
  serves example_dataset 1 2 repo -> PlayerRepository.Snapshot repo 7 = Some record -> loaded record = true ->
  ok (PlayerRepository.FlushPlayer now 7 (repo, w)).1 = true.
Proof.
  intros (storage & Hs & Ha) Hr Hl. unfold PlayerRepository.FlushPlayer. unfold PlayerRepository.Snapshot in Hr. rewrite Hr, Hl, Hs.
  cbn [negb SerializeToString example_data_codec].
  match goal with |- context [StorageService.DatasetPut storage ?name ?k ?v w] => pose proof (example_put_accepted storage name k v w Ha) as Hok end.
  specialize (Hok ltac:(intros E; vm_compute in E; discriminate E)).
  destruct (StorageService.DatasetPut _ _ _ _ w) as [result w']. cbn [fst] in Hok. by rewrite Hok.
Qed.

Lemma only_player_7 (g : game (IpcNode.node unit unit) servers) record :
  serves example_dataset 1 2 (repository g) -> PlayerRepository.mPlayers (repository g) = {[7 := record]} ->
  storable (fits := fun _ => True) example_dataset 1 2 g.
Proof. intros Hs Hp. split; [done|]. intros p x. unfold PlayerRepository.Snapshot. rewrite Hp. intros [<- _]%lookup_singleton_Some. done. Qed.

(** Player 7 has just logged in for the first time; the first round saves it.  It is
    renamed later. *)
Definition first_round : t * game (IpcNode.node unit unit) servers := (FlushDuePlayersOnce 2000 (service, activated)).2.
Definition named : game (IpcNode.node unit unit) servers :=
  (on_players (PlayerRepository.SetDisplayName 70000 7 "Ada") first_round.2).2.
Definition named_record : PlayerRepositoryRecord := default created_record (PlayerRepository.Snapshot (repository named) 7).
Definition second_round : t * game (IpcNode.node unit unit) servers := (FlushDuePlayersOnce 130000 (first_round.1, named)).2.

Lemma activated_storable : storable (fits := fun _ => True) example_dataset 1 2 activated.
Proof. apply (only_player_7 _ created_record); [apply game_serves|]; by vm_compute. Qed.

Lemma named_storable : storable (fits := fun _ => True) example_dataset 1 2 named.
Proof. apply (only_player_7 _ named_record); [apply game_serves|]; by vm_compute. Qed.


Lemma flush_round_outcome_witness :
  attempted example_dataset 1 2 2000 7 service activated first_round.1 first_round.2.
Proof.
  pose proof (flush_round_outcome (fits := fun _ => True) example_dataset 1 2 2000 service activated activated_storable) as Ho.
  assert (FlushDuePlayersOnce 2000 (service, activated) = ((FlushDuePlayersOnce 2000 (service, activated)).1, (first_round.1, first_round.2))) as E
    by exact (pair_eta (FlushDuePlayersOnce 2000 (service, activated))).
  rewrite E in Ho. cbv beta iota in Ho. destruct Ho as (_ & _ & Ho). specialize (Ho 7).
  assert (due 2000 7 service activated = true) as Hd by by vm_compute. by rewrite Hd in Ho.
Defined.


(** The player is renamed again before the change is old enough. *)
Definition renamed_again : game (IpcNode.node unit unit) servers :=
  (on_players (PlayerRepository.SetDisplayName 100000 7 "Grace") named).2.
Definition third_round : t * game (IpcNode.node unit unit) servers := (FlushDuePlayersOnce 135000 (first_round.1, renamed_again)).2.

Lemma busy_player_never_saved_witness :
  entry example_dataset 2 third_round.2 7 = entry example_dataset 2 named 7 /\
  exists record', PlayerRepository.Snapshot (repository third_round.2) 7 = Some record' /\ dirty record' = true.
Proof.
  apply (busy_player_never_saved (fits := fun _ => True) example_dataset 1 2 first_round.1 named third_round.1 third_round.2 7
    (default new_session (PlayerSessionService.Snapshot named 7)) named_record);
    [by vm_compute|exact example_timing|by split|exact named_storable|by vm_compute|by vm_compute|by vm_compute|by vm_compute|by vm_compute|by vm_compute|by vm_compute|].
  apply rtc_l with (first_round.1, renamed_again); [exact (bs_change example_dataset 7 100000 "Grace" first_round.1 named ltac:(lia) (fun _ _ => I))|].
  apply rtc_once. rewrite <- (surjective_pairing third_round). refine (bs_round example_dataset 7 135000 first_round.1 renamed_again _).
  assert (fmap last_dirty_ms (PlayerRepository.Snapshot (repository renamed_again) 7) = Some 100000) as Hd by by vm_compute.
  intros record Hr. rewrite Hr in Hd. injection Hd as ->. by split.
Defined.
End ExamplePersistence.
