(* ===== verification/GameLogin.v ===== *)
(** * GameLogin: [game/services/player_login_service.cpp] and
    [game/services/player_message_service.cpp]

    What a game does for the gates: it logs players in, detaches them and runs
    their requests.  Each handler answers the process that asked. *)

From S2P Require Import Prelude Text Base Receiver Messaging IpcNode Redis Lease Storage Directory Repository Protocol Session.

(** ** The login service *)

Definition lease_taken : string := "player lease is already held by another game".

Definition ToResultCode (result : Result) : ResultCode :=
  if String.eqb (message result) lease_taken then RESULT_CODE_PLAYER_HELD_BY_OTHER_GAME else RESULT_CODE_INTERNAL.

(** The code and the text of an answer. *)
Definition answer_code (result : Result) : ResultCode := if negb (ok result) then ToResultCode result else RESULT_CODE_OK.
Definition answer_text (result : Result) : string := if negb (ok result) then message result else "".

Module PlayerLoginService.
Section handlers.
Context {N W : Type} `{Redis W} `{Maria W} `{PlayerDataCodec} `{GameIpc N} {mo : MapOrder Z}.
Implicit Types g : game N W.

(** The directory service of the process and its other services. *)
Definition on_directory {A : Type} (m : St (PlayerDirectoryService.t * W) A) : St (PlayerDirectoryService.t * game N W) A :=
  fun '(d, g) => let '(a, (d, w)) := m (d, world g) in (a, (d, g <| world := w |>)).
Definition on_game {A : Type} (m : St (game N W) A) : St (PlayerDirectoryService.t * game N W) A :=
  fun '(d, g) => let '(a, g) := m g in (a, (d, g)).

(** [SendProcessPayload] to the sender of an envelope, as the result of a handler. *)
Definition reply (e : Envelope) (m : process_message) : St (game N W) Result :=
  fun g =>
    let '(send, g) := on_ipc (SendProcessPayload (process_id (source_process (header e))) m) g in
    if negb (ok send) then (Failure (message send), g) else (Success, g).

Definition login_response (e : Envelope) (request : LoginPlayerRequest) (player_id : Z) (activate : Result) : LoginPlayerResponse :=
  mkLoginPlayerResponse (lq_request_id request) (answer_code activate) player_id
    (u32 (key_hi (target_receiver (header e)))) (u32 (key_lo (target_receiver (header e)))) false [] (answer_text activate).

(** The directory may not return (see [Directory]). *)
Definition HandleLoginRequest (fuel : nat) (now : Z) (e : Envelope) (request : LoginPlayerRequest)
    : St (PlayerDirectoryService.t * game N W) (outcome Result) :=
  fun s =>
    let '(resolved, s) := on_directory (PlayerDirectoryService.ResolveOrCreate fuel (lq_platform request) (lq_account_id request)
                                          (lq_area_id request)) s in
    match resolved with
    | thrown => (thrown, s)
    | out_of_fuel => (out_of_fuel, s)
    | returned resolved =>
        let gate := lq_gate request in
        let '(activate, s) := on_game (PlayerSessionService.ActivatePlayer now (Directory.player_id resolved) (gs_service_type gate)
                                         (gs_instance_id gate) (gs_session_id gate) (created resolved)) s in
        let '(result, s) := on_game (reply e (msg_login_response (login_response e request (Directory.player_id resolved) activate))) s in
        (returned result, s)
    end.

Definition HandleReconnectRequest (now : Z) (e : Envelope) (request : ReconnectPlayerRequest) : St (game N W) Result :=
  fun g =>
    let gate := rq_gate request in
    let '(activate, g) := PlayerSessionService.ActivatePlayer now (rq_player_id request) (gs_service_type gate) (gs_instance_id gate)
                            (gs_session_id gate) false g in
    reply e (msg_reconnect_response (mkReconnectPlayerResponse (rq_request_id request) (answer_code activate) (rq_player_id request)
                                       0 0 [] (answer_text activate))) g.

Definition HandlePlayerDisconnected (now : Z) (e : Envelope) (request : PlayerDisconnected) : St (game N W) Result :=
  fun g =>
    let gate := pd_gate request in
    let '(detach, g) := PlayerSessionService.DetachPlayer_of now (pd_player request) (gs_service_type gate) (gs_instance_id gate)
                          (gs_session_id gate) g in
    if negb (ok detach) && negb (String.eqb (message detach) "player session is not tracked") then (Failure (message detach), g)
    else (Success, g).

End handlers.
End PlayerLoginService.

(** ** The message service *)

Module GamePlayerMessageService.
Import PlayerLoginService.

Section handlers.
Context {N W : Type} `{Redis W} `{Maria W} `{PlayerDataCodec} `{GameIpc N} {mo : MapOrder Z}.
Context `{MessageCodec PlayerEchoRequest} `{MessageCodec PlayerEchoResponse}.
Context `{MessageCodec RenamePlayerRequest} `{MessageCodec RenamePlayerResponse} `{MessageCodec PlayerProfilePush}.
Implicit Types g : game N W.

Definition HandleEcho (player_id : Z) (request : PlayerEchoRequest) : St (game N W) (Result * option PlayerEchoResponse) :=
  fun g => on_runtime (PlayerRuntimeService.HandleEcho (repository g) player_id (eq_text request)) g.

Definition HandleRename (now player_id : Z) (request : RenamePlayerRequest) : St (game N W) (Result * option RenamePlayerResponse) :=
  on_instances (PlayerRuntimeService.HandleRename now player_id (nq_display_name request)).

(** A response that was not filled in is written out as the empty message. *)
Definition SerializeResponse {M : Type} `{MessageCodec M} (response : option M) : option ByteBuffer :=
  match response with Some m => SerializeMessage m | None => Some [] end.

(** [mDispatcher]; the rename handler reads the clock. *)
Definition RegisterBuiltinHandlers (now : Z) : gmap Z (@ProtobufRequestResponseDispatcher.Handler (game N W) Z) :=
  ((ProtobufRequestResponseDispatcher.Register MESSAGE_ID_PLAYER_ECHO_REQUEST ParseMessage SerializeResponse HandleEcho;;;
    ProtobufRequestResponseDispatcher.Register MESSAGE_ID_PLAYER_RENAME_REQUEST ParseMessage SerializeResponse (HandleRename now)) ∅).2.

Definition response_of (request : ForwardPlayerMessageRequest) (code : ResultCode) (bytes : ByteBuffer) (error : string)
    : ForwardPlayerMessageResponse :=
  mkForwardPlayerMessageResponse (fq_request_id request) (fq_player_id request) (fq_message_id request) code bytes
    (u64 (fq_client_sequence request + 1)) error.

(** The response, and what making it changes. *)
Definition run_request (now : Z) (request : ForwardPlayerMessageRequest) : St (game N W) ForwardPlayerMessageResponse :=
  fun g =>
    match PlayerSessionService.Snapshot g (fq_player_id request) with
    | None => (response_of request RESULT_CODE_PLAYER_NOT_FOUND [] "player session is not tracked", g)
    | Some session =>
        if negb (bool_decide (state session = online)) then
          (response_of request RESULT_CODE_SESSION_EXPIRED [] "player session is not online", g)
        else if negb (PlayerLeaseService.IsHeldLocally (lease g) (fq_player_id request)) then
          (response_of request RESULT_CODE_PLAYER_HELD_BY_OTHER_GAME [] "player lease is not held locally", g)
        else
          let '((result, bytes), g) :=
            ProtobufRequestResponseDispatcher.Dispatch (RegisterBuiltinHandlers now) (fq_message_id request) (fq_payload_bytes request)
              (fq_player_id request) g in
          if negb (ok result) then (response_of request RESULT_CODE_INVALID_ARGUMENT [] (message result), g)
          else (response_of request RESULT_CODE_OK (default [] bytes) "", g)
    end.

Definition HandleForwardPlayerMessageRequest (now : Z) (e : Envelope) (request : ForwardPlayerMessageRequest) : St (game N W) Result :=
  fun g => let '(response, g) := run_request now request g in reply e (msg_forward_response response) g.

Definition PushToPlayer (player_id message_id : Z) (payload : ByteBuffer) : St (game N W) Result :=
  fun g =>
    match PlayerSessionService.Snapshot g player_id with
    | None => (Failure "player is not online", g)
    | Some session =>
        if negb (bool_decide (state session = online)) || (gate_service_type session =? 0) then (Failure "player is not online", g)
        else if negb (PlayerLeaseService.IsHeldLocally (lease g) player_id) then (Failure "player lease is not held locally", g)
        else
          let push := mkPushPlayerMessage player_id
            (mkGateSession (gate_service_type session) (gate_instance_id session) (gate_session_id session)) message_id payload
            (activate_count session) in
          let '(send, g) := on_ipc (SendProcessPayload (mkProcessId (gate_service_type session) (gate_instance_id session)) (msg_push push)) g in
          (if ok send then Success else Failure (message send), g)
    end.

Definition BuildProfilePushPayload g (player_id : Z) : option ByteBuffer :=
  PlayerRuntimeService.BuildProfilePushPayload (repository g) (runtime g) player_id ≫= SerializeMessage.

Definition PushProfileToPlayer (player_id : Z) : St (game N W) Result :=
  fun g =>
    match BuildProfilePushPayload g player_id with
    | None => (Failure "failed to build player profile push payload", g)
    | Some payload => PushToPlayer player_id MESSAGE_ID_PLAYER_PROFILE_PUSH payload g
    end.

End handlers.
End GamePlayerMessageService.

(** ** Who is served *)

Module GameLoginProofs.
Import PlayerLoginService GamePlayerMessageService PlayerSessionService SessionProofs.

Section requests.
Context {N W : Type} `{Redis W} `{Maria W} `{PlayerDataCodec} `{GameIpcLaw N} {mo : MapOrder Z}.
Context `{MessageCodec PlayerEchoRequest} `{MessageCodec PlayerEchoResponse}.
Context `{MessageCodec RenamePlayerRequest} `{MessageCodec RenamePlayerResponse} `{MessageCodec PlayerProfilePush}.
Implicit Types g : game N W.

(** This game may act for the player: it is online here and its lease is held. *)
Definition owner g (p : Z) : Prop :=
  exists session, Snapshot g p = Some session /\ state session = online /\ PlayerLeaseService.IsHeldLocally (lease g) p = true.

(** Nothing but the record and the instance of one player. *)
Definition only_player (p : Z) g g' : Prop :=
  (forall q, q <> p -> PlayerRepository.mPlayers (repository g') !! q = PlayerRepository.mPlayers (repository g) !! q /\
                       runtime g' !! q = runtime g !! q) /\
  sessions g' = sessions g /\ lease g' = lease g /\ ipc g' = ipc g /\ world g' = world g.

Lemma only_player_refl p g : only_player p g g.
Proof. by split_and!. Qed.

Lemma HandleEcho_only p request g : only_player p g (HandleEcho p request g).2.
Proof.
  unfold HandleEcho, on_runtime, PlayerRuntimeService.HandleEcho.
  destruct (runtime g !! p) as [count|]; [|by split_and!].
  destruct (PlayerRuntimeService.loaded_record (repository g) p); [|by split_and!].
  split_and!; try done. intros q Hq. simpl. by rewrite lookup_insert_ne.
Qed.

Lemma change_data_only now p f repository q :
  q <> p -> PlayerRepository.mPlayers (PlayerRepository.change_data now p f repository).2 !! q = PlayerRepository.mPlayers repository !! q.
Proof.
  intros Hq. unfold PlayerRepository.change_data, PlayerRepository.put.
  destruct (PlayerRepository.mPlayers repository !! p) as [record|]; [|done]. destruct (loaded record); [|done]. simpl. by rewrite lookup_insert_ne.
Qed.

Lemma HandleRename_only now p request g : only_player p g (HandleRename now p request g).2.
Proof.
  unfold HandleRename, on_instances, PlayerRuntimeService.HandleRename.
  destruct (runtime g !! p) as [count|]; [|by split_and!].
  destruct (String.eqb _ ""); [by split_and!|]. unfold PlayerRepository.SetDisplayName.
  match goal with |- context [PlayerRepository.change_data now p ?f _] =>
    pose proof (fun q => change_data_only now p f (repository g) q) as Hc; destruct (PlayerRepository.change_data now p f _) as [r s] end.
  destruct (negb (ok r)); split_and!; try done; intros q Hq; simpl in *; [by rewrite Hc|]. rewrite lookup_insert_ne by done. by rewrite Hc.
Qed.
Lemma run_request_only now request g : only_player (fq_player_id request) g (run_request now request g).2.
Proof.
  unfold run_request. destruct (Snapshot g (fq_player_id request)) as [session|]; [|apply only_player_refl].
  destruct (negb (bool_decide _)); [apply only_player_refl|]. destruct (negb _); [apply only_player_refl|].
  unfold ProtobufRequestResponseDispatcher.Dispatch, RegisterBuiltinHandlers, ProtobufRequestResponseDispatcher.Register, modify, bind, ret.
  simpl snd. destruct (decide (fq_message_id request = MESSAGE_ID_PLAYER_RENAME_REQUEST)) as [->|Hr].
  { rewrite lookup_insert_eq. destruct (ParseMessage _) as [m|]; [|apply only_player_refl].
    pose proof (HandleRename_only now (fq_player_id request) m g) as Ho. destruct (HandleRename _ _ m g) as [[r response] g'].
    destruct (negb (ok (r, response).1)) eqn:Er; simpl in Er; rewrite ?Er; [simpl; by destruct (negb (ok r))|].
    destruct (SerializeResponse _); done. }
  rewrite lookup_insert_ne by done. destruct (decide (fq_message_id request = MESSAGE_ID_PLAYER_ECHO_REQUEST)) as [->|He].
  { rewrite lookup_insert_eq. destruct (ParseMessage _) as [m|]; [|apply only_player_refl].
    pose proof (HandleEcho_only (fq_player_id request) m g) as Ho. destruct (HandleEcho _ m g) as [[r response] g'].
    destruct (negb (ok (r, response).1)) eqn:Er; simpl in Er; rewrite ?Er; [simpl; by destruct (negb (ok r))|].
    destruct (SerializeResponse _); done. }
  rewrite lookup_insert_ne, lookup_empty by done. apply only_player_refl.
Qed.

Lemma run_request_names now request g :
  fr_request_id (run_request now request g).1 = fq_request_id request /\ fr_player_id (run_request now request g).1 = fq_player_id request.
Proof.
  unfold run_request. destruct (Snapshot _ _); [|done]. do 2 (destruct (negb _); [done|]).
  destruct (ProtobufRequestResponseDispatcher.Dispatch _ _ _ _ g) as [[r bytes] g']. by destruct (negb (ok r)).
Qed.

Lemma not_owner_refused now request g :
  ~ owner g (fq_player_id request) ->
  let '(response, g') := run_request now request g in
  g' = g /\ fr_result_code response <> RESULT_CODE_OK.
Proof.
  intros Ho. unfold run_request. destruct (Snapshot g (fq_player_id request)) as [session|] eqn:Es; [|done].
  destruct (bool_decide (state session = online)) eqn:Eo; [|done]. apply bool_decide_eq_true in Eo.
  destruct (PlayerLeaseService.IsHeldLocally _ _) eqn:El; [|done]. destruct Ho. by exists session.
Qed.

Lemma owner_renames now request g m bytes :
  owner g (fq_player_id request) -> tables_agree g ->
  fq_message_id request = MESSAGE_ID_PLAYER_RENAME_REQUEST -> ParseMessage (fq_payload_bytes request) = Some m ->
  nq_display_name m <> "" -> SerializeMessage (mkRenamePlayerResponse (fq_player_id request) (nq_display_name m)) = Some bytes ->
  let '(response, g') := run_request now request g in
  fr_result_code response = RESULT_CODE_OK /\ fr_response_payload_bytes response = bytes /\
  exists record, PlayerRepository.mPlayers (repository g') !! fq_player_id request = Some record /\
    pd_display_name (data record) = nq_display_name m /\ dirty record = true.
Proof.
  intros (session & Es & Eo & El) Ha Hm Hp Hn Hb. destruct (Ha (fq_player_id request)) as (A & B & _).
  assert (bool_decide (is_Some (sessions g !! fq_player_id request)) = true) as E by (apply bool_decide_eq_true; by exists session).
  rewrite E in A, B. clear E. unfold is_loaded in A. apply bool_decide_eq_true in B as [count Ec].
  destruct (PlayerRepository.mPlayers (repository g) !! fq_player_id request) as [record|] eqn:Er; [|done].
  unfold run_request. rewrite Es, Eo, El. rewrite bool_decide_eq_true_2 by done. cbn [negb].
  unfold ProtobufRequestResponseDispatcher.Dispatch, RegisterBuiltinHandlers, ProtobufRequestResponseDispatcher.Register, modify, bind, ret.
  cbn [snd]. rewrite Hm, lookup_insert_eq, Hp. unfold HandleRename, on_instances, PlayerRuntimeService.HandleRename. rewrite Ec.
  destruct (String.eqb_spec (nq_display_name m) ""); [done|].
  unfold PlayerRepository.SetDisplayName, PlayerRepository.change_data. rewrite Er, A. cbn [negb]. simpl. rewrite Hb. simpl.
  split; [done|]. split; [done|]. rewrite lookup_insert_eq. eexists. by split_and!.
Qed.
End requests.
End GameLoginProofs.

Section properties.
Import PlayerLoginService GamePlayerMessageService PlayerSessionService SessionProofs GameLoginProofs.
Context {N W : Type} `{Redis W} `{Maria W} `{PlayerDataCodec} `{GameIpcLaw N} {mo : MapOrder Z}.
Context `{MessageCodec PlayerEchoRequest} `{MessageCodec PlayerEchoResponse}.
Context `{MessageCodec RenamePlayerRequest} `{MessageCodec RenamePlayerResponse} `{MessageCodec PlayerProfilePush}.
Implicit Types g : game N W.

(** C19: a game runs a forwarded request only for a player that is online here and
    whose lease it holds; otherwise nothing changes and the answer says so.  A
    request changes the record and the instance of its own player at most; and in
    every reachable state a rename of such a player succeeds: the answer holds the
    response, and the new name is in the record, marked to be saved. *)
Theorem requests_served_by_owner g0 g now request :
  fresh_game g0 -> rtc game_step g0 g ->
  let p := fq_player_id request in
  let '(response, g') := run_request now request g in
  fr_request_id response = fq_request_id request /\ fr_player_id response = p /\
  only_player p g g' /\ (~ owner g p -> g' = g /\ fr_result_code response <> RESULT_CODE_OK) /\
  (forall m bytes, owner g p -> fq_message_id request = MESSAGE_ID_PLAYER_RENAME_REQUEST ->
     ParseMessage (fq_payload_bytes request) = Some m -> nq_display_name m <> "" ->
     SerializeMessage (mkRenamePlayerResponse p (nq_display_name m)) = Some bytes ->
     fr_result_code response = RESULT_CODE_OK /\ fr_response_payload_bytes response = bytes /\
     exists record, PlayerRepository.mPlayers (repository g') !! p = Some record /\
       pd_display_name (data record) = nq_display_name m /\ dirty record = true).
Proof.
  intros Hf Hs p. pose proof (steps_agree g0 g Hs (fresh_agree g0 Hf)) as Ha.
  pose proof (run_request_only now request g) as Ho. pose proof (not_owner_refused now request g) as Hn.
  pose proof (fun m bytes Hown => owner_renames now request g m bytes Hown Ha) as Hr. pose proof (run_request_names now request g) as Hi.
  destruct (run_request now request g) as [response g']. simpl in Ho, Hi. destruct Hi. by split_and!.
Qed.
End properties.

(** ** A player renames itself *)

Module ExampleRequests.
Import PlayerSessionService SessionProofs ExampleServers ExampleRepository ExampleGame GamePlayerMessageService GameLoginProofs.

#[local] Existing Instance order_Z.
#[local] Existing Instance example_maria.
#[local] Existing Instance ExampleGame.redis_servers.
#[local] Existing Instance ExampleGame.game_ipc.
#[local] Existing Instance ExampleGame.game_ipc_law.

(** Every rename request asks for the name Ada. *)
#[local] Instance echo_request : MessageCodec PlayerEchoRequest := {| SerializeMessage := fun _ => Some []; ParseMessage := fun _ => None |}.
#[local] Instance echo_response : MessageCodec PlayerEchoResponse := {| SerializeMessage := fun _ => Some []; ParseMessage := fun _ => None |}.
#[local] Instance rename_request : MessageCodec RenamePlayerRequest :=
  {| SerializeMessage := fun _ => Some []; ParseMessage := fun _ => Some (mkRenamePlayerRequest "Ada") |}.
#[local] Instance rename_response : MessageCodec RenamePlayerResponse :=
  {| SerializeMessage := fun m => Some [Z.of_nat (String.length (rr_display_name m))]; ParseMessage := fun _ => None |}.
#[local] Instance profile_push : MessageCodec PlayerProfilePush := {| SerializeMessage := fun _ => Some []; ParseMessage := fun _ => None |}.

Definition rename : ForwardPlayerMessageRequest := mkForwardPlayerMessageRequest 1 (mkGateSession 20 1 5) 7 3102 [] 9 0.
Definition renamed_game : ForwardPlayerMessageResponse * game (IpcNode.node unit unit) servers := run_request 1500 rename activated.

Lemma requests_served_by_owner_witness :
  fr_response_payload_bytes renamed_game.1 = [3] /\ sessions renamed_game.2 = sessions activated.
Proof.
  pose proof (requests_served_by_owner started activated 1500 rename started_fresh activated_reached) as Hs. cbv zeta in Hs.
  assert (run_request 1500 rename activated = (renamed_game.1, renamed_game.2)) as E by apply surjective_pairing.
  rewrite E in Hs. cbv beta iota in Hs. destruct Hs as (_ & _ & (_ & Hses & _) & _ & Hr).
  destruct (Hr (mkRenamePlayerRequest "Ada") [3]) as (_ & Hb & _); [|done..|by split].
  exists (default new_session (Snapshot activated 7)). split_and!; by vm_compute.
Defined.
End ExampleRequests.
