(* ===== verification/GateTables.v ===== *)
(** * GateTables: the tables of a gate

    [gate/services/session_service.cpp] (sessions by id), [routing_service.cpp]
    (which game a player is on) and [auth_service.cpp]. *)

From S2P Require Import Prelude Base.

(** ** Sessions *)

Inductive GateSessionState : Type := anonymous | logging_in | active | kicked | reconnecting | closing.
#[export] Instance gate_session_state_eq_dec : EqDecision GateSessionState.
Proof. solve_decision. Defined.

Record GateSessionRecord : Type := mkGateSessionRecord {
  ses_state : GateSessionState;
  ses_gate_session_id : Z;
  ses_connection_id : Z;
  ses_account_id : string;
  ses_player_id : Z;
  ses_game_service_type : Z;
  ses_game_instance_id : Z;
  ses_login_version : Z;
  ses_session_epoch : Z;
  ses_last_active_time_ms : Z
}.
#[export] Instance eta_gate_session : Eta GateSessionRecord := fun r =>
  mkGateSessionRecord (ses_state r) (ses_gate_session_id r) (ses_connection_id r) (ses_account_id r) (ses_player_id r)
    (ses_game_service_type r) (ses_game_instance_id r) (ses_login_version r) (ses_session_epoch r) (ses_last_active_time_ms r).
#[export] Instance gate_session_record_eq_dec : EqDecision GateSessionRecord.
Proof. solve_decision. Defined.

Definition new_gate_session : GateSessionRecord := mkGateSessionRecord anonymous 0 0 "" 0 0 0 0 0 0.

Module GateSessionService.

(** [mSessions] *)
Abbreviation t := (gmap Z GateSessionRecord).

Definition ToString (s : GateSessionState) : string :=
  match s with
  | anonymous => "anonymous" | logging_in => "logging_in" | active => "active" | kicked => "kicked"
  | reconnecting => "reconnecting" | closing => "closing"
  end.

Definition OpenAnonymous (now gate_session_id connection_id : Z) : St t Result :=
  fun sessions =>
    match sessions !! gate_session_id with
    | Some _ => (Failure "session already exists", sessions)
    | None =>
        (Success, <[gate_session_id := mkGateSessionRecord anonymous gate_session_id connection_id "" 0 0 0 0 1 now]> sessions)
    end.

Definition Activate (now gate_session_id : Z) (account_id : string) (player_id game_service_type game_instance_id : Z) : St t Result :=
  fun sessions =>
    match sessions !! gate_session_id with
    | None => (Failure "session does not exist", sessions)
    | Some record =>
        (Success, <[gate_session_id :=
           record <| ses_state := active |> <| ses_gate_session_id := gate_session_id |> <| ses_account_id := account_id |>
             <| ses_player_id := player_id |> <| ses_game_service_type := game_service_type |>
             <| ses_game_instance_id := game_instance_id |> <| ses_login_version := u64 (ses_login_version record + 1) |>
             <| ses_session_epoch := u64 (ses_session_epoch record + 1) |> <| ses_last_active_time_ms := now |>]> sessions)
    end.

Section order.
Context {mo : MapOrder Z}.

(** The first session in the order of iteration. *)
Definition FindByConnection (sessions : t) (connection_id : Z) : option GateSessionRecord :=
  snd <$> (snd <$> list_find (fun '(_, record) => ses_connection_id record = connection_id) (entries sessions)).

Definition is_logged_in (account_id : string) (record : GateSessionRecord) : bool :=
  String.eqb (ses_account_id record) account_id && bool_decide (ses_state record = active \/ ses_state record = logging_in).

Definition FindByAccount (sessions : t) (account_id : string) : option GateSessionRecord :=
  snd <$> (snd <$> list_find (fun '(_, record) => is_logged_in account_id record = true) (entries sessions)).

(** The removed record, which the caller may ask for. *)
Definition RemoveByConnection (connection_id : Z) : St t (Result * option GateSessionRecord) :=
  fun sessions =>
    match list_find (fun '(_, record) => ses_connection_id record = connection_id) (entries sessions) with
    | Some (_, (gate_session_id, record)) =>
        ((Success, Some (record <| ses_state := closing |>)), delete gate_session_id sessions)
    | None => ((Failure "session for connection does not exist", None), sessions)
    end.

End order.

Definition Snapshot (sessions : t) (gate_session_id : Z) : option GateSessionRecord := sessions !! gate_session_id.

End GateSessionService.

(** ** Routes of players *)

Record GatePlayerRoute : Type := mkGatePlayerRoute {
  rt_game_service_type : Z;
  rt_game_instance_id : Z;
  rt_gate_session_id : Z;
  rt_last_update_ms : Z
}.
#[export] Instance gate_player_route_eq_dec : EqDecision GatePlayerRoute.
Proof. solve_decision. Defined.

Module GateRoutingService.

(** [mRoutes] *)
Abbreviation t := (gmap Z GatePlayerRoute).

Definition BindPlayer (now player_id game_service_type game_instance_id gate_session_id : Z) : St t Result :=
  fun routes => (Success, <[player_id := mkGatePlayerRoute game_service_type game_instance_id gate_session_id now]> routes).

Definition UnbindPlayer (player_id gate_session_id : Z) : St t Result :=
  fun routes =>
    match routes !! player_id with
    | None => (Failure "player route does not exist", routes)
    | Some route =>
        if negb (rt_gate_session_id route =? gate_session_id) then (Failure "player route gate_session_id mismatch", routes)
        else (Success, delete player_id routes)
    end.

Definition Snapshot (routes : t) (player_id : Z) : option GatePlayerRoute := routes !! player_id.

End GateRoutingService.

(** ** Authentication *)

Record GateAuthResult : Type := mkGateAuthResult { auth_ok : bool; auth_account_id : string; auth_message : string }.

Module GateAuthService.

Definition Validate (platform account_id credential : string) : GateAuthResult :=
  if String.eqb platform "" then mkGateAuthResult false account_id "platform is empty"
  else if String.eqb account_id "" then mkGateAuthResult false "" "account_id is empty"
  else if String.eqb credential "" then mkGateAuthResult false account_id "credential is empty"
  else mkGateAuthResult true account_id "OK".

End GateAuthService.

(** ** Lemmas *)

Module GateTablesProofs.
Import GateSessionService.

(** A session is filed under its id, and a connection has one session. *)
Definition wf_sessions (sessions : t) : Prop :=
  (forall id record, sessions !! id = Some record -> ses_gate_session_id record = id) /\
  (forall id1 id2 r1 r2, sessions !! id1 = Some r1 -> sessions !! id2 = Some r2 ->
     ses_connection_id r1 = ses_connection_id r2 -> id1 = id2).

Section tables.
Context {mo : MapOrder Z}.

Lemma list_find_entries (P : Z * GateSessionRecord -> Prop) `{forall x, Decision (P x)} (sessions : t) :
  match list_find P (entries sessions) with
  | Some (_, (id, record)) => sessions !! id = Some record /\ P (id, record)
  | None => forall id record, sessions !! id = Some record -> ~ P (id, record)
  end.
Proof.
  destruct (list_find P (entries sessions)) as [[i [id record]]|] eqn:E.
  - apply list_find_Some_elem in E as [Hin HP]. apply elem_of_entries in Hin. done.
  - intros id record Hs HP. apply list_find_None in E. rewrite Forall_forall in E.
    by apply (E (id, record)); [apply elem_of_entries|].
Qed.

Lemma FindByConnection_spec sessions connection_id :
  match FindByConnection sessions connection_id with
  | Some record => exists id, sessions !! id = Some record /\ ses_connection_id record = connection_id
  | None => forall id record, sessions !! id = Some record -> ses_connection_id record <> connection_id
  end.
Proof.
  unfold FindByConnection. pose proof (list_find_entries (fun '(_, record) => ses_connection_id record = connection_id) sessions) as Hf.
  destruct (list_find _ _) as [[i [id record]]|]; simpl; [by exists id|exact Hf].
Qed.

Lemma FindByAccount_spec sessions account_id :
  match FindByAccount sessions account_id with
  | Some record => exists id, sessions !! id = Some record /\ is_logged_in account_id record = true
  | None => forall id record, sessions !! id = Some record -> is_logged_in account_id record = false
  end.
Proof.
  unfold FindByAccount. pose proof (list_find_entries (fun '(_, record) => is_logged_in account_id record = true) sessions) as Hf.
  destruct (list_find _ _) as [[i [id record]]|]; simpl; [by exists id|].
  intros id record Hs. apply not_true_is_false. exact (Hf id record Hs).
Qed.

Lemma RemoveByConnection_spec sessions connection_id :
  wf_sessions sessions ->
  let '((r, removed), sessions') := RemoveByConnection connection_id sessions in
  wf_sessions sessions' /\
  (forall id record, sessions' !! id = Some record <-> sessions !! id = Some record /\ ses_connection_id record <> connection_id) /\
  match removed with
  | Some record => ok r = true /\ exists old, sessions !! ses_gate_session_id record = Some old /\
      ses_connection_id old = connection_id /\ record = old <| ses_state := closing |>
  | None => ok r = false /\ sessions' = sessions
  end.
Proof.
  intros [Hid Hinj]. unfold RemoveByConnection.
  pose proof (list_find_entries (fun '(_, record) => ses_connection_id record = connection_id) sessions) as Hf.
  destruct (list_find _ _) as [[i [id record]]|].
  - destruct Hf as [Hs Hc]. split; [|split].
    + split.
      * intros j r [_ Hj]%lookup_delete_Some. by apply Hid.
      * intros j1 j2 r1 r2 [_ H1]%lookup_delete_Some [_ H2]%lookup_delete_Some. by eapply Hinj.
    + intros j r. rewrite lookup_delete_Some. split.
      * intros [Hne Hj]. split; [done|]. intros E. apply Hne. by eapply (Hinj id j record r); [done|done|congruence].
      * intros [Hj Hne]. split; [|done]. intros ->. rewrite Hs in Hj. injection Hj as ->. done.
    + simpl. split; [done|]. exists record. rewrite (Hid id record Hs). done.
  - split; [done|]. split; [|done]. intros j r. split; [intros Hj; split; [done|by eapply Hf]|tauto].
Qed.

Lemma OpenAnonymous_wf now id connection sessions :
  (forall record j, sessions !! j = Some record -> ses_connection_id record <> connection) ->
  wf_sessions sessions -> wf_sessions (OpenAnonymous now id connection sessions).2.
Proof.
  intros Hnew [Hid Hinj]. unfold OpenAnonymous. destruct (sessions !! id) eqn:E; [done|]. simpl. split.
  - intros j r. destruct (decide (j = id)) as [->|Hne]; [rewrite lookup_insert_eq; by intros [= <-]|].
    rewrite lookup_insert_ne by done. apply Hid.
  - intros j1 j2 r1 r2. rewrite !lookup_insert. repeat case_decide; subst; [done| | |apply Hinj].
    + intros [= <-] H2 Ec. simpl in Ec. destruct (Hnew r2 j2 H2). done.
    + intros H1 [= <-] Ec. simpl in Ec. destruct (Hnew r1 j1 H1). done.
Qed.

Lemma Activate_wf now id account player st inst sessions : wf_sessions sessions -> wf_sessions (Activate now id account player st inst sessions).2.
Proof.
  intros [Hid Hinj]. unfold Activate. destruct (sessions !! id) as [record|] eqn:E; [|done]. simpl. split.
  - intros j r. destruct (decide (j = id)) as [->|Hne]; [rewrite lookup_insert_eq; by intros [= <-]|].
    rewrite lookup_insert_ne by done. apply Hid.
  - intros j1 j2 r1 r2. rewrite !lookup_insert. repeat case_decide; subst; [done| | |apply Hinj].
    + intros [= <-] H2 Ec. simpl in Ec. by apply (Hinj j1 j2 record r2).
    + intros H1 [= <-] Ec. simpl in Ec. by apply (Hinj j1 j2 r1 record).
Qed.

End tables.
End GateTablesProofs.
