(* ===== verification/Connection.v ===== *)
(** * Connection: [gate/services/connection_service.cpp]

    The sockets of the clients of a gate: one thread selects, accepts and reads
    frames of a message id, a length and a payload; everyone may send and close.
    The calls of the socket library are the class [Sockets]. *)

From S2P Require Import Prelude Text Base Transport.

Inductive GateConnectionState : Type := accepted | handshaking | conn_anonymous | authenticating | conn_bound | conn_closing | conn_closed.
#[export] Instance gate_connection_state_eq_dec : EqDecision GateConnectionState.
Proof. solve_decision. Defined.

Record GateConnectionRecord : Type := mkGateConnectionRecord {
  conn_state : GateConnectionState;
  remote_endpoint : string;
  last_recv_time_ms : Z;
  last_send_time_ms : Z;
  heartbeat_deadline_ms : Z
}.
#[export] Instance eta_gate_connection : Eta GateConnectionRecord := fun r =>
  mkGateConnectionRecord (conn_state r) (remote_endpoint r) (last_recv_time_ms r) (last_send_time_ms r) (heartbeat_deadline_ms r).

(** The calls of the socket library.  A failed call, and the end of a stream,
    read nothing; [select] lists the descriptors that are ready, none when it
    fails or its time is over; [listen] is everything [Start] calls. *)
Class Sockets (S : Type) : Type := {
  sock_recv : Z -> nat -> St S ByteBuffer;
  sock_send : Z -> ByteBuffer -> St S Z;
  sock_close : Z -> St S unit;
  sock_accept : Z -> St S (option (Z * (option string * Z)));
  sock_select : list Z -> St S (list Z);
  sock_listen : string -> Z -> St S (option Z)
}.

(** What the documentation of the calls says about descriptors. *)
Class SocketsLaw (S : Type) `{Sockets S} : Type := {
  open_fds : S -> gset Z;
  recv_law : forall fd n s, open_fds (sock_recv fd n s).2 = open_fds s /\ (fd ∉ open_fds s -> (sock_recv fd n s).1 = []) /\
    (length (sock_recv fd n s).1 <= n)%nat;
  send_law : forall fd bytes s, open_fds (sock_send fd bytes s).2 = open_fds s;
  close_law : forall fd s, open_fds (sock_close fd s).2 = open_fds s ∖ {[fd]};
  accept_law : forall listen s, match sock_accept listen s with
    | (Some (fd, _), s') => (0 <= fd) /\ (fd ∉ open_fds s) /\ (open_fds s' = {[fd]} ∪ open_fds s)
    | (None, s') => open_fds s' = open_fds s
    end;
  select_law : forall fds s, open_fds (sock_select fds s).2 = open_fds s;
  listen_law : forall host port s, match sock_listen host port s with
    | (Some fd, s') => (0 <= fd) /\ (fd ∉ open_fds s) /\ (open_fds s' = {[fd]} ∪ open_fds s)
    | (None, s') => open_fds s' = open_fds s
    end
}.

Definition gate_header_bytes (message_id : Z) (payload : ByteBuffer) : ByteBuffer :=
  le_bytes 4 message_id ++ le_bytes 4 (u32 (Z.of_nat (length payload))).

Module GateConnectionService.

Record t : Type := mkGateConnectionService {
  mConnections : gmap Z GateConnectionRecord;
  mSocketByConnectionId : gmap Z Z;
  mConnectionIdBySocket : gmap Z Z;
  mListenHost : string;
  mListenPort : Z;
  mNextConnectionId : Z;
  mListenSocketFd : Z;
  mStopping : bool;
  mWorkerThread : bool
}.
#[export] Instance eta_connection_service : Eta t := fun s =>
  mkGateConnectionService (mConnections s) (mSocketByConnectionId s) (mConnectionIdBySocket s) (mListenHost s) (mListenPort s)
    (mNextConnectionId s) (mListenSocketFd s) (mStopping s) (mWorkerThread s).

Definition create (host : string) (port : Z) : t := mkGateConnectionService ∅ ∅ ∅ host port 1 (-1) false false.

Definition ToString (s : GateConnectionState) : string :=
  match s with
  | accepted => "accepted" | handshaking => "handshaking" | conn_anonymous => "anonymous" | authenticating => "authenticating"
  | conn_bound => "bound" | conn_closing => "closing" | conn_closed => "closed"
  end.

Definition put_record (connection_id : Z) (record : GateConnectionRecord) (s : t) : t :=
  s <| mConnections := <[connection_id := record]> (mConnections s) |>.

Definition accepted_record (now : Z) (endpoint : string) : GateConnectionRecord :=
  mkGateConnectionRecord accepted endpoint now now (u64 (now + 30000)).

Definition Accept (now connection_id : Z) (endpoint : string) : St t Result :=
  fun s =>
    match mConnections s !! connection_id with
    | Some _ => (Failure "connection already exists", s)
    | None => (Success, put_record connection_id (accepted_record now endpoint) s)
    end.

(** The text of [MarkAnonymous] and [MarkBound]. *)
Definition mark (state : GateConnectionState) (connection_id : Z) : St t Result :=
  fun s =>
    match mConnections s !! connection_id with
    | None => (Failure "connection does not exist", s)
    | Some record => (Success, put_record connection_id (record <| conn_state := state |>) s)
    end.
Definition MarkAnonymous : Z -> St t Result := mark conn_anonymous.
Definition MarkBound : Z -> St t Result := mark conn_bound.

Definition Snapshot (s : t) (connection_id : Z) : option GateConnectionRecord := mConnections s !! connection_id.

Section sockets.
Context {S : Type} `{Sockets S} {mo : MapOrder Z}.

(** Every turn of the loop reads at least one byte. *)
Fixpoint ReadExact_loop (fuel : nat) (fd : Z) (size : nat) (buffer : ByteBuffer) : St S (bool * ByteBuffer) :=
  fun k =>
    match fuel with
    | O => ((bool_decide (size <= length buffer)%nat, buffer), k)
    | Datatypes.S fuel =>
        if (length buffer <? size)%nat then
          let '(received, k) := sock_recv fd (size - length buffer) k in
          match received with
          | [] => ((false, buffer), k)
          | _ => ReadExact_loop fuel fd size (buffer ++ received) k
          end
        else ((true, buffer), k)
    end.
Definition ReadExact (fd : Z) (size : nat) : St S (bool * ByteBuffer) := ReadExact_loop size fd size [].

Fixpoint WriteExact_loop (fuel : nat) (fd : Z) (bytes : ByteBuffer) : St S bool :=
  fun k =>
    match bytes, fuel with
    | [], _ => (true, k)
    | _, O => (false, k)
    | _, Datatypes.S fuel =>
        let '(sent, k) := sock_send fd bytes k in
        if sent <=? 0 then (false, k) else WriteExact_loop fuel fd (drop (Z.to_nat sent) bytes) k
    end.
Definition WriteExact (fd : Z) (bytes : ByteBuffer) : St S bool := WriteExact_loop (length bytes) fd bytes.

Definition Start : St (t * S) unit :=
  fun '(s, k) =>
    if mWorkerThread s then (tt, (s, k))
    else
      let '(fd, k) := sock_listen (mListenHost s) (mListenPort s) k in
      match fd with
      | None => (tt, (s <| mListenSocketFd := -1 |>, k))
      | Some fd => (tt, (s <| mListenSocketFd := fd |> <| mStopping := false |> <| mWorkerThread := true |>, k))
      end.

Fixpoint close_all (fds : list Z) : St S unit :=
  match fds with
  | [] => ret tt
  | fd :: rest => sock_close fd;;; close_all rest
  end.

(** [Stop]; joining the thread changes no state. *)
Definition Stop : St (t * S) unit :=
  fun '(s, k) =>
    let '(_, k) := when (0 <=? mListenSocketFd s) (sock_close (mListenSocketFd s)) k in
    let '(_, k) := close_all (entries (mSocketByConnectionId s)).*2 k in
    (tt, (s <| mStopping := true |> <| mListenSocketFd := (if 0 <=? mListenSocketFd s then -1 else mListenSocketFd s) |>
            <| mSocketByConnectionId := ∅ |> <| mConnectionIdBySocket := ∅ |> <| mWorkerThread := false |>, k)).

Definition Send (now connection_id message_id : Z) (payload : ByteBuffer) : St (t * S) Result :=
  fun '(s, k) =>
    match mSocketByConnectionId s !! connection_id with
    | None => (Failure "connection socket does not exist", (s, k))
    | Some socket_fd =>
        let '(sent, k) := WriteExact socket_fd (gate_header_bytes message_id payload) k in
        if negb sent then (Failure "failed to send frame header", (s, k))
        else
          let '(sent, k) := match payload with [] => (true, k) | _ => WriteExact socket_fd payload k end in
          if negb sent then (Failure "failed to send frame payload", (s, k))
          else
            match mConnections s !! connection_id with
            | Some record => (Success, (put_record connection_id (record <| last_send_time_ms := now |>) s, k))
            | None => (Success, (s, k))
            end
    end.

Definition CloseSocketLocked (connection_id : Z) : St (t * S) unit :=
  fun '(s, k) =>
    match mSocketByConnectionId s !! connection_id with
    | None => (tt, (s, k))
    | Some fd =>
        let '(_, k) := sock_close fd k in
        (tt, (s <| mConnectionIdBySocket := delete fd (mConnectionIdBySocket s) |>
                <| mSocketByConnectionId := delete connection_id (mSocketByConnectionId s) |>, k))
    end.

Definition AcceptReadySocket (now : Z) : St (t * S) unit :=
  fun '(s, k) =>
    if mListenSocketFd s <? 0 then (tt, (s, k))
    else
      let '(socket, k) := sock_accept (mListenSocketFd s) k in
      match socket with
      | None => (tt, (s, k))
      | Some (socket_fd, (host, port)) =>
          let connection_id := mNextConnectionId s in
          (tt, (put_record connection_id (accepted_record now (default "unknown" host +:+ ":" +:+ to_string port)) s
                  <| mNextConnectionId := u64 (connection_id + 1) |>
                  <| mSocketByConnectionId := <[connection_id := socket_fd]> (mSocketByConnectionId s) |>
                  <| mConnectionIdBySocket := <[socket_fd := connection_id]> (mConnectionIdBySocket s) |>, k))
      end.

(** The part of [FinalizeConnection] under the lock. *)
Definition mark_finalized (now connection_id : Z) (s : t) : t :=
  match mConnections s !! connection_id with
  | Some record => put_record connection_id (record <| conn_state := conn_closed |> <| last_recv_time_ms := now |>) s
  | None => s
  end.

(** A frame has arrived. *)
Definition mark_received (now connection_id : Z) (s : t) : t :=
  match mConnections s !! connection_id with
  | Some record => put_record connection_id (record <| last_recv_time_ms := now |> <| heartbeat_deadline_ms := u64 (now + 30000) |>) s
  | None => s
  end.

(** What [HandleReadable] reads: a message, unless the connection is over. *)
Definition read_message (socket_fd : Z) : St S (option (Z * ByteBuffer)) :=
  fun k =>
    let '((done, header), k) := ReadExact socket_fd 8 k in
    if negb done then (None, k)
    else
      let size := of_le_bytes (drop 4 header) in
      let '((done, payload), k) := if 0 <? size then ReadExact socket_fd (Z.to_nat size) k else ((true, []), k) in
      if negb done then (None, k) else (Some (of_le_bytes (take 4 header), payload), k).

End sockets.

(** The operations that call the handlers of the application, which work on the
    whole process: [view] and [put] are the service and its sockets there. *)
Section handlers.
Context {S : Type} `{Sockets S} {mo : MapOrder Z} {G : Type}.
Variables (view : G -> t * S) (put : t * S -> G -> G).
Variables (mDisconnectHandler : option (Z -> St G unit)) (mMessageHandler : option (Z -> Z -> ByteBuffer -> St G unit)).

Definition locked {A : Type} (m : St (t * S) A) : St G A := zoom view put m.

Definition FinalizeConnection (now connection_id : Z) : St G unit :=
  locked (fun '(s, k) => CloseSocketLocked connection_id (mark_finalized now connection_id s, k));;;
  match mDisconnectHandler with Some handler => handler connection_id | None => ret tt end.

Definition Close (now connection_id : Z) : St G Result :=
  fun g =>
    match mConnections (view g).1 !! connection_id with
    | None => (Failure "connection does not exist", g)
    | Some record =>
        let '(_, g) := locked (fun '(s, k) =>
          CloseSocketLocked connection_id (put_record connection_id (record <| conn_state := conn_closed |>) s, k)) g in
        let '(_, g) := FinalizeConnection now connection_id g in
        (Success, g)
    end.

Definition HandleReadable (now connection_id socket_fd : Z) : St G unit :=
  fun g =>
    let '(message, g) := locked (fun '(s, k) => let '(message, k) := read_message socket_fd k in (message, (s, k))) g in
    match message with
    | None => FinalizeConnection now connection_id g
    | Some (message_id, payload) =>
        let '(_, g) := locked (fun '(s, k) => (tt, (mark_received now connection_id s, k))) g in
        match mMessageHandler with Some handler => handler connection_id message_id payload g | None => (tt, g) end
    end.

Fixpoint handle_ready (now : Z) (ready : list Z) (sockets : list (Z * Z)) : St G unit :=
  match sockets with
  | [] => ret tt
  | (connection_id, socket_fd) :: rest =>
      when (bool_decide (socket_fd ∈ ready)) (HandleReadable now connection_id socket_fd);;; handle_ready now ready rest
  end.

(** One turn of [WorkerLoop]: whether it goes on. *)
Definition worker_turn (now : Z) : St G bool :=
  fun g =>
    let s := (view g).1 in
    if mStopping s then (false, g)
    else
      let sockets := entries (mSocketByConnectionId s) in
      let fds := (if 0 <=? mListenSocketFd s then [mListenSocketFd s] else []) ++ sockets.*2 in
      if negb (existsb (fun fd => 0 <=? fd) fds) then (false, g)
      else
        let '(ready, g) := locked (fun '(s, k) => let '(ready, k) := sock_select fds k in (ready, (s, k))) g in
        match ready with
        | [] => (true, g)
        | _ =>
            let listen := mListenSocketFd (view g).1 in
            let '(_, g) := when ((0 <=? listen) && bool_decide (listen ∈ ready)) (locked (AcceptReadySocket now)) g in
            let '(_, g) := handle_ready now ready sockets g in
            (true, g)
        end.

End handlers.
End GateConnectionService.

(** ** Reading and writing *)

(** The bytes on their way to and from the other ends of the sockets. *)
Class StreamLaw (S : Type) `{Sockets S} : Type := {
  incoming : S -> Z -> Stream;
  outgoing : S -> Z -> ByteBuffer;
  recv_stream : forall fd n s, (0 < n)%nat ->
    (sock_recv fd n s).1 = (recv n (incoming s fd)).1 /\ incoming (sock_recv fd n s).2 fd = (recv n (incoming s fd)).2;
  send_stream : forall fd bytes s, let '(n, s') := sock_send fd bytes s in
    n <= Z.of_nat (length bytes) /\ outgoing s' fd = outgoing s fd ++ take (Z.to_nat n) bytes
}.

Module ConnectionProofs.
Import GateConnectionService.

Section streams.
Context {S : Type} `{StreamLaw S} {mo : MapOrder Z}.

Lemma ReadExact_loop_stream fuel fd size buffer k :
  let '((done, bytes), k') := ReadExact_loop fuel fd size buffer k in
  Transport.ReadExact_loop fuel size buffer (incoming k fd) = (done, bytes, incoming k' fd).
Proof.
  revert buffer k. induction fuel as [|fuel IH]; intros buffer k; [done|]. cbn [ReadExact_loop Transport.ReadExact_loop].
  destruct (Nat.ltb_spec (length buffer) size) as [Hlt|]; [|done].
  destruct (recv_stream fd (size - length buffer) k) as [E1 E2]; [lia|].
  destruct (sock_recv fd (size - length buffer) k) as [got k']. simpl in E1, E2. subst got.
  destruct (recv (size - length buffer) (incoming k fd)) as [got rest]. simpl in *. subst rest.
  destruct got; [done|]. apply IH.
Qed.

Lemma ReadExact_bytes fd size k :
  healthy (incoming k fd) -> (size <= length (concat (incoming k fd)))%nat ->
  let '(result, k') := ReadExact fd size k in
  result = (true, take size (concat (incoming k fd))) /\ concat (incoming k' fd) = drop size (concat (incoming k fd)) /\
  healthy (incoming k' fd).
Proof.
  intros Hh Hl. destruct (Transport.ReadExact_ok size (incoming k fd) Hh Hl) as (s' & E & Hc & Hh').
  pose proof (ReadExact_loop_stream size fd size [] k) as Hs. unfold ReadExact, Transport.ReadExact in *.
  destruct (ReadExact_loop size fd size [] k) as [[done bytes] k']. rewrite E in Hs. by injection Hs as <- <- <-.
Qed.

Lemma WriteExact_loop_bytes fuel fd bytes k :
  let '(sent, k') := WriteExact_loop fuel fd bytes k in
  sent = true -> outgoing k' fd = outgoing k fd ++ bytes.
Proof.
  revert bytes k. induction fuel as [|fuel IH]; intros [|b bytes] k; cbn [WriteExact_loop]; try (intros _; by rewrite app_nil_r); [done|].
  pose proof (send_stream fd (b :: bytes) k) as Hs. destruct (sock_send fd (b :: bytes) k) as [n k']. destruct Hs as [Hn Ho].
  destruct (Z.leb_spec n 0); [done|]. specialize (IH (drop (Z.to_nat n) (b :: bytes)) k').
  destruct (WriteExact_loop _ _ _ k') as [sent k'']. intros Hsent. rewrite (IH Hsent), Ho, <- app_assoc. f_equal.
  by rewrite take_drop.
Qed.

Lemma length_header id payload : length (gate_header_bytes id payload) = 8%nat.
Proof. unfold gate_header_bytes. by rewrite length_app, !length_le_bytes. Qed.

Lemma header_fields id payload : in_u32 id -> in_u32 (Z.of_nat (length payload)) ->
  of_le_bytes (take 4 (gate_header_bytes id payload)) = id /\
  of_le_bytes (drop 4 (gate_header_bytes id payload)) = Z.of_nat (length payload).
Proof.
  intros H1 H2. unfold gate_header_bytes. rewrite u32_id by done.
  rewrite take_app_length', drop_app_length' by (symmetry; apply length_le_bytes). by rewrite !of_le_bytes_4.
Qed.

Lemma read_message_spec fd id payload rest k :
  in_u32 id -> in_u32 (Z.of_nat (length payload)) -> healthy (incoming k fd) ->
  concat (incoming k fd) = gate_header_bytes id payload ++ payload ++ rest ->
  let '(message, k') := read_message fd k in
  message = Some (id, payload) /\ concat (incoming k' fd) = rest /\ healthy (incoming k' fd).
Proof.
  intros Hid Hlen Hh Hc. unfold read_message.
  pose proof (ReadExact_bytes fd 8 k Hh) as Hr. rewrite Hc, length_app, length_header in Hr. specialize (Hr ltac:(lia)).
  destruct (ReadExact fd 8 k) as [result k1]. rewrite take_app_length', drop_app_length' in Hr by (symmetry; apply length_header).
  destruct Hr as (-> & Hc1 & Hh1). cbn [negb]. destruct (header_fields id payload Hid Hlen) as [-> ->].
  destruct (Z.ltb_spec 0 (Z.of_nat (length payload))) as [Hlt|Hge].
  - pose proof (ReadExact_bytes fd (length payload) k1 Hh1) as Hr. rewrite Hc1, length_app in Hr. specialize (Hr ltac:(lia)).
    rewrite Nat2Z.id. destruct (ReadExact fd (length payload) k1) as [result k2].
    rewrite take_app_length, drop_app_length in Hr. destruct Hr as (-> & Hc2 & Hh2). done.
  - destruct payload; [done|simpl in Hge; lia].
Qed.

Lemma Send_bytes now id message_id payload s k socket_fd :
  mSocketByConnectionId s !! id = Some socket_fd ->
  let '(r, (_, k')) := Send now id message_id payload (s, k) in
  ok r = true -> outgoing k' socket_fd = outgoing k socket_fd ++ gate_header_bytes message_id payload ++ payload.
Proof.
  intros Hs. unfold Send. rewrite Hs.
  pose proof (WriteExact_loop_bytes (length (gate_header_bytes message_id payload)) socket_fd (gate_header_bytes message_id payload) k) as H1.
  unfold WriteExact at 1. destruct (WriteExact_loop _ _ _ k) as [sent k1]. destruct sent; cbn [negb]; [|done]. specialize (H1 eq_refl).
  destruct payload as [|b payload].
  - cbn [negb]. destruct (mConnections s !! id); intros _; rewrite app_nil_r; exact H1.
  - pose proof (WriteExact_loop_bytes (length (b :: payload)) socket_fd (b :: payload) k1) as H2. unfold WriteExact.
    destruct (WriteExact_loop _ _ _ k1) as [sent k2]. destruct sent; cbn [negb]; [|done]. specialize (H2 eq_refl).
    destruct (mConnections s !! id); intros _; by rewrite H2, H1, <- app_assoc.
Qed.

End streams.
(** *** The tables *)

(** The two socket tables are inverse, sockets are open descriptors of
    connections that are not closed, and ids that have one have been given out. *)
Record conn_inv (s : t) (fds : gset Z) : Prop := mkConnInv {
  ci_inverse : forall c fd, mSocketByConnectionId s !! c = Some fd <-> mConnectionIdBySocket s !! fd = Some c;
  ci_open : forall c fd, mSocketByConnectionId s !! c = Some fd ->
    0 <= fd /\ fd ∈ fds /\ fd <> mListenSocketFd s /\ c < mNextConnectionId s /\
    exists record, mConnections s !! c = Some record /\ conn_state record <> conn_closed;
  ci_listen : mListenSocketFd s = -1 \/ 0 <= mListenSocketFd s /\ mListenSocketFd s ∈ fds
}.

Definition same_sockets (s s' : t) : Prop :=
  mSocketByConnectionId s' = mSocketByConnectionId s /\ mConnectionIdBySocket s' = mConnectionIdBySocket s /\
  mListenSocketFd s' = mListenSocketFd s /\ mNextConnectionId s' = mNextConnectionId s.

Lemma conn_inv_same s s' fds :
  same_sockets s s' ->
  (forall c fd record, mSocketByConnectionId s !! c = Some fd -> mConnections s !! c = Some record -> conn_state record <> conn_closed ->
     exists record', mConnections s' !! c = Some record' /\ conn_state record' <> conn_closed) ->
  conn_inv s fds -> conn_inv s' fds.
Proof.
  intros (E1 & E2 & E3 & E4) Hr [I1 I2 I3]. split; rewrite ?E1, ?E2, ?E3, ?E4; [exact I1| |exact I3].
  intros c fd Hc. destruct (I2 c fd Hc) as (? & ? & ? & ? & record & Hrec & Hst). split_and!; [done..|]. by eapply Hr.
Qed.

Lemma conn_inv_put s fds c record :
  (mSocketByConnectionId s !! c <> None -> conn_state record <> conn_closed) ->
  conn_inv s fds -> conn_inv (put_record c record s) fds.
Proof.
  intros Hst. apply conn_inv_same; [done|]. intros c' fd record' Hc Hr Hs. simpl. rewrite lookup_insert.
  case_decide; [subst; exists record; split; [done|]; apply Hst; congruence|by exists record'].
Qed.

Section tables.
Context {S : Type} `{SocketsLaw S} {mo : MapOrder Z}.

Lemma ReadExact_loop_fds fuel fd size buffer k :
  let '((done, _), k') := ReadExact_loop fuel fd size buffer k in
  open_fds k' = open_fds k /\ (fd ∉ open_fds k -> (length buffer < size)%nat -> done = false).
Proof.
  revert buffer k. induction fuel as [|fuel IH]; intros buffer k; cbn [ReadExact_loop].
  { split; [done|]. intros _ Hl. apply bool_decide_eq_false. lia. }
  destruct (Nat.ltb_spec (length buffer) size) as [Hlt|]; [|split; [done|lia]].
  destruct (recv_law fd (size - length buffer) k) as (E1 & E2 & _). destruct (sock_recv _ _ k) as [[|b got] k']; simpl in *; [done|].
  specialize (IH (buffer ++ b :: got) k'). destruct (ReadExact_loop _ _ _ _ k') as [[done bytes] k'']. rewrite <- E1.
  split; [apply IH|]. intros Hfd _. rewrite E1 in Hfd. discriminate (E2 Hfd).
Qed.

Lemma read_message_fds fd k :
  let '(message, k') := read_message fd k in open_fds k' = open_fds k /\ (fd ∉ open_fds k -> message = None).
Proof.
  unfold read_message, ReadExact. pose proof (ReadExact_loop_fds 8 fd 8 [] k) as H1.
  destruct (ReadExact_loop 8 fd 8 [] k) as [[done header] k1]. destruct H1 as [E1 F1].
  destruct done; cbn [negb]; [|done]. assert (fd ∈ open_fds k \/ fd ∉ open_fds k) as [Hin|Hout] by (destruct (decide (fd ∈ open_fds k)); auto).
  2:{ discriminate (F1 Hout ltac:(simpl; lia)). }
  destruct (0 <? of_le_bytes (drop 4 header)); [|by split].
  pose proof (ReadExact_loop_fds (Z.to_nat (of_le_bytes (drop 4 header))) fd (Z.to_nat (of_le_bytes (drop 4 header))) [] k1) as H2.
  destruct (ReadExact_loop _ _ _ _ k1) as [[done payload] k2]. destruct H2 as [E2 _]. destruct done; cbn [negb]; (split; [congruence|done]).
Qed.

Lemma WriteExact_loop_fds fuel fd bytes k : open_fds (WriteExact_loop fuel fd bytes k).2 = open_fds k.
Proof.
  revert bytes k. induction fuel as [|fuel IH]; intros [|b bytes] k; cbn [WriteExact_loop]; [done..|].
  pose proof (send_law fd (b :: bytes) k) as Hs. destruct (sock_send fd (b :: bytes) k) as [n k']. simpl in Hs.
  destruct (n <=? 0); [done|]. by rewrite IH.
Qed.

Lemma Send_inv now c id payload s k :
  let '(_, (s', k')) := Send now c id payload (s, k) in
  same_sockets s s' /\ open_fds k' = open_fds k /\ (conn_inv s (open_fds k) -> conn_inv s' (open_fds k')).
Proof.
  unfold Send. destruct (mSocketByConnectionId s !! c) as [fd|] eqn:Ec; [|done].
  unfold WriteExact. pose proof (WriteExact_loop_fds (length (gate_header_bytes id payload)) fd (gate_header_bytes id payload) k) as H1.
  destruct (WriteExact_loop _ _ _ k) as [sent k1]. simpl in H1. rewrite <- H1. destruct sent; cbn [negb]; [|done].
  assert (open_fds (match payload with [] => (true, k1) | _ => WriteExact_loop (length payload) fd payload k1 end).2 = open_fds k1) as H2
    by (destruct payload; [done|apply WriteExact_loop_fds]).
  destruct (match payload with [] => _ | _ => _ end) as [sent k2]. simpl in H2. rewrite <- H2. destruct sent; cbn [negb]; [|done].
  destruct (mConnections s !! c) as [record|] eqn:Er; [|done]. split; [done|]. split; [done|]. intros Hi.
  apply conn_inv_put; [|done]. intros _. destruct (ci_open _ _ Hi c fd Ec) as (_ & _ & _ & _ & r' & Hr' & Hst). simpl. congruence.
Qed.

Lemma close_part_inv c s k :
  conn_inv s (open_fds k) ->
  let '(_, (s', k')) := CloseSocketLocked c (s, k) in
  conn_inv s' (open_fds k') /\ mSocketByConnectionId s' = delete c (mSocketByConnectionId s) /\ mConnections s' = mConnections s /\
  mNextConnectionId s' = mNextConnectionId s /\ mStopping s' = mStopping s.
Proof.
  intros [I1 I2 I3]. unfold CloseSocketLocked. destruct (mSocketByConnectionId s !! c) as [fd|] eqn:Ec.
  2:{ split; [done|]. by rewrite delete_id. }
  pose proof (close_law fd k) as Hc. destruct (sock_close fd k) as [u k']. simpl in Hc. rewrite Hc. split; [|done].
  destruct (I2 c fd Ec) as (_ & _ & Hl & _). split; simpl.
  - intros c' fd'. rewrite !lookup_delete_Some, I1. split; intros [Hne Hf]; (split; [|done]); intros ->.
    + apply Hne. apply I1 in Ec. congruence.
    + apply Hne. apply I1 in Hf. congruence.
  - intros c' fd' [Hne Hf]%lookup_delete_Some. destruct (I2 c' fd' Hf) as (? & ? & ? & ? & ?). split_and!; [done| |done..].
    apply elem_of_difference. split; [done|]. intros ->%elem_of_singleton. apply Hne. apply I1 in Ec, Hf. congruence.
  - destruct I3 as [?|[? ?]]; [by left|right]. split; [done|]. set_solver.
Qed.

(** Closing makes the record closed before the socket goes. *)
Lemma close_record_inv c record s k :
  conn_inv s (open_fds k) ->
  let '(_, (s', k')) := CloseSocketLocked c (put_record c record s, k) in
  conn_inv s' (open_fds k') /\ mSocketByConnectionId s' = delete c (mSocketByConnectionId s) /\
  mNextConnectionId s' = mNextConnectionId s /\ mStopping s' = mStopping s.
Proof.
  intros Hi. destruct (mSocketByConnectionId s !! c) as [fd|] eqn:Ec.
  - pose proof (close_part_inv c s k Hi) as Hc. unfold CloseSocketLocked in *. simpl. rewrite Ec in *.
    destruct (sock_close fd k) as [u k']. destruct Hc as (Hc & E1 & E2 & E3). split_and!; [|done..].
    apply (conn_inv_put _ _ c record) in Hc; [exact Hc|]. simpl. by rewrite lookup_delete_eq.
  - assert (conn_inv (put_record c record s) (open_fds k)) as Hp by (apply conn_inv_put; [congruence|done]).
    unfold CloseSocketLocked. simpl. rewrite Ec. split_and!; [done| |done..]. simpl. by rewrite delete_id.
Qed.

Lemma AcceptReadySocket_inv now s k :
  conn_inv s (open_fds k) -> in_u64 (mNextConnectionId s + 1) -> 0 <= mNextConnectionId s ->
  let '(_, (s', k')) := AcceptReadySocket now (s, k) in
  conn_inv s' (open_fds k') /\ (forall c, is_Some (mSocketByConnectionId s !! c) -> mSocketByConnectionId s' !! c = mSocketByConnectionId s !! c) /\
  mNextConnectionId s <= mNextConnectionId s' <= mNextConnectionId s + 1 /\ mStopping s' = mStopping s /\
  (forall fd, fd ∈ open_fds k -> fd ∈ open_fds k') /\
  (forall c fd, mSocketByConnectionId s' !! c = Some fd -> mSocketByConnectionId s !! c = Some fd \/ c = mNextConnectionId s /\ fd ∉ open_fds k).
Proof.
  intros [I1 I2 I3] Hn Hn0. unfold AcceptReadySocket. destruct (mListenSocketFd s <? 0); [split_and!; [done|done|lia|lia|done|done|auto]|].
  pose proof (accept_law (mListenSocketFd s) k) as Ha. destruct (sock_accept _ k) as [[[fd [host port]]|] k'].
  2:{ rewrite Ha. split_and!; [done|done|lia|lia|done|done|auto]. }
  destruct Ha as (Hfd & Hnew & Ho). set (id := mNextConnectionId s) in *. cbn [mNextConnectionId].
  assert (mSocketByConnectionId s !! id = None) as Hid.
  { destruct (mSocketByConnectionId s !! id) as [fd'|] eqn:E; [|done]. destruct (I2 _ _ E) as (_ & _ & _ & Hlt & _). unfold id in Hlt. lia. }
  assert (mConnectionIdBySocket s !! fd = None) as Hf.
  { destruct (mConnectionIdBySocket s !! fd) as [c|] eqn:E; [|done]. apply I1 in E. destruct (I2 _ _ E) as (_ & Hin & _). done. }
  rewrite Ho. split_and!; simpl.
  - split; simpl.
    + intros c fd'. rewrite !lookup_insert. destruct (decide (id = c)) as [<-|Hc], (decide (fd = fd')) as [<-|Hfd'];
        [done| |split; intros E; [apply I1 in E|]; congruence|apply I1].
      split; [congruence|]. intros E. apply I1 in E. congruence.
    + intros c fd'. rewrite !lookup_insert. rewrite u64_id by done. case_decide.
      * subst c. intros [= <-]. split_and!; [done|set_solver| |lia|]; [|by eexists].
        intros ->. destruct I3 as [?|[_ ?]]; [lia|done].
      * intros E. destruct (I2 _ _ E) as (? & ? & ? & ? & ?). split_and!; [done|set_solver|done|lia|done].
    + destruct I3 as [?|[? ?]]; [by left|right; set_solver].
  - intros c [x Hx]. rewrite lookup_insert_ne; [done|]. intros <-. congruence.
  - rewrite u64_id by done. lia.
  - rewrite u64_id by done. lia.
  - done.
  - set_solver.
  - intros c fd'. rewrite lookup_insert. case_decide; [intros [= <-]; right; split; [done|done]|by left].
Qed.

Lemma mark_received_inv now c s fds : conn_inv s fds -> conn_inv (mark_received now c s) fds.
Proof.
  intros Hi. unfold mark_received. destruct (mConnections s !! c) as [record|] eqn:Er; [|done]. apply conn_inv_put; [|done].
  intros Hc. destruct (mSocketByConnectionId s !! c) as [fd|] eqn:Ec; [|done].
  destruct (ci_open _ _ Hi c fd Ec) as (_ & _ & _ & _ & r' & Hr' & Hst). simpl. congruence.
Qed.

Lemma mark_inv st c s fds : st <> conn_closed -> conn_inv s fds -> conn_inv (mark st c s).2 fds.
Proof. intros Hst Hi. unfold mark. destruct (mConnections s !! c); [|done]. by apply conn_inv_put. Qed.

End tables.
End ConnectionProofs.

Section properties.
Import GateConnectionService ConnectionProofs.
Context {S : Type} `{StreamLaw S} {mo : MapOrder Z}.

(** C21: a message that a gate sends to a client without an error is read unchanged
    by everyone who reads frames as the gate does, in whatever pieces the bytes are
    accepted by the kernel and arrive, and what follows it is left for the next
    one. *)
Theorem client_frames_roundtrip now id message_id payload s k fd :
  mSocketByConnectionId s !! id = Some fd -> in_u32 message_id -> in_u32 (Z.of_nat (length payload)) ->
  let '(r, (_, k')) := Send now id message_id payload (s, k) in
  ok r = true ->
  exists bytes, outgoing k' fd = outgoing k fd ++ bytes /\
    forall k1 fd1 rest, healthy (incoming k1 fd1) -> concat (incoming k1 fd1) = bytes ++ rest ->
      let '(message, k2) := read_message fd1 k1 in
      message = Some (message_id, payload) /\ concat (incoming k2 fd1) = rest /\ healthy (incoming k2 fd1).
Proof.
  intros Hs Hid Hlen. pose proof (Send_bytes now id message_id payload s k fd Hs) as Hb.
  destruct (Send now id message_id payload (s, k)) as [r [s' k']]. intros Hok. exists (gate_header_bytes message_id payload ++ payload).
  split; [by apply Hb|]. intros k1 fd1 rest Hh Hc. rewrite <- app_assoc in Hc. by apply read_message_spec.
Qed.
End properties.

(** ** A socket library in memory *)

Module ExampleSockets.

(** Open descriptors, what is to be read from them and what was written to them;
    the clients that wait to be accepted; the next descriptor. *)
Record net : Type := mkNet {
  net_open : gset Z;
  net_in : gmap Z Stream;
  net_out : gmap Z ByteBuffer;
  net_backlog : list (string * Z * Stream);
  net_next : Z
}.
#[export] Instance eta_net : Eta net := fun k => mkNet (net_open k) (net_in k) (net_out k) (net_backlog k) (net_next k).

Definition new_fd (k : net) : option Z := if bool_decide (0 <= net_next k /\ net_next k ∉ net_open k) then Some (net_next k) else None.

(** The descriptors with a stream that is not empty are ready; an empty piece of a
    stream is its end. *)
Definition stream_of (k : net) (fd : Z) : Stream := if bool_decide (fd ∈ net_open k) then default [] (net_in k !! fd) else [].

#[export] Instance net_sockets : Sockets net := {|
  sock_recv := fun fd n k =>
    let '(bytes, rest) := recv n (stream_of k fd) in (bytes, k <| net_in := <[fd := rest]> (net_in k) |>);
  sock_send := fun fd bytes k =>
    if bool_decide (fd ∈ net_open k)
    then (Z.of_nat (length bytes), k <| net_out := <[fd := default [] (net_out k !! fd) ++ bytes]> (net_out k) |>) else (-1, k);
  sock_close := fun fd k => (tt, k <| net_open := net_open k ∖ {[fd]} |>);
  sock_accept := fun _ k =>
    match net_backlog k, new_fd k with
    | (host, port, stream) :: rest, Some fd =>
        (Some (fd, (Some host, port)),
         k <| net_open := {[fd]} ∪ net_open k |> <| net_in := <[fd := stream]> (net_in k) |> <| net_out := delete fd (net_out k) |>
           <| net_backlog := rest |> <| net_next := fd + 1 |>)
    | _, _ => (None, k)
    end;
  sock_select := fun fds k =>
    (filter (fun fd => match net_in k !! fd with Some stream => negb (bool_decide (stream = [])) | None => negb (bool_decide (net_backlog k = [])) end = true) fds, k);
  sock_listen := fun _ _ k =>
    match new_fd k with
    | Some fd => (Some fd, k <| net_open := {[fd]} ∪ net_open k |> <| net_next := fd + 1 |>)
    | None => (None, k)
    end
|}.

Lemma new_fd_spec k fd : new_fd k = Some fd -> 0 <= fd /\ fd ∉ net_open k.
Proof. unfold new_fd. case_bool_decide; [by intros [= <-]|done]. Qed.

#[export] Instance net_sockets_law : SocketsLaw net.
Proof.
  refine {| open_fds := net_open |}.
  - intros fd n k. simpl. destruct (recv n (stream_of k fd)) as [bytes rest] eqn:E. simpl. split; [done|].
    unfold stream_of in E. split.
    + intros Hfd. rewrite bool_decide_eq_false_2 in E by done. simpl in E. by injection E as <- <-.
    + unfold recv in E. destruct (if bool_decide _ then _ else _); injection E as <- <-; [simpl; lia|]. rewrite length_take. lia.
  - intros fd bytes k. simpl. by destruct (bool_decide _).
  - done.
  - intros listen k. simpl. destruct (net_backlog k) as [|[[host port] stream] rest]; [done|].
    destruct (new_fd k) as [fd|] eqn:E; [|done]. apply new_fd_spec in E as [E1 E2]. by split_and!.
  - done.
  - intros host port k. simpl. destruct (new_fd k) as [fd|] eqn:E; [|done]. apply new_fd_spec in E as [E1 E2]. by split_and!.
Defined.

#[export] Instance net_stream_law : StreamLaw net.
Proof.
  refine {| incoming := stream_of; outgoing := fun k fd => default [] (net_out k !! fd) |}.
  - intros fd n k Hn. simpl. destruct (recv n (stream_of k fd)) as [bytes rest] eqn:E. split; [done|]. simpl.
    unfold stream_of in *. simpl. rewrite lookup_insert_eq. case_bool_decide; [done|]. simpl in E. by injection E as <- <-.
  - intros fd bytes k. simpl. case_bool_decide.
    + split; [lia|]. simpl. rewrite lookup_insert_eq. simpl. by rewrite Nat2Z.id, firstn_all.
    + split; [lia|]. by rewrite app_nil_r.
Defined.

(** A client with socket 4 is connection 1; it gets a message, and another reader
    finds the bytes in three pieces with more behind them. *)
Definition one_client : GateConnectionService.t * net :=
  (GateConnectionService.mkGateConnectionService {[1 := GateConnectionService.accepted_record 0 "10.0.0.9:5000"]} {[1 := 4]} {[4 := 1]}
     "0.0.0.0" 7000 2 3 false true, mkNet {[3; 4]} {[4 := []]} ∅ [] 5).
Definition sent_push : Result * (GateConnectionService.t * net) := GateConnectionService.Send 1000 1 3003 [7; 8; 9] one_client.
Definition reader : net := mkNet {[6]} {[6 := [[187; 11]; [0; 0; 3; 0]; [0; 0; 7; 8; 9; 1; 2]]]} ∅ [] 7.

#[local] Existing Instance order_Z.

Lemma client_frames_roundtrip_witness :
  outgoing sent_push.2.2 4 = [187; 11; 0; 0; 3; 0; 0; 0; 7; 8; 9] /\
  (GateConnectionService.read_message 6 reader).1 = Some (3003, [7; 8; 9]).
Proof.
  pose proof (client_frames_roundtrip 1000 1 3003 [7; 8; 9] one_client.1 one_client.2 4 ltac:(by vm_compute) ltac:(by split) ltac:(by split)) as Hr.
  assert (GateConnectionService.Send 1000 1 3003 [7; 8; 9] (one_client.1, one_client.2) = sent_push) as E by done.
  rewrite E in Hr. assert (sent_push = (sent_push.1, (sent_push.2.1, sent_push.2.2))) as Ep by by vm_compute.
  rewrite Ep in Hr. cbv beta iota in Hr. destruct Hr as (bytes & Hb & Hread); [by vm_compute|].
  assert (bytes = [187; 11; 0; 0; 3; 0; 0; 0; 7; 8; 9]) as ->.
  { assert (outgoing sent_push.2.2 4 = outgoing one_client.2 4 ++ [187; 11; 0; 0; 3; 0; 0; 0; 7; 8; 9]) as E2 by by vm_compute.
    rewrite E2 in Hb. by apply app_inv_head in Hb. }
  split; [by vm_compute|]. specialize (Hread reader 6 [1; 2] ltac:(by repeat constructor) ltac:(by vm_compute)).
  destruct (GateConnectionService.read_message 6 reader) as [message k2]. by destruct Hread as [-> _].
Defined.
End ExampleSockets.
