(* ===== verification/Client.v ===== *)
(** * Client: [gate/services/client_protocol_service.cpp]

    The messages between a gate and its clients.  They are sent by the handler
    the application sets, and dispatched by message id. *)

From S2P Require Import Prelude Base Messaging Protocol.

Record GateClientProtocolSnapshot : Type := mkGateClientProtocolSnapshot {
  encoded_login_response_bytes : Z;
  encoded_heartbeat_response_bytes : Z;
  encoded_kick_notification_bytes : Z;
  encoded_player_message_response_bytes : Z;
  encoded_player_push_bytes : Z
}.
#[export] Instance eta_client_protocol_snapshot : Eta GateClientProtocolSnapshot := fun s =>
  mkGateClientProtocolSnapshot (encoded_login_response_bytes s) (encoded_heartbeat_response_bytes s)
    (encoded_kick_notification_bytes s) (encoded_player_message_response_bytes s) (encoded_player_push_bytes s).

(** Generated code for every message a gate sends to or reads from a client. *)
Class ClientCodecs : Type := {
  #[global] codec_login_request :: MessageCodec LoginRequest;
  #[global] codec_heartbeat_request :: MessageCodec HeartbeatRequest;
  #[global] codec_message_request :: MessageCodec PlayerMessageRequest;
  #[global] codec_login_response :: MessageCodec LoginResponse;
  #[global] codec_heartbeat_response :: MessageCodec HeartbeatResponse;
  #[global] codec_kick_notification :: MessageCodec KickNotification;
  #[global] codec_message_response :: MessageCodec PlayerMessageResponse;
  #[global] codec_push :: MessageCodec PlayerPushMessage
}.

Module GateClientProtocolService.
Section service.
Context `{ClientCodecs} {G : Type}.
Variables (view : G -> GateClientProtocolSnapshot) (put : GateClientProtocolSnapshot -> G -> G).
Variable mSendHandler : option (Z -> Z -> ByteBuffer -> St G Result).

Definition SendMessage {M : Type} `{MessageCodec M} (connection_id frame_message_id : Z) (message : M)
    (count : Z -> GateClientProtocolSnapshot -> GateClientProtocolSnapshot) : St G Result :=
  fun g =>
    match mSendHandler with
    | None => (Failure "gate client protocol send handler is not registered", g)
    | Some send =>
        match SerializeMessage message with
        | None => (Failure "failed to serialize protobuf payload", g)
        | Some payload =>
            send connection_id frame_message_id payload (put (count (Z.of_nat (length payload)) (view g)) g)
        end
    end.

Definition SendLoginResponse (connection_id player_id : Z) (is_reconnect : bool) (error_code : ErrorCode) (error_message : string)
    : St G Result :=
  SendMessage connection_id MESSAGE_ID_LOGIN_RESPONSE
    (mkLoginResponse (mkResponseHeader MESSAGE_ID_LOGIN_RESPONSE 1 error_code error_message) player_id [] is_reconnect)
    (fun n s => s <| encoded_login_response_bytes := n |>).

Definition SendHeartbeatResponse (connection_id server_time_ms : Z) : St G Result :=
  SendMessage connection_id MESSAGE_ID_HEARTBEAT_RESPONSE
    (mkHeartbeatResponse (mkResponseHeader MESSAGE_ID_HEARTBEAT_RESPONSE 1 ERROR_CODE_OK "") server_time_ms)
    (fun n s => s <| encoded_heartbeat_response_bytes := n |>).

Definition SendKickNotification (connection_id : Z) (reason : string) : St G Result :=
  SendMessage connection_id MESSAGE_ID_KICK_NOTIFICATION (mkKickNotification reason)
    (fun n s => s <| encoded_kick_notification_bytes := n |>).

Definition SendPlayerMessageResponse (connection_id message_id : Z) (payload : ByteBuffer) (error_code : ErrorCode) (error_message : string)
    : St G Result :=
  SendMessage connection_id MESSAGE_ID_PLAYER_MESSAGE_RESPONSE
    (mkPlayerMessageResponse (mkResponseHeader message_id 1 error_code error_message) payload)
    (fun n s => s <| encoded_player_message_response_bytes := n |>).

Definition SendPlayerPushMessage (connection_id message_id : Z) (payload : ByteBuffer) : St G Result :=
  SendMessage connection_id MESSAGE_ID_PLAYER_PUSH (mkPlayerPushMessage message_id payload)
    (fun n s => s <| encoded_player_push_bytes := n |>).

(** [std::time] counts seconds. *)
Definition HandleHeartbeat (now_seconds connection_id : Z) (request : HeartbeatRequest) : St G Result :=
  SendHeartbeatResponse connection_id (u64 (u64 now_seconds * 1000)).

Abbreviation Handlers := (gmap Z (@ProtobufMessageDispatcher.Handler G Z)).

Definition RegisterClientHandler {M : Type} `{MessageCodec M} (message_id : Z) (handler : Z -> M -> St G Result) : St Handlers unit :=
  ProtobufMessageDispatcher.Register message_id ParseMessage handler.

Definition RegisterBuiltinHandlers (now_seconds : Z) : St Handlers unit :=
  RegisterClientHandler MESSAGE_ID_HEARTBEAT_REQUEST (HandleHeartbeat now_seconds).

Definition DispatchClientMessage (mClientDispatcher : Handlers) (connection_id message_id : Z) (payload : ByteBuffer) : St G Result :=
  ProtobufMessageDispatcher.Dispatch mClientDispatcher message_id payload connection_id.

Definition Snapshot (g : G) : GateClientProtocolSnapshot := view g.

End service.
End GateClientProtocolService.
