(* ===== verification/Gate.v ===== *)
(** * Gate: the services of a gate process

    [gate/services/login_service.cpp] and [player_message_service.cpp] on the
    tables, the connections, the client protocol, the account directory and the
    IPC service of the process, which the record [gate] holds; and the handlers
    by which [gate/application.cpp] ties them together.  The services are there:
    the application creates all of them before it starts any. *)

From S2P Require Import Prelude Text Base Messaging Redis Account Protocol GateTables Connection Client.

Definition kGameServiceType : Z := 10.
Definition kGateServiceType : Z := 20.

Record PendingLogin : Type := mkPendingLogin { pl_connection_id : Z; pl_gate_session_id : Z; pl_account_id : string }.

Record GateLoginSnapshot : Type := mkGateLoginSnapshot {
  last_request_id : Z;
  last_player_id : Z;
  last_result_code : ResultCode;
  last_game_service_type : Z;
  last_game_instance_id : Z;
  last_is_reconnect : bool;
  last_error_message : string
}.
#[export] Instance eta_login_snapshot : Eta GateLoginSnapshot := fun s =>
  mkGateLoginSnapshot (last_request_id s) (last_player_id s) (last_result_code s) (last_game_service_type s)
    (last_game_instance_id s) (last_is_reconnect s) (last_error_message s).

(** The login service's own state. *)
Record login_state : Type := mkLoginState {
  mGateInstanceId : Z;
  mPendingLogins : gmap Z PendingLogin;
  mLoginSnapshot : GateLoginSnapshot;
  mNextLoginId : Z
}.
#[export] Instance eta_login_state : Eta login_state := fun s =>
  mkLoginState (mGateInstanceId s) (mPendingLogins s) (mLoginSnapshot s) (mNextLoginId s).

Record PendingMessage : Type := mkPendingMessage {
  pg_connection_id : Z;
  pg_gate_session_id : Z;
  pg_player_id : Z;
  pg_client_message_id : Z
}.

(** The message service's own state. *)
Record message_state : Type := mkMessageState { mNextMessageId : Z; mPendingMessages : gmap Z PendingMessage }.
#[export] Instance eta_message_state : Eta message_state := fun s => mkMessageState (mNextMessageId s) (mPendingMessages s).

Record gate (N W S : Type) : Type := mkGate {
  connections : GateConnectionService.t;
  sockets : S;
  sessions : GateSessionService.t;
  routes : GateRoutingService.t;
  protocol : GateClientProtocolSnapshot;
  accounts : GateAccountDirectoryService.t;
  ipc : N;
  login : login_state;
  messages : message_state;
  world : W
}.
Arguments mkGate {N W S}. Arguments connections {N W S}. Arguments sockets {N W S}. Arguments sessions {N W S}.
Arguments routes {N W S}. Arguments protocol {N W S}. Arguments accounts {N W S}. Arguments ipc {N W S}.
Arguments login {N W S}. Arguments messages {N W S}. Arguments world {N W S}.
#[export] Instance eta_gate {N W S : Type} : Eta (gate N W S) := fun g =>
  mkGate (connections g) (sockets g) (sessions g) (routes g) (protocol g) (accounts g) (ipc g) (login g) (messages g) (world g).

Section parts.
Context {N W S : Type}.
Implicit Types g : gate N W S.

(** The operations of the parts as operations of the gate. *)
Definition view_connections g : GateConnectionService.t * S := (connections g, sockets g).
Definition put_connections (x : GateConnectionService.t * S) g : gate N W S := g <| connections := x.1 |> <| sockets := x.2 |>.
Definition on_connections {A : Type} (m : St (GateConnectionService.t * S) A) : St (gate N W S) A := zoom view_connections put_connections m.
Definition on_table {A : Type} (m : St GateConnectionService.t A) : St (gate N W S) A :=
  fun g => let '(a, s) := m (connections g) in (a, g <| connections := s |>).
Definition on_sessions {A : Type} (m : St GateSessionService.t A) : St (gate N W S) A :=
  fun g => let '(a, s) := m (sessions g) in (a, g <| sessions := s |>).
Definition on_routes {A : Type} (m : St GateRoutingService.t A) : St (gate N W S) A :=
  fun g => let '(a, s) := m (routes g) in (a, g <| routes := s |>).
(** The account directory, whose own state these operations leave alone. *)
Definition on_world {A : Type} (m : GateAccountDirectoryService.t -> St W A) : St (gate N W S) A :=
  fun g => let '(a, w) := m (accounts g) (world g) in (a, g <| world := w |>).
Definition on_ipc {A : Type} (m : St N A) : St (gate N W S) A :=
  fun g => let '(a, n) := m (ipc g) in (a, g <| ipc := n |>).
Definition put_protocol (x : GateClientProtocolSnapshot) g : gate N W S := g <| protocol := x |>.

(** [if (const auto r = m; !r.ok) { return r; } k] *)
Definition try (m : St (gate N W S) Result) (k : St (gate N W S) Result) : St (gate N W S) Result :=
  fun g => let '(r, g) := m g in if negb (ok r) then (r, g) else k g.

(** The message of a failed step becomes the result of a handler. *)
Definition dispatch_result (r : Result) : Result := if ok r then Success else Failure (message r).

End parts.

(** ** What the login service does when a session ends *)

Section services.
Context {N W S : Type} `{ProcessSender N} `{Redis W} `{Sockets S} `{ClientCodecs} {mo : MapOrder Z}.
Implicit Types g : gate N W S.

(** The clock is read once; [now] is in milliseconds. *)
Variable now : Z.
Definition now_seconds : Z := now / 1000.

Definition self_owner g (gate_session_id : Z) : GateAccountOwner :=
  mkGateAccountOwner kGateServiceType (mGateInstanceId (login g)) gate_session_id.

Definition HandleSessionDisconnected (session : GateSessionRecord) (reason : DisconnectReason) : St (gate N W S) Result :=
  fun g =>
    if (ses_player_id session =? 0) || (ses_game_service_type session =? 0) || (ses_game_instance_id session =? 0) then (Success, g)
    else
      let request := mkPlayerDisconnected (ses_player_id session)
        (mkGateSession kGateServiceType (mGateInstanceId (login g)) (ses_gate_session_id session)) reason (u64 (u64 now_seconds * 1000)) in
      try (on_ipc (SendProcessPayload (mkProcessId (ses_game_service_type session) (ses_game_instance_id session))
             (msg_player_disconnected request)))
        (on_routes (GateRoutingService.UnbindPlayer (ses_player_id session) (ses_gate_session_id session));;;
         (fun g => on_world (fun a => GateAccountDirectoryService.RemoveAccountIfMatches a (ses_account_id session)
                                         (self_owner g (ses_gate_session_id session))) g);;;
         ret Success) g.

(** The handlers the application sets. *)
Definition disconnect_handler (connection_id : Z) : St (gate N W S) unit :=
  fun g =>
    let '((result, removed), g) := on_sessions (GateSessionService.RemoveByConnection connection_id) g in
    match removed with
    | Some record => if negb (ok result) then (tt, g) else (tt, (HandleSessionDisconnected record DISCONNECT_REASON_CLIENT_CLOSED g).2)
    | None => (tt, g)
    end.

Definition CloseConnection (connection_id : Z) : St (gate N W S) Result :=
  GateConnectionService.Close view_connections put_connections (Some disconnect_handler) now connection_id.

Definition send_handler (connection_id message_id : Z) (payload : ByteBuffer) : St (gate N W S) Result :=
  on_connections (GateConnectionService.Send now connection_id message_id payload).

Definition SendLoginResponse : Z -> Z -> bool -> ErrorCode -> string -> St (gate N W S) Result :=
  GateClientProtocolService.SendLoginResponse protocol put_protocol (Some send_handler).
Definition SendKickNotification : Z -> string -> St (gate N W S) Result :=
  GateClientProtocolService.SendKickNotification protocol put_protocol (Some send_handler).

(** ** login_service.cpp *)

Definition SendLoginFailure (connection_id : Z) (error_code : ErrorCode) (error_message : string) : St (gate N W S) Result :=
  SendLoginResponse connection_id 0 false error_code error_message.

Definition next_login_id : St (gate N W S) Z :=
  fun g => (mNextLoginId (login g), g <| login := (login g) <| mNextLoginId := u64 (mNextLoginId (login g) + 1) |> |>).

Definition RequestLogin (game_instance_id connection_id gate_session_id : Z) (platform account_id : string) (area_id : Z)
    : St (gate N W S) Result :=
  fun g =>
    let '(request_id, g) := next_login_id g in
    let request := mkLoginPlayerRequest request_id (mkGateSession kGateServiceType (mGateInstanceId (login g)) gate_session_id)
      platform account_id area_id 1 "runtime" "runtime-login-token" in
    try (on_ipc (SendProcessPayload (mkProcessId kGameServiceType game_instance_id) (msg_login_request request)))
      (fun g => (Success, g <| login := (login g)
         <| mPendingLogins := <[request_id := mkPendingLogin connection_id gate_session_id account_id]> (mPendingLogins (login g)) |>
         <| mLoginSnapshot := (mLoginSnapshot (login g)) <| last_request_id := request_id |> |> |>)) g.

Definition kick_reason : string := "same account logged in on a new connection".

(** The two places that close a session of this gate. *)
Definition kick_here (existing : option GateSessionRecord) (current_connection_id : Z) : St (gate N W S) Result :=
  match existing with
  | None => ret Success
  | Some existing =>
      if ses_connection_id existing =? current_connection_id then ret Success
      else try (SendKickNotification (ses_connection_id existing) kick_reason) (CloseConnection (ses_connection_id existing))
  end.

Definition KickExistingAccountSession (account_id : string) (current_connection_id : Z) : St (gate N W S) Result :=
  fun g =>
    let '(owner, g) := on_world (fun a => GateAccountDirectoryService.LookupAccount a account_id) g in
    match owner with
    | None => kick_here (GateSessionService.FindByAccount (sessions g) account_id) current_connection_id g
    | Some owner =>
        if gate_instance_id owner =? mGateInstanceId (login g) then
          kick_here (GateSessionService.Snapshot (sessions g) (gate_session_id owner)) current_connection_id g
        else
          let '(request_id, g) := next_login_id g in
          try (on_ipc (SendProcessPayload (mkProcessId (gate_service_type owner) (gate_instance_id owner))
                 (msg_kick_account (mkKickAccountSession request_id account_id
                    (mkGateSession (gate_service_type owner) (gate_instance_id owner) (gate_session_id owner))
                    kGateServiceType (mGateInstanceId (login g)) kick_reason))))
            (ret Success) g
    end.

Definition open_if_absent (gate_session_id connection_id : Z) : St (gate N W S) Result :=
  fun g =>
    match GateSessionService.Snapshot (sessions g) gate_session_id with
    | Some _ => (Success, g)
    | None => on_sessions (GateSessionService.OpenAnonymous now gate_session_id connection_id) g
    end.

Definition HandleClientLogin (connection_id : Z) (request : LoginRequest) : St (gate N W S) Result :=
  let auth := GateAuthService.Validate (cl_platform request) (cl_account_id request) (cl_credential request) in
  if negb (auth_ok auth) then SendLoginFailure connection_id ERROR_CODE_UNAUTHORIZED (auth_message auth)
  else
    try (KickExistingAccountSession (auth_account_id auth) connection_id)
      (let gate_session_id := connection_id in
       try (open_if_absent gate_session_id connection_id)
         (try (on_table (GateConnectionService.MarkAnonymous connection_id))
            (RequestLogin 1 connection_id gate_session_id (cl_platform request) (auth_account_id auth) 1))).

Definition record_response (response : LoginPlayerResponse) g : gate N W S :=
  g <| login := (login g) <| mLoginSnapshot :=
    mkGateLoginSnapshot (lr_request_id response) (lr_player_id response) (lr_result_code response) (lr_game_service_type response)
      (lr_game_instance_id response) (lr_is_reconnect response) (lr_error_message response) |> |>.

(** A login that succeeded; the results of the four services are ignored. *)
Definition accept_login (pending : PendingLogin) (response : LoginPlayerResponse) : St (gate N W S) unit :=
  on_sessions (GateSessionService.Activate now (pl_gate_session_id pending) (pl_account_id pending) (lr_player_id response)
                 (lr_game_service_type response) (lr_game_instance_id response));;;
  on_routes (GateRoutingService.BindPlayer now (lr_player_id response) (lr_game_service_type response) (lr_game_instance_id response)
               (pl_gate_session_id pending));;;
  on_table (GateConnectionService.MarkBound (pl_connection_id pending));;;
  (fun g => on_world (fun a => GateAccountDirectoryService.BindAccount a (pl_account_id pending)
                                  (self_owner g (pl_gate_session_id pending))) g);;;
  ret tt.

Definition HandleLoginResponse (response : LoginPlayerResponse) : St (gate N W S) Result :=
  fun g =>
    let g := record_response response g in
    match mPendingLogins (login g) !! lr_request_id response with
    | None => (Failure "missing pending login", g)
    | Some pending =>
        let g := g <| login := (login g) <| mPendingLogins := delete (lr_request_id response) (mPendingLogins (login g)) |> |> in
        let accepted := bool_decide (lr_result_code response = RESULT_CODE_OK) in
        let '(_, g) := when accepted (accept_login pending response) g in
        let '(send, g) := SendLoginResponse (pl_connection_id pending) (lr_player_id response) (lr_is_reconnect response)
                            (if accepted then ERROR_CODE_OK else ERROR_CODE_INTERNAL) (lr_error_message response) g in
        (dispatch_result send, g)
    end.

Definition HandleKickAccountSession (request : KickAccountSession) : St (gate N W S) Result :=
  fun g =>
    match GateSessionService.Snapshot (sessions g) (gs_session_id (ka_old_gate request)) with
    | None => (Success, g)
    | Some session =>
        if negb (String.eqb (ses_account_id session) (ka_account_id request)) then (Success, g)
        else
          let reason := if String.eqb (ka_reason request) "" then kick_reason else ka_reason request in
          let '(send, g) := SendKickNotification (ses_connection_id session) reason g in
          if negb (ok send) then (Failure (message send), g)
          else let '(close, g) := CloseConnection (ses_connection_id session) g in (dispatch_result close, g)
    end.

Definition HandleUnbindPlayerSession (request : UnbindPlayerSession) : St (gate N W S) Result :=
  fun g =>
    match GateSessionService.Snapshot (sessions g) (gs_session_id (ub_gate request)) with
    | None => (Success, g)
    | Some session =>
        if negb (ses_player_id session =? ub_player_id request) then (Success, g)
        else
          let '(send, g) := SendKickNotification (ses_connection_id session) "player session ownership moved" g in
          if negb (ok send) then (Failure (message send), g)
          else
            let '(close, g) := CloseConnection (ses_connection_id session) g in
            if negb (ok close) && negb (String.eqb (message close) "connection does not exist") then (Failure (message close), g)
            else (Success, g)
    end.

(** ** player_message_service.cpp *)

(** The gate's own identity is written down as 20 and 1. *)
Definition HandleClientPlayerMessage (connection_id : Z) (request : PlayerMessageRequest) : St (gate N W S) Result :=
  fun g =>
    match GateSessionService.FindByConnection (sessions g) connection_id with
    | None => (Failure "gate session is not active", g)
    | Some session =>
        if negb (bool_decide (ses_state session = active)) || (ses_player_id session =? 0) then (Failure "gate session is not active", g)
        else
          let request_id := mNextMessageId (messages g) in
          let g := g <| messages := (messages g) <| mNextMessageId := u64 (request_id + 1) |> |> in
          let forward := mkForwardPlayerMessageRequest request_id (mkGateSession 20 1 (ses_gate_session_id session)) (ses_player_id session)
            (qh_message_id (mq_header request)) (mq_payload request) (qh_sequence (mq_header request)) (qh_timestamp_ms (mq_header request)) in
          try (on_ipc (SendProcessPayload (mkProcessId (ses_game_service_type session) (ses_game_instance_id session))
                 (msg_forward_request forward)))
            (fun g => (Success, g <| messages := (messages g) <| mPendingMessages :=
               <[request_id := mkPendingMessage connection_id (ses_gate_session_id session) (ses_player_id session)
                                 (qh_message_id (mq_header request))]> (mPendingMessages (messages g)) |> |>)) g
    end.

Definition HandleForwardPlayerMessageResponse (response : ForwardPlayerMessageResponse) : St (gate N W S) Result :=
  fun g =>
    match mPendingMessages (messages g) !! fr_request_id response with
    | None => (Failure "missing pending player message", g)
    | Some pending =>
        let g := g <| messages := (messages g) <| mPendingMessages := delete (fr_request_id response) (mPendingMessages (messages g)) |> |> in
        let '(send, g) := GateClientProtocolService.SendPlayerMessageResponse protocol put_protocol (Some send_handler)
          (pg_connection_id pending) (fr_message_id response) (fr_response_payload_bytes response)
          (if bool_decide (fr_result_code response = RESULT_CODE_OK) then ERROR_CODE_OK else ERROR_CODE_INTERNAL)
          (fr_error_message response) g in
        (dispatch_result send, g)
    end.

Definition HandlePushPlayerMessage (push : PushPlayerMessage) : St (gate N W S) Result :=
  fun g =>
    match GateSessionService.Snapshot (sessions g) (gs_session_id (pm_gate push)) with
    | None => (Failure "gate session for push is not available", g)
    | Some session =>
        if (ses_connection_id session =? 0) || negb (ses_player_id session =? pm_player_id push) then
          (Failure "gate session for push is not available", g)
        else
          let '(send, g) := GateClientProtocolService.SendPlayerPushMessage protocol put_protocol (Some send_handler)
            (ses_connection_id session) (pm_message_id push) (pm_payload_bytes push) g in
          (dispatch_result send, g)
    end.

(** ** The handlers in their tables *)

Definition RegisterProtocolHandlers : gmap Z (@ProtobufMessageDispatcher.Handler (gate N W S) Z) :=
  ((GateClientProtocolService.RegisterBuiltinHandlers protocol put_protocol (Some send_handler) now_seconds;;;
    GateClientProtocolService.RegisterClientHandler MESSAGE_ID_LOGIN_REQUEST HandleClientLogin;;;
    GateClientProtocolService.RegisterClientHandler MESSAGE_ID_PLAYER_MESSAGE_REQUEST HandleClientPlayerMessage) ∅).2.

Definition message_handler (connection_id message_id : Z) (payload : ByteBuffer) : St (gate N W S) unit :=
  fun g => (tt, (GateClientProtocolService.DispatchClientMessage RegisterProtocolHandlers connection_id message_id payload g).2).

(** [RegisterProcessHandlers] of the two services. *)
Definition HandleProcessMessage (m : process_message) : St (gate N W S) Result :=
  match m with
  | msg_login_response response => HandleLoginResponse response
  | msg_kick_account request => HandleKickAccountSession request
  | msg_unbind_player request => HandleUnbindPlayerSession request
  | msg_forward_response response => HandleForwardPlayerMessageResponse response
  | msg_push push => HandlePushPlayerMessage push
  | _ => ret Success
  end.

(** One turn of the thread of the connections. *)
Definition worker_turn : St (gate N W S) bool :=
  GateConnectionService.worker_turn view_connections put_connections (Some disconnect_handler) (Some message_handler) now.

End services.
