(* ===== verification/GateLogin.v ===== *)
(** * GateLogin: what the services of a gate keep true

    The invariant of a running gate, and what logging in and losing a connection
    do to its tables, the account directory and the games. *)

From S2P Require Import Prelude Text Base Transport Messaging Redis Account Protocol GateTables Connection Client Gate.

Module GateProofs.
Import GateConnectionService ConnectionProofs GateTablesProofs.

Section gate.
Context {N W S : Type} `{ProcessSender N} `{Redis W} `{SocketsLaw S} `{ClientCodecs} {mo : MapOrder Z}.
Implicit Types g : gate N W S.

Definition socket_of g (c : Z) : option Z := mSocketByConnectionId (connections g) !! c.

(** Sockets and their tables agree; a session is filed under the id of its
    connection, which has its socket; pending requests belong to connections
    whose ids have been given out. *)
Record gate_inv g : Prop := mkGateInv {
  gi_conn : conn_inv (connections g) (open_fds (sockets g));
  gi_sessions : forall id record, sessions g !! id = Some record ->
    ses_gate_session_id record = id /\ ses_connection_id record = id /\ is_Some (socket_of g id);
  gi_logins : forall rid p, mPendingLogins (login g) !! rid = Some p ->
    pl_connection_id p = pl_gate_session_id p /\ pl_gate_session_id p < mNextConnectionId (connections g);
  gi_messages : forall rid p, mPendingMessages (messages g) !! rid = Some p ->
    pg_connection_id p = pg_gate_session_id p /\ pg_gate_session_id p < mNextConnectionId (connections g);
  gi_next : 0 < mNextConnectionId (connections g)
}.

(** Sockets are only closed, and leave the table then. *)
Record shrinks g g' : Prop := mkShrinks {
  sh_fds : forall fd, fd ∈ open_fds (sockets g') -> fd ∈ open_fds (sockets g);
  sh_sub : forall c fd, socket_of g' c = Some fd -> socket_of g c = Some fd;
  sh_kept : forall c fd, socket_of g c = Some fd -> fd ∈ open_fds (sockets g') -> socket_of g' c = Some fd;
  sh_next : mNextConnectionId (connections g') = mNextConnectionId (connections g);
  sh_stopping : mStopping (connections g') = mStopping (connections g)
}.

#[export] Instance shrinks_preorder : PreOrder shrinks.
Proof.
  split; [by intros g|]. intros g1 g2 g3 [A1 A2 A3 A4 A5] [B1 B2 B3 B4 B5]. split; [auto|auto| |congruence..].
  intros c fd Hc Hfd. apply B3; auto.
Qed.

(** What every handler does. *)
Definition keeps g g' : Prop := gate_inv g -> gate_inv g' /\ shrinks g g'.

#[export] Instance keeps_preorder : PreOrder keeps.
Proof.
  split; [by intros g|]. intros g1 g2 g3 K12 K23 J1. destruct (K12 J1) as [J2 S12]. destruct (K23 J2) as [J3 S23].
  split; [done|by etrans].
Qed.

(** Nothing of the connections, sessions and requests changes. *)
Lemma keeps_same g g' :
  connections g' = connections g -> sockets g' = sockets g -> sessions g' = sessions g -> login g' = login g -> messages g' = messages g ->
  keeps g g'.
Proof.
  intros E1 E2 E3 E4 E5 [I1 I2 I3 I4 I5]. unfold socket_of in *. split.
  - split; unfold socket_of; rewrite ?E1, ?E2, ?E3, ?E4, ?E5; done.
  - split; unfold socket_of; rewrite ?E1, ?E2; done.
Qed.

(** The connections change without their sockets. *)
Lemma keeps_table g s k :
  same_sockets (connections g) s -> mStopping s = mStopping (connections g) -> open_fds k = open_fds (sockets g) ->
  (conn_inv (connections g) (open_fds (sockets g)) -> conn_inv s (open_fds (sockets g))) ->
  keeps g (g <| connections := s |> <| sockets := k |>).
Proof.
  intros (E1 & E2 & E3 & E4) E5 E6 Hi [I1 I2 I3 I4 I5]. unfold socket_of in *. split.
  - split; unfold socket_of; simpl; rewrite ?E1, ?E4, ?E6; [by apply Hi|done..].
  - split; unfold socket_of; simpl; rewrite ?E1, ?E6; done.
Qed.

Lemma keeps_on_ipc {A : Type} (m : St N A) g : keeps g (on_ipc m g).2.
Proof. unfold on_ipc. destruct (m (ipc g)) as [a n]. by apply keeps_same. Qed.
Lemma keeps_on_routes {A : Type} (m : St GateRoutingService.t A) g : keeps g (on_routes m g).2.
Proof. unfold on_routes. destruct (m (routes g)) as [a n]. by apply keeps_same. Qed.
Lemma keeps_on_world {A : Type} (m : GateAccountDirectoryService.t -> St W A) g : keeps g (on_world m g).2.
Proof. unfold on_world. destruct (m (accounts g) (world g)) as [a n]. by apply keeps_same. Qed.
Lemma keeps_next_login_id g : keeps g (next_login_id g).2.
Proof. intros [I1 I2 I3 I4 I5]. split; [by split|by split]. Qed.

Lemma keeps_try m k g : keeps g (m g).2 -> (forall g', keeps g' (k g').2) -> keeps g (@try N W S m k g).2.
Proof. intros Hm Hk. unfold try. destruct (m g) as [r g1]. simpl in Hm. destruct (negb (ok r)); [done|]. by etrans. Qed.

Lemma keeps_bind {A B : Type} (m : St (gate N W S) A) (k : A -> St (gate N W S) B) g :
  keeps g (m g).2 -> (forall a g', keeps g' (k a g').2) -> keeps g (bind m k g).2.
Proof. intros Hm Hk. unfold bind. destruct (m g) as [a g1]. simpl in Hm. by etrans. Qed.

Lemma keeps_mark st c g : st <> conn_closed -> keeps g (on_table (mark st c) g).2.
Proof.
  intros Hst. unfold on_table. pose proof (mark_inv st c (connections g) (open_fds (sockets g)) Hst) as Hm.
  assert (same_sockets (connections g) (mark st c (connections g)).2 /\
          mStopping (mark st c (connections g)).2 = mStopping (connections g)) as [Hs He].
  { unfold mark. by destruct (mConnections (connections g) !! c). }
  destruct (mark st c (connections g)) as [r s]. simpl in *. exact (keeps_table g s (sockets g) Hs He eq_refl Hm).
Qed.

(** *** Sending to clients *)

Lemma keeps_send now c id payload g : keeps g (send_handler now c id payload g).2.
Proof.
  unfold send_handler, on_connections, zoom, view_connections, put_connections.
  pose proof (Send_inv now c id payload (connections g) (sockets g)) as Hs.
  assert (mStopping (Send now c id payload (connections g, sockets g)).2.1 = mStopping (connections g)) as He.
  { unfold Send. repeat case_match; done. }
  destruct (Send now c id payload (connections g, sockets g)) as [r [s k]]. destruct Hs as (Hs & Ho & Hi).
  simpl. apply keeps_table; [done|done|done|]. intros Hc. rewrite <- Ho. by apply Hi.
Qed.

Lemma keeps_message {M : Type} `{MessageCodec M} now c id (m : M) count g :
  keeps g (GateClientProtocolService.SendMessage protocol put_protocol (Some (send_handler now)) c id m count g).2.
Proof.
  unfold GateClientProtocolService.SendMessage. destruct (SerializeMessage m) as [payload|]; [|done].
  etrans; [|apply keeps_send]. by apply keeps_same.
Qed.

(** *** The end of a connection *)

Lemma wf_of_inv g : gate_inv g -> wf_sessions (sessions g).
Proof.
  intros Hi. split.
  - intros id record Hr. by apply (gi_sessions g Hi).
  - intros id1 id2 r1 r2 J1 J2 E. destruct (gi_sessions g Hi _ _ J1) as (_ & E1 & _), (gi_sessions g Hi _ _ J2) as (_ & E2 & _). congruence.
Qed.

(** A connection with a session has it under its id. *)
Lemma RemoveByConnection_inv g c :
  (forall id record, sessions g !! id = Some record -> ses_connection_id record = id) ->
  let '((r, removed), sessions') := GateSessionService.RemoveByConnection c (sessions g) in
  sessions' = delete c (sessions g) /\
  match removed with
  | Some record => ok r = true /\ exists old, sessions g !! c = Some old /\ record = old <| ses_state := closing |>
  | None => ok r = false /\ sessions g !! c = None
  end.
Proof.
  intros Hid. unfold GateSessionService.RemoveByConnection.
  pose proof (list_find_entries (fun '(_, record) => ses_connection_id record = c) (sessions g)) as Hf.
  destruct (list_find _ _) as [[i [id record]]|].
  - destruct Hf as [Hs Hc]. assert (id = c) as -> by (rewrite <- Hc; symmetry; by apply Hid). split; [done|]. simpl. split; [done|].
    by exists record.
  - assert (sessions g !! c = None) as Hn.
    { destruct (sessions g !! c) as [record|] eqn:E; [|done]. destruct (Hf c record E). by apply Hid. }
    split; [by rewrite delete_id|]. done.
Qed.

Lemma keeps_session_disconnected now record reason g : keeps g (HandleSessionDisconnected now record reason g).2.
Proof.
  unfold HandleSessionDisconnected. destruct (_ || _ || _); [done|]. apply keeps_try; [apply keeps_on_ipc|]. intros g1.
  apply keeps_bind; [apply keeps_on_routes|]. intros _ g2. apply keeps_bind; [apply keeps_on_world|]. done.
Qed.

Lemma session_disconnected_same now record reason g :
  let g' := (HandleSessionDisconnected now record reason g).2 in
  sessions g' = sessions g /\ connections g' = connections g /\ sockets g' = sockets g.
Proof.
  unfold HandleSessionDisconnected, try, on_ipc, on_routes, on_world, bind, ret. destruct (_ || _ || _); [done|].
  destruct (SendProcessPayload _ _ _) as [r1 n1]. destruct (negb (ok r1)); [done|].
  destruct (GateRoutingService.UnbindPlayer _ _ _) as [r2 n2]. by destruct (GateAccountDirectoryService.RemoveAccountIfMatches _ _ _ _) as [r3 n3].
Qed.

(** The socket of a connection is closed and its session removed: the rest of the
    gate keeps its invariant. *)
Lemma close_then_disconnect now c s k g :
  gate_inv g -> conn_inv s (open_fds k) -> mSocketByConnectionId s = delete c (mSocketByConnectionId (connections g)) ->
  mNextConnectionId s = mNextConnectionId (connections g) -> mStopping s = mStopping (connections g) ->
  (forall fd, fd ∈ open_fds k -> fd ∈ open_fds (sockets g)) ->
  (forall fd, socket_of g c = Some fd -> fd ∉ open_fds k) ->
  let g' := (disconnect_handler now c (g <| connections := s |> <| sockets := k |>)).2 in
  gate_inv g' /\ shrinks g g' /\ sessions g' = delete c (sessions g) /\ connections g' = s.
Proof.
  intros Hi Hs E1 E2 E3 Hfds Hc. unfold disconnect_handler. set (g1 := g <| connections := s |> <| sockets := k |>).
  assert (shrinks g g1) as Hsh.
  { split; [exact Hfds| | |done|done]; unfold socket_of in *; simpl; rewrite E1; [by intros c' fd [_ ?]%lookup_delete_Some|].
    intros c' fd Hc' Hfd. rewrite lookup_delete_ne; [done|].
    intros <-. by destruct (Hc fd Hc'). }
  unfold on_sessions. pose proof (RemoveByConnection_inv g1 c) as Hr.
  destruct (GateSessionService.RemoveByConnection c (sessions g1)) as [[r removed] sessions'].
  destruct Hr as [-> Hr]; [intros id record Hrec; by apply (gi_sessions g Hi)|].
  set (g2 := g1 <| sessions := delete c (sessions g1) |>).
  assert (gate_inv g2) as Hi1.
  { destruct Hi as [I1 I2 I3 I4 I5]. split; unfold socket_of in *; simpl; rewrite ?E2; [done| |done..].
    intros id record [Hne Hrec]%lookup_delete_Some. rewrite E1, lookup_delete_ne by done. by apply I2. }
  assert (shrinks g g2) as Hsh1 by (etrans; [exact Hsh|by split]).
  destruct removed as [record|]; [|by split_and!].
  destruct Hr as (Hok & _). rewrite Hok. cbn [negb snd].
  pose proof (keeps_session_disconnected now record DISCONNECT_REASON_CLIENT_CLOSED g2 Hi1) as [Hi2 Hsh2].
  pose proof (session_disconnected_same now record DISCONNECT_REASON_CLIENT_CLOSED g2) as (Es & Ec & _).
  split; [done|]. split; [by etrans|]. split; [by rewrite Es|]. by rewrite Ec.
Qed.

Lemma CloseSocketLocked_fds c (s : GateConnectionService.t) (k : S) :
  let '(_, (_, k')) := CloseSocketLocked c (s, k) in
  (forall fd, fd ∈ open_fds k' -> fd ∈ open_fds k) /\ (forall fd, mSocketByConnectionId s !! c = Some fd -> fd ∉ open_fds k').
Proof.
  unfold CloseSocketLocked. destruct (mSocketByConnectionId s !! c) as [fd|] eqn:E; [|done].
  pose proof (close_law fd k) as Hc. destruct (sock_close fd k) as [u k']. simpl in Hc. rewrite Hc. split; [set_solver|].
  intros fd' [= <-]. set_solver.
Qed.

(** The locked parts of [FinalizeConnection] and [Close]. *)
Definition closes c g (s : GateConnectionService.t) (k : S) : Prop :=
  conn_inv s (open_fds k) /\ mSocketByConnectionId s = delete c (mSocketByConnectionId (connections g)) /\
  mNextConnectionId s = mNextConnectionId (connections g) /\ mStopping s = mStopping (connections g) /\
  (forall fd, fd ∈ open_fds k -> fd ∈ open_fds (sockets g)) /\ (forall fd, socket_of g c = Some fd -> fd ∉ open_fds k).

Lemma finalize_closes now c g :
  conn_inv (connections g) (open_fds (sockets g)) ->
  let '(_, (s, k)) := CloseSocketLocked c (mark_finalized now c (connections g), sockets g) in closes c g s k.
Proof.
  intros Hi. unfold mark_finalized, closes, socket_of.
  destruct (mConnections (connections g) !! c) as [record|] eqn:Er.
  - pose proof (close_record_inv c (record <| conn_state := conn_closed |> <| last_recv_time_ms := now |>) (connections g) (sockets g) Hi) as Hc.
    pose proof (CloseSocketLocked_fds c (put_record c (record <| conn_state := conn_closed |> <| last_recv_time_ms := now |>) (connections g)) (sockets g)) as Hf.
    destruct (CloseSocketLocked _ _) as [u [s k]]. destruct Hc as (Hc1 & Hc2 & Hc3 & Hc4), Hf as [Hf1 Hf2]. split_and!; done.
  - pose proof (close_part_inv c (connections g) (sockets g) Hi) as Hc.
    pose proof (CloseSocketLocked_fds c (connections g) (sockets g)) as Hf.
    destruct (CloseSocketLocked _ _) as [u [s k]]. destruct Hc as (Hc1 & Hc2 & _ & Hc3 & Hc4), Hf as [Hf1 Hf2]. split_and!; done.
Qed.

Definition closed_connection c g g' : Prop :=
  gate_inv g' /\ shrinks g g' /\ sessions g' = delete c (sessions g) /\
  mSocketByConnectionId (connections g') = delete c (mSocketByConnectionId (connections g)).

Lemma disconnect_closed now c s k g :
  gate_inv g -> closes c g s k -> closed_connection c g (disconnect_handler now c (g <| connections := s |> <| sockets := k |>)).2.
Proof.
  intros Hi (C1 & C2 & C3 & C4 & C5 & C6). destruct (close_then_disconnect now c s k g) as (D1 & D2 & D3 & D4); [done..|].
  split_and!; [done..|]. by rewrite D4.
Qed.

Lemma Finalize_closed now c g :
  gate_inv g ->
  closed_connection c g (FinalizeConnection view_connections put_connections (Some (disconnect_handler now)) now c g).2.
Proof.
  intros Hi. unfold FinalizeConnection, bind, locked, zoom, view_connections, put_connections.
  pose proof (finalize_closes now c g (gi_conn g Hi)) as Hc. destruct (CloseSocketLocked _ _) as [u [s k]].
  by apply disconnect_closed.
Qed.

Lemma Close_closed now c g :
  gate_inv g ->
  let '(r, g') := CloseConnection now c g in
  ok r = bool_decide (is_Some (mConnections (connections g) !! c)) /\ if ok r then closed_connection c g g' else g' = g.
Proof.
  intros Hi. unfold CloseConnection, Close. change ((view_connections g).1) with (connections g).
  destruct (mConnections (connections g) !! c) as [record|] eqn:Er; [|done].
  unfold locked at 1, zoom, view_connections, put_connections. set (closed := put_record _ _ _).
  pose proof (close_record_inv c (record <| conn_state := conn_closed |>) (connections g) (sockets g) (gi_conn g Hi)) as Hc.
  pose proof (CloseSocketLocked_fds c closed (sockets g)) as Hf. unfold closed in *.
  destruct (CloseSocketLocked _ _) as [u [s k]]. destruct Hc as (Hc1 & Hc2 & Hc3 & Hc4), Hf as [Hf1 Hf2].
  set (g1 := g <| connections := _ |> <| sockets := _ |>).
  unfold FinalizeConnection, bind, locked, zoom. cbn [view_connections]. fold g1.
  pose proof (finalize_closes now c g1 Hc1) as Hfin. change (connections g1) with s in *. change (sockets g1) with k in *.
  destruct (CloseSocketLocked _ _) as [u' [s' k']]. destruct Hfin as (D1 & D2 & D3 & D4 & D5 & D6).
  cbn [fst snd]. change (put_connections (s', k') g1) with (g <| connections := s' |> <| sockets := k' |>).
  assert (closes c g s' k') as Hcl.
  { split_and!; [done| |rewrite D3; exact Hc3|rewrite D4; exact Hc4|intros fd Hfd; by apply Hf1, D5|].
    - rewrite D2. change (mSocketByConnectionId (connections g1)) with (mSocketByConnectionId s). by rewrite Hc2, delete_delete_eq.
    - intros fd Hfd Hin. by apply (Hf2 fd Hfd), D5. }
  pose proof (disconnect_closed now c s' k' g Hi Hcl) as Hd.
  destruct (disconnect_handler now c _) as [v g2]. done.
Qed.

Lemma keeps_close now c g : keeps g (CloseConnection now c g).2.
Proof.
  intros Hi. pose proof (Close_closed now c g Hi) as Hc. destruct (CloseConnection now c g) as [r g']. destruct Hc as [_ Hc].
  destruct (ok r); [by destruct Hc as (? & ? & _)|subst; by split].
Qed.

Lemma keeps_finalize now c g :
  keeps g (FinalizeConnection view_connections put_connections (Some (disconnect_handler now)) now c g).2.
Proof. intros Hi. by destruct (Finalize_closed now c g Hi) as (? & ? & _). Qed.

(** *** Logging in *)

(** Like [keeps], and the connection keeps its socket. *)
Definition keeps_for c g g' : Prop := gate_inv g -> gate_inv g' /\ shrinks g g' /\ (is_Some (socket_of g c) -> is_Some (socket_of g' c)).

#[export] Instance keeps_for_preorder c : PreOrder (keeps_for c).
Proof.
  split; [by intros g|]. intros g1 g2 g3 K12 K23 J1. destruct (K12 J1) as (J2 & S12 & E12). destruct (K23 J2) as (J3 & S23 & E23).
  split; [done|]. split; [by etrans|auto].
Qed.

Lemma keeps_for_table c g g' :
  keeps g g' -> mSocketByConnectionId (connections g') = mSocketByConnectionId (connections g) -> keeps_for c g g'.
Proof. intros Hk E Hi. destruct (Hk Hi). split; [done|]. split; [done|]. unfold socket_of. by rewrite E. Qed.

Lemma message_table {M : Type} `{MessageCodec M} now c id (m : M) count g :
  mSocketByConnectionId (connections (GateClientProtocolService.SendMessage protocol put_protocol (Some (send_handler now)) c id m count g).2)
  = mSocketByConnectionId (connections g).
Proof.
  unfold GateClientProtocolService.SendMessage, send_handler, on_connections, zoom, view_connections, put_connections.
  destruct (SerializeMessage m) as [payload|]; [|done]. set (g1 := put_protocol _ g).
  change (connections g1) with (connections g). change (sockets g1) with (sockets g).
  pose proof (Send_inv now c id payload (connections g) (sockets g)) as Hs.
  destruct (Send now c id payload (connections g, sockets g)) as [r [s k]]. by destruct Hs as ((E & _) & _).
Qed.

Lemma kick_here_keeps now existing current g :
  keeps_for current g (kick_here now existing current g).2.
Proof.
  unfold kick_here. destruct existing as [record|]; [|done]. destruct (Z.eqb_spec (ses_connection_id record) current) as [|Hne]; [done|].
  unfold try. assert (keeps_for current g (SendKickNotification now (ses_connection_id record) kick_reason g).2) as Hk
    by (apply keeps_for_table; [apply keeps_message|apply message_table]).
  destruct (SendKickNotification _ _ _ g) as [r g1]. simpl in Hk. destruct (negb (ok r)); [done|]. etrans; [exact Hk|]. intros Hi.
  pose proof (Close_closed now (ses_connection_id record) g1 Hi) as Hc. destruct (CloseConnection _ _ g1) as [r' g']. destruct Hc as [_ Hc].
  simpl. destruct (ok r'); [|by subst]. destruct Hc as (? & ? & _ & E). split; [done|]. split; [done|].
  unfold socket_of. rewrite E. by rewrite lookup_delete_ne.
Qed.

Lemma next_login_id_keeps c g : keeps_for c g (next_login_id g).2.
Proof. by apply keeps_for_table; [apply keeps_next_login_id|]. Qed.

Lemma on_ipc_keeps {A : Type} c (m : St N A) g : keeps_for c g (on_ipc m g).2.
Proof. apply keeps_for_table; [apply keeps_on_ipc|]. unfold on_ipc. by destruct (m (ipc g)). Qed.

Lemma on_world_keeps {A : Type} c (m : GateAccountDirectoryService.t -> St W A) g : keeps_for c g (on_world m g).2.
Proof. apply keeps_for_table; [apply keeps_on_world|]. unfold on_world. by destruct (m (accounts g) (world g)). Qed.

(** A step whose success is passed on as such. *)
Lemma try_success_state (m : St (gate N W S) Result) g : (try m (ret Success) g).2 = (m g).2.
Proof. unfold try. destruct (m g) as [r g1]. by destruct (negb (ok r)). Qed.

Lemma Kick_keeps now account c g : keeps_for c g (KickExistingAccountSession now account c g).2.
Proof.
  unfold KickExistingAccountSession.
  pose proof (on_world_keeps c (fun a => GateAccountDirectoryService.LookupAccount a account) g) as Hw.
  destruct (on_world _ g) as [owner g1]. simpl in Hw. destruct owner as [owner|]; [|etrans; [exact Hw|apply kick_here_keeps]].
  destruct (_ =? _); [etrans; [exact Hw|apply kick_here_keeps]|].
  pose proof (next_login_id_keeps c g1) as Hn. destruct (next_login_id g1) as [id g2]. simpl in Hn.
  etrans; [exact Hw|]. etrans; [exact Hn|]. rewrite try_success_state. apply on_ipc_keeps.
Qed.

Lemma open_keeps now c g : is_Some (socket_of g c) -> keeps_for c g (open_if_absent now c c g).2.
Proof.
  intros Hs Hi. unfold open_if_absent, GateSessionService.Snapshot. destruct (sessions g !! c) as [record|] eqn:Er; [done|].
  unfold on_sessions, GateSessionService.OpenAnonymous. rewrite Er. simpl. split; [|by split].
  destruct Hi as [I1 I2 I3 I4 I5]. split; [done| |done..]. simpl. intros id record.
  destruct (decide (id = c)) as [->|Hne]; [rewrite lookup_insert_eq; intros [= <-]|rewrite lookup_insert_ne by done]; [done|apply I2].
Qed.

Lemma RequestLogin_keeps inst c platform account area g :
  is_Some (socket_of g c) -> keeps_for c g (RequestLogin inst c c platform account area g).2.
Proof.
  intros [fd Hs] Hi. unfold RequestLogin, try.
  pose proof (next_login_id_keeps c g Hi) as Hn. destruct (next_login_id g) as [id g1]. simpl in Hn. destruct Hn as (J1 & S1 & E1).
  match goal with |- context [on_ipc ?m g1] => pose proof (on_ipc_keeps c m g1 J1) as Hk; destruct (on_ipc m g1) as [r g2] end.
  simpl in Hk. destruct Hk as (J2 & S2 & E2). destruct (negb (ok r)); [simpl; split; [done|]; split; [by etrans|auto]|].
  assert (shrinks g g2) as [? ? ? ? ?] by by etrans.
  cbn [snd]. split; [|split; [by split|auto]].
  assert (c < mNextConnectionId (connections g2)) as Hlt.
  { destruct (ci_open _ _ (gi_conn g Hi) c fd Hs) as (_ & _ & _ & Hlt & _). rewrite (sh_next _ _ S2), (sh_next _ _ S1). done. }
  destruct J2 as [I1 I2 I3 I4 I5]. split; [done|done| |done|done]. simpl. intros rid p. rewrite lookup_insert. case_decide; [|apply I3].
  by intros [= <-].
Qed.

Lemma HandleClientLogin_keeps now c request g : is_Some (socket_of g c) -> keeps g (HandleClientLogin now c request g).2.
Proof.
  intros Hs Hi. unfold HandleClientLogin. set (auth := GateAuthService.Validate _ _ _).
  destruct (negb (auth_ok auth)); [by apply keeps_message|]. unfold try.
  pose proof (Kick_keeps now (auth_account_id auth) c g Hi) as Hk.
  destruct (KickExistingAccountSession now _ c g) as [r1 g1]. destruct Hk as (J1 & S1 & E1). simpl in *. destruct (negb (ok r1)); [done|].
  pose proof (open_keeps now c g1 (E1 Hs) J1) as Ho. destruct (open_if_absent now c c g1) as [r2 g2]. destruct Ho as (J2 & S2 & E2). simpl in *.
  destruct (negb (ok r2)); [split; [done|by etrans]|].
  pose proof (keeps_mark conn_anonymous c g2 ltac:(done) J2) as Hm.
  assert (socket_of (on_table (mark conn_anonymous c) g2).2 c = socket_of g2 c) as Em.
  { unfold on_table, mark, socket_of. by destruct (mConnections (connections g2) !! c). }
  unfold MarkAnonymous. destruct (on_table (mark conn_anonymous c) g2) as [r3 g3]. destruct Hm as (J3 & S3). simpl in *.
  destruct (negb (ok r3)); [split; [done|etrans; [exact S1|by etrans]]|].
  pose proof (RequestLogin_keeps 1 c (cl_platform request) (auth_account_id auth) 1 g3) as Hr. rewrite Em in Hr.
  destruct (Hr (E2 (E1 Hs)) J3) as (J4 & S4 & _). split; [done|]. etrans; [exact S1|]. etrans; [exact S2|]. by etrans.
Qed.

Lemma keeps_activate now id account player st inst g :
  keeps g (on_sessions (GateSessionService.Activate now id account player st inst) g).2.
Proof.
  intros Hi. unfold on_sessions, GateSessionService.Activate. destruct (sessions g !! id) as [old|] eqn:E; [|destruct Hi; by split].
  simpl. split; [|by split]. destruct Hi as [I1 I2 I3 I4 I5]. split; [done| |done..]. simpl. intros j record. rewrite lookup_insert.
  case_decide as Hj; [|apply I2]. intros [= <-]. subst j. simpl. destruct (I2 id old E) as (_ & ? & ?). by split_and!.
Qed.

Lemma keeps_accept_login now pending response g : keeps g (accept_login now pending response g).2.
Proof.
  unfold accept_login. apply keeps_bind; [apply keeps_activate|]. intros _ g1. apply keeps_bind; [apply keeps_on_routes|]. intros _ g2.
  apply keeps_bind; [by apply keeps_mark|]. intros _ g3. apply keeps_bind; [apply keeps_on_world|]. done.
Qed.

Lemma keeps_login_response now response g : keeps g (HandleLoginResponse now response g).2.
Proof.
  unfold HandleLoginResponse. assert (keeps g (record_response response g)) as Hr.
  { intros [I1 I2 I3 I4 I5]. split; [by split|by split]. }
  set (g1 := record_response response g) in *. destruct (mPendingLogins (login g1) !! lr_request_id response) as [pending|]; [|done].
  etrans; [exact Hr|]. set (g2 := g1 <| login := _ |>).
  assert (keeps g1 g2) as Hd.
  { intros [I1 I2 I3 I4 I5]. split; [|by split]. split; [done|done| |done|done]. simpl. intros rid p [_ Hp]%lookup_delete_Some. by apply (I3 rid). }
  etrans; [exact Hd|].
  assert (keeps g2 (when (bool_decide (lr_result_code response = RESULT_CODE_OK)) (accept_login now pending response) g2).2) as Ha
    by (unfold when; destruct (bool_decide _); [apply keeps_accept_login|done]).
  destruct (when _ _ g2) as [u g3]. etrans; [exact Ha|].
  match goal with |- context [SendLoginResponse now ?c ?p ?r ?e ?m g3] => pose proof (keeps_message now c MESSAGE_ID_LOGIN_RESPONSE
    (mkLoginResponse (mkResponseHeader MESSAGE_ID_LOGIN_RESPONSE 1 e m) p [] r) (fun n s => s <| encoded_login_response_bytes := n |>) g3) as Hs end.
  unfold SendLoginResponse, GateClientProtocolService.SendLoginResponse. destruct (GateClientProtocolService.SendMessage _ _ _ _ _ _ _ g3). exact Hs.
Qed.

(** The kicks that other processes ask for. *)
Lemma keeps_kick_and_close now c reason (k : Result -> St (gate N W S) Result) g :
  (forall r g', (k r g').2 = g') ->
  keeps g (let '(send, g1) := SendKickNotification now c reason g in
           if negb (ok send) then (Failure (message send), g1)
           else let '(close, g2) := CloseConnection now c g1 in k close g2).2.
Proof.
  intros Hk. pose proof (keeps_message now c MESSAGE_ID_KICK_NOTIFICATION (mkKickNotification reason)
    (fun n s => s <| encoded_kick_notification_bytes := n |>) g) as Hs.
  unfold SendKickNotification, GateClientProtocolService.SendKickNotification.
  destruct (GateClientProtocolService.SendMessage _ _ _ _ _ _ _ g) as [send g1]. destruct (negb (ok send)); [exact Hs|].
  pose proof (keeps_close now c g1) as Hc. destruct (CloseConnection now c g1) as [close g2]. rewrite Hk. etrans; [exact Hs|exact Hc].
Qed.

Lemma keeps_kick_account now request g : keeps g (HandleKickAccountSession now request g).2.
Proof.
  unfold HandleKickAccountSession. destruct (GateSessionService.Snapshot _ _) as [session|]; [|done]. destruct (negb _); [done|].
  by apply (keeps_kick_and_close now (ses_connection_id session) _ (fun close g => (dispatch_result close, g))).
Qed.

Lemma keeps_unbind_player now request g : keeps g (HandleUnbindPlayerSession now request g).2.
Proof.
  unfold HandleUnbindPlayerSession. destruct (GateSessionService.Snapshot _ _) as [session|]; [|done]. destruct (negb _); [done|].
  apply (keeps_kick_and_close now (ses_connection_id session) _ (fun close g =>
    if negb (ok close) && negb (String.eqb (message close) "connection does not exist") then (Failure (message close), g) else (Success, g))).
  intros r g'. by destruct (_ && _).
Qed.

Lemma keeps_client_message c request g : keeps g (HandleClientPlayerMessage c request g).2.
Proof.
  unfold HandleClientPlayerMessage. pose proof (FindByConnection_spec (sessions g) c) as Hf.
  destruct (GateSessionService.FindByConnection (sessions g) c) as [session|]; [|done]. destruct Hf as (sid & Hsid & Hc).
  destruct (_ || _); [done|]. intros Hi. unfold try, on_ipc.
  destruct (gi_sessions g Hi sid session Hsid) as (Es & Ec & [fd Hfd]).
  assert (sid < mNextConnectionId (connections g)) as Hlt by (destruct (ci_open _ _ (gi_conn g Hi) sid fd Hfd); tauto).
  destruct Hi as [I1 I2 I3 I4 I5].
  destruct (SendProcessPayload _ _ _) as [r n]. destruct (negb (ok r)); cbn [fst snd]; (split; [|by split]); (split; [done|done|done| |done]); simpl; [done|].
  intros rid p. rewrite lookup_insert. case_decide; [|apply I4]. intros [= <-]. simpl. rewrite Es, <- Hc, Ec. done.
Qed.

Lemma keeps_forward_response now response g : keeps g (HandleForwardPlayerMessageResponse now response g).2.
Proof.
  unfold HandleForwardPlayerMessageResponse. destruct (mPendingMessages (messages g) !! fr_request_id response) as [pending|]; [|done].
  set (g1 := g <| messages := _ |>).
  assert (keeps g g1) as Hd.
  { intros [I1 I2 I3 I4 I5]. split; [|by split]. split; [done|done|done| |done]. simpl. intros rid p [_ Hp]%lookup_delete_Some. by apply (I4 rid). }
  etrans; [exact Hd|]. match goal with |- context [GateClientProtocolService.SendPlayerMessageResponse _ _ _ ?c ?i ?b ?e ?m g1] =>
    pose proof (keeps_message now c MESSAGE_ID_PLAYER_MESSAGE_RESPONSE (mkPlayerMessageResponse (mkResponseHeader i 1 e m) b)
      (fun n s => s <| encoded_player_message_response_bytes := n |>) g1) as Hs end.
  unfold GateClientProtocolService.SendPlayerMessageResponse. destruct (GateClientProtocolService.SendMessage _ _ _ _ _ _ _ g1). exact Hs.
Qed.

Lemma keeps_push now push g : keeps g (HandlePushPlayerMessage now push g).2.
Proof.
  unfold HandlePushPlayerMessage. destruct (GateSessionService.Snapshot _ _) as [session|]; [|done]. destruct (_ || _); [done|].
  pose proof (keeps_message now (ses_connection_id session) MESSAGE_ID_PLAYER_PUSH (mkPlayerPushMessage (pm_message_id push) (pm_payload_bytes push))
    (fun n s => s <| encoded_player_push_bytes := n |>) g) as Hs.
  unfold GateClientProtocolService.SendPlayerPushMessage. destruct (GateClientProtocolService.SendMessage _ _ _ _ _ _ _ g). exact Hs.
Qed.

Lemma keeps_process_message now m g : keeps g (HandleProcessMessage now m g).2.
Proof.
  destruct m; simpl; [done|apply keeps_login_response|done|done|apply keeps_kick_account|done|apply keeps_unbind_player|done
    |apply keeps_forward_response|apply keeps_push].
Qed.

(** *** The thread of the connections *)

Lemma message_handler_keeps now c id payload g : is_Some (socket_of g c) -> keeps g (message_handler now c id payload g).2.
Proof.
  intros Hs. unfold message_handler, GateClientProtocolService.DispatchClientMessage, ProtobufMessageDispatcher.Dispatch, RegisterProtocolHandlers.
  unfold GateClientProtocolService.RegisterBuiltinHandlers, GateClientProtocolService.RegisterClientHandler, ProtobufMessageDispatcher.Register.
  run_st. rewrite !lookup_insert, lookup_empty. repeat case_decide; subst; simpl.
  - destruct (ParseMessage payload); [|done]. apply keeps_client_message.
  - destruct (ParseMessage payload); [|done]. by apply HandleClientLogin_keeps.
  - destruct (ParseMessage payload); [|done]. apply keeps_message.
  - done.
Qed.

(** A descriptor that is still open belongs to its connection. *)
Definition current g (c fd : Z) : Prop := fd ∈ open_fds (sockets g) -> socket_of g c = Some fd.

Lemma current_shrinks g g' c fd : shrinks g g' -> current g c fd -> current g' c fd.
Proof. intros [Sh1 _ Sh2 _ _] Hc Hfd. apply Sh2; [|done]. apply Hc. by apply Sh1. Qed.

Lemma HandleReadable_keeps now c fd g :
  current g c fd ->
  keeps g (HandleReadable view_connections put_connections (Some (disconnect_handler now)) (Some (message_handler now)) now c fd g).2.
Proof.
  intros Hc. unfold HandleReadable, locked, zoom, view_connections. pose proof (read_message_fds fd (sockets g)) as Hr.
  destruct (read_message fd (sockets g)) as [message k]. destruct Hr as [Hk Hn].
  assert (keeps g (put_connections (connections g, k) g)) as H0k by (by apply keeps_table).
  destruct message as [[id payload]|]; [|etrans; [exact H0k|apply keeps_finalize]].
  assert (is_Some (socket_of g c)) as Hs.
  { exists fd. apply Hc. destruct (decide (fd ∈ open_fds (sockets g))) as [|Hout]; [done|]. discriminate (Hn Hout). }
  set (g1 := put_connections (connections g, k) g) in *. set (g2 := put_connections _ g1).
  assert (keeps g1 g2) as H12.
  { apply (keeps_table g1); [|by unfold mark_received; case_match| |]; [unfold mark_received; by case_match|done|]. intros Hi. by apply mark_received_inv. }
  etrans; [exact H0k|]. etrans; [exact H12|]. apply message_handler_keeps.
  assert (socket_of g2 c = socket_of g c) as ->; [|done]. unfold socket_of. simpl. unfold mark_received. by case_match.
Qed.

Lemma handle_ready_keeps now ready socks g :
  Forall (fun '(c, fd) => current g c fd) socks ->
  keeps g (handle_ready view_connections put_connections (Some (disconnect_handler now)) (Some (message_handler now)) now ready socks g).2.
Proof.
  revert g. induction socks as [|[c fd] socks IH]; intros g Hall Hi; [by split|].
  apply Forall_cons in Hall as [Hc Hall]. cbn [handle_ready]. unfold bind.
  assert (keeps g (when (bool_decide (fd ∈ ready)) (HandleReadable view_connections put_connections (Some (disconnect_handler now))
            (Some (message_handler now)) now c fd) g).2) as Hk.
  { unfold when. destruct (bool_decide _); [by apply HandleReadable_keeps|done]. }
  destruct (Hk Hi) as [J1 S1]. destruct (when _ _ g) as [u g1]. simpl in J1, S1.
  assert (Forall (fun '(c, fd) => current g1 c fd) socks) as Hall1.
  { eapply Forall_impl; [exact Hall|]. intros [c' fd'] Hcur. by eapply current_shrinks. }
  destruct (IH g1 Hall1 J1) as [J2 S2]. split; [done|by etrans].
Qed.

(** Connections whose ids have been given out do not get a socket again. *)
Definition ages g g' : Prop :=
  mNextConnectionId (connections g) <= mNextConnectionId (connections g') /\
  forall c, c < mNextConnectionId (connections g) -> socket_of g c = None -> socket_of g' c = None.

#[export] Instance ages_preorder : PreOrder ages.
Proof.
  split; [by intros g|]. intros g1 g2 g3 [A1 A2] [B1 B2]. split; [lia|]. intros c Hc Hs. apply B2; [lia|auto].
Qed.

Lemma shrinks_ages g g' : shrinks g g' -> ages g g'.
Proof.
  intros [_ Sub _ Hn _]. split; [lia|]. intros c _ Hs. destruct (socket_of g' c) as [fd|] eqn:E; [|done].
  apply Sub in E. congruence.
Qed.

Lemma accept_step now g :
  gate_inv g -> in_u64 (mNextConnectionId (connections g) + 1) ->
  let g' := (locked view_connections put_connections (AcceptReadySocket now) g).2 in
  gate_inv g' /\ ages g g' /\ (forall c fd, socket_of g c = Some fd -> socket_of g' c = Some fd).
Proof.
  intros Hi Hn. unfold locked, zoom, view_connections.
  pose proof (AcceptReadySocket_inv now (connections g) (sockets g) (gi_conn g Hi) Hn (Z.lt_le_incl _ _ (gi_next g Hi))) as Ha.
  destruct (AcceptReadySocket now (connections g, sockets g)) as [u [s k]]. destruct Ha as (A1 & A2 & A3 & _ & _ & A4).
  destruct Hi as [I1 I2 I3 I4 I5]. unfold socket_of in *. simpl. split; [|split].
  - split; unfold socket_of; simpl; [done| | | |lia].
    + intros id record Hr. destruct (I2 id record Hr) as (? & ? & Hx). split_and!; [done..|]. by rewrite A2.
    + intros rid p Hp. destruct (I3 rid p Hp). split; [done|lia].
    + intros rid p Hp. destruct (I4 rid p Hp). split; [done|lia].
  - split; simpl; [lia|]. intros c Hc Hs. unfold socket_of in *. simpl. destruct (mSocketByConnectionId s !! c) as [fd|] eqn:E; [|done].
    destruct (A4 c fd E) as [E'|[-> _]]; [congruence|lia].
  - intros c fd Hc. rewrite A2; [done|by eexists].
Qed.

Lemma worker_turn_inv now g :
  in_u64 (mNextConnectionId (connections g) + 1) -> gate_inv g ->
  gate_inv (Gate.worker_turn now g).2 /\ ages g (Gate.worker_turn now g).2.
Proof.
  intros Hn Hi. pose (P := fun g' => gate_inv g' /\ ages g g'). change (P (Gate.worker_turn now g).2).
  unfold Gate.worker_turn, worker_turn. change ((view_connections g).1) with (connections g).
  destruct (mStopping (connections g)); [done|]. destruct (negb _); [done|].
  unfold locked at 1, zoom. change (view_connections g) with (connections g, sockets g). cbv beta iota. set (fds := _ ++ _).
  pose proof (select_law fds (sockets g)) as Hsel. destruct (sock_select fds (sockets g)) as [ready k]. simpl in Hsel.
  assert (keeps g (put_connections (connections g, k) g)) as H0k by (by apply keeps_table).
  destruct (H0k Hi) as [J1 S1%shrinks_ages]. set (g1 := put_connections (connections g, k) g) in *. destruct ready as [|r ready]; [split; [exact J1|exact S1]|].
  change ((view_connections g1).1) with (connections g1).
  set (b := (0 <=? mListenSocketFd (connections g1)) && bool_decide (mListenSocketFd (connections g1) ∈ r :: ready)).
  assert (gate_inv (when b (locked view_connections put_connections (AcceptReadySocket now)) g1).2 /\
          ages g1 (when b (locked view_connections put_connections (AcceptReadySocket now)) g1).2 /\
          forall c fd, socket_of g1 c = Some fd ->
            socket_of (when b (locked view_connections put_connections (AcceptReadySocket now)) g1).2 c = Some fd) as (J2 & S2 & Hsame)
    by (unfold when; destruct b; [by apply accept_step|done]).
  destruct (when b _ g1) as [u g2]. simpl in J2, S2, Hsame.
  assert (Forall (fun '(c, fd) => current g2 c fd) (entries (mSocketByConnectionId (connections g)))) as Hcur.
  { apply Forall_forall. intros [c fd] Hin _. apply elem_of_entries in Hin. by apply Hsame. }
  destruct (handle_ready_keeps now (r :: ready) _ g2 Hcur J2) as [J3 S3%shrinks_ages].
  destruct (handle_ready _ _ _ _ _ _ _ g2) as [v g3]. simpl in *. split; [done|]. etrans; [exact S1|]. by etrans.
Qed.

Lemma Start_inv s (k : S) :
  conn_inv s (open_fds k) ->
  let '(_, (s', k')) := Start (s, k) in
  conn_inv s' (open_fds k') /\ mSocketByConnectionId s' = mSocketByConnectionId s /\ mNextConnectionId s' = mNextConnectionId s.
Proof.
  intros [I1 I2 I3]. unfold Start. destruct (mWorkerThread s); [done|].
  pose proof (listen_law (mListenHost s) (mListenPort s) k) as Hl. destruct (sock_listen _ _ k) as [[fd|] k'].
  - destruct Hl as (Hfd & Hnew & Ho). rewrite Ho. split; [|done]. split; simpl; [done| |right; set_solver].
    intros c fd' Hc. destruct (I2 c fd' Hc) as (? & ? & ? & ? & ?). split_and!; [done|set_solver| |done..]. by intros ->.
  - rewrite Hl. split; [|done]. split; simpl; [done| |by left]. intros c fd' Hc. destruct (I2 c fd' Hc) as (? & ? & ? & ? & ?).
    split_and!; [done|done|lia|done..].
Qed.

(** The life of a gate, until it stops: its threads, the messages it gets, and what
    others do to the database and to the IPC service. *)
Inductive gate_step : gate N W S -> gate N W S -> Prop :=
| gt_start g : gate_step g (on_connections Start g).2
| gt_turn now g : in_u64 (mNextConnectionId (connections g) + 1) -> gate_step g (Gate.worker_turn now g).2
| gt_message now m g : gate_step g (HandleProcessMessage now m g).2
| gt_others w n g : gate_step g (g <| world := w |> <| ipc := n |>).

Lemma gate_step_inv g g' : gate_step g g' -> gate_inv g -> gate_inv g' /\ ages g g'.
Proof.
  intros [g0|now g0 Hn|now m g0|w n g0] Hi; [|by apply worker_turn_inv| |].
  2:{ destruct (keeps_process_message now m g0 Hi). split; [done|by apply shrinks_ages]. }
  2:{ match goal with |- gate_inv ?g1 /\ _ => destruct (keeps_same g0 g1 eq_refl eq_refl eq_refl eq_refl eq_refl Hi) as [Ka Kb] end.
      split; [exact Ka|by apply shrinks_ages]. }
  unfold on_connections, zoom, view_connections, put_connections. pose proof (Start_inv (connections g0) (sockets g0) (gi_conn g0 Hi)) as Hs.
  destruct (Start (connections g0, sockets g0)) as [u [s k]]. destruct Hs as (Hs & E1 & E2). destruct Hi as [I1 I2 I3 I4 I5].
  split; [split; unfold socket_of in *; simpl; rewrite ?E1, ?E2; done|]. split; unfold socket_of; simpl; [rewrite E2; lia|]. intros c _. by rewrite E1.
Qed.

Lemma gate_steps_inv g g' : rtc gate_step g g' -> gate_inv g -> gate_inv g' /\ ages g g'.
Proof.
  induction 1 as [|x y z Hxy _ IH]; [done|]. intros Hx. destruct (gate_step_inv x y Hxy Hx) as [Hy A1]. destruct (IH Hy) as [Hz A2].
  split; [done|by etrans].
Qed.

(** A gate that has just been created. *)
Definition fresh_gate g : Prop := exists host port,
  connections g = GateConnectionService.create host port /\ sessions g = ∅ /\ mPendingLogins (login g) = ∅ /\
  mPendingMessages (messages g) = ∅.

Lemma fresh_gate_inv g : fresh_gate g -> gate_inv g.
Proof.
  intros (host & port & E1 & E2 & E3 & E4). split; unfold socket_of; rewrite ?E1, ?E2, ?E3, ?E4; simpl.
  - split; simpl; [|by intros c fd; rewrite lookup_empty|by left]. intros c fd. by rewrite !lookup_empty.
  - intros id record. by rewrite lookup_empty.
  - intros rid p. by rewrite lookup_empty.
  - intros rid p. by rewrite lookup_empty.
  - lia.
Qed.

Lemma gate_reachable_inv g g' : fresh_gate g -> rtc gate_step g g' -> gate_inv g'.
Proof. intros Hf Hs. by apply (gate_steps_inv g g' Hs), fresh_gate_inv. Qed.

(** *** What the end of a session does *)

Definition player_disconnected now g (session : GateSessionRecord) (reason : DisconnectReason) : process_message :=
  msg_player_disconnected (mkPlayerDisconnected (ses_player_id session)
    (mkGateSession kGateServiceType (mGateInstanceId (login g)) (ses_gate_session_id session)) reason (u64 (u64 (now_seconds now) * 1000))).

Definition target_game (session : GateSessionRecord) : ProcessId := mkProcessId (ses_game_service_type session) (ses_game_instance_id session).

Definition in_game (session : GateSessionRecord) : Prop :=
  ses_player_id session <> 0 /\ ses_game_service_type session <> 0 /\ ses_game_instance_id session <> 0.

Lemma session_disconnected_effect now session reason g :
  in_game session ->
  let '(sent, n) := SendProcessPayload (target_game session) (player_disconnected now g session reason) (ipc g) in
  (HandleSessionDisconnected now session reason g).2 =
    if ok sent then
      g <| ipc := n |> <| routes := (GateRoutingService.UnbindPlayer (ses_player_id session) (ses_gate_session_id session) (routes g)).2 |>
        <| world := (GateAccountDirectoryService.RemoveAccountIfMatches (accounts g) (ses_account_id session)
                       (self_owner g (ses_gate_session_id session)) (world g)).2 |>
    else g <| ipc := n |>.
Proof.
  intros (P1 & P2 & P3). unfold HandleSessionDisconnected.
  assert ((ses_player_id session =? 0) || (ses_game_service_type session =? 0) || (ses_game_instance_id session =? 0) = false) as -> by lia.
  unfold try, on_ipc, on_routes, on_world, bind, ret, target_game, player_disconnected.
  destruct (SendProcessPayload _ _ _) as [sent n]. destruct (ok sent); cbn [negb]; [|done]. cbn [routes].
  change (routes (g <| ipc := n |>)) with (routes g).
  destruct (GateRoutingService.UnbindPlayer _ _ (routes g)) as [r1 routes']. simpl.
  change (self_owner _ (ses_gate_session_id session)) with (self_owner g (ses_gate_session_id session)).
  by destruct (GateAccountDirectoryService.RemoveAccountIfMatches _ _ _ _) as [r2 w].
Qed.

Lemma UnbindPlayer_effect p id rts :
  (forall route, (GateRoutingService.UnbindPlayer p id rts).2 !! p = Some route -> rt_gate_session_id route <> id) /\
  (forall q, q <> p -> (GateRoutingService.UnbindPlayer p id rts).2 !! q = rts !! q).
Proof.
  unfold GateRoutingService.UnbindPlayer. destruct (rts !! p) as [route|] eqn:E; [|split; [intros r Hr; simpl in Hr; congruence|done]].
  destruct (Z.eqb_spec (rt_gate_session_id route) id); cbn [negb snd]; [|split; [intros r; congruence|done]].
  split; [intros r; by rewrite lookup_delete_eq|intros q Hq; by rewrite lookup_delete_ne].
Qed.

Lemma disconnect_handler_effect now c session g :
  (forall id record, sessions g !! id = Some record -> ses_connection_id record = id) -> sessions g !! c = Some session ->
  (disconnect_handler now c g).2 =
    (HandleSessionDisconnected now (session <| ses_state := closing |>) DISCONNECT_REASON_CLIENT_CLOSED (g <| sessions := delete c (sessions g) |>)).2.
Proof.
  intros Hid Hc. unfold disconnect_handler, on_sessions. pose proof (RemoveByConnection_inv g c Hid) as Hr.
  destruct (GateSessionService.RemoveByConnection c (sessions g)) as [[r removed] sessions']. destruct Hr as [-> Hr].
  destruct removed as [record|]; [|destruct Hr; congruence]. destruct Hr as (Hok & old & Hold & ->). rewrite Hc in Hold.
  injection Hold as <-. by rewrite Hok.
Qed.

Lemma Finalize_effect now c g : exists s k,
  (FinalizeConnection view_connections put_connections (Some (disconnect_handler now)) now c g).2
  = (disconnect_handler now c (g <| connections := s |> <| sockets := k |>)).2.
Proof.
  unfold FinalizeConnection, bind, locked, zoom, view_connections.
  destruct (CloseSocketLocked _ _) as [u [s k]]. by exists s, k.
Qed.

(** *** What an accepted login does *)

Definition logged_in now g (pending : PendingLogin) (response : LoginPlayerResponse) : gate N W S :=
  (record_response response g)
    <| login := (login (record_response response g)) <| mPendingLogins := delete (lr_request_id response) (mPendingLogins (login g)) |> |>
    <| sessions := (GateSessionService.Activate now (pl_gate_session_id pending) (pl_account_id pending) (lr_player_id response)
                      (lr_game_service_type response) (lr_game_instance_id response) (sessions g)).2 |>
    <| routes := (GateRoutingService.BindPlayer now (lr_player_id response) (lr_game_service_type response) (lr_game_instance_id response)
                    (pl_gate_session_id pending) (routes g)).2 |>
    <| connections := (MarkBound (pl_connection_id pending) (connections g)).2 |>
    <| world := (GateAccountDirectoryService.BindAccount (accounts g) (pl_account_id pending) (self_owner g (pl_gate_session_id pending)) (world g)).2 |>.

Lemma login_response_effect now response pending g :
  mPendingLogins (login g) !! lr_request_id response = Some pending -> lr_result_code response = RESULT_CODE_OK ->
  HandleLoginResponse now response g =
    let '(send, g') := SendLoginResponse now (pl_connection_id pending) (lr_player_id response) (lr_is_reconnect response) ERROR_CODE_OK
                         (lr_error_message response) (logged_in now g pending response) in
    (dispatch_result send, g').
Proof.
  intros Hp Hok. unfold HandleLoginResponse. change (mPendingLogins (login (record_response response g))) with (mPendingLogins (login g)).
  rewrite Hp, Hok. cbn [bool_decide when]. rewrite bool_decide_eq_true_2 by done. unfold when, accept_login, bind, ret.
  set (g1 := (record_response response g) <| login := _ |>).
  unfold on_sessions at 1. change (sessions g1) with (sessions g). destruct (GateSessionService.Activate _ _ _ _ _ _ (sessions g)) as [r1 sessions'] eqn:E1.
  unfold on_routes at 1. cbn [routes]. change (routes (g1 <| sessions := sessions' |>)) with (routes g).
  unfold GateRoutingService.BindPlayer at 1. unfold on_table at 1. set (g2 := (g1 <| sessions := sessions' |>) <| routes := _ |>).
  change (connections g2) with (connections g). destruct (MarkBound (pl_connection_id pending) (connections g)) as [r2 s] eqn:E2.
  unfold on_world. set (g3 := g2 <| connections := s |>). change (self_owner g3 (pl_gate_session_id pending)) with (self_owner g (pl_gate_session_id pending)).
  change (accounts g3) with (accounts g). change (world g3) with (world g).
  destruct (GateAccountDirectoryService.BindAccount _ _ _ (world g)) as [r3 w] eqn:E3. unfold logged_in. by rewrite E1, E2, E3.
Qed.

(** Sending to a client changes nothing but the counters and the time of sending. *)
Lemma message_same {M : Type} `{MessageCodec M} now c id (m : M) count g :
  let g' := (GateClientProtocolService.SendMessage protocol put_protocol (Some (send_handler now)) c id m count g).2 in
  sessions g' = sessions g /\ routes g' = routes g /\ world g' = world g /\ login g' = login g /\ ipc g' = ipc g /\ accounts g' = accounts g.
Proof.
  unfold GateClientProtocolService.SendMessage. destruct (SerializeMessage m) as [payload|]; [|done].
  unfold send_handler, on_connections, zoom, put_connections. by destruct (Send now c id payload _) as [r [s k]].
Qed.

Lemma message_no_socket {M : Type} `{MessageCodec M} now c id (m : M) count g :
  socket_of g c = None ->
  let '(r, g') := GateClientProtocolService.SendMessage protocol put_protocol (Some (send_handler now)) c id m count g in
  ok r = false /\ connections g' = connections g.
Proof.
  intros Hc. unfold GateClientProtocolService.SendMessage. destruct (SerializeMessage m) as [payload|]; [|done].
  unfold send_handler, on_connections, zoom, put_connections, Send. set (g1 := put_protocol _ g).
  change (view_connections g1) with (connections g, sockets g). cbv beta iota. unfold socket_of in Hc. by rewrite Hc.
Qed.

(** *** What asking to log in does *)

Lemma disconnect_login now c g : login (disconnect_handler now c g).2 = login g.
Proof.
  unfold disconnect_handler, on_sessions. destruct (GateSessionService.RemoveByConnection c (sessions g)) as [[r [record|]] s]; [|done].
  destruct (negb (ok r)); [done|]. unfold HandleSessionDisconnected, try, on_ipc, on_routes, on_world, bind, ret. destruct (_ || _ || _); [done|].
  destruct (SendProcessPayload _ _ _) as [r1 n1]. destruct (negb (ok r1)); [done|].
  destruct (GateRoutingService.UnbindPlayer _ _ _) as [r2 n2]. by destruct (GateAccountDirectoryService.RemoveAccountIfMatches _ _ _ _) as [r3 n3].
Qed.

Lemma Close_login now c g : login (CloseConnection now c g).2 = login g.
Proof.
  unfold CloseConnection, Close. change ((view_connections g).1) with (connections g).
  destruct (mConnections (connections g) !! c) as [record|]; [|done].
  assert (forall m g1, login (locked view_connections put_connections (A := unit) m g1).2 = login (g1 : gate N W S)) as Hl.
  { intros m g1. unfold locked, zoom. by destruct (m (view_connections g1)) as [u [s k]]. }
  match goal with |- context [locked view_connections put_connections ?m g] => pose proof (Hl m g) as E1; destruct (locked view_connections put_connections m g) as [u g1] end.
  assert (login (FinalizeConnection view_connections put_connections (Some (disconnect_handler now)) now c g1).2 = login g1) as E2.
  { unfold FinalizeConnection, bind. match goal with |- context [locked view_connections put_connections ?m g1] => pose proof (Hl m g1) as E2;
      destruct (locked view_connections put_connections m g1) as [v g2] end. by rewrite disconnect_login. }
  destruct (FinalizeConnection _ _ _ _ _ g1) as [v g2]. simpl in *. congruence.
Qed.

Lemma kick_here_login now existing current g : login (kick_here now existing current g).2 = login g.
Proof.
  unfold kick_here, try. destruct existing as [record|]; [|done]. destruct (_ =? _); [done|].
  pose proof (message_same now (ses_connection_id record) MESSAGE_ID_KICK_NOTIFICATION (mkKickNotification kick_reason)
    (fun n s => s <| encoded_kick_notification_bytes := n |>) g) as (_ & _ & _ & E & _).
  unfold SendKickNotification, GateClientProtocolService.SendKickNotification.
  destruct (GateClientProtocolService.SendMessage _ _ _ _ _ _ _ g) as [r g1]. destruct (negb (ok r)); [done|]. by rewrite Close_login.
Qed.

Lemma Kick_instance now account c g :
  mGateInstanceId (login (KickExistingAccountSession now account c g).2) = mGateInstanceId (login g).
Proof.
  unfold KickExistingAccountSession, on_world. destruct (GateAccountDirectoryService.LookupAccount _ _ _) as [[owner|] w];
    [|by rewrite kick_here_login]. destruct (_ =? _); [by rewrite kick_here_login|]. unfold next_login_id.
  rewrite try_success_state. unfold on_ipc. by match goal with |- context [let '(_, _) := ?m in _] => destruct m end.
Qed.

(** A login that is on its way, was asked for by this connection. *)
Lemma HandleClientLogin_asks now c request g :
  auth_ok (GateAuthService.Validate (cl_platform request) (cl_account_id request) (cl_credential request)) = true ->
  let '(r, g') := HandleClientLogin now c request g in
  ok r = true -> exists g1,
    mGateInstanceId (login g1) = mGateInstanceId (login g) /\
    (r, g') = RequestLogin 1 c c (cl_platform request) (cl_account_id request) 1 g1.
Proof.
  intros Ha. unfold HandleClientLogin. rewrite Ha. cbn [negb].
  assert (auth_account_id (GateAuthService.Validate (cl_platform request) (cl_account_id request) (cl_credential request)) = cl_account_id request) as ->.
  { unfold GateAuthService.Validate in *. destruct (String.eqb (cl_platform request) ""); [done|].
    destruct (String.eqb (cl_account_id request) ""); [done|]. by destruct (String.eqb (cl_credential request) ""). }
  unfold try at 1. pose proof (Kick_instance now (cl_account_id request) c g) as E1.
  destruct (KickExistingAccountSession _ _ _ g) as [r1 g1]. destruct (ok r1) eqn:O1; cbn [negb]; [|congruence].
  unfold try at 1. assert (login (open_if_absent now c c g1).2 = login g1) as E2.
  { unfold open_if_absent, on_sessions, GateSessionService.OpenAnonymous, GateSessionService.Snapshot. by destruct (sessions g1 !! c). }
  destruct (open_if_absent now c c g1) as [r2 g2]. destruct (ok r2) eqn:O2; cbn [negb]; [|congruence].
  unfold try at 1. assert (login (on_table (MarkAnonymous c) g2).2 = login g2) as E3 by (unfold on_table; by destruct (MarkAnonymous c (connections g2))).
  destruct (on_table (MarkAnonymous c) g2) as [r3 g3]. destruct (ok r3) eqn:O3; cbn [negb]; [|congruence].
  destruct (RequestLogin _ _ _ _ _ _ g3) as [r4 g4] eqn:E4. intros _. exists g3. simpl in *. split; [congruence|done].
Qed.

End gate.
End GateProofs.

Section properties.
Import GateConnectionService ConnectionProofs GateTablesProofs GateProofs.
Context {N W S : Type} `{ProcessSender N} `{Redis W} `{SocketsLaw S} `{ClientCodecs} {mo : MapOrder Z}.
Implicit Types g : gate N W S.



(** C38: the answer to a login whose client is gone meanwhile is acted upon all the
    same: the player gets a route to a session that does not exist, the account is
    bound to it, its closed connection is marked as bound and only the answer to
    the client fails; the session does not come back, so the notice that would undo
    this is never sent. *)
Theorem late_login_binds_dead_session g0 g now response pending :
  fresh_gate g0 -> rtc gate_step g0 g ->
  mPendingLogins (login g) !! lr_request_id response = Some pending -> lr_result_code response = RESULT_CODE_OK ->
  mSocketByConnectionId (connections g) !! pl_connection_id pending = None ->
  let c := pl_connection_id pending in
  let '(r, g') := HandleLoginResponse now response g in
  ok r = false /\
  routes g' !! lr_player_id response = Some (mkGatePlayerRoute (lr_game_service_type response) (lr_game_instance_id response) c now) /\
  world g' = (GateAccountDirectoryService.BindAccount (accounts g) (pl_account_id pending) (self_owner g c) (world g)).2 /\
  (forall record, mConnections (connections g) !! c = Some record ->
     mConnections (connections g') !! c = Some (record <| conn_state := conn_bound |>)) /\
  forall g'', rtc gate_step g' g'' -> sessions g'' !! c = None.
Proof.
  intros Hf Hs Hp Hok Hsock c. pose proof (gate_reachable_inv g0 g Hf Hs) as Hi. destruct (gi_logins g Hi _ _ Hp) as [Ec Hlt].
  assert (sessions g !! c = None) as Hno.
  { destruct (sessions g !! c) as [session|] eqn:E; [|done]. destruct (gi_sessions g Hi c session E) as (_ & _ & [fd Hfd]).
    unfold socket_of, c in Hfd. congruence. }
  pose proof (keeps_login_response now response g Hi) as [Hi' Hsh%shrinks_ages].
  assert (forall g'', rtc gate_step (HandleLoginResponse now response g).2 g'' -> sessions g'' !! c = None) as Hdead.
  { intros g'' Hsteps. destruct (gate_steps_inv _ _ Hsteps Hi') as [Hi'' Ha].
    destruct (sessions g'' !! c) as [session|] eqn:E; [|done]. destruct (gi_sessions g'' Hi'' c session E) as (_ & _ & [fd Hfd]).
    assert (ages g g'') as [_ As] by by etrans. rewrite As in Hfd; [done|unfold c; lia|exact Hsock]. }
  revert Hdead. clear Hi' Hsh. rewrite (login_response_effect now response pending g Hp Hok). set (g1 := logged_in now g pending response).
  unfold SendLoginResponse, GateClientProtocolService.SendLoginResponse. set (m := mkLoginResponse _ _ _ _). set (count := fun n s => _).
  assert (socket_of g1 c = None) as Hn1.
  { unfold socket_of. simpl. unfold MarkBound, mark. by destruct (mConnections (connections g) !! pl_connection_id pending). }
  pose proof (message_no_socket now c MESSAGE_ID_LOGIN_RESPONSE m count g1 Hn1) as Hm.
  pose proof (message_same now c MESSAGE_ID_LOGIN_RESPONSE m count g1) as (_ & Er & Ew & _). fold c.
  destruct (GateClientProtocolService.SendMessage _ _ _ _ _ _ _ g1) as [r g2]. destruct Hm as [Hr Hcon]. simpl in Er, Ew.
  intros Hdead. split; [unfold dispatch_result; by rewrite Hr|].
  rewrite Er, Ew, Hcon. simpl. rewrite <- Ec. fold c. split; [by rewrite lookup_insert_eq|]. split; [done|]. split; [|exact Hdead].
  intros record Hrec. unfold MarkBound, mark. rewrite Hrec. simpl. by rewrite lookup_insert_eq.
Qed.

(** An account entry that outlived its session closes a connection of someone
    else: when the entry names this gate and an id that another client's session
    has now, as after a restart, whose connections are counted from one again, the
    login of the account ends that session, whichever account it belongs to. *)
Theorem stale_entry_kicks_stranger g0 g now account current session owner :
  fresh_gate g0 -> rtc gate_step g0 g ->
  (GateAccountDirectoryService.LookupAccount (accounts g) account (world g)).1 = Some owner ->
  gate_instance_id owner = mGateInstanceId (login g) -> sessions g !! gate_session_id owner = Some session ->
  ses_account_id session <> account -> ses_connection_id session <> current ->
  let '(r, g') := KickExistingAccountSession now account current g in
  ok r = true -> sessions g' !! gate_session_id owner = None /\ mSocketByConnectionId (connections g') !! gate_session_id owner = None.
Proof.
  intros Hf Hs Hl Hinst Hses Hacc Hcur. pose proof (gate_reachable_inv g0 g Hf Hs) as Hi.
  unfold KickExistingAccountSession. pose proof (keeps_on_world (fun a => GateAccountDirectoryService.LookupAccount a account) g Hi) as [Hi1 _].
  unfold on_world in *. destruct (GateAccountDirectoryService.LookupAccount _ _ _) as [o w]. simpl in Hl. subst o.
  set (g1 := g <| world := w |>) in *. change (login g1) with (login g). rewrite Hinst, Z.eqb_refl.
  unfold GateSessionService.Snapshot. change (sessions g1) with (sessions g). rewrite Hses. unfold kick_here.
  destruct (Z.eqb_spec (ses_connection_id session) current); [done|]. unfold try.
  pose proof (keeps_message now (ses_connection_id session) MESSAGE_ID_KICK_NOTIFICATION (mkKickNotification kick_reason)
    (fun n s => s <| encoded_kick_notification_bytes := n |>) g1 Hi1) as [Hi2 _].
  unfold SendKickNotification, GateClientProtocolService.SendKickNotification.
  destruct (GateClientProtocolService.SendMessage _ _ _ _ _ _ _ g1) as [r1 g2]. destruct (ok r1) eqn:Er1; cbn [negb]; [|congruence].
  pose proof (Close_closed now (ses_connection_id session) g2 Hi2) as Hc. destruct (CloseConnection _ _ g2) as [r3 g3].
  destruct Hc as [_ Hc]. intros Hok. rewrite Hok in Hc. destruct Hc as (_ & _ & E1 & E2).
  destruct (gi_sessions g Hi _ _ Hses) as (_ & Eid & _). by rewrite E1, E2, Eid, !lookup_delete_eq.
Qed.

(** Nothing keeps an account from having two sessions: when two connections
    have asked to log the same account in before the first answer came, both
    sessions become active, as a session knows its account only once it is active. *)
Theorem concurrent_logins_both_active g0 g now response1 response2 pending1 pending2 :
  fresh_gate g0 -> rtc gate_step g0 g -> lr_request_id response1 <> lr_request_id response2 ->
  mPendingLogins (login g) !! lr_request_id response1 = Some pending1 -> mPendingLogins (login g) !! lr_request_id response2 = Some pending2 ->
  pl_account_id pending1 = pl_account_id pending2 -> pl_connection_id pending1 <> pl_connection_id pending2 ->
  is_Some (sessions g !! pl_connection_id pending1) -> is_Some (sessions g !! pl_connection_id pending2) ->
  lr_result_code response1 = RESULT_CODE_OK -> lr_result_code response2 = RESULT_CODE_OK ->
  let g' := (HandleLoginResponse now response2 (HandleLoginResponse now response1 g).2).2 in
  forall pending, pending = pending1 \/ pending = pending2 ->
    exists session, sessions g' !! pl_connection_id pending = Some session /\ ses_state session = active /\
      ses_account_id session = pl_account_id pending1.
Proof.
  intros Hf Hs Hne Hp1 Hp2 Hacc Hcon [s1 Hs1] [s2 Hs2] Ho1 Ho2 g'. pose proof (gate_reachable_inv g0 g Hf Hs) as Hi.
  destruct (gi_logins g Hi _ _ Hp1) as [E1 _], (gi_logins g Hi _ _ Hp2) as [E2 _].
  assert (forall response pending (h : gate N W S), mPendingLogins (login h) !! lr_request_id response = Some pending ->
    lr_result_code response = RESULT_CODE_OK ->
    sessions (HandleLoginResponse now response h).2 = sessions (logged_in now h pending response) /\
    login (HandleLoginResponse now response h).2 = login (logged_in now h pending response)) as Heff.
  { intros response pending h Hp Ho. rewrite (login_response_effect now response pending h Hp Ho).
    unfold SendLoginResponse, GateClientProtocolService.SendLoginResponse.
    match goal with |- context [GateClientProtocolService.SendMessage _ _ _ ?c ?i ?m ?f ?g1] =>
      destruct (message_same now c i m f g1) as (A1 & _ & _ & A2 & _); destruct (GateClientProtocolService.SendMessage _ _ _ _ _ _ _ g1) end.
    done. }
  destruct (Heff response1 pending1 g Hp1 Ho1) as [F1 F2].
  assert (mPendingLogins (login (HandleLoginResponse now response1 g).2) !! lr_request_id response2 = Some pending2) as Hp2'
    by (rewrite F2; simpl; by rewrite lookup_delete_ne).
  destruct (Heff response2 pending2 _ Hp2' Ho2) as [F3 _]. unfold g'. rewrite F3. simpl. rewrite F1. simpl.
  unfold GateSessionService.Activate. rewrite <- E1, <- E2, Hs1. cbn [snd]. rewrite lookup_insert_ne, Hs2 by done. cbn [snd].
  intros pending [-> | ->]; [rewrite lookup_insert_ne by done|]; rewrite lookup_insert_eq; eexists; (split; [done|]); simpl; by rewrite ?Hacc.
Qed.

End properties.

(** ** A concrete gate *)

Module ExampleGate.
Import GateConnectionService GateProofs ExampleSockets.

#[local] Existing Instance order_Z.

(** Messages of clients with one byte: the number of an account, or nothing. *)
Definition account_name (n : Z) : string := if n =? 1 then "alice" else "bob".
#[local] Instance example_codecs : ClientCodecs := {|
  codec_login_request := {| SerializeMessage := fun _ => Some [];
    ParseMessage := fun bytes => match bytes with
      | [n] => Some (mkLoginRequest (mkRequestHeader 1001 1 0) "test" (account_name n) "secret" 1 "")
      | _ => None
      end |};
  codec_heartbeat_request := {| SerializeMessage := fun _ => Some []; ParseMessage := fun _ => None |};
  codec_message_request := {| SerializeMessage := fun _ => Some []; ParseMessage := fun bytes => Some (mkPlayerMessageRequest (mkRequestHeader 3101 1 0) bytes) |};
  codec_login_response := {| SerializeMessage := fun m => Some [cr_player_id m]; ParseMessage := fun _ => None |};
  codec_heartbeat_response := {| SerializeMessage := fun _ => Some []; ParseMessage := fun _ => None |};
  codec_kick_notification := {| SerializeMessage := fun _ => Some []; ParseMessage := fun _ => None |};
  codec_message_response := {| SerializeMessage := fun m => Some (mr_payload m); ParseMessage := fun _ => None |};
  codec_push := {| SerializeMessage := fun m => Some (pp_payload m); ParseMessage := fun _ => None |}
|}.

(** IPC takes every message. *)
Abbreviation outbox := (list (ProcessId * process_message)).
#[local] Instance outbox_sender : ProcessSender outbox := fun target m sent => (Success, sent ++ [(target, m)]).
#[local] Instance example_redis_kv : Redis kv := kv_redis no_scripts.

Definition login_frame (account : Z) : ByteBuffer := [233; 3; 0; 0; 1; 0; 0; 0; account].

(** Gate 1 with the clients that are about to connect and what they send. *)
Definition gate_with (clients : list (string * Z * Stream)) (entries : kv) : gate outbox kv net :=
  mkGate (GateConnectionService.create "0.0.0.0" 7000) (mkNet ∅ ∅ ∅ clients 3) ∅ ∅ (mkGateClientProtocolSnapshot 0 0 0 0 0)
    (GateAccountDirectoryService.mkGateAccountDirectoryService "default" "gate:account:" (Some 1)) []
    (mkLoginState 1 ∅ (mkGateLoginSnapshot 0 0 RESULT_CODE_UNSPECIFIED 0 0 false "") 1) (mkMessageState 1 ∅) entries.

Lemma gate_with_fresh clients entries : fresh_gate (gate_with clients entries).
Proof. exists "0.0.0.0", 7000. by split_and!. Qed.

(** The gate starts and its thread turns a number of times, a second each. *)
Fixpoint turns (n : nat) (now : Z) (g : gate outbox kv net) : gate outbox kv net :=
  match n with O => g | S n => turns n (now + 1000) (Gate.worker_turn now g).2 end.
Definition run (n : nat) (g : gate outbox kv net) : gate outbox kv net := turns n 1000 (on_connections Start g).2.

Fixpoint ids_left (n : nat) (now : Z) (g : gate outbox kv net) : bool :=
  match n with
  | O => true
  | S n => bool_decide (in_u64 (mNextConnectionId (connections g) + 1)) && ids_left n (now + 1000) (Gate.worker_turn now g).2
  end.

Lemma turns_reached n now g : ids_left n now g = true -> rtc gate_step g (turns n now g).
Proof.
  revert now g. induction n as [|n IH]; intros now g Hn; [apply rtc_refl|]. cbn [turns ids_left] in *. apply andb_true_iff in Hn as [Hn Hr].
  apply rtc_l with (Gate.worker_turn now g).2; [|by apply IH]. apply gt_turn. by apply bool_decide_eq_true in Hn.
Qed.

Lemma run_reached n g : ids_left n 1000 (on_connections Start g).2 = true -> rtc gate_step g (run n g).
Proof. intros Hn. apply rtc_l with (on_connections Start g).2; [apply gt_start|by apply turns_reached]. Qed.

(** Alice connects and asks to log in; the game answers. *)
Definition alice : gate outbox kv net := gate_with [("10.0.0.9", 5000, [login_frame 1])] ∅.
Definition asked : gate outbox kv net := run 2 alice.
Definition accepted_answer (rid player : Z) : LoginPlayerResponse := mkLoginPlayerResponse rid RESULT_CODE_OK player 10 1 false [] "".
Definition answered : gate outbox kv net := (HandleProcessMessage 4000 (msg_login_response (accepted_answer 1 100007)) asked).2.

Lemma asked_reached : rtc gate_step alice asked.
Proof. apply run_reached. by vm_compute. Qed.

Lemma answered_reached : rtc gate_step alice answered.
Proof. eapply rtc_r; [exact asked_reached|]. exact (gt_message 4000 (msg_login_response (accepted_answer 1 100007)) asked). Qed.


(** Her connection ends. *)
Definition left_gate : gate outbox kv net :=
  (FinalizeConnection view_connections put_connections (Some (disconnect_handler 5000)) 5000 1 answered).2.


(** She hangs up before the answer comes. *)
Definition alice_leaves : gate outbox kv net := gate_with [("10.0.0.9", 5000, [login_frame 1; []])] ∅.
Definition hung_up : gate outbox kv net := run 3 alice_leaves.
Definition late_answer : Result * gate outbox kv net := HandleLoginResponse 5000 (accepted_answer 1 100007) hung_up.

Lemma hung_up_reached : rtc gate_step alice_leaves hung_up.
Proof. apply run_reached. by vm_compute. Qed.

Lemma late_login_binds_dead_session_witness :
  routes late_answer.2 !! 100007 = Some (mkGatePlayerRoute 10 1 1 5000) /\ sessions late_answer.2 !! 1 = None.
Proof.
  pose proof (late_login_binds_dead_session alice_leaves hung_up 5000 (accepted_answer 1 100007) (mkPendingLogin 1 1 "alice") (gate_with_fresh _ _)
    hung_up_reached ltac:(by vm_compute) eq_refl ltac:(by vm_compute)) as Hl. cbv zeta in Hl.
  assert (HandleLoginResponse 5000 (accepted_answer 1 100007) hung_up = (late_answer.1, late_answer.2)) as E by (unfold late_answer; apply surjective_pairing).
  rewrite E in Hl. cbv beta iota in Hl. destruct Hl as (_ & Hr & _ & _ & Hd). split; [exact Hr|]. exact (Hd late_answer.2 (rtc_refl _ _)).
Defined.

(** The gate was restarted: an entry of Alice names its first connection, which is
    Bob's now. *)
Definition restarted : gate outbox kv net :=
  gate_with [("10.0.0.7", 5000, [login_frame 2]); ("10.0.0.9", 5000, [login_frame 1])] {["gate:account:alice" := "20:1:1"]}.
Definition bob_in : gate outbox kv net := (HandleProcessMessage 3500 (msg_login_response (accepted_answer 1 200001)) (run 2 restarted)).2.
Definition alice_asks : Result * gate outbox kv net := KickExistingAccountSession 4000 "alice" 2 bob_in.

Lemma bob_in_reached : rtc gate_step restarted bob_in.
Proof.
  eapply rtc_r; [apply (run_reached 2 restarted); by vm_compute|].
  exact (gt_message 3500 (msg_login_response (accepted_answer 1 200001)) (run 2 restarted)).
Qed.

Lemma stale_entry_kicks_stranger_witness : is_Some (sessions bob_in !! 1) /\ sessions alice_asks.2 !! 1 = None.
Proof.
  pose proof (stale_entry_kicks_stranger restarted bob_in 4000 "alice" 2 (default new_gate_session (sessions bob_in !! 1)) (mkGateAccountOwner 20 1 1)
    (gate_with_fresh _ _) bob_in_reached ltac:(by vm_compute) ltac:(by vm_compute) ltac:(by vm_compute) ltac:(intros E; vm_compute in E; discriminate E)
    ltac:(intros E; vm_compute in E; discriminate E)) as Hk.
  assert (KickExistingAccountSession 4000 "alice" 2 bob_in = (alice_asks.1, alice_asks.2)) as E by (unfold alice_asks; apply surjective_pairing).
  rewrite E in Hk. cbv beta iota in Hk. split; [vm_compute; by eexists|]. by apply Hk; vm_compute.
Defined.

(** Alice logs in from two places at once. *)
Definition two_places : gate outbox kv net :=
  gate_with [("10.0.0.9", 5000, [login_frame 1]); ("10.0.0.8", 5000, [login_frame 1])] ∅.
Definition both_asked : gate outbox kv net := run 3 two_places.
Definition both_in : gate outbox kv net :=
  (HandleLoginResponse 5000 (accepted_answer 2 100007) (HandleLoginResponse 5000 (accepted_answer 1 100007) both_asked).2).2.

Lemma both_asked_reached : rtc gate_step two_places both_asked.
Proof. apply run_reached. by vm_compute. Qed.

Lemma concurrent_logins_both_active_witness :
  (exists session, sessions both_in !! 1 = Some session /\ ses_state session = active /\ ses_account_id session = "alice") /\
  (exists session, sessions both_in !! 2 = Some session /\ ses_state session = active /\ ses_account_id session = "alice").
Proof.
  pose proof (concurrent_logins_both_active two_places both_asked 5000 (accepted_answer 1 100007) (accepted_answer 2 100007)
    (mkPendingLogin 1 1 "alice") (mkPendingLogin 2 2 "alice") (gate_with_fresh _ _) both_asked_reached ltac:(discriminate)
    ltac:(by vm_compute) ltac:(by vm_compute) eq_refl ltac:(discriminate) ltac:(vm_compute; by eexists) ltac:(vm_compute; by eexists) eq_refl eq_refl) as Hb.
  cbv zeta in Hb. split; [exact (Hb (mkPendingLogin 1 1 "alice") (or_introl eq_refl))|exact (Hb (mkPendingLogin 2 2 "alice") (or_intror eq_refl))].
Defined.
End ExampleGate.
