(* ===== verification/LoginSystem.v ===== *)
(** * LoginSystem: a gate and a game together

    The gate of [Gate] and the game of [GameLogin] exchange messages; these
    theorems follow one login from the client's request to the session that both
    processes agree on, and one disconnection from the gate to the game. *)

From S2P Require Import Prelude Text Base Receiver Transport Messaging Redis Lease Account Storage Directory Repository Protocol.
From S2P Require Session GameLogin GateTables Connection Client Gate GateLogin.
Import GateTables Connection Client Gate GateLogin.
Import GateLogin.GateProofs GateConnectionService.

(** What IPC has taken to deliver, in its order. *)
Class Deliveries (N : Type) `{ProcessSender N} : Type := {
  taken : N -> list (ProcessId * process_message);
  taken_law : forall target m n,
    let '(r, n') := SendProcessPayload target m n in
    taken n' = if ok r then taken n ++ [(target, m)] else taken n
}.

(** The last message that a process has handed to IPC. *)
Definition last_taken {N : Type} `{Deliveries N} (n : N) : option (ProcessId * process_message) := last (taken n).

Lemma taken_last {N : Type} `{Deliveries N} target m (n : N) :
  let '(r, n') := SendProcessPayload target m n in
  ok r = true -> last_taken n' = Some (target, m).
Proof.
  pose proof (taken_law target m n) as Hl. destruct (SendProcessPayload target m n) as [r n']. intros Hr. rewrite Hr in Hl.
  unfold last_taken. by rewrite Hl, last_snoc.
Qed.

(** ** The game's side *)

Section game_side.
Import Session GameLogin PlayerSessionService SessionProofs PlayerLoginService.
Context {N W : Type} `{Redis W} `{Maria W} `{PlayerDataCodec} `{GameIpcLaw N} {mo : MapOrder Z} `{!Deliveries N}.
Implicit Types g : game N W.

Definition online_through g (p gate_type gate_instance gate_session : Z) : Prop :=
  exists record, Snapshot g p = Some record /\ state record = online /\ gate_service_type record = gate_type /\
    gate_instance_id record = gate_instance /\ gate_session_id record = gate_session.

Lemma reply_taken e m g :
  let '(r, g') := reply e m g in
  ok r = true -> last_taken (ipc g') = Some (process_id (source_process (header e)), m) /\ sessions g' = sessions g.
Proof.
  unfold reply, on_ipc. pose proof (taken_last (process_id (source_process (header e))) m (ipc g)) as Hl.
  destruct (SendProcessPayload _ _ _) as [r n]. destruct (ok r) eqn:Er; cbn [negb]; [|done]. intros _. split; [by apply Hl|done].
Qed.

Lemma on_directory_game {A : Type} (m : St (PlayerDirectoryService.t * W) A) d g :
  let '(a, (d', g')) := on_directory m (d, g) in exists w, g' = g <| world := w |>.
Proof. unfold on_directory. destruct (m (d, world g)) as [a [d' w]]. by exists w. Qed.

(** A login that the game has answered. *)
Lemma HandleLoginRequest_answers fuel now e request d d' g g' r :
  tables_agree g -> HandleLoginRequest fuel now e request (d, g) = (returned r, (d', g')) -> ok r = true ->
  exists response,
    last_taken (ipc g') = Some (process_id (source_process (header e)), msg_login_response response) /\
    lr_request_id response = lq_request_id request /\
    lr_game_service_type response = u32 (key_hi (target_receiver (header e))) /\
    lr_game_instance_id response = u32 (key_lo (target_receiver (header e))) /\
    (lr_result_code response = RESULT_CODE_OK ->
     online_through g' (lr_player_id response) (gs_service_type (lq_gate request)) (gs_instance_id (lq_gate request))
       (gs_session_id (lq_gate request))).
Proof.
  intros Ha Hr Hok. unfold HandleLoginRequest in Hr.
  match type of Hr with context [on_directory ?m (d, g)] =>
    pose proof (on_directory_game m d g) as Hd; destruct (on_directory m (d, g)) as [[resolved| |] [d1 g1]] end; try discriminate Hr.
  destruct Hd as [w ->]. unfold on_game at 1 in Hr.
  match type of Hr with context [ActivatePlayer now ?p ?a ?b ?c ?x ?g1] =>
    pose proof (ActivatePlayer_moves now p a b c x g1 (Ha p)) as Hm; destruct (ActivatePlayer now p a b c x g1) as [activate g2] end.
  destruct Hm as [_ Hm]. unfold on_game in Hr.
  match type of Hr with context [reply e ?m g2] => pose proof (reply_taken e m g2) as Ht; destruct (reply e m g2) as [r3 g3] end.
  injection Hr as <- <- <-. destruct (Ht Hok) as [Hl Hs]. eexists. split; [exact Hl|]. split; [done|]. split; [done|]. split; [done|].
  cbn [lr_result_code login_response lr_player_id]. intros Hc.
  assert (ok activate = true) as Hact.
  { unfold answer_code, ToResultCode in Hc. destruct (ok activate); [done|]. simpl in Hc. by destruct (String.eqb _ _). }
  destruct (Hm Hact) as (record & Hrec). exists record. unfold Snapshot in *. by rewrite Hs.
Qed.
End game_side.

(** ** The gate's side *)

Section gate_side.
Context {N W S : Type} `{ProcessSender N} `{Redis W} `{SocketsLaw S} `{ClientCodecs} {mo : MapOrder Z} `{!Deliveries N}.
Implicit Types h : gate N W S.

Lemma RequestLogin_taken inst c platform account area h :
  let '(r, h') := RequestLogin inst c c platform account area h in
  ok r = true -> exists request,
    last_taken (ipc h') = Some (mkProcessId kGameServiceType inst, msg_login_request request) /\
    lq_platform request = platform /\ lq_account_id request = account /\
    lq_gate request = mkGateSession kGateServiceType (mGateInstanceId (login h)) c /\
    mPendingLogins (login h') !! lq_request_id request = Some (mkPendingLogin c c account).
Proof.
  unfold RequestLogin, try, on_ipc, next_login_id.
  match goal with |- context [SendProcessPayload ?t ?m ?n] =>
    pose proof (taken_last t m n) as Hl; destruct (SendProcessPayload t m n) as [r n'] end.
  destruct (ok r) eqn:Er; cbn [negb]; [|congruence]. intros _. eexists. split; [by apply Hl|]. split_and!; try done.
  simpl. by rewrite lookup_insert_eq.
Qed.

(** The session is logged in to the game that answered. *)
Definition logged_in_session h c account player game_type game_instance : Prop :=
  exists session, sessions h !! c = Some session /\ ses_state session = active /\ ses_account_id session = account /\
    ses_player_id session = player /\ ses_game_service_type session = game_type /\ ses_game_instance_id session = game_instance.

Lemma HandleLoginResponse_logs_in now response pending session h :
  mPendingLogins (login h) !! lr_request_id response = Some pending -> lr_result_code response = RESULT_CODE_OK ->
  sessions h !! pl_gate_session_id pending = Some session ->
  let h' := (HandleProcessMessage now (msg_login_response response) h).2 in
  logged_in_session h' (pl_gate_session_id pending) (pl_account_id pending) (lr_player_id response)
    (lr_game_service_type response) (lr_game_instance_id response) /\
  routes h' !! lr_player_id response =
    Some (mkGatePlayerRoute (lr_game_service_type response) (lr_game_instance_id response) (pl_gate_session_id pending) now) /\
  mPendingLogins (login h') !! lr_request_id response = None.
Proof.
  intros Hp Hok Hs. unfold HandleProcessMessage. rewrite (login_response_effect now response pending h Hp Hok).
  unfold SendLoginResponse, GateClientProtocolService.SendLoginResponse.
  match goal with |- context [GateClientProtocolService.SendMessage _ _ _ ?c ?i ?m ?f ?g1] =>
    destruct (message_same now c i m f g1) as (E1 & E2 & _ & E3 & _); destruct (GateClientProtocolService.SendMessage _ _ _ _ _ _ _ g1) as [r h'] end.
  simpl in E1, E2, E3. unfold logged_in_session. cbn [snd]. rewrite E1, E2, E3. simpl. unfold GateSessionService.Activate. rewrite Hs. simpl.
  rewrite !lookup_insert_eq, lookup_delete_eq. split; [|done]. eexists. by split_and!.
Qed.
End gate_side.

(** ** Both sides *)

#[local] Existing Instance Session.player_session_state_eq_dec.

Section properties.
Import GameLogin PlayerLoginService.
Context {N W : Type} {sender : ProcessSender N} {redis : Redis W} {S : Type} {socks : Sockets S} {socks_law : SocketsLaw S} {codecs : ClientCodecs}.
Context {mo : MapOrder Z} {sent : Deliveries N}.
Context {GN GW : Type} {game_redis : Redis GW} {maria : Maria GW} {codec : PlayerDataCodec} {gipc : Session.GameIpc GN}
  {gipc_law : Session.GameIpcLaw GN} {game_sent : Deliveries GN}.
Implicit Types (h : gate N W S) (g : Session.game GN GW).

(** C8: a login that goes through joins both ends.  When a gate has taken a client's
    login up, its last message asks game 1 to log that account in for the session
    of this connection; when a game has answered this request, its last message
    goes back to the sender with the request's id, and if it says OK, the player is
    online in the game through exactly this gate session; and when a gate that
    still waits for the answer and has the session gets it, the session is active
    for that account and player, in the game that answered, and the player's
    requests are routed there. *)
Theorem login_joins_both_ends h now c request g0 g :
  auth_ok (GateAuthService.Validate (cl_platform request) (cl_account_id request) (cl_credential request)) = true ->
  ok (HandleClientLogin now c request h).1 = true ->
  Session.fresh_game g0 -> rtc Session.SessionProofs.game_step g0 g ->
  let h1 := (HandleClientLogin now c request h).2 in
  exists ask, last_taken (ipc h1) = Some (mkProcessId kGameServiceType 1, msg_login_request ask) /\
    lq_platform ask = cl_platform request /\ lq_account_id ask = cl_account_id request /\
    mPendingLogins (login h1) !! lq_request_id ask = Some (mkPendingLogin c c (cl_account_id request)) /\
  forall fuel now' e r d d' g', HandleLoginRequest fuel now' e ask (d, g) = (returned r, (d', g')) -> ok r = true ->
  exists answer, last_taken (Session.ipc g') = Some (process_id (source_process (header e)), msg_login_response answer) /\
    (lr_result_code answer = RESULT_CODE_OK ->
     online_through g' (lr_player_id answer) kGateServiceType (mGateInstanceId (login h)) c /\
     forall now'' h2 session,
       mPendingLogins (login h2) !! lr_request_id answer = mPendingLogins (login h1) !! lq_request_id ask -> sessions h2 !! c = Some session ->
       let h3 := (HandleProcessMessage now'' (msg_login_response answer) h2).2 in
       let '(game_type, game_instance) := (u32 (key_hi (target_receiver (header e))), u32 (key_lo (target_receiver (header e)))) in
       logged_in_session h3 c (cl_account_id request) (lr_player_id answer) game_type game_instance /\
       routes h3 !! lr_player_id answer = Some (mkGatePlayerRoute game_type game_instance c now'')).
Proof.
  intros Ha Hok Hf Hs h1. pose proof (HandleClientLogin_asks now c request h Ha) as Hask. subst h1.
  destruct (HandleClientLogin now c request h) as [r0 h1]. destruct (Hask Hok) as (h0 & Ei & E). cbn [fst snd] in *.
  pose proof (RequestLogin_taken 1 c (cl_platform request) (cl_account_id request) 1 h0) as Ht. rewrite <- E in Ht.
  destruct (Ht Hok) as (ask & Hl & Hpl & Hac & Hga & Hpe). exists ask. split_and!; [exact Hl|exact Hpl|exact Hac|exact Hpe|].
  intros fuel now' e r d d' g' Hr Hrok.
  destruct (HandleLoginRequest_answers fuel now' e ask d d' g g' r
    (Session.steps_agree g0 g Hs (Session.fresh_agree g0 Hf)) Hr Hrok) as (answer & Hl' & Hid & Ht' & Hi' & Hon).
  exists answer. split; [exact Hl'|]. intros Hcode. rewrite Hga, Ei in Hon. split; [exact (Hon Hcode)|].
  intros now'' h2 session Hp Hses. rewrite Hpe in Hp.
  destruct (HandleLoginResponse_logs_in now'' answer _ session h2 Hp Hcode Hses) as (L1 & L2 & _). rewrite Ht', Hi' in L1, L2. by split.
Qed.

Lemma HandlePlayerDisconnected_spec now e notice g :
  let '(r, g') := HandlePlayerDisconnected now e notice g in
  match Session.PlayerSessionService.Snapshot g (pd_player notice) with
  | None => r = Success /\ g' = g
  | Some record =>
      if bool_decide (Session.state record = Session.online /\
           mkGateSession (Session.gate_service_type record) (Session.gate_instance_id record) (Session.gate_session_id record) = pd_gate notice)
      then r = Success /\ Session.sessions g' = <[pd_player notice := Session.PlayerSessionService.make_detached now g record]> (Session.sessions g)
      else ok r = false /\ g' = g
  end.
Proof.
  unfold HandlePlayerDisconnected, Session.PlayerSessionService.DetachPlayer_of, Session.PlayerSessionService.detach_if, Session.PlayerSessionService.Snapshot.
  destruct notice as [p [gt gi gs] reason time]. simpl.
  destruct (Session.sessions g !! p) as [record|]; [|done].
  destruct (bool_decide (Session.state record = Session.online)) eqn:Eo; [apply bool_decide_eq_true in Eo|apply bool_decide_eq_false in Eo].
  2:{ rewrite bool_decide_eq_false_2 by tauto. done. }
  cbn [negb].
  destruct (Z.eqb_spec (Session.gate_service_type record) gt) as [->|Hne]; [|rewrite bool_decide_eq_false_2 by (intros [_ [=]]; done); done].
  destruct (Z.eqb_spec (Session.gate_instance_id record) gi) as [->|Hne]; [|rewrite bool_decide_eq_false_2 by (intros [_ [=]]; done); done].
  destruct (Z.eqb_spec (Session.gate_session_id record) gs) as [->|Hne]; [|rewrite bool_decide_eq_false_2 by (intros [_ [=]]; done); done].
  by rewrite bool_decide_eq_true_2.
Qed.

End properties.

(** ** Alice logs in and leaves *)

Module ExampleSystem.
Import GateLogin.ExampleGate Connection.ExampleSockets ExampleServers ExampleRepository.

#[local] Existing Instance order_Z.
#[local] Existing Instance example_maria.
#[local] Existing Instance ExampleGate.outbox_sender.
#[local] Existing Instance ExampleGate.example_redis_kv.
#[local] Existing Instance ExampleGate.example_codecs.
#[local] Instance redis_servers : Redis servers := example_redis true.

#[local] Instance outbox_deliveries : Deliveries outbox := {| taken := fun sent => sent; taken_law := fun _ _ _ => eq_refl |}.

(** The IPC service of the game: the players bound and the messages taken. *)
Record game_net : Type := mkGameNet { gn_bound : gset Z; gn_sent : outbox }.
#[local] Instance game_net_ipc : Session.GameIpc game_net := {|
  Session.BindLocalPlayer := fun p n => (Success, mkGameNet ({[p]} ∪ gn_bound n) (gn_sent n));
  Session.UnbindLocalPlayer := fun p n =>
    if bool_decide (p ∈ gn_bound n) then (Success, mkGameNet (gn_bound n ∖ {[p]}) (gn_sent n)) else (Failure "player is not bound", n);
  Session.game_sender := fun target m n => (Success, mkGameNet (gn_bound n) (gn_sent n ++ [(target, m)]))
|}.
#[local] Instance game_net_law : Session.GameIpcLaw game_net.
Proof.
  refine {| Session.bound := fun n p => p ∈ gn_bound n |}.
  - intros p n. simpl. split_and!; [set_solver..|done].
  - intros p n. simpl. case_bool_decide; simpl; split_and!; try done; set_solver.
  - done.
Defined.
#[local] Instance game_net_deliveries : Deliveries game_net := {| taken := gn_sent; taken_law := fun _ _ _ => eq_refl |}.

Definition game_started : Session.game game_net servers :=
  Session.mkGame empty_repository Session.ExampleGame.example_lease ∅ (mkGameNet ∅ []) ∅ 60 false false no_rows.
Definition directory : PlayerDirectoryService.t := PlayerDirectoryService.create (Some example_service) "player".

Lemma game_started_fresh : Session.fresh_game game_started.
Proof. by split_and!. Qed.

(** Her connection is open; the envelope comes from gate 1 to game 1. *)
Definition connected : gate outbox kv net := run 1 alice.
Definition login_request : LoginRequest := mkLoginRequest (mkRequestHeader 1001 1 0) "web" "alice" "secret" 1 "".
Definition login_taken : gate outbox kv net := (HandleClientLogin 2500 1 login_request connected).2.
Definition to_game_1 : Envelope :=
  mkEnvelope (mkEnvelopeHeader (mkProcessRef (mkProcessId 20 1) 1) direct (mkReceiverAddress rt_process 10 1) None 1 0) default_scope "" [].
Definition asked_for : LoginPlayerRequest := mkLoginPlayerRequest 1 (mkGateSession 20 1 1) "web" "alice" 1 1 "runtime" "runtime-login-token".
Definition game_answered : outcome Result * (PlayerDirectoryService.t * Session.game game_net servers) :=
  GameLogin.PlayerLoginService.HandleLoginRequest 1 3000 to_game_1 asked_for (directory, game_started).

Definition game_joined : Session.game game_net servers := game_answered.2.2.
Definition logged_in_gate : gate outbox kv net := (HandleProcessMessage 4000 (msg_login_response (accepted_answer 1 100000)) login_taken).2.

Lemma login_joins_both_ends_witness :
  online_through game_joined 100000 20 1 1 /\ logged_in_session logged_in_gate 1 "alice" 100000 10 1.
Proof.
  assert (ok (HandleClientLogin 2500 1 login_request connected).1 = true) as Eok by by vm_compute.
  pose proof (login_joins_both_ends connected 2500 1 login_request game_started game_started eq_refl Eok game_started_fresh (rtc_refl _ _)) as Hj.
  cbv zeta in Hj. destruct Hj as (ask & Hl & _ & _ & _ & Hr).
  assert (ask = asked_for) as -> by (vm_compute in Hl; by injection Hl as <-).
  assert (game_answered = (returned Success, (game_answered.2.1, game_joined))) as Eg.
  { assert (game_answered.1 = returned Success) as E by by vm_compute. rewrite <- E. exact (pair_eta game_answered). }
  destruct (Hr 1%nat 3000 to_game_1 Success directory game_answered.2.1 game_joined Eg eq_refl) as (answer & Ha & Hj). clear Hr Hl.
  assert (answer = accepted_answer 1 100000) as -> by (vm_compute in Ha; by injection Ha as <-).
  destruct (Hj eq_refl) as (Hon & Hb). split; [exact Hon|].
  assert (sessions login_taken !! 1 = Some (default new_gate_session (sessions login_taken !! 1))) as Es by by vm_compute.
  specialize (Hb 4000 login_taken _ eq_refl Es). cbv beta iota zeta in Hb. exact (proj1 Hb).
Defined.

(** Player 100007 is online through her session, which ends. *)
Definition game_with_player : Session.game game_net servers :=
  (Session.PlayerSessionService.ActivatePlayer 1000 100007 20 1 1 false game_started).2.
Definition session_1 : GateSessionRecord := default new_gate_session (sessions answered !! 1).

End ExampleSystem.
