(* ===== verification/Application.v ===== *)
(** * Application: [framework/application/base.h], [lifecycle_task.h] and
    [service_base.h]

    An application owns services that it loads, starts, stops and unloads in
    batches.  A stage of a service may throw; what a stage does to the rest of the
    process is a change of an abstract world. *)

From Stdlib Require Import Sorted.
From S2P Require Import Prelude.

(** ** Exceptions and tasks *)

Inductive exn : Type := std_exception (what : string) | other_exception.
#[export] Instance exn_eq_dec : EqDecision exn.
Proof. solve_decision. Defined.

(** How a call ends: it returns, it throws, or it still waits when its fuel is used
    up. *)
Inductive completion : Type := completed | raised (e : exn) | waiting.
#[export] Instance completion_eq_dec : EqDecision completion.
Proof. solve_decision. Defined.

Module LifecycleTask.
Section task.
Context {W : Type}.

(** [mPoller]; a poller may throw as well. *)
Record t : Type := mkLifecycleTask { mPoller : option (St W (exn + bool)) }.

Definition Completed : t := mkLifecycleTask None.
Definition Poll (poller : St W (exn + bool)) : t := mkLifecycleTask (Some poller).

Definition IsCompleted (task : t) : St W (exn + bool) :=
  match mPoller task with None => ret (inr true) | Some poller => poller end.

Fixpoint poll (fuel : nat) (poller : St W (exn + bool)) : St W completion :=
  match fuel with
  | O => ret waiting
  | S fuel => fun w =>
      match poller w with
      | (inl e, w) => (raised e, w)
      | (inr true, w) => (completed, w)
      | (inr false, w) => poll fuel poller w
      end
  end.

Definition Wait (fuel : nat) (task : t) : St W completion :=
  match mPoller task with None => ret completed | Some poller => poll fuel poller end.
End task.
Arguments t : clear implicits.
End LifecycleTask.

(** A virtual function that returns a task. *)
Abbreviation stage W := (St W (exn + LifecycleTask.t W)).

(** [service.Load().Wait()] and its like *)
Definition wait_for {W : Type} (fuel : nat) (call : stage W) : St W completion :=
  fun w => match call w with (inl e, w) => (raised e, w) | (inr task, w) => LifecycleTask.Wait fuel task w end.

(** ** Services *)

Record IService (W : Type) : Type := mkService {
  GetName : string;
  GetBatch : Z;
  service_Load : stage W;
  service_Start : stage W;
  service_Stop : stage W;
  service_Unload : stage W
}.
Arguments mkService {W}. Arguments GetName {W}. Arguments GetBatch {W}. Arguments service_Load {W}. Arguments service_Start {W}.
Arguments service_Stop {W}. Arguments service_Unload {W}.

(** A service that overrides no stage. *)
Definition ServiceBase {W : Type} (name : string) (batch : Z) : IService W :=
  let nothing := ret (inr LifecycleTask.Completed) in mkService name batch nothing nothing nothing nothing.

(** ** Applications *)

Module ApplicationBase.
Section application.
Context {W : Type}.

Record t : Type := mkApplicationBase {
  mServices : list (IService W);
  mServicesInOrder : list (IService W);
  mLoadedServices : list (IService W);
  mStartedServices : list (IService W);
  mServicesRegistered : bool;
  mRuntimeCommandsRegistered : bool
}.
#[export] Instance eta_application : Eta t := fun s =>
  mkApplicationBase (mServices s) (mServicesInOrder s) (mLoadedServices s) (mStartedServices s) (mServicesRegistered s)
    (mRuntimeCommandsRegistered s).

Definition create : t := mkApplicationBase [] [] [] [] false false.

(** What the derived class overrides: the services it hands to [AddService], in
    their order (a null pointer is [None]), its commands and its hooks. *)
Variable ApplicationName : string.
Variable RegisterServices : list (option (IService W)).
Variable RegisterRuntimeCommands : St W (option exn).
Variable OnLoad OnStart OnStop OnUnload : stage W.
(** How often [Wait] polls a task. *)
Variable fuel : nat.

(** [m; k], where an exception of [m] skips [k]. *)
Definition andthen {A : Type} (m k : St A completion) : St A completion :=
  fun s => match m s with (completed, s) => k s | (c, s) => (c, s) end.
Definition on_world (m : St W completion) : St (t * W) completion := fun '(s, w) => let '(c, w) := m w in (c, (s, w)).
Definition on_state (f : t -> t) : St (t * W) completion := fun '(s, w) => (completed, (f s, w)).

Definition AddService (service : option (IService W)) : St t completion :=
  fun s =>
    match service with
    | None => (raised (std_exception "service must not be null"), s)
    | Some service =>
        if String.eqb (GetName service) "" then (raised (std_exception "service name must not be empty"), s)
        else (completed, s <| mServices := mServices s ++ [service] |>)
    end.

Fixpoint add_services (services : list (option (IService W))) : St t completion :=
  match services with
  | [] => ret completed
  | service :: services => andthen (AddService service) (add_services services)
  end.

(** The set of the names seen so far. *)
Fixpoint validate_names (names : gset string) (services : list (IService W)) : completion :=
  match services with
  | [] => completed
  | service :: services =>
      if bool_decide (GetName service ∈ names) then raised (std_exception ("duplicate service name: " +:+ GetName service))
      else validate_names ({[GetName service]} ∪ names) services
  end.
Definition ValidateServices (s : t) : completion := validate_names ∅ (mServices s).

(** [std::stable_sort] by batch *)
Fixpoint insert_service (service : IService W) (services : list (IService W)) : list (IService W) :=
  match services with
  | [] => [service]
  | other :: rest => if GetBatch service <=? GetBatch other then service :: services else other :: insert_service service rest
  end.
Fixpoint stable_sort (services : list (IService W)) : list (IService W) :=
  match services with [] => [] | service :: services => insert_service service (stable_sort services) end.

Definition EnsureServicesRegistered : St t completion :=
  fun s =>
    if mServicesRegistered s then (completed, s)
    else
      andthen (add_services RegisterServices)
        (fun s =>
           match ValidateServices s with
           | completed => (completed, s <| mServicesInOrder := stable_sort (mServices s) |> <| mServicesRegistered := true |>)
           | c => (c, s)
           end) s.

(** What is thrown instead of an exception of [RegisterRuntimeCommands]. *)
Definition command_failure (e : exn) : exn :=
  std_exception (match e with
    | std_exception what => "failed to register runtime commands for application '" +:+ ApplicationName +:+ "': " +:+ what
    | other_exception => "failed to register runtime commands for application '" +:+ ApplicationName +:+ "'"
    end).

Definition EnsureRuntimeCommandsRegistered : St (t * W) completion :=
  fun '(s, w) =>
    if mRuntimeCommandsRegistered s then (completed, (s, w))
    else
      let '(failure, w) := RegisterRuntimeCommands w in
      match failure with
      | Some e => (raised (command_failure e), (s, w))
      | None => (completed, (s <| mRuntimeCommandsRegistered := true |>, w))
      end.

(** [CaptureFailure]: the first exception is kept; [None] is a call that still waits. *)
Definition CaptureFailure (error : option exn) (operation : St W completion) : St W (option (option exn)) :=
  fun w =>
    match operation w with
    | (completed, w) => (Some error, w)
    | (raised e, w) => (Some (match error with None => Some e | _ => error end), w)
    | (waiting, w) => (None, w)
    end.

Definition rethrow (error : option exn) : completion := match error with None => completed | Some e => raised e end.

Fixpoint capture_each (call : IService W -> stage W) (services : list (IService W)) (error : option exn) : St W (option (option exn)) :=
  match services with
  | [] => ret (Some error)
  | service :: services => fun w =>
      match CaptureFailure error (wait_for fuel (call service)) w with
      | (Some error, w) => capture_each call services error w
      | (None, w) => (None, w)
      end
  end.

(** The services from the last to the first. *)
Definition Rollback (services : list (IService W)) (call : IService W -> stage W) : St W completion :=
  fun w =>
    match capture_each call (rev services) None w with
    | (Some error, w) => (rethrow error, w)
    | (None, w) => (waiting, w)
    end.

(** One batch: each service's stage, then [on_success]. *)
Fixpoint run_batch (call : IService W -> stage W) (on_success : IService W -> t -> t) (services : list (IService W))
    : St (t * W) completion :=
  match services with
  | [] => ret completed
  | service :: services =>
      andthen (on_world (wait_for fuel (call service))) (andthen (on_state (on_success service)) (run_batch call on_success services))
  end.

(** The services of the first batch and the others. *)
Fixpoint same_batch (batch : Z) (services : list (IService W)) : list (IService W) * list (IService W) :=
  match services with
  | service :: rest =>
      if GetBatch service =? batch then let '(front, back) := same_batch batch rest in (service :: front, back) else ([], services)
  | [] => ([], [])
  end.

Fixpoint forward_batches (rounds : nat) (call : IService W -> stage W) (on_success : IService W -> t -> t) (services : list (IService W))
    : St (t * W) completion :=
  match rounds, services with
  | S rounds, service :: _ =>
      let '(batch, rest) := same_batch (GetBatch service) services in
      andthen (run_batch call on_success batch) (forward_batches rounds call on_success rest)
  | _, _ => ret completed
  end.

(** A round per batch, of which there are at most as many as services. *)
Definition RunForwardBatches (call : IService W -> stage W) (on_success : IService W -> t -> t) : St (t * W) completion :=
  fun '(s, w) => forward_batches (length (mServicesInOrder s)) call on_success (mServicesInOrder s) (s, w).

Fixpoint reverse_batches (rounds : nat) (call : IService W -> stage W) (services : list (IService W)) (error : option exn)
    : St W (option (option exn)) :=
  match rounds, services with
  | S rounds, service :: _ =>
      let '(batch, rest) := same_batch (GetBatch service) services in
      fun w =>
        match capture_each call batch error w with
        | (Some error, w) => reverse_batches rounds call rest error w
        | (None, w) => (None, w)
        end
  | _, _ => ret (Some error)
  end.

(** The list is walked from its end. *)
Definition RunReverseBatches (services : list (IService W)) (call : IService W -> stage W) (error : option exn) : St W (option (option exn)) :=
  reverse_batches (length services) call (rev services) error.

(** [try { run } catch (...) { Rollback; clear; throw; }] *)
Definition or_rollback (run : St (t * W) completion) (done : t -> list (IService W)) (undo : IService W -> stage W) (clear : t -> t)
    : St (t * W) completion :=
  fun sw =>
    match run sw with
    | (raised e, (s, w)) =>
        match Rollback (done s) undo w with
        | (completed, w) => (raised e, (clear s, w))
        | (c, w) => (c, (s, w))
        end
    | other => other
    end.

Definition clear_loaded (s : t) : t := s <| mLoadedServices := [] |>.
Definition clear_started (s : t) : t := s <| mStartedServices := [] |>.

Definition Load : St (t * W) completion :=
  andthen (fun '(s, w) => let '(c, s) := EnsureServicesRegistered s in (c, (s, w)))
    (andthen EnsureRuntimeCommandsRegistered
      (andthen (on_world (wait_for fuel OnLoad))
        (andthen (on_state clear_loaded)
          (or_rollback (RunForwardBatches service_Load (fun service s => s <| mLoadedServices := mLoadedServices s ++ [service] |>))
             mLoadedServices service_Unload clear_loaded)))).

Definition Start : St (t * W) completion :=
  andthen (on_world (wait_for fuel OnStart))
    (andthen (on_state clear_started)
      (or_rollback (RunForwardBatches service_Start (fun service s => s <| mStartedServices := mStartedServices s ++ [service] |>))
         mStartedServices service_Stop clear_started)).

(** [Stop] and [Unload]: the reverse run, the hook, the first exception. *)
Definition shut (services : t -> list (IService W)) (call : IService W -> stage W) (clear : t -> t) (hook : stage W) : St (t * W) completion :=
  fun '(s, w) =>
    match RunReverseBatches (services s) call None w with
    | (None, w) => (waiting, (s, w))
    | (Some error, w) =>
        match CaptureFailure error (wait_for fuel hook) w with
        | (None, w) => (waiting, (clear s, w))
        | (Some error, w) => (rethrow error, (clear s, w))
        end
    end.

Definition Stop : St (t * W) completion := shut mStartedServices service_Stop clear_started OnStop.
Definition Unload : St (t * W) completion := shut mLoadedServices service_Unload clear_loaded OnUnload.

End application.
Arguments t : clear implicits.
End ApplicationBase.

(** ** Lemmas *)

Module ApplicationProofs.
Import ApplicationBase.

Section application.
Context {W : Type}.
Implicit Types (s : t W) (w : W) (service : IService W) (services : list (IService W)).
Variable fuel : nat.

(** What one stage of several services does when none throws. *)
Fixpoint stages_ok (call : IService W -> stage W) (services : list (IService W)) w : option W :=
  match services with
  | [] => Some w
  | service :: services => match wait_for fuel (call service) w with (completed, w) => stages_ok call services w | _ => None end
  end.

(** And when exceptions do not stop the others: the world and the first of them. *)
Fixpoint stages_all (call : IService W -> stage W) (services : list (IService W)) w : option (option exn * W) :=
  match services with
  | [] => Some (None, w)
  | service :: services =>
      match wait_for fuel (call service) w with
      | (completed, w) => stages_all call services w
      | (raised e, w) => match stages_all call services w with Some (_, w) => Some (Some e, w) | None => None end
      | (waiting, _) => None
      end
  end.

Definition first_of (e e' : option exn) : option exn := match e with None => e' | _ => e end.

Lemma capture_each_all (call : IService W -> stage W) services error w :
  match capture_each fuel call services error w with
  | (Some error', w') => exists e, stages_all call services w = Some (e, w') /\ error' = first_of error e
  | (None, _) => stages_all call services w = None
  end.
Proof.
  revert error w. induction services as [|service services IH]; intros error w; simpl; [exists None; by destruct error|].
  unfold CaptureFailure. destruct (wait_for fuel (call service) w) as [[|e|] w1]; [| |done].
  - apply IH.
  - specialize (IH (match error with None => Some e | _ => error end) w1).
    destruct (capture_each _ _ _ _ w1) as [[error'|] w'].
    + destruct IH as (e' & -> & ->). exists (Some e). by destruct error.
    + by rewrite IH.
Qed.

Lemma same_batch_app batch services : let '(front, back) := same_batch batch services in services = front ++ back.
Proof.
  induction services as [|service services IH]; simpl; [done|]. destruct (_ =? _); [|done].
  destruct (same_batch batch services) as [front back]. simpl. by f_equal.
Qed.

Lemma same_batch_shorter service services :
  let '(front, back) := same_batch (GetBatch service) (service :: services) in (length back <= length services)%nat.
Proof.
  simpl. rewrite Z.eqb_refl. pose proof (same_batch_app (GetBatch service) services) as E.
  destruct (same_batch _ services) as [front back]. rewrite E, length_app. lia.
Qed.

Lemma andthen_assoc {A : Type} (m1 m2 m3 : St A completion) x : andthen (andthen m1 m2) m3 x = andthen m1 (andthen m2 m3) x.
Proof. unfold andthen. by destruct (m1 x) as [[] y]. Qed.

Lemma andthen_ext {A : Type} (m k k' : St A completion) x : (forall y, k y = k' y) -> andthen m k x = andthen m k' x.
Proof. intros E. unfold andthen. destruct (m x) as [[] y]; [apply E|done..]. Qed.

Lemma run_batch_app (call : IService W -> stage W) on_success l1 l2 sw :
  run_batch fuel call on_success (l1 ++ l2) sw = andthen (run_batch fuel call on_success l1) (run_batch fuel call on_success l2) sw.
Proof.
  revert sw. induction l1 as [|service l1 IH]; intros sw; [done|]. simpl. rewrite !andthen_assoc. apply andthen_ext. intros y.
  rewrite andthen_assoc. by apply andthen_ext.
Qed.

(** Batch by batch is one after the other. *)
Lemma forward_batches_run rounds (call : IService W -> stage W) on_success services sw :
  (length services <= rounds)%nat -> forward_batches fuel rounds call on_success services sw = run_batch fuel call on_success services sw.
Proof.
  revert services sw. induction rounds as [|rounds IH]; intros [|service services] sw Hl; try done; simpl in Hl; [lia|].
  cbn [forward_batches]. pose proof (same_batch_app (GetBatch service) (service :: services)) as E.
  pose proof (same_batch_shorter service services) as Hs. destruct (same_batch _ (service :: services)) as [front back].
  rewrite E, run_batch_app. apply andthen_ext. intros y. apply IH. lia.
Qed.

Lemma capture_each_app (call : IService W -> stage W) l1 l2 error w :
  capture_each fuel call (l1 ++ l2) error w =
    match capture_each fuel call l1 error w with (Some error, w) => capture_each fuel call l2 error w | (None, w) => (None, w) end.
Proof.
  revert error w. induction l1 as [|service l1 IH]; intros error w; simpl; [done|].
  destruct (CaptureFailure _ _ w) as [[error'|] w1]; [apply IH|done].
Qed.

Lemma reverse_batches_run rounds (call : IService W -> stage W) services error w :
  (length services <= rounds)%nat -> reverse_batches fuel rounds call services error w = capture_each fuel call services error w.
Proof.
  revert services error w. induction rounds as [|rounds IH]; intros [|service services] error w Hl; try done; simpl in Hl; [lia|].
  cbn [reverse_batches]. pose proof (same_batch_app (GetBatch service) (service :: services)) as E.
  pose proof (same_batch_shorter service services) as Hs. destruct (same_batch _ (service :: services)) as [front back].
  rewrite E, capture_each_app. destruct (capture_each _ _ front _ w) as [[error'|] w1]; [apply IH; lia|done].
Qed.

(** *** A forward run *)

Definition run_result call (services : list (IService W)) (c : completion) (done : list (IService W)) w w' : Prop :=
  match c with
  | completed => done = services /\ stages_ok call services w = Some w'
  | raised e => exists service rest w1, services = done ++ service :: rest /\ stages_ok call done w = Some w1 /\
      wait_for fuel (call service) w1 = (raised e, w')
  | waiting => exists service rest w1, services = done ++ service :: rest /\ stages_ok call done w = Some w1 /\
      wait_for fuel (call service) w1 = (waiting, w')
  end.

Lemma run_result_cons call service services c done w w1 w' :
  wait_for fuel (call service) w = (completed, w1) -> run_result call services c done w1 w' ->
  run_result call (service :: services) c (service :: done) w w'.
Proof.
  intros E. destruct c as [|e|]; simpl.
  - intros [-> Ho]. by rewrite E.
  - intros (x & rest & w2 & -> & Ho & Hx). exists x, rest, w2. by rewrite E.
  - intros (x & rest & w2 & -> & Ho & Hx). exists x, rest, w2. by rewrite E.
Qed.

(** [add done s] stands for the pushes of [on_success]. *)
Lemma run_batch_result call on_success (add : list (IService W) -> t W -> t W) services s w :
  (forall s, add [] s = s) -> (forall service l s, add l (on_success service s) = add (service :: l) s) ->
  let '(c, (s', w')) := run_batch fuel call on_success services (s, w) in
  exists done, s' = add done s /\ run_result call services c done w w'.
Proof.
  intros Hn Hc. revert s w. induction services as [|service services IH]; intros s w; simpl; [by exists []|].
  unfold andthen at 1, on_world. destruct (wait_for fuel (call service) w) as [[|e|] w1] eqn:E.
  - unfold andthen, on_state. specialize (IH (on_success service s) w1).
    destruct (run_batch fuel call on_success services (on_success service s, w1)) as [c [s' w']]. destruct IH as (done & -> & Hr).
    exists (service :: done). split; [apply Hc|]. by eapply run_result_cons.
  - exists []. split; [done|]. by exists service, services, w.
  - exists []. split; [done|]. by exists service, services, w.
Qed.

(** *** The order of the services *)

Definition batch_le (x y : IService W) : Prop := GetBatch x <= GetBatch y.

Lemma insert_perm service services : insert_service service services ≡ₚ service :: services.
Proof. induction services as [|x l IH]; simpl; [done|]. destruct (_ <=? _); [done|]. rewrite IH. apply Permutation_swap. Qed.

Lemma insert_sorted service services : StronglySorted batch_le services -> StronglySorted batch_le (insert_service service services).
Proof.
  induction 1 as [|x l Hl IH Hx]; simpl; [by repeat constructor|]. destruct (Z.leb_spec (GetBatch service) (GetBatch x)).
  - constructor; [by constructor|]. constructor; [done|]. eapply Forall_impl; [exact Hx|]. unfold batch_le. intros y Hy. lia.
  - constructor; [done|]. rewrite insert_perm. constructor; [unfold batch_le; lia|done].
Qed.

(** Sorting moves no service past another of its batch. *)
Lemma insert_filter batch service services :
  filter (fun x => GetBatch x = batch) (insert_service service services) = filter (fun x => GetBatch x = batch) (service :: services).
Proof.
  induction services as [|x l IH]; [done|]. cbn [insert_service]. destruct (Z.leb_spec (GetBatch service) (GetBatch x)); [done|].
  rewrite filter_cons, IH, !filter_cons. destruct (decide (GetBatch x = batch)), (decide (GetBatch service = batch)); try done. lia.
Qed.

Lemma stable_sort_spec services :
  stable_sort services ≡ₚ services /\ StronglySorted batch_le (stable_sort services) /\
  forall batch, filter (fun x => GetBatch x = batch) (stable_sort services) = filter (fun x => GetBatch x = batch) services.
Proof.
  induction services as [|service services (IH1 & IH2 & IH3)]; simpl; [by repeat constructor|]. split; [|split].
  - rewrite insert_perm. by constructor.
  - by apply insert_sorted.
  - intros batch. rewrite insert_filter, !filter_cons, IH3. done.
Qed.

Lemma validate_names_spec names services :
  match validate_names names services with
  | completed => NoDup (GetName <$> services) /\ forall service, service ∈ services -> GetName service ∉ names
  | raised e => exists service, service ∈ services /\ e = std_exception ("duplicate service name: " +:+ GetName service)
  | waiting => False
  end.
Proof.
  revert names. induction services as [|service services IH]; intros names; simpl.
  { split; [constructor|]. intros x Hx. by apply elem_of_nil in Hx. }
  case_bool_decide as Hn; [exists service; split; [apply list_elem_of_here|done]|].
  specialize (IH ({[GetName service]} ∪ names)). destruct (validate_names _ services) as [|e|]; [|destruct IH as (x & Hx & ->)|done].
  - destruct IH as [IH1 IH2]. split.
    + constructor; [|done]. intros (x & E & Hx)%list_elem_of_fmap. specialize (IH2 x Hx). set_solver.
    + intros x [->|Hx]%elem_of_cons; [done|]. specialize (IH2 x Hx). set_solver.
  - exists x. split; [by apply list_elem_of_further|done].
Qed.

Lemma add_services_spec (services : list (option (IService W))) s :
  let '(c, s') := add_services services s in
  match c with
  | completed => exists l, services = Some <$> l /\ s' = s <| mServices := mServices s ++ l |> /\ Forall (fun x => GetName x <> "") l
  | raised _ => True
  | waiting => False
  end.
Proof.
  revert s. induction services as [|[service|] services IH]; intros s; simpl.
  - exists []. rewrite app_nil_r. by destruct s.
  - unfold andthen, AddService. destruct (String.eqb_spec (GetName service) "") as [|Hne]; [done|].
    match goal with |- context [add_services services ?s1] => specialize (IH s1); destruct (add_services services s1) as [[| |] s'] end; try done.
    destruct IH as (l & -> & -> & Hl). exists (service :: l). split; [done|]. split; [simpl; by rewrite <- app_assoc|by constructor].
  - done.
Qed.
End application.
End ApplicationProofs.

(** ** Properties *)

Section properties.
Import ApplicationBase ApplicationProofs.
Context {W : Type}.
Variable ApplicationName : string.
Variable RegisterServices : list (option (IService W)).
Variable RegisterRuntimeCommands : St W (option exn).
Variable OnLoad OnStart OnStop OnUnload : stage W.
Variable fuel : nat.
Implicit Types (s : t W) (w : W).

(** A run and its rollback: what is left of the services that were done. *)
Definition guarded_result (call undo : IService W -> stage W) (services : list (IService W)) (c : completion) (left : list (IService W)) w w' : Prop :=
  match c with
  | completed => left = services /\ stages_ok fuel call services w = Some w'
  | raised e => exists before service rest w1 w2 e0 undo_error,
      services = before ++ service :: rest /\ stages_ok fuel call before w = Some w1 /\
      wait_for fuel (call service) w1 = (raised e0, w2) /\ stages_all fuel undo (rev before) w2 = Some (undo_error, w') /\
      match undo_error with None => e = e0 /\ left = [] | Some e1 => e = e1 /\ left = before end
  | waiting => True
  end.

(** The services of an application and their order. *)
Definition kept s : list (IService W) * list (IService W) := (mServices s, mServicesInOrder s).

Lemma forward_run_guarded call undo done_of (push : list (IService W) -> t W -> t W) clear s w :
  (forall s, push [] s = s) -> (forall service l s, push l (push [service] s) = push (service :: l) s) ->
  (forall l s, done_of (push l s) = done_of s ++ l) -> done_of s = [] -> (forall s, done_of (clear s) = []) ->
  (forall l s, kept (push l s) = kept s) -> (forall s, kept (clear s) = kept s) ->
  let '(c, (s', w')) := or_rollback fuel (RunForwardBatches fuel call (fun service => push [service])) done_of undo clear (s, w) in
  guarded_result call undo (mServicesInOrder s) c (done_of s') w w' /\ kept s' = kept s.
Proof.
  intros Hn Hc Hd H0 Hcl Hp Hpc. unfold or_rollback, RunForwardBatches. rewrite forward_batches_run by done.
  pose proof (run_batch_result fuel call (fun service => push [service]) push (mServicesInOrder s) s w Hn Hc) as Hr.
  destruct (run_batch _ _ _ _ (s, w)) as [c [s' w1]]. destruct Hr as (done & -> & Hr). destruct c as [|e|]; simpl in Hr.
  - destruct Hr as [-> Ho]. by rewrite Hd, H0, Hp.
  - destruct Hr as (service & rest & w0 & E & Ho & Hx). unfold Rollback.
    pose proof (capture_each_all fuel undo (rev (done_of (push done s))) None w1) as Ha. rewrite Hd, H0 in *. cbn [app] in *.
    destruct (capture_each _ _ _ None w1) as [[error|] w2]; [|by rewrite Hp].
    destruct Ha as (e1 & Ha & ->). destruct e1 as [e1|]; cbn [first_of rethrow].
    + rewrite Hp, Hd, H0. split; [|done]. by exists done, service, rest, w0, w1, e, (Some e1).
    + rewrite Hpc, Hp, Hcl. split; [|done]. by exists done, service, rest, w0, w1, e, None.
  - by rewrite Hp.
Qed.

(** C17: services start in their order, all of them or none: when [Start] returns,
    every service has been started and is recorded; when it throws, the services
    that had started before the one that threw were stopped from the last to the
    first, whatever their stops throw.  If the stops succeed the exception is that
    of the failed start and nothing is recorded as started; if one of them throws,
    its exception hides the original one and the stopped services stay recorded as
    started. *)
Theorem start_all_or_rollback s w :
  let '(c, (s', w')) := Start OnStart fuel (s, w) in
  match wait_for fuel OnStart w with
  | (completed, w1) => guarded_result service_Start service_Stop (mServicesInOrder s) c (mStartedServices s') w1 w' /\
                       kept s' = kept s
  | other => (c, w') = other /\ s' = s
  end.
Proof.
  unfold Start, andthen at 1, on_world. destruct (wait_for fuel OnStart w) as [[|e|] w1]; [|done..].
  unfold andthen, on_state.
  apply (forward_run_guarded service_Start service_Stop mStartedServices (fun l s => s <| mStartedServices := mStartedServices s ++ l |>)
    clear_started (clear_started s) w1); try done.
  - intros []. unfold update; simpl. by rewrite app_nil_r.
  - intros service l []. simpl. by rewrite <- app_assoc.
Qed.

(** C15: the services are put in order: when an application that has just been created
    is loaded, its services are those it registered, with different names, sorted by
    batch, services of one batch in the order of their registration; each has been
    loaded, in this order. *)
Theorem services_loaded_in_order w :
  let '(c, (s', w')) := Load ApplicationName RegisterServices RegisterRuntimeCommands OnLoad fuel (create, w) in
  c = completed ->
  RegisterServices = Some <$> mServices s' /\ NoDup (GetName <$> mServices s') /\
  mServicesInOrder s' ≡ₚ mServices s' /\ StronglySorted batch_le (mServicesInOrder s') /\
  (forall batch, filter (fun x => GetBatch x = batch) (mServicesInOrder s') = filter (fun x => GetBatch x = batch) (mServices s')) /\
  mLoadedServices s' = mServicesInOrder s' /\
  exists w0 w1, RegisterRuntimeCommands w = (None, w0) /\ wait_for fuel OnLoad w0 = (completed, w1) /\
    stages_ok fuel service_Load (mServicesInOrder s') w1 = Some w'.
Proof.
  destruct (Load _ _ _ _ _ _) as [c [s' w']] eqn:E. intros ->. unfold Load, andthen at 1, EnsureServicesRegistered in E. simpl in E.
  pose proof (add_services_spec RegisterServices create) as Hadd. unfold andthen at 1 in E.
  destruct (add_services RegisterServices create) as [[|e|] s1]; [|discriminate E..]. destruct Hadd as (l & -> & -> & Hl). simpl in E.
  unfold ValidateServices in E. simpl in E. pose proof (validate_names_spec ∅ l) as Hv.
  destruct (validate_names ∅ l) as [|e|]; [|discriminate E..]. destruct Hv as [Hnd _]. destruct (stable_sort_spec l) as (P1 & P2 & P3).
  unfold andthen at 1, EnsureRuntimeCommandsRegistered in E. simpl in E.
  destruct (RegisterRuntimeCommands w) as [[e|] w0]; [discriminate E|]. simpl in E. unfold andthen at 1, on_world in E.
  destruct (wait_for fuel OnLoad w0) as [[|e|] w1] eqn:El; [|discriminate E..]. unfold andthen, on_state in E.
  set (s2 := clear_loaded _) in E.
  pose proof (forward_run_guarded service_Load service_Unload mLoadedServices (fun l s => s <| mLoadedServices := mLoadedServices s ++ l |>)
    clear_loaded s2 w1) as Hg.
  specialize (Hg ltac:(intros []; unfold update; simpl; by rewrite app_nil_r) ltac:(intros service k []; simpl; by rewrite <- app_assoc)
    ltac:(done) ltac:(done) ltac:(done) ltac:(done) ltac:(done)).
  match type of Hg with (let '(_, _) := ?x in _) => assert (x = (completed, (s', w'))) as E' by exact E; destruct x as [c3 [s3 w3]] end.
  injection E' as -> -> ->. destruct Hg as [[E1 E2] [= Es Eo]]. rewrite E1, Es, Eo. do 6 (split; [done|]). by exists w0, w1.
Qed.

(** Stopping reaches every service: unless a stage never ends, [Stop] calls the
    stop of each started service, from the last to the first, and then the hook,
    whatever they throw; afterwards nothing is recorded as started, and the first
    exception, if any, is thrown at the end.  [Unload] does the same for the loaded
    services. *)
Theorem stop_reaches_every_service (unload : bool) s w :
  let services s := if unload then mLoadedServices s else mStartedServices s in
  let call := if unload then service_Unload else service_Stop in
  let hook := if unload then OnUnload else OnStop in
  let '(c, (s', w')) := (if unload then Unload OnUnload fuel else Stop OnStop fuel) (s, w) in
  kept s' = kept s /\
  (c <> waiting -> services s' = [] /\
   exists error w1 hook_end, stages_all fuel call (rev (services s)) w = Some (error, w1) /\ wait_for fuel hook w1 = (hook_end, w') /\
     c = match error with Some e => raised e | None => hook_end end).
Proof.
  cbv zeta. assert (forall get call clear hook, (forall s, kept (clear s) = kept s) -> (forall s, get (clear s) = []) ->
    let '(c, (s', w')) := shut fuel get call clear hook (s, w) in
    kept s' = kept s /\ (c <> waiting -> get s' = [] /\
     exists error w1 hook_end, stages_all fuel call (rev (get s)) w = Some (error, w1) /\ wait_for fuel hook w1 = (hook_end, w') /\
       c = match error with Some e => raised e | None => hook_end end)) as Hshut.
  { intros get call clear hook Hk Hc. unfold shut, RunReverseBatches. rewrite reverse_batches_run by (by rewrite length_rev).
    pose proof (capture_each_all fuel call (rev (get s)) None w) as Ha.
    destruct (capture_each _ _ _ None w) as [[error|] w1]; [|done]. destruct Ha as (e & Ha & ->). unfold CaptureFailure.
    destruct (wait_for fuel hook w1) as [[|e1|] w2] eqn:Eh; [| |by split].
    - split; [done|]. intros _. split; [done|]. exists e, w1, completed. by destruct e.
    - split; [by destruct e|]. intros _. split; [done|]. exists e, w1, (raised e1). by destruct e. }
  destruct unload; [apply (Hshut mLoadedServices)|apply (Hshut mStartedServices)]; done.
Qed.

End properties.

(** ** Three services whose stages are written down *)

Module ExampleApplication.
Import ApplicationBase ApplicationProofs.

(** The world is the list of the stages so far. *)
Abbreviation journal := (list string).
Definition writes (what : string) : stage journal := fun w => (inr LifecycleTask.Completed, w ++ [what]).
Definition throws (what : string) : stage journal := fun w => (inl (std_exception what), w ++ [what]).

Definition recorded (name : string) (batch : Z) (start stop : stage journal) : IService journal :=
  mkService name batch (writes (name +:+ ":load")) start stop (writes (name +:+ ":unload")).

(** The last service does not start; the stop of the first one throws. *)
Definition session_service := recorded "session" 20 (writes "session:start") (writes "session:stop").
Definition connection_service := recorded "connection" 10 (writes "connection:start") (throws "connection:stop").
Definition login_service := recorded "login" 20 (throws "login:start") (writes "login:stop").

Definition example_services : list (option (IService journal)) := [Some session_service; Some connection_service; Some login_service].

Definition loaded_application : completion * (t journal * journal) :=
  Load "gate" example_services (fun w => (None, w)) (writes "app:load") 1 (create, []).
Definition started_application : completion * (t journal * journal) := Start (writes "app:start") 1 loaded_application.2.

Lemma triple_eta {A B C} (x : A * (B * C)) a : x.1 = a -> x = (a, (x.2.1, x.2.2)).
Proof. destruct x as [? [? ?]]. by intros <-. Qed.

Lemma services_loaded_in_order_witness : GetName <$> mLoadedServices loaded_application.2.1 = ["connection"; "session"; "login"].
Proof.
  assert (loaded_application.1 = completed) as E by by vm_compute.
  pose proof (services_loaded_in_order "gate" example_services (fun w => (None, w)) (writes "app:load") 1 []) as Hl.
  assert (Load "gate" example_services (fun w => (None, w)) (writes "app:load") 1 (create, [])
    = (completed, (loaded_application.2.1, loaded_application.2.2))) as E' by exact (triple_eta loaded_application _ E).
  rewrite E' in Hl. destruct (Hl eq_refl) as (_ & _ & _ & _ & _ & Hd & _).
  rewrite Hd. by vm_compute.
Defined.

Lemma start_all_or_rollback_witness :
  started_application.1 = raised (std_exception "connection:stop") /\
  exists before service rest, mServicesInOrder loaded_application.2.1 = before ++ service :: rest /\ mStartedServices started_application.2.1 = before.
Proof.
  assert (started_application.1 = raised (std_exception "connection:stop")) as E by by vm_compute. split; [exact E|].
  pose proof (start_all_or_rollback (writes "app:start") 1 loaded_application.2.1 loaded_application.2.2) as Hs.
  rewrite <- (surjective_pairing loaded_application.2) in Hs.
  assert (Start (writes "app:start") 1 loaded_application.2
    = (raised (std_exception "connection:stop"), (started_application.2.1, started_application.2.2))) as E' by exact (triple_eta started_application _ E).
  rewrite E' in Hs. destruct Hs as [(before & service & rest & w1 & w2 & e0 & undo & Ho & _ & _ & _ & Hu) _]. exists before, service, rest.
  split; [exact Ho|]. destruct undo as [e1|]; destruct Hu as [_ Hu]; [exact Hu|exfalso; vm_compute in Hu; discriminate Hu].
Defined.

Lemma stop_reaches_every_service_witness :
  mStartedServices (Stop (writes "app:stop") 1 started_application.2).2.1 = [].
Proof.
  pose proof (stop_reaches_every_service (writes "app:stop") (writes "app:unload") 1 false started_application.2.1 started_application.2.2) as Hs.
  cbv zeta iota in Hs. rewrite <- (surjective_pairing started_application.2) in Hs. set (r := Stop (writes "app:stop") 1 started_application.2).
  assert (r.1 = raised (std_exception "connection:stop")) as E by by vm_compute.
  assert (Stop (writes "app:stop") 1 started_application.2
    = (raised (std_exception "connection:stop"), (r.2.1, r.2.2))) as E' by exact (triple_eta r _ E).
  rewrite E' in Hs. destruct Hs as [_ Hs]. exact (proj1 (Hs ltac:(discriminate))).
Defined.
End ExampleApplication.
