(* ===== verification/Config.v ===== *)
(** * Config: [loader/config.cpp], [loader/logging.cpp] and the arguments of
    [loader/loader.cpp]

    How a process finds its configuration: the command line, the main file and the
    file laid over it, the checks, and the sinks of the log.  JSON text, the file
    system and the logging library are parameters. *)

From Stdlib Require Import Ascii.
From S2P Require Import Prelude Text.
From S2P Require Storage.

(** ** Text *)

(** [std::tolower] in the C locale *)
Definition lower (c : Ascii.ascii) : Ascii.ascii :=
  let n := Z.of_nat (nat_of_ascii c) in
  if (65 <=? n) && (n <=? 90) then ascii_of_nat (Z.to_nat (n + 32)) else c.
Fixpoint ToLower (text : string) : string :=
  match text with "" => "" | String c text => String (lower c) (ToLower text) end.

Fixpoint starts_with (prefix text : string) : option string :=
  match prefix, text with
  | "", _ => Some text
  | String a prefix, String b text => if Ascii.eqb a b then starts_with prefix text else None
  | _, _ => None
  end.

(** [std::filesystem::path::filename]: what follows the last slash *)
Fixpoint file_name_from (current path : string) : string :=
  match path with
  | "" => current
  | String c path => if Ascii.eqb c "/"%char then file_name_from "" path else file_name_from (current +:+ String c "") path
  end.
Definition file_name : string -> string := file_name_from "".

(** From the last dot on, if there is one. *)
Fixpoint last_dot (text : string) : option string :=
  match text with
  | "" => None
  | String c rest => match last_dot rest with Some tail => Some tail | None => if Ascii.eqb c "."%char then Some text else None end
  end.

(** [std::filesystem::path::extension]: a leading dot does not count *)
Definition extension (path : string) : string :=
  let name := file_name path in
  if String.eqb name "." || String.eqb name ".." then ""
  else match name with "" => "" | String _ rest => default "" (last_dot rest) end.

(** ** The command line *)

Inductive ParseResult : Type := parse_ok | parse_exit_success | parse_exit_failure.

Record OptionDefinition : Type := mkOptionDefinition { long_name : string; short_name : string; expects_value : bool }.
Definition kOptionDefinitions : list OptionDefinition := [mkOptionDefinition "help" "h" false; mkOptionDefinition "config" "c" true].

Definition match_option (argument : string) : option OptionDefinition :=
  match starts_with "--" argument with
  | Some name => find (fun o => String.eqb (long_name o) name) kOptionDefinitions
  | None =>
      match starts_with "-" argument with
      | Some name => find (fun o => String.eqb (short_name o) name) kOptionDefinitions
      | None => None
      end
  end.

(** [argv] without the name of the program; the options given so far. *)
Fixpoint parse_arguments (arguments : list string) (option_values : gmap string string) : ParseResult * gmap string string :=
  match arguments with
  | [] => (if bool_decide (is_Some (option_values !! "help")) then parse_exit_success else parse_ok, option_values)
  | argument :: rest =>
      match match_option argument with
      | Some o =>
          if negb (expects_value o) then
            parse_arguments rest (match option_values !! long_name o with Some _ => option_values | None => <[long_name o := ""]> option_values end)
          else
            match rest with
            | [] => (parse_exit_failure, option_values)
            | value :: rest => parse_arguments rest (<[long_name o := value]> option_values)
            end
      | None => (parse_exit_failure, option_values)
      end
  end.
Definition ParseArguments (arguments : list string) : ParseResult * gmap string string := parse_arguments arguments ∅.

(** ** Configuration values *)

(** [glz::generic]: a JSON value; an object is an ordered map, whose order nothing
    here depends on. *)
Inductive generic : Type :=
| g_null
| g_bool (b : bool)
| g_number (literal : string)
| g_string (s : string)
| g_array (items : list generic)
| g_object (fields : list (string * generic)).

Definition is_object (g : generic) : bool := match g with g_object _ => true | _ => false end.

Definition field (key : string) (fields : list (string * generic)) : option generic :=
  snd <$> find (fun kv => String.eqb kv.1 key) fields.

(** [base[key] = f(base[key])] *)
Fixpoint alter_field (f : generic -> generic) (key : string) (fields : list (string * generic)) : list (string * generic) :=
  match fields with
  | [] => []
  | (k, v) :: fields => if String.eqb k key then (k, f v) :: fields else (k, v) :: alter_field f key fields
  end.

Fixpoint MergeConfigurationValue (base_value override_value : generic) {struct override_value} : generic :=
  match base_value, override_value with
  | g_object base_fields, g_object override_fields =>
      g_object ((fix merge_fields (base over : list (string * generic)) : list (string * generic) :=
        match over with
        | [] => base
        | (key, child_value) :: over =>
            merge_fields (match field key base with
                          | Some _ => alter_field (fun value => MergeConfigurationValue value child_value) key base
                          | None => base ++ [(key, child_value)]
                          end) over
        end) base_fields override_fields)
  | _, _ => override_value
  end.

(** ** Configurations *)

Record LogRotationConfiguration : Type := mkLogRotation { mode : string; max_size : Z; max_files : Z; daily_hour : Z; daily_minute : Z }.
Record LogConfiguration : Type := mkLogConfiguration {
  log_file : string;
  log_error_file : string;
  log_level : string;
  log_console : bool;
  log_syslog : bool;
  log_rotate : LogRotationConfiguration
}.

(** The part that the loader uses and the part that the services use. *)
Record CommonConfiguration : Type := mkCommonConfiguration { log : LogConfiguration; targets : Storage.CommonConfiguration }.

Definition BuildDefaultCommonConfiguration (application_name : string) : CommonConfiguration :=
  mkCommonConfiguration
    (mkLogConfiguration ("logs/" +:+ application_name +:+ ".log") ("logs/" +:+ application_name +:+ ".error.log") "info" true false
       (mkLogRotation "size" (10 * 1024 * 1024) 5 0 0))
    (Storage.mkCommonConfiguration ∅ ∅).

(** The JSON library, for the configuration [C] of an application. *)
Class JsonLibrary (C : Type) : Type := {
  read_json : string -> string + generic;
  dump : generic -> string + string;
  read_common : string -> CommonConfiguration -> string + CommonConfiguration;
  read_application : string -> C -> string + C
}.

Definition ValidateCommonConfiguration (configuration : CommonConfiguration) : option string :=
  let rotate := log_rotate (log configuration) in
  let lower_mode := ToLower (mode rotate) in
  if negb (String.eqb lower_mode "size") && negb (String.eqb lower_mode "daily") then
    Some "loader.log.rotate.mode must be one of [size, daily]"
  else if max_files rotate =? 0 then Some "loader.log.rotate.max_files must be greater than 0"
  else if 23 <? daily_hour rotate then Some "loader.log.rotate.daily_hour must be in range 0-23"
  else if 59 <? daily_minute rotate then Some "loader.log.rotate.daily_minute must be in range 0-59"
  else None.

Section load.
Context {C : Type} {json : JsonLibrary C}.
(** The file system: which paths exist and what can be read. *)
Variable exists_path : string -> bool.
Variable read_file : string -> option string.

Definition LoadConfigurationDocument (file_path : string) : string + string :=
  let ext := ToLower (extension file_path) in
  if negb (String.eqb ext "") && negb (String.eqb ext ".json") then inl ("unsupported config format: " +:+ file_path)
  else match read_file file_path with
       | None => inl ("failed to open config file: " +:+ file_path)
       | Some document => inr document
       end.

Definition MergeConfigurationFile (configuration_value : generic) (file_path : string) : string + generic :=
  match LoadConfigurationDocument file_path with
  | inl error => inl error
  | inr document =>
      match read_json document with
      | inl error => inl error
      | inr file_value => inr (MergeConfigurationValue configuration_value file_value)
      end
  end.

(** [JsonApplicationConfiguration::LoadFromGeneric] *)
Definition LoadFromGeneric (value : generic) (configuration : C) : string + C :=
  match dump value with inl error => inl error | inr document => read_application document configuration end.

Definition member (key : string) (g : generic) : option generic := match g with g_object fields => field key fields | _ => None end.

(** [configuration] is what the application creates. *)
Definition LoadConfiguration (application_name main_path override_path : string) (common : CommonConfiguration) (configuration : C)
    : string + (CommonConfiguration * C) :=
  if negb (exists_path main_path) then inl ("failed to open main config file: " +:+ main_path)
  else
    match MergeConfigurationFile g_null main_path with
    | inl error => inl error
    | inr main_value =>
        match (if negb (String.eqb override_path "") && exists_path override_path then MergeConfigurationFile main_value override_path
               else inr main_value) with
        | inl error => inl error
        | inr value =>
            match dump value with
            | inl error => inl error
            | inr document =>
                match read_common document common with
                | inl error => inl error
                | inr common =>
                    match (match member application_name value with
                           | Some section => LoadFromGeneric section configuration
                           | None => inr configuration
                           end) with
                    | inl error => inl error
                    | inr configuration =>
                        match ValidateCommonConfiguration common with
                        | Some error => inl error
                        | None => inr (common, configuration)
                        end
                    end
                end
            end
        end
    end.
End load.

(** ** Logging *)

Inductive level : Type := level_trace | level_debug | level_info | level_warn | level_err | level_critical.

Definition ToSpdlogLevel (text : string) : option level :=
  let text := ToLower text in
  if String.eqb text "trace" then Some level_trace
  else if String.eqb text "debug" then Some level_debug
  else if String.eqb text "info" then Some level_info
  else if String.eqb text "warn" || String.eqb text "warning" then Some level_warn
  else if String.eqb text "error" then Some level_err
  else if String.eqb text "fatal" || String.eqb text "critical" then Some level_critical
  else None.

Inductive sink : Type :=
| console_sink
| daily_sink (file : string) (hour minute files : Z)
| rotating_sink (file : string) (size files : Z)
| error_sink (file : string)
| syslog_sink.

(** The sinks that are asked for, in order. *)
Definition log_sinks (configuration : LogConfiguration) : list sink :=
  let rotate := log_rotate configuration in
  (if log_console configuration then [console_sink] else []) ++
  (if negb (String.eqb (log_file configuration) "") then
     [if String.eqb (mode rotate) "daily" then daily_sink (log_file configuration) (daily_hour rotate) (daily_minute rotate) (u16 (max_files rotate))
      else rotating_sink (log_file configuration) (max_size rotate) (max_files rotate)]
   else []) ++
  (if negb (String.eqb (log_error_file configuration) "") then [error_sink (log_error_file configuration)] else []) ++
  (if log_syslog configuration then [syslog_sink] else []).

(** Only an exception of the logging library is caught. *)
Inductive sink_failure : Type := spdlog_ex | other_failure.
Inductive logging_result : Type := logging_ready (l : level) (sinks : list sink) | logging_refused | logging_threw.

(** [make_sinks] creates the directories and the sinks. *)
Definition SetupLogging (make_sinks : list sink -> option sink_failure) (configuration : CommonConfiguration) : logging_result :=
  match ToSpdlogLevel (log_level (log configuration)) with
  | None => logging_refused
  | Some l =>
      let sinks := log_sinks (log configuration) in
      match make_sinks sinks with
      | Some spdlog_ex => logging_refused
      | Some other_failure => logging_threw
      | None => match sinks with [] => logging_refused | _ => logging_ready l sinks end
      end
  end.

(** ** Merging *)

Module ConfigProofs.

(** The value at the end of a path of keys. *)
Fixpoint get_path (path : list string) (g : generic) : option generic :=
  match path with
  | [] => Some g
  | key :: path => match g with g_object fields => field key fields ≫= get_path path | _ => None end
  end.

(** A value leaves a path open: no value on the way replaces what is there. *)
Fixpoint leaves_open (path : list string) (g : generic) : Prop :=
  match path, g with
  | key :: path, g_object fields => match field key fields with Some child => leaves_open path child | None => True end
  | _, _ => False
  end.

(** Keys are unique, as in every value of the library. *)
Fixpoint unique_keys (g : generic) : Prop :=
  match g with
  | g_object fields => NoDup fields.*1 /\ (fix all (l : list (string * generic)) : Prop :=
      match l with [] => True | (_, child) :: l => unique_keys child /\ all l end) fields
  | _ => True
  end.

Lemma field_cons k v key fields : field key ((k, v) :: fields) = if String.eqb k key then Some v else field key fields.
Proof. unfold field. simpl. by destruct (String.eqb k key). Qed.

Lemma field_app key l l' : field key (l ++ l') = match field key l with Some v => Some v | None => field key l' end.
Proof. induction l as [|[k v] l IH]; [done|]. simpl app. rewrite !field_cons. by destruct (String.eqb k key). Qed.

Lemma field_alter f key key' fields :
  field key' (alter_field f key fields) = if String.eqb key key' then f <$> field key fields else field key' fields.
Proof.
  induction fields as [|[k v] fields IH]; simpl; [by destruct (String.eqb key key')|].
  destruct (String.eqb_spec k key) as [->|Hk]; rewrite !field_cons, ?IH.
  - rewrite String.eqb_refl. by destruct (String.eqb_spec key key').
  - destruct (String.eqb_spec key key') as [->|Hk']; [|done]. by rewrite (proj2 (String.eqb_neq _ _) Hk).
Qed.

Lemma field_None key fields : key ∉ fields.*1 -> field key fields = None.
Proof.
  induction fields as [|[k v] fields IH]; [done|]. rewrite fmap_cons, not_elem_of_cons, field_cons. simpl. intros [Hk Hr].
  rewrite (proj2 (String.eqb_neq k key)) by congruence. by apply IH.
Qed.

Definition merge_fields : list (string * generic) -> list (string * generic) -> list (string * generic) :=
  fix merge_fields base over :=
    match over with
    | [] => base
    | (key, child_value) :: over =>
        merge_fields (match field key base with
                      | Some _ => alter_field (fun value => MergeConfigurationValue value child_value) key base
                      | None => base ++ [(key, child_value)]
                      end) over
    end.

Lemma merge_objects base over : MergeConfigurationValue (g_object base) (g_object over) = g_object (merge_fields base over).
Proof. done. Qed.

Definition merge_value (base over : option generic) : option generic :=
  match over with
  | None => base
  | Some child => Some (match base with Some value => MergeConfigurationValue value child | None => child end)
  end.

(** One level of a merge. *)
Lemma field_merge key base over : NoDup over.*1 -> field key (merge_fields base over) = merge_value (field key base) (field key over).
Proof.
  revert base. induction over as [|[k child] over IH]; intros base; [done|]. rewrite fmap_cons. intros [Hk Hn]%NoDup_cons. simpl in Hk.
  cbn [merge_fields]. rewrite IH by done. rewrite field_cons. destruct (String.eqb_spec k key) as [->|Hne].
  - rewrite (field_None key over) by done. destruct (field key base) as [v|] eqn:Eb.
    + by rewrite field_alter, String.eqb_refl, Eb.
    + rewrite field_app, Eb, field_cons, String.eqb_refl. done.
  - destruct (field k base); [rewrite field_alter|rewrite field_app, field_cons]; rewrite (proj2 (String.eqb_neq k key)) by done; [done|].
    by destruct (field key base).
Qed.

Lemma unique_child key fields child : unique_keys (g_object fields) -> field key fields = Some child -> unique_keys child.
Proof.
  intros [_ Ha]. induction fields as [|[k v] fields IH]; [done|]. destruct Ha as [Hv Ha]. rewrite field_cons.
  destruct (String.eqb k key); [by intros [= <-]|auto].
Qed.

Lemma merge_replaces base over : is_object base && is_object over = false -> MergeConfigurationValue base over = over.
Proof. by destruct base, over. Qed.
End ConfigProofs.

Section properties.
Import ConfigProofs.

(** C18: the file laid over the main file wins, value by value: what is at a path of
    the merged configuration, if it is not an object, is what the overlay has
    there, or what the main file has there if the overlay leaves this path open;
    and nothing else is in the result. *)
Theorem merge_overlays path base over v :
  unique_keys over -> is_object v = false ->
  get_path path (MergeConfigurationValue base over) = Some v <->
  get_path path over = Some v \/ (leaves_open path over /\ get_path path base = Some v).
Proof.
  intros Hu Hv. revert base over Hu. induction path as [|key path IH]; intros base over Hu.
  { destruct (is_object base && is_object over) eqn:Eo.
    - destruct base as [| | | | |base], over as [| | | | |over]; try done. rewrite merge_objects. simpl.
      split; [by intros [= <-]|]. by intros [[= <-]|[[] _]].
    - rewrite merge_replaces by done. simpl. tauto. }
  destruct (is_object base && is_object over) eqn:Eo.
  2:{ rewrite merge_replaces by done. destruct over as [| | | | |over]; simpl; [tauto..|].
      destruct base as [| | | | |base]; try done; simpl; split; [by left| |by left| |by left| |by left| |by left|];
        by intros [Hg|[_ Hg]]. }
  destruct base as [| | | | |base], over as [| | | | |over]; try done. rewrite merge_objects. simpl.
  rewrite field_merge by apply Hu. destruct (field key over) as [child|] eqn:Ec; simpl.
  2:{ split; [intros Hg; by right|]. by intros [Hg|[_ Hg]]. }
  pose proof (unique_child _ _ _ Hu Ec) as Huc. destruct (field key base) as [value|]; simpl; [by apply IH|].
  split; [by left|]. by intros [Hg|[_ Hg]].
Qed.

Definition valid_common (configuration : CommonConfiguration) : Prop :=
  let rotate := log_rotate (log configuration) in
  (ToLower (mode rotate) = "size" \/ ToLower (mode rotate) = "daily") /\ max_files rotate <> 0 /\
  daily_hour rotate <= 23 /\ daily_minute rotate <= 59.

Lemma ValidateCommonConfiguration_spec configuration : ValidateCommonConfiguration configuration = None <-> valid_common configuration.
Proof.
  unfold ValidateCommonConfiguration, valid_common. cbv zeta.
  destruct (String.eqb_spec (ToLower (mode (log_rotate (log configuration)))) "size") as [E1|E1],
    (String.eqb_spec (ToLower (mode (log_rotate (log configuration)))) "daily") as [E2|E2]; cbn [negb andb]; try (split; [done|tauto]);
    (destruct (Z.eqb_spec (max_files (log_rotate (log configuration))) 0); [by split; [|intros (_ & ? & _)]|];
     destruct (Z.ltb_spec 23 (daily_hour (log_rotate (log configuration)))); [split; [done|lia]|];
     destruct (Z.ltb_spec 59 (daily_minute (log_rotate (log configuration)))); [split; [done|lia]|]; split; [|done]; intros _; split_and!; try done; tauto).
Qed.

(** The value of the two files: the overlay counts if it is named and exists. *)
Definition layers {C : Type} {json : JsonLibrary C} (exists_path : string -> bool) (read_file : string -> option string)
    (main_path override_path : string) (value : generic) : Prop :=
  exists main_text main, read_file main_path = Some main_text /\ read_json main_text = inr main /\
    if negb (String.eqb override_path "") && exists_path override_path then
      exists over_text over, read_file override_path = Some over_text /\ read_json over_text = inr over /\ value = MergeConfigurationValue main over
    else value = main.

Lemma MergeConfigurationFile_spec {C : Type} {json : JsonLibrary C} read_file base path value :
  MergeConfigurationFile read_file base path = inr value ->
  exists text file_value, read_file path = Some text /\ read_json text = inr file_value /\ value = MergeConfigurationValue base file_value.
Proof.
  unfold MergeConfigurationFile, LoadConfigurationDocument. destruct (negb _ && negb _); [done|].
  destruct (read_file path) as [text|]; [|done]. destruct (read_json text) as [|file_value] eqn:E; [done|]. intros [= <-]. by exists text, file_value.
Qed.

(** C32: a configuration that is loaded is checked: both files could be read, the
    values come from the overlay over the main file, the section of the application
    is read if there is one, and the log settings are within their bounds. *)
Theorem configuration_checked {C : Type} {json : JsonLibrary C} exists_path read_file application_name main_path override_path common
    (configuration : C) common' configuration' :
  LoadConfiguration exists_path read_file application_name main_path override_path common configuration = inr (common', configuration') ->
  valid_common common' /\
  exists value document, layers exists_path read_file main_path override_path value /\ dump value = inr document /\
    read_common document common = inr common' /\
    match member application_name value with
    | Some section => LoadFromGeneric section configuration = inr configuration'
    | None => configuration' = configuration
    end.
Proof.
  unfold LoadConfiguration. destruct (exists_path main_path); [cbn [negb]|done].
  destruct (MergeConfigurationFile _ g_null main_path) as [|main] eqn:Em; [done|].
  apply MergeConfigurationFile_spec in Em as (text & main' & Er & Ej & Em). rewrite merge_replaces in Em by done. subst main'.
  destruct (if negb (String.eqb override_path "") && exists_path override_path then _ else _) as [|value] eqn:Eo; [done|].
  assert (layers exists_path read_file main_path override_path value) as Hl.
  { exists text, main. split; [done|]. split; [done|]. destruct (negb _ && _); [|by injection Eo as <-].
    apply MergeConfigurationFile_spec in Eo as (text' & over & ? & ? & ->). by exists text', over. }
  destruct (dump value) as [|document] eqn:Ed; [done|]. destruct (read_common document common) as [|common1] eqn:Ec; [done|].
  destruct (match member application_name value with Some _ => _ | None => _ end) as [|configuration1] eqn:Ea; [done|].
  destruct (ValidateCommonConfiguration common1) eqn:Ev; [done|]. intros [= <- <-]. apply ValidateCommonConfiguration_spec in Ev.
  split; [done|]. exists value, document. split_and!; try done. destruct (member application_name value); [done|congruence].
Qed.

(** The rotation mode is checked without regard to case but used as it is
    written: with a mode like "Daily" the configuration is accepted and the log is
    rotated by size. *)
Theorem rotation_mode_misread make_sinks configuration l sinks :
  valid_common configuration -> mode (log_rotate (log configuration)) <> "daily" -> log_file (log configuration) <> "" ->
  SetupLogging make_sinks configuration = logging_ready l sinks ->
  rotating_sink (log_file (log configuration)) (max_size (log_rotate (log configuration))) (max_files (log_rotate (log configuration))) ∈ sinks /\
  forall file hour minute files, daily_sink file hour minute files ∉ sinks.
Proof.
  intros _ Hm Hf. unfold SetupLogging. destruct (ToSpdlogLevel _); [|done]. destruct (make_sinks _) as [[]|]; [done..|].
  destruct (log_sinks (log configuration)) as [|s rest] eqn:E; [done|]. intros [= <- <-]. rewrite <- E. unfold log_sinks.
  rewrite (proj2 (String.eqb_neq _ _) Hm), (proj2 (String.eqb_neq _ _) Hf). cbn [negb].
  split; [set_solver|]. intros file hour minute files. destruct (log_console _), (String.eqb (log_error_file _) ""), (log_syslog _); cbn [negb app]; set_solver.
Qed.
End properties.

(** ** A main file and its overlay *)

Module ExampleConfig.
Import ConfigProofs.

Definition main_value : generic :=
  g_object [("log", g_object [("level", g_string "info"); ("rotate", g_object [("mode", g_string "size")])]); ("gate", g_object [("port", g_number "7000")])].
Definition over_value : generic := g_object [("log", g_object [("rotate", g_object [("mode", g_string "Daily")])]); ("extra", g_null)].

Lemma merge_overlays_witness :
  get_path ["log"; "level"] (MergeConfigurationValue main_value over_value) = Some (g_string "info") /\
  get_path ["log"; "rotate"; "mode"] (MergeConfigurationValue main_value over_value) = Some (g_string "Daily").
Proof.
  assert (unique_keys over_value) as Hu by (simpl; split_and!; try done; repeat constructor; set_solver).
  split; apply (merge_overlays _ main_value over_value); try done; [right; by split|by left].
Defined.

(** The library reads two texts and takes the mode from the overlay. *)
#[local] Instance example_json : JsonLibrary Z := {|
  read_json := fun text => if String.eqb text "main" then inr main_value else inr over_value;
  dump := fun g => inr (match get_path ["log"; "rotate"; "mode"] g with Some (g_string m) => m | _ => "7000" end);
  read_common := fun text c => inr (mkCommonConfiguration
    (mkLogConfiguration "logs/gate.log" "" "info" false false (mkLogRotation text 1024 5 0 0)) (targets c));
  read_application := fun text _ => if String.eqb text "7000" then inr 7000 else inl "not a port"
|}.
Definition example_file (path : string) : option string := if String.eqb path "conf/gate.json" then Some "main" else Some "over".
Definition example_load : string + (CommonConfiguration * Z) :=
  LoadConfiguration (fun _ => true) example_file "gate" "conf/gate.json" "conf/gate_my.json" (BuildDefaultCommonConfiguration "gate") 0.
Definition example_common : CommonConfiguration :=
  match example_load with inr (c, _) => c | inl _ => BuildDefaultCommonConfiguration "" end.

Lemma configuration_checked_witness : valid_common example_common /\ example_load = inr (example_common, 7000).
Proof.
  assert (example_load = inr (example_common, 7000)) as E by by vm_compute. split; [|exact E].
  exact (proj1 (configuration_checked (fun _ => true) example_file "gate" "conf/gate.json" "conf/gate_my.json" (BuildDefaultCommonConfiguration "gate") 0
    example_common 7000 E)).
Defined.

Lemma rotation_mode_misread_witness :
  ToLower (mode (log_rotate (log example_common))) = "daily" /\ rotating_sink "logs/gate.log" 1024 5 ∈ [rotating_sink "logs/gate.log" 1024 5].
Proof.
  split; [by vm_compute|].
  apply (rotation_mode_misread (fun _ => None) example_common level_info [rotating_sink "logs/gate.log" 1024 5]); try (by vm_compute).
  apply ValidateCommonConfiguration_spec. by vm_compute.
Defined.
End ExampleConfig.
