(* ===== verification/Loader.v ===== *)
(** * Loader: [loader/loader.cpp] and [loader/command_registry.cpp]

    The two threads of a process: the application thread calls the stages of the
    application's life cycle, the main thread reads commands.  They share the
    [RuntimeState], whose mutex makes each access a step. *)

From S2P Require Import Prelude Text Config.
From S2P Require Import Application.

(** ** Commands *)

Inductive CommandExecutionStatus : Type := handled | exit_requested | unknown_command.
#[export] Instance status_eq_dec : EqDecision CommandExecutionStatus.
Proof. solve_decision. Defined.

Abbreviation CommandArguments := (list string).

Record CommandExecutionResult : Type := mkCommandExecutionResult { status : CommandExecutionStatus; command_name : string }.

Module CommandRegistry.
Section registry.
(** A handler is a symbol; the caller of [Execute] knows how to run it. *)
Context {Handler : Type}.

Record CommandDefinition : Type := mkCommandDefinition { description : string; handler : Handler }.
(** [mCommands] *)
Definition t : Type := gmap string CommandDefinition.

(** An empty [std::function] is [None]. *)
Definition RegisterCommand (name description : string) (handler : option Handler) : St t bool :=
  fun commands =>
    match handler with
    | Some handler =>
        if String.eqb name "" then (false, commands)
        else match commands !! name with
             | Some _ => (false, commands)
             | None => (true, <[name := mkCommandDefinition description handler]> commands)
             end
    | None => (false, commands)
    end.

(** The handler runs outside the lock, on a copy; [None] is a handler that does not
    come back. *)
Definition Execute {S : Type} (run : Handler -> CommandArguments -> St S (option (exn + CommandExecutionStatus))) (commands : t)
    (input : string) : St S (option (exn + CommandExecutionResult)) :=
  fun s =>
    match words input with
    | [] => (Some (inr (mkCommandExecutionResult handled "")), s)
    | name :: arguments =>
        match commands !! name with
        | None => (Some (inr (mkCommandExecutionResult unknown_command name)), s)
        | Some command =>
            match run (handler command) arguments s with
            | (None, s) => (None, s)
            | (Some (inl e), s) => (Some (inl e), s)
            | (Some (inr status), s) => (Some (inr (mkCommandExecutionResult status name)), s)
            end
        end
    end.

Definition Clear : St t unit := fun _ => (tt, ∅).
End registry.
Arguments t : clear implicits.
Arguments CommandDefinition : clear implicits.
End CommandRegistry.

(** ** Applications *)

(** The handlers of an application are symbols of [H]; [exit_handler] is the closure
    of [Initialize]. *)
Inductive CommandHandler (H : Type) : Type := exit_handler | application_handler (h : H).
Arguments exit_handler {H}. Arguments application_handler {H}.

Abbreviation commands H := (CommandRegistry.t (CommandHandler H)).

Inductive lifecycle : Type := call_Load | call_Start | call_Stop | call_Unload.

(** [IApplication], on its state [A] with the configuration [C].  A stage may use the runtime it was given to
    register commands. *)
Record IApplication (C H A : Type) : Type := mkIApplication {
  application_name : string;
  CreateConfiguration : C;
  Configure : CommonConfiguration -> C -> St A bool;
  lifecycle_call : lifecycle -> St (commands H * A) completion;
  run_handler : H -> CommandArguments -> St A (option (exn + CommandExecutionStatus))
}.
Arguments mkIApplication {C H A}. Arguments application_name {C H A}. Arguments CreateConfiguration {C H A}.
Arguments Configure {C H A}. Arguments lifecycle_call {C H A}. Arguments run_handler {C H A}.

(** [Loader::RegisterCommand] *)
Definition RegisterCommand {H : Type} (name description : string) (handler : option H) : St (CommandRegistry.t H) (option exn) :=
  fun commands =>
    match CommandRegistry.RegisterCommand name description handler commands with
    | (true, commands) => (None, commands)
    | (false, commands) => (Some (std_exception ("failed to register runtime command: " +:+ name)), commands)
    end.

(** ** The process *)

Record RuntimeState : Type := mkRuntimeState {
  start_completed : bool;
  stop_requested : bool;
  runtime_failed : bool;
  error_message : string
}.
#[export] Instance eta_runtime : Eta RuntimeState := fun s =>
  mkRuntimeState (start_completed s) (stop_requested s) (runtime_failed s) (error_message s).

(** Where the application thread is. *)
Inductive application_pc : Type := app_calls (call : lifecycle) | app_started | app_waits | app_caught (e : exn) | app_finished.

(** Where the main thread is; an exception that leaves [Initialize] destroys the
    thread object of a thread that was not joined, which ends the process. *)
Inductive main_pc : Type :=
  main_waits | main_reads | main_joins | main_joins_failed | main_returned (result : bool) | main_terminated.

(** [process_calls] records how the stages ended that have been called. *)
Record process (H A : Type) : Type := mkProcess {
  mCommandRegistry : commands H;
  mRuntimeState : bool;
  runtime_state : RuntimeState;
  application : A;
  process_app : application_pc;
  process_main : main_pc;
  process_input : list string;
  process_calls : list (lifecycle * bool)
}.
Arguments mkProcess {H A}. Arguments mCommandRegistry {H A}. Arguments mRuntimeState {H A}. Arguments runtime_state {H A}.
Arguments application {H A}. Arguments process_app {H A}. Arguments process_main {H A}. Arguments process_input {H A}.
Arguments process_calls {H A}.
#[export] Instance eta_process {H A} : Eta (process H A) := fun s =>
  mkProcess (mCommandRegistry s) (mRuntimeState s) (runtime_state s) (application s) (process_app s) (process_main s)
    (process_input s) (process_calls s).

Section loader.
Context {C H A : Type}.
Variable app : IApplication C H A.

Definition RequestStop : St (process H A) unit :=
  fun p => (tt, if mRuntimeState p then p <| runtime_state := (runtime_state p) <| stop_requested := true |> |> else p).

Definition run_command (handler : CommandHandler H) (arguments : CommandArguments) : St (process H A) (option (exn + CommandExecutionStatus)) :=
  fun p =>
    match handler with
    | exit_handler => let '(_, p) := RequestStop p in (Some (inr exit_requested), p)
    | application_handler h => let '(r, a) := run_handler app h arguments (application p) in (r, p <| application := a |>)
    end.

Definition after_call (call : lifecycle) : application_pc :=
  match call with
  | call_Load => app_calls call_Start
  | call_Start => app_started
  | call_Stop => app_calls call_Unload
  | call_Unload => app_finished
  end.

Definition failure_text (e : exn) : string :=
  match e with std_exception what => what | other_exception => "application lifecycle failed with unknown exception" end.

(** A step of the application thread; [None] when it cannot go on. *)
Definition application_turn (p : process H A) : option (process H A) :=
  match process_app p with
  | app_calls call =>
      let '(c, (commands, a)) := lifecycle_call app call (mCommandRegistry p, application p) in
      let p' := p <| mCommandRegistry := commands |> <| application := a |> in
      match c with
      | completed => Some (p' <| process_app := after_call call |> <| process_calls := process_calls p ++ [(call, true)] |>)
      | raised e => Some (p' <| process_app := app_caught e |> <| process_calls := process_calls p ++ [(call, false)] |>)
      | waiting => None
      end
  | app_started => Some (p <| runtime_state := (runtime_state p) <| start_completed := true |> |> <| process_app := app_waits |>)
  | app_waits => if stop_requested (runtime_state p) then Some (p <| process_app := app_calls call_Stop |>) else None
  | app_caught e => Some (p <| runtime_state := mkRuntimeState true true true (failure_text e) |> <| process_app := app_finished |>)
  | app_finished => None
  end.

(** A step of the main thread from the start of the application thread on. *)
Definition main_turn (p : process H A) : option (process H A) :=
  match process_main p with
  | main_waits =>
      if start_completed (runtime_state p) then
        Some (p <| process_main := if runtime_failed (runtime_state p) then main_joins_failed else main_reads |>)
      else None
  | main_reads =>
      match process_input p with
      | [] => let '(_, p) := RequestStop p in Some (p <| process_main := main_joins |>)
      | line :: rest =>
          let p := p <| process_input := rest |> in
          match CommandRegistry.Execute run_command (mCommandRegistry p) line p with
          | (None, _) => None
          | (Some (inl _), p) => Some (p <| process_main := main_terminated |>)
          | (Some (inr result), p) =>
              match status result with
              | exit_requested => Some (p <| process_main := main_joins |>)
              | unknown_command | handled => Some p
              end
          end
      end
  | main_joins =>
      match process_app p with
      | app_finished => Some (p <| mRuntimeState := false |> <| process_main := main_returned (negb (runtime_failed (runtime_state p))) |>)
      | _ => None
      end
  | main_joins_failed =>
      match process_app p with
      | app_finished => Some (p <| mRuntimeState := false |> <| process_main := main_returned false |>)
      | _ => None
      end
  | main_returned _ | main_terminated => None
  end.

(** A process that was terminated has no threads. *)
Inductive process_step (p p' : process H A) : Prop :=
| step_application : process_main p <> main_terminated -> application_turn p = Some p' -> process_step p p'
| step_main : main_turn p = Some p' -> process_step p p'.

(** [Initialize] up to the creation of the thread, on a standard input. *)
Definition Initialize (common : CommonConfiguration) (configuration : C) (a : A) (registry : commands H) (input : list string)
    : option (process H A) :=
  let '(_, commands) := CommandRegistry.Clear registry in
  match RegisterCommand "exit" "Stop the application and exit the loader" (Some exit_handler) commands with
  | (Some _, _) => None
  | (None, commands) =>
      let '(configured, a) := Configure app common configuration a in
      if configured then
        Some (mkProcess commands true (mkRuntimeState false false false "") a (app_calls call_Load) main_waits input [])
      else None
  end.

(** What becomes of a call of [Run]: it returns an exit code, throws, or has started
    the two threads. *)
Inductive run_result : Type := run_exits (code : Z) | run_throws | run_threads (p : process H A).

Definition Run {json : JsonLibrary C} (exists_path : string -> bool) (read_file : string -> option string)
    (make_sinks : list sink -> option sink_failure) (arguments : list string) (a : A) (input : list string) : run_result :=
  let name := application_name app in
  match ParseArguments arguments with
  | (parse_exit_success, _) => run_exits 0
  | (parse_exit_failure, _) => run_exits 1
  | (parse_ok, option_values) =>
      let override_path := match option_values !! "config" with Some path => path | None => "conf/" +:+ name +:+ "_my.json" end in
      let main_path := "conf/" +:+ name +:+ ".json" in
      match LoadConfiguration exists_path read_file name main_path override_path (BuildDefaultCommonConfiguration name)
              (CreateConfiguration app) with
      | inl _ => run_exits 1
      | inr (common, configuration) =>
          match SetupLogging make_sinks common with
          | logging_refused => run_exits 1
          | logging_threw => run_throws
          | logging_ready _ _ =>
              match Initialize common configuration a ∅ input with
              | None => run_exits 1
              | Some p => run_threads p
              end
          end
      end
  end.

(** The exit code of a process whose [Initialize] has returned. *)
Definition exit_code (result : bool) : Z := if result then 0 else 1.
End loader.

(** ** The application base under the loader

    An application of [ApplicationBase], whose services live in a world [V]: its
    commands are registered one after the other. *)

Section base.
Context {C H V : Type}.
Abbreviation base_world := (commands H * V)%type.
Variable name : string.
Variable configuration : C.
Variable OnConfigure : CommonConfiguration -> C -> St V bool.
Variable services : list (option (IService base_world)).
Variable runtime_commands : list (string * string * H).
Variable handlers : H -> CommandArguments -> St V (option (exn + CommandExecutionStatus)).
Variable OnLoad OnStart OnStop OnUnload : stage base_world.
Variable fuel : nat.

Fixpoint register_all (list : list (string * string * H)) : St base_world (option exn) :=
  fun '(commands, v) =>
    match list with
    | [] => (None, (commands, v))
    | (name, description, h) :: list =>
        match RegisterCommand name description (Some (application_handler h)) commands with
        | (Some e, commands) => (Some e, (commands, v))
        | (None, commands) => register_all list (commands, v)
        end
    end.

Definition base_call (call : lifecycle) : St (commands H * (ApplicationBase.t base_world * V)) completion :=
  fun '(commands, (s, v)) =>
    let '(c, (s, (commands, v))) :=
      (match call with
       | call_Load => ApplicationBase.Load name services (register_all runtime_commands) OnLoad fuel
       | call_Start => ApplicationBase.Start OnStart fuel
       | call_Stop => ApplicationBase.Stop OnStop fuel
       | call_Unload => ApplicationBase.Unload OnUnload fuel
       end) (s, (commands, v)) in
    (c, (commands, (s, v))).

Definition base_application : IApplication C H (ApplicationBase.t base_world * V) :=
  mkIApplication name configuration
    (fun common configuration '(s, v) => let '(ok, v) := OnConfigure common configuration v in (ok, (s, v)))
    base_call
    (fun h arguments '(s, v) => let '(r, v) := handlers h arguments v in (r, (s, v))).
End base.

(** ** Lemmas *)

(** The turn of a thread that was taken. *)
Ltac taken Hs := first [discriminate Hs | injection Hs as <-].

Module LoaderProofs.
Section loader.
Context {C H A : Type}.
Variable app : IApplication C H A.
Implicit Types p : process H A.

Definition all_calls : list lifecycle := [call_Load; call_Start; call_Stop; call_Unload].
Definition succeeded (calls : list lifecycle) : list (lifecycle * bool) := (fun c => (c, true)) <$> calls.

(** The calls made before a place of the application thread is reached. *)
Definition calls_before (call : lifecycle) : list lifecycle :=
  match call with
  | call_Load => []
  | call_Start => [call_Load]
  | call_Stop => [call_Load; call_Start]
  | call_Unload => [call_Load; call_Start; call_Stop]
  end.

Definition failed_at (call : lifecycle) : list (lifecycle * bool) := succeeded (calls_before call) ++ [(call, false)].

Definition app_inv p : Prop :=
  match process_app p with
  | app_calls call => process_calls p = succeeded (calls_before call) /\ runtime_failed (runtime_state p) = false /\
      (match call with
       | call_Load | call_Start => True
       | call_Stop | call_Unload => start_completed (runtime_state p) = true /\ stop_requested (runtime_state p) = true
       end)
  | app_started => process_calls p = succeeded [call_Load; call_Start] /\ runtime_failed (runtime_state p) = false
  | app_waits => process_calls p = succeeded [call_Load; call_Start] /\ runtime_failed (runtime_state p) = false /\
      start_completed (runtime_state p) = true
  | app_caught _ => (exists call, process_calls p = failed_at call /\
      ((call_Stop, true) ∈ process_calls p \/ (call_Stop, false) ∈ process_calls p -> stop_requested (runtime_state p) = true)) /\
      runtime_failed (runtime_state p) = false
  | app_finished => start_completed (runtime_state p) = true /\ stop_requested (runtime_state p) = true /\
      if runtime_failed (runtime_state p) then exists call, process_calls p = failed_at call else process_calls p = succeeded all_calls
  end.

Definition main_inv p : Prop :=
  match process_main p with
  | main_waits => mRuntimeState p = true
  | main_reads => mRuntimeState p = true /\ start_completed (runtime_state p) = true
  | main_joins => mRuntimeState p = true /\ start_completed (runtime_state p) = true
  | main_joins_failed => runtime_failed (runtime_state p) = true
  | main_returned result => process_app p = app_finished /\ result = negb (runtime_failed (runtime_state p))
  | main_terminated => True
  end.

Definition process_inv p : Prop := app_inv p /\ main_inv p.

(** What a handler may change: the application, and the request to stop. *)
Definition same_threads p p' : Prop :=
  process_app p' = process_app p /\ process_main p' = process_main p /\ process_calls p' = process_calls p /\
  mRuntimeState p' = mRuntimeState p /\ mCommandRegistry p' = mCommandRegistry p /\ process_input p' = process_input p /\
  start_completed (runtime_state p') = start_completed (runtime_state p) /\
  runtime_failed (runtime_state p') = runtime_failed (runtime_state p) /\
  (stop_requested (runtime_state p) = true -> stop_requested (runtime_state p') = true).

Lemma RequestStop_same p : same_threads p (RequestStop p).2.
Proof. unfold RequestStop. destruct (mRuntimeState p) eqn:E; simpl; repeat split; simpl; by rewrite ?E. Qed.

Lemma Execute_same (line : string) p : same_threads p (CommandRegistry.Execute (run_command app) (mCommandRegistry p) line p).2.
Proof.
  unfold CommandRegistry.Execute. destruct (words line) as [|name arguments]; [by repeat split|].
  destruct (mCommandRegistry p !! name) as [command|]; [|by repeat split]. unfold run_command.
  destruct (CommandRegistry.handler command) as [|h].
  - pose proof (RequestStop_same p) as Hs. by destruct (RequestStop p).
  - destruct (run_handler app h arguments (application p)) as [[[e|st]|] a]; by repeat split.
Qed.

Lemma app_inv_same p p' : same_threads p p' -> app_inv p -> app_inv p'.
Proof.
  intros (E1 & E2 & E3 & E4 & E5 & E6 & E7 & E8 & Hs). unfold app_inv. rewrite E1, E3, E7, E8.
  destruct (process_app p) as [call| | |e|]; try done; try (destruct call); try tauto.
  intros [(call & Hc & Hr) Hf]. split; [|done]. exists call. tauto.
Qed.

Lemma application_turn_inv p p' : process_inv p -> application_turn app p = Some p' -> process_inv p'.
Proof.
  intros [Ha Hm]. unfold application_turn. destruct (process_app p) as [call| | |e|] eqn:Ep; unfold app_inv in Ha; rewrite Ep in Ha.
  - destruct (lifecycle_call app call _) as [[|e|] [registry a]]; [| |done]; intros [= <-]; destruct Ha as (Ec & Ef & Hc); split.
    + unfold app_inv. simpl. rewrite Ec. destruct call; simpl; rewrite ?Ef; tauto.
    + unfold main_inv in *. simpl. destruct (process_main p); try done. rewrite Ep in Hm. by destruct Hm.
    + unfold app_inv. simpl. rewrite Ec. split; [|done]. exists call. split; [done|].
      intros Hs. destruct call; [| |tauto..]; simpl in Hs; exfalso; set_solver.
    + unfold main_inv in *. simpl. destruct (process_main p); try done. rewrite Ep in Hm. by destruct Hm.
  - intros [= <-]. split; [unfold app_inv; simpl; tauto|]. unfold main_inv in *. simpl.
    destruct (process_main p); try tauto. rewrite Ep in Hm. by destruct Hm.
  - destruct (stop_requested (runtime_state p)) eqn:Es; [|done]. intros [= <-]. split; [unfold app_inv; simpl; tauto|].
    unfold main_inv in *. simpl. destruct (process_main p); try tauto. rewrite Ep in Hm. by destruct Hm.
  - intros [= <-]. destruct Ha as [(call & Hc & _) _]. split; [unfold app_inv; simpl; by eauto|].
    unfold main_inv in *. simpl. destruct (process_main p); try tauto. rewrite Ep in Hm. by destruct Hm.
  - done.
Qed.

Lemma main_turn_inv p p' : process_inv p -> main_turn app p = Some p' -> process_inv p'.
Proof.
  intros [Ha Hm]. unfold main_turn, process_inv. destruct (process_main p) eqn:Em; unfold main_inv in Hm; rewrite Em in Hm.
  - destruct (start_completed (runtime_state p)) eqn:Es; [|done]. intros [= <-]. split; [done|].
    unfold main_inv; simpl. by destruct (runtime_failed (runtime_state p)).
  - destruct (process_input p) as [|line rest].
    + pose proof (RequestStop_same p) as Hs. destruct (RequestStop p) as [[] q]. intros [= <-]. split; [exact (app_inv_same p q Hs Ha)|].
      destruct Hs as (_ & _ & _ & E4 & _ & _ & E7 & _). unfold main_inv. simpl in *. by rewrite E4, E7.
    + set (q := p <| process_input := rest |>). pose proof (Execute_same line q) as Hs. change (mCommandRegistry p) with (mCommandRegistry q).
      assert (app_inv q) as Hq by exact Ha. destruct (CommandRegistry.Execute _ _ line q) as [[[e|result]|] q']; [..|done]; simpl in Hs;
        apply (app_inv_same _ _ Hs) in Hq; destruct Hs as (_ & E2 & _ & E4 & _ & _ & E7 & _); simpl in E2, E4, E7.
      * by intros [= <-].
      * destruct (status result); intros [= <-]; (split; [done|]); unfold main_inv; simpl; rewrite ?E2, ?Em, E4, E7; done.
  - destruct (process_app p) eqn:Ep; try done. by intros [= <-].
  - destruct (process_app p) eqn:Ep; try done. intros [= <-]. split; [done|]. unfold main_inv. simpl. by rewrite Ep, Hm.
  - done.
  - done.
Qed.

Lemma Initialize_inv common configuration a registry input p : Initialize app common configuration a registry input = Some p -> process_inv p.
Proof.
  unfold Initialize. destruct (CommandRegistry.Clear registry) as [_ commands]. destruct (RegisterCommand _ _ _ commands) as [[e|] r]; [done|].
  destruct (Configure app common configuration a) as [[] a']; [|done]. by intros [= <-].
Qed.

Lemma reachable_process_inv p p' : process_inv p -> rtc (process_step app) p p' -> process_inv p'.
Proof.
  intros Hi Hr. induction Hr as [p|p1 p2 p3 [_ Hs|Hs] _ IH]; [done|..]; apply IH.
  - by apply application_turn_inv in Hs.
  - by apply main_turn_inv in Hs.
Qed.

(** *** Progress *)

Definition app_rank (pc : application_pc) : nat :=
  match pc with
  | app_calls call_Load => 8 | app_calls call_Start => 7 | app_started => 6 | app_waits => 5
  | app_calls call_Stop => 4 | app_calls call_Unload => 3 | app_caught _ => 2 | app_finished => 0
  end.
Definition main_rank (pc : main_pc) : nat :=
  match pc with main_waits => 3 | main_reads => 2 | main_joins | main_joins_failed => 1 | main_returned _ | main_terminated => 0 end.
Definition work_left p : nat := 2 * length (process_input p) + app_rank (process_app p) + main_rank (process_main p).

Lemma step_works p p' : process_step app p p' -> (work_left p' < work_left p)%nat.
Proof.
  unfold work_left. intros [_ Hs|Hs].
  - unfold application_turn in Hs. destruct (process_app p) as [call| | |e|] eqn:Ep.
    + destruct (lifecycle_call app call _) as [[|e|] [r a]]; taken Hs; destruct call; simpl; lia.
    + taken Hs. simpl. lia.
    + destruct (stop_requested _); taken Hs. simpl. lia.
    + taken Hs. simpl. lia.
    + done.
  - unfold main_turn in Hs. destruct (process_main p) eqn:Em.
    + destruct (start_completed _); taken Hs. simpl. destruct (runtime_failed _); simpl; lia.
    + destruct (process_input p) as [|line rest] eqn:Ei.
      * pose proof (RequestStop_same p) as Hr. destruct (RequestStop p) as [[] q]. taken Hs.
        destruct Hr as (E1 & _ & _ & _ & _ & E6 & _). simpl in *. rewrite E1, E6, Ei. simpl. lia.
      * set (q := p <| process_input := rest |>) in Hs. pose proof (Execute_same line q) as Hr.
        change (mCommandRegistry p) with (mCommandRegistry q) in Hs.
        destruct (CommandRegistry.Execute _ _ line q) as [[[e|result]|] q']; [..|discriminate Hs]; destruct Hr as (E1 & E2 & _ & _ & _ & E6 & _); simpl in E1, E2, E6;
          [|destruct (status result)]; taken Hs; simpl; rewrite ?E1, ?E2, ?E6, ?Em; simpl; lia.
    + destruct (process_app p) eqn:Ep; taken Hs. simpl. rewrite Ep. simpl. lia.
    + destruct (process_app p) eqn:Ep; taken Hs. simpl. rewrite Ep. simpl. lia.
    + done.
    + done.
Qed.

Lemma runs_end p : Acc (fun p2 p1 => process_step app p1 p2) p.
Proof. induction p as [p IH] using (well_founded_induction (well_founded_ltof _ work_left)). constructor. intros q Hq. by apply IH, step_works. Qed.

(** Only the exit command asks the loader to leave, and no command throws. *)
Definition orderly : Prop := forall h arguments a, exists st a', run_handler app h arguments a = (Some (inr st), a') /\ st <> exit_requested.

Definition stop_inv p : Prop :=
  process_main p <> main_terminated /\ (process_main p = main_joins -> stop_requested (runtime_state p) = true).

Lemma Execute_orderly (line : string) p :
  orderly -> mRuntimeState p = true ->
  match CommandRegistry.Execute (run_command app) (mCommandRegistry p) line p with
  | (None, _) | (Some (inl _), _) => False
  | (Some (inr result), p') => status result = exit_requested -> stop_requested (runtime_state p') = true
  end.
Proof.
  intros Ho Hm. unfold CommandRegistry.Execute. destruct (words line) as [|name arguments]; [done|].
  destruct (mCommandRegistry p !! name) as [command|]; [|done]. unfold run_command.
  destruct (CommandRegistry.handler command) as [|h]; [unfold RequestStop; by rewrite Hm|].
  destruct (Ho h arguments (application p)) as (st & a' & -> & Hst). simpl. by intros ?.
Qed.

Lemma step_stop_inv p p' : orderly -> process_inv p -> stop_inv p -> process_step app p p' -> stop_inv p'.
Proof.
  intros Ho [_ Hm] [Ht Hj] [_ Hs|Hs]; unfold stop_inv.
  - unfold application_turn in Hs. destruct (process_app p) as [call| | |e|].
    + by destruct (lifecycle_call app call _) as [[|e|] [r a]]; taken Hs.
    + by taken Hs.
    + destruct (stop_requested _) eqn:E; taken Hs. by split.
    + by taken Hs.
    + done.
  - unfold main_turn in Hs. unfold main_inv in Hm. destruct (process_main p) eqn:Em.
    + destruct (start_completed _); taken Hs. simpl. by destruct (runtime_failed _).
    + destruct (process_input p) as [|line rest].
      * unfold RequestStop in Hs. destruct Hm as [Hm _]. rewrite Hm in Hs. by taken Hs.
      * set (q := p <| process_input := rest |>) in Hs. pose proof (Execute_same line q) as Hr. pose proof (Execute_orderly line q Ho) as He.
        change (mCommandRegistry p) with (mCommandRegistry q) in Hs. specialize (He (proj1 Hm)).
        destruct (CommandRegistry.Execute _ _ line q) as [[[e|result]|] q']; [done| |done]. destruct Hr as (_ & E2 & _). simpl in E2.
        destruct (status result); taken Hs; simpl; rewrite ?E2, ?Em; split; auto; done.
    + by destruct (process_app p); taken Hs; split.
    + by destruct (process_app p); taken Hs; split.
    + done.
    + done.
Qed.

Lemma stuck_returned p :
  orderly -> (forall call s, (lifecycle_call app call s).1 <> waiting) -> process_inv p -> stop_inv p ->
  (forall p', ~ process_step app p p') -> exists result, process_main p = main_returned result.
Proof.
  intros Ho Hc [Ha Hm] [Ht Hj] Hstuck. assert (application_turn app p = None) as Han.
  { destruct (application_turn app p) as [p'|] eqn:E; [|done]. exfalso. apply (Hstuck p'). by apply step_application. }
  assert (main_turn app p = None) as Hmn by (destruct (main_turn app p) as [p'|] eqn:E; [exfalso; apply (Hstuck p'); by apply step_main|done]).
  unfold application_turn in Han. unfold main_turn in Hmn. unfold app_inv in Ha. unfold main_inv in Hm.
  destruct (process_app p) as [call| | |e|] eqn:Ep; try done.
  - exfalso. specialize (Hc call (mCommandRegistry p, application p)). by destruct (lifecycle_call app call _) as [[|e|] [r a]].
  - destruct (stop_requested (runtime_state p)) eqn:Es; [done|]. destruct Ha as (_ & Hf & Hs). rewrite Hs in Hmn.
    destruct (process_main p) eqn:Em; try done; [|by specialize (Hj eq_refl)| |by eexists].
    + destruct (process_input p) as [|line rest]; [by destruct (RequestStop p)|].
      set (q := p <| process_input := rest |>) in Hmn. pose proof (Execute_orderly line q Ho (proj1 Hm)) as He.
      change (mCommandRegistry p) with (mCommandRegistry q) in Hmn.
      destruct (CommandRegistry.Execute _ _ line q) as [[[e|result]|] q']; [done| |done]. by destruct (status result).
    + by rewrite Hf in Hm.
  - destruct Ha as (Hs & _). rewrite Hs in Hmn. destruct (process_main p) eqn:Em; try done; [|by eexists].
    destruct (process_input p) as [|line rest]; [by destruct (RequestStop p)|].
    set (q := p <| process_input := rest |>) in Hmn. pose proof (Execute_orderly line q Ho (proj1 Hm)) as He.
    change (mCommandRegistry p) with (mCommandRegistry q) in Hmn.
    destruct (CommandRegistry.Execute _ _ line q) as [[[e|result]|] q']; [done| |done]. by destruct (status result).
Qed.

Lemma reachable_stop_inv p p' : orderly -> process_inv p -> stop_inv p -> rtc (process_step app) p p' -> stop_inv p'.
Proof.
  intros Ho Hi Hs Hr. induction Hr as [p|p1 p2 p3 Hstep _ IH]; [done|]. apply IH.
  - by apply (reachable_process_inv p1), rtc_once.
  - by apply (step_stop_inv p1).
Qed.
End loader.
End LoaderProofs.

(** *** The services of an application base *)

Module BaseProofs.
Import ApplicationBase ApplicationProofs.
Section base.
Context {W : Type}.
Implicit Types (s : t W) (w : W).

(** The stages of [Start] and [Stop] leave the loaded services alone. *)
Lemma run_batch_loaded fuel call on_success (services : list (IService W)) s w :
  (forall service s, mLoadedServices (on_success service s) = mLoadedServices s /\ kept (on_success service s) = kept s) ->
  let '(_, (s', _)) := run_batch fuel call on_success services (s, w) in mLoadedServices s' = mLoadedServices s /\ kept s' = kept s.
Proof.
  intros Ho. revert s w. induction services as [|service services IH]; intros s w; simpl; [done|]. unfold andthen at 1, on_world.
  destruct (wait_for fuel (call service) w) as [[|e|] w1]; [|done..]. unfold andthen, on_state.
  specialize (IH (on_success service s) w1). destruct (run_batch _ _ _ services _) as [c [s' w']]. by destruct (Ho service s) as [<- <-].
Qed.

Lemma Start_loaded OnStart fuel s w :
  let '(_, (s', _)) := Start OnStart fuel (s, w) in mLoadedServices s' = mLoadedServices s /\ kept s' = kept s.
Proof.
  unfold Start, andthen at 1, on_world. destruct (wait_for fuel OnStart w) as [[|e|] w1]; [|done..].
  unfold andthen, on_state, or_rollback, RunForwardBatches. rewrite forward_batches_run by done.
  match goal with |- context [run_batch fuel ?call ?succ ?l (?s1, w1)] =>
    pose proof (run_batch_loaded fuel call succ l s1 w1) as Hr; destruct (run_batch fuel call succ l (s1, w1)) as [[|e|] [s' w']] end;
    specialize (Hr ltac:(done)); [done| |done].
  destruct (Rollback _ _ _ w') as [[] w2]; done.
Qed.

Lemma shut_stop_loaded OnStop fuel s w :
  let '(_, (s', _)) := Stop OnStop fuel (s, w) in mLoadedServices s' = mLoadedServices s /\ kept s' = kept s.
Proof.
  unfold Stop, shut. destruct (RunReverseBatches _ _ _ _ w) as [[error|] w1]; [|done].
  by destruct (CaptureFailure error _ w1) as [[error'|] w2].
Qed.

Lemma Load_completes name services commands OnLoad fuel s w s' w' :
  Load name services commands OnLoad fuel (s, w) = (completed, (s', w')) -> mLoadedServices s' = mServicesInOrder s'.
Proof.
  unfold Load. unfold andthen at 1. destruct (EnsureServicesRegistered services s) as [[] s1]; [|done..].
  unfold andthen at 1. destruct (EnsureRuntimeCommandsRegistered _ _ (s1, w)) as [[] [s2 w2]]; [|done..].
  unfold andthen at 1, on_world. destruct (wait_for fuel OnLoad w2) as [[] w3]; [|done..]. unfold andthen, on_state.
  pose proof (forward_run_guarded fuel service_Load service_Unload mLoadedServices
    (fun l (s : t W) => s <| mLoadedServices := mLoadedServices s ++ l |>) clear_loaded (clear_loaded s2) w3) as Hg.
  specialize (Hg ltac:(intros []; unfold update; simpl; by rewrite app_nil_r) ltac:(intros service k []; simpl; by rewrite <- app_assoc)
    ltac:(done) ltac:(done) ltac:(done) ltac:(done) ltac:(done)).
  intros E. match type of Hg with (let '(_, _) := ?x in _) => assert (x = (completed, (s', w'))) as E' by exact E; destruct x as [c3 [s3 w4]] end.
  injection E' as -> -> ->. destruct Hg as [[E1 _] Hk]. unfold kept in Hk. injection Hk as _ E2. by rewrite E1, E2.
Qed.
End base.
End BaseProofs.

(** ** Properties *)

Section properties.
Import LoaderProofs.

Lemma calls_shape {H A : Type} (p : process H A) :
  process_inv p ->
  ((exists n, process_calls p = take n (succeeded all_calls)) \/ exists call, process_calls p = failed_at call) /\
  ((call_Stop, true) ∈ process_calls p \/ (call_Stop, false) ∈ process_calls p -> stop_requested (runtime_state p) = true).
Proof.
  intros [Ha _]. unfold app_inv in Ha. destruct (process_app p) as [call| | |e|].
  - destruct Ha as (Ec & _ & Hs). rewrite Ec. split; [left; destruct call; [by exists 0%nat|by exists 1%nat|by exists 2%nat|by exists 3%nat]|].
    intros Hin. destruct call; try tauto; exfalso; unfold calls_before, succeeded in Hin; set_solver.
  - destruct Ha as [-> _]. split; [left; by exists 2%nat|]. intros Hin. exfalso. unfold succeeded in Hin. set_solver.
  - destruct Ha as [-> _]. split; [left; by exists 2%nat|]. intros Hin. exfalso. unfold succeeded in Hin. set_solver.
  - destruct Ha as [(call & Ec & Hs) _]. split; [right; by exists call|done].
  - destruct Ha as (_ & Hs & Hc). split; [|done]. destruct (runtime_failed _); [by right|]. left. by exists 4%nat.
Qed.

(** C14: in every interleaving of the two threads the stages of the application are
    called in the order load, start, stop, unload, each at most once and only after
    the one before has returned, and a stage that throws is the last; stop is called
    only when a stop was requested.  When [Initialize] returns it returns [true] if
    all four stages have returned, and [false] if one has thrown. *)
Theorem lifecycle_in_order {C H A : Type} (app : IApplication C H A) common configuration a registry input p p' :
  Initialize app common configuration a registry input = Some p -> rtc (process_step app) p p' ->
  ((exists n, process_calls p' = take n (succeeded all_calls)) \/ exists call, process_calls p' = failed_at call) /\
  ((call_Stop, true) ∈ process_calls p' \/ (call_Stop, false) ∈ process_calls p' -> stop_requested (runtime_state p') = true) /\
  forall result, process_main p' = main_returned result ->
    if result then process_calls p' = succeeded all_calls else exists call, process_calls p' = failed_at call.
Proof.
  intros Hi Hr. apply Initialize_inv in Hi. pose proof (reachable_process_inv app p p' Hi Hr) as Hp.
  destruct (calls_shape p' Hp) as [Hs1 Hs2]. do 2 (split; [done|]). intros result Em. destruct Hp as [Ha Hm].
  unfold main_inv in Hm. rewrite Em in Hm. destruct Hm as [Ep ->]. unfold app_inv in Ha. rewrite Ep in Ha.
  destruct Ha as (_ & _ & Ha). by destruct (runtime_failed _).
Qed.


Section base.
Import BaseProofs.
Context {C H V : Type}.
Abbreviation world := (commands H * V)%type.
Variable name : string.
Variable configuration : C.
Variable OnConfigure : CommonConfiguration -> C -> St V bool.
Variable services : list (option (IService world)).
Variable runtime_commands : list (string * string * H).
Variable handlers : H -> CommandArguments -> St V (option (exn + CommandExecutionStatus)).
Variable OnLoad OnStart OnStop OnUnload : stage world.
Variable fuel : nat.
Let app := base_application name configuration OnConfigure services runtime_commands handlers OnLoad OnStart OnStop OnUnload fuel.

(** While nothing has been unloaded, what was loaded is recorded. *)
Definition loaded_inv (p : process H (ApplicationBase.t world * V)) : Prop :=
  (call_Load, true) ∈ process_calls p -> (forall result, (call_Unload, result) ∉ process_calls p) ->
  ApplicationBase.mLoadedServices (application p).1 = ApplicationBase.mServicesInOrder (application p).1.

Lemma base_call_loaded (call : lifecycle) registry s v :
  let '(c, (registry', (s', v'))) := lifecycle_call app call (registry, (s, v)) in
  match call with
  | call_Load => c = completed -> ApplicationBase.mLoadedServices s' = ApplicationBase.mServicesInOrder s'
  | call_Start | call_Stop =>
      ApplicationBase.mLoadedServices s' = ApplicationBase.mLoadedServices s /\ kept s' = kept s
  | call_Unload => True
  end.
Proof.
  simpl. destruct call.
  - destruct (ApplicationBase.Load _ _ _ _ _ _) as [c [s' [r' v']]] eqn:E. intros ->. by eapply Load_completes.
  - pose proof (Start_loaded OnStart fuel s (registry, v)) as Hs. by destruct (ApplicationBase.Start _ _ _) as [c [s' [r' v']]].
  - pose proof (shut_stop_loaded OnStop fuel s (registry, v)) as Hs. by destruct (ApplicationBase.Stop _ _ _) as [c [s' [r' v']]].
  - by destruct (ApplicationBase.Unload _ _ _) as [c [s' [r' v']]].
Qed.

Lemma application_turn_loaded p p' : process_inv p -> loaded_inv p -> application_turn app p = Some p' -> loaded_inv p'.
Proof.
  intros [Ha _] Hl. unfold application_turn, app_inv in *. destruct (process_app p) as [call| | |e|]; try done.
  - destruct (application p) as [s v] eqn:Eap. pose proof (base_call_loaded call (mCommandRegistry p) s v) as Hb.
    unfold loaded_inv in Hl. rewrite Eap in Hl. destruct (lifecycle_call app call _) as [c [r [s' v']]]. destruct Ha as (Ec & _ & _).
    rewrite Ec in Hl |- *. destruct c as [|e|]; [| |done]; intros [= <-]; unfold loaded_inv; simpl; intros Hin Hno.
    + destruct call; [by apply Hb|..|by destruct (Hno true); set_solver];
        destruct Hb as [-> [= _ ->]]; apply Hl; simpl; set_solver.
    + destruct call; [exfalso; simpl in Hin; set_solver|..|by destruct (Hno false); set_solver];
        destruct Hb as [-> [= _ ->]]; apply Hl; simpl; set_solver.
  - by intros [= <-].
  - destruct (stop_requested _); [|done]. by intros [= <-].
  - by intros [= <-].
Qed.

Lemma Execute_loaded (line : string) p : (application (CommandRegistry.Execute (run_command app) (mCommandRegistry p) line p).2).1 = (application p).1.
Proof.
  unfold CommandRegistry.Execute. destruct (words line) as [|word arguments]; [done|].
  destruct (mCommandRegistry p !! word) as [command|]; [|done]. unfold run_command.
  destruct (CommandRegistry.handler command) as [|h].
  - unfold RequestStop. by destruct (mRuntimeState p).
  - simpl. destruct (application p) as [s v]. by destruct (handlers h arguments v) as [[[e|st]|] v'].
Qed.

Lemma main_turn_loaded p p' : loaded_inv p -> main_turn app p = Some p' -> loaded_inv p'.
Proof.
  intros Hl Hs. unfold main_turn in Hs. destruct (process_main p).
  - destruct (start_completed _); taken Hs. exact Hl.
  - destruct (process_input p) as [|line rest].
    + unfold RequestStop in Hs. destruct (mRuntimeState p); taken Hs; exact Hl.
    + set (q := p <| process_input := rest |>) in Hs. change (mCommandRegistry p) with (mCommandRegistry q) in Hs.
      pose proof (Execute_loaded line q) as Ha. pose proof (Execute_same app line q) as (_ & _ & E3 & _).
      destruct (CommandRegistry.Execute _ _ line q) as [[[e|result]|] q']; [..|discriminate Hs]; simpl in Ha, E3;
        [|destruct (status result)]; taken Hs; unfold loaded_inv; simpl; rewrite E3, Ha; exact Hl.
  - destruct (process_app p); taken Hs. exact Hl.
  - destruct (process_app p); taken Hs. exact Hl.
  - done.
  - done.
Qed.

(** C39: a process whose start fails is not cleaned up: once [Start] has thrown, no
    further stage is called, and every service that was loaded stays loaded to the
    end of the process. *)
Theorem failed_start_never_unloads common cfg v registry input p p' :
  Initialize app common cfg (ApplicationBase.create, v) registry input = Some p -> rtc (process_step app) p p' ->
  (call_Start, false) ∈ process_calls p' ->
  process_calls p' = [(call_Load, true); (call_Start, false)] /\
  ApplicationBase.mLoadedServices (application p').1 = ApplicationBase.mServicesInOrder (application p').1.
Proof.
  intros Hi Hr Hin. pose proof (Initialize_inv app _ _ _ _ _ _ Hi) as Hp. assert (loaded_inv p) as Hl.
  { unfold Initialize in Hi. destruct (CommandRegistry.Clear registry) as [_ r], (RegisterCommand _ _ _ r) as [[e|] r']; [done|].
    destruct (Configure app common cfg _) as [[] a']; [|done]. injection Hi as <-. unfold loaded_inv. simpl. intros Hx. exfalso. set_solver. }
  assert (process_inv p' /\ loaded_inv p') as [Hp' Hl'].
  { clear Hi Hin. induction Hr as [p|p1 p2 p3 Hs _ IH]; [done|]. apply IH.
    - by apply (reachable_process_inv app p1), rtc_once.
    - destruct Hs as [_ Hs|Hs]; [by apply (application_turn_loaded p1)|by apply (main_turn_loaded p1)]. }
  assert (process_calls p' = [(call_Load, true); (call_Start, false)]) as Ec.
  { destruct (calls_shape p' Hp') as [[[n Ec]|[call Ec]] _]; rewrite Ec in Hin |- *.
    - exfalso. do 5 (destruct n as [|n]; [simpl in Hin; set_solver|]). simpl in Hin. set_solver.
    - destruct call; simpl in Hin; try done; exfalso; set_solver. }
  split; [done|]. apply Hl'; rewrite Ec; [set_solver|]. intros []; set_solver.
Qed.
End base.
End properties.

(** ** Two runs *)

Module ExampleLoader.
Import LoaderProofs.

Section schedule.
Context {C H A : Type}.
Variable app : IApplication C H A.

(** Turns of the application thread ([true]) and of the main thread. *)
Fixpoint run_turns (turns : list bool) (p : process H A) : option (process H A) :=
  match turns with
  | [] => Some p
  | turn :: turns =>
      match process_main p, turn with
      | main_terminated, _ => None
      | _, true => match application_turn app p with Some p => run_turns turns p | None => None end
      | _, false => match main_turn app p with Some p => run_turns turns p | None => None end
      end
  end.

Lemma run_turns_rtc turns p p' : run_turns turns p = Some p' -> rtc (process_step app) p p'.
Proof.
  revert p. induction turns as [|turn turns IH]; intros p; simpl; [by intros [= <-]|].
  intros Hr. assert (process_main p <> main_terminated) as Hm by (by intros Em; rewrite Em in Hr).
  assert ((if turn then application_turn app p else main_turn app p) ≫= run_turns turns = Some p') as E.
  { destruct (process_main p), turn; try done; by destruct (application_turn app p) || destruct (main_turn app p). }
  destruct turn; [destruct (application_turn app p) as [q|] eqn:Et|destruct (main_turn app p) as [q|] eqn:Et]; try done;
    apply rtc_l with q; try (by apply IH); [by apply step_application|by apply step_main].
Qed.
End schedule.

(** Commands that print the log of the services. *)
Abbreviation log_world := (commands unit * list string)%type.
Definition note (text : string) (result : exn + LifecycleTask.t log_world) : stage log_world :=
  fun '(r, entries) => (result, (r, entries ++ [text])).
Definition noting (name : string) (batch : Z) (start : exn + LifecycleTask.t log_world) : IService log_world :=
  let done := inr LifecycleTask.Completed in
  mkService name batch (note ("load " +:+ name) done) (note ("start " +:+ name) start) (note ("stop " +:+ name) done)
    (note ("unload " +:+ name) done).
Definition nothing : stage log_world := ret (inr LifecycleTask.Completed).
Definition example_app (start : exn + LifecycleTask.t log_world) : IApplication unit unit (ApplicationBase.t log_world * list string) :=
  base_application "game" tt (fun _ _ v => (true, v)) [Some (noting "ipc" 1 start); Some (noting "storage" 0 (inr LifecycleTask.Completed))]
    [("status", "Print the state", tt)] (fun _ _ v => (Some (inr handled), v)) nothing nothing nothing nothing 1.
Definition good_app := example_app (inr LifecycleTask.Completed).
Definition bad_app := example_app (inl (std_exception "no listener")).

Definition first_state : process unit (ApplicationBase.t log_world * list string) :=
  mkProcess ({["exit" := CommandRegistry.mkCommandDefinition "Stop the application and exit the loader" exit_handler]}) true
    (mkRuntimeState false false false "") (ApplicationBase.create, []) (app_calls call_Load) main_waits ["status 1"; "what"; " exit "; "status"] [].
Definition example_turns : list bool := [true; true; true; false; false; false; false; true; true; true; false].
Definition last_state : process unit (ApplicationBase.t log_world * list string) :=
  default first_state (run_turns good_app example_turns first_state).

Lemma last_reached : rtc (process_step good_app) first_state last_state.
Proof. apply (run_turns_rtc good_app example_turns). by vm_compute. Qed.

Lemma lifecycle_in_order_witness :
  process_calls last_state = succeeded all_calls /\
  (application last_state).2 = ["load storage"; "load ipc"; "start storage"; "start ipc"; "stop ipc"; "stop storage"; "unload ipc"; "unload storage"].
Proof.
  split; [|by vm_compute]. assert (process_main last_state = main_returned true) as Em by by vm_compute.
  exact (proj2 (proj2 (lifecycle_in_order good_app (BuildDefaultCommonConfiguration "game") tt (ApplicationBase.create, []) ∅
    ["status 1"; "what"; " exit "; "status"] first_state last_state eq_refl last_reached)) true Em).
Defined.

(** The second service does not start: the first is stopped, both stay loaded. *)
Definition failed_state : process unit (ApplicationBase.t log_world * list string) :=
  default first_state (run_turns bad_app [true; true; true; false; false] first_state).

Lemma failed_reached : rtc (process_step bad_app) first_state failed_state.
Proof. apply (run_turns_rtc bad_app [true; true; true; false; false]). by vm_compute. Qed.

Lemma failed_start_never_unloads_witness :
  process_calls failed_state = [(call_Load, true); (call_Start, false)] /\
  process_main failed_state = main_returned false /\
  (application failed_state).2 = ["load storage"; "load ipc"; "start storage"; "start ipc"; "stop storage"].
Proof.
  assert ((call_Start, false) ∈ process_calls failed_state) as Hin.
  { assert (process_calls failed_state = [(call_Load, true); (call_Start, false)]) as -> by by vm_compute. set_solver. }
  split; [|by vm_compute].
  exact (proj1 (failed_start_never_unloads "game" tt (fun _ _ v => (true, v))
    [Some (noting "ipc" 1 (inl (std_exception "no listener"))); Some (noting "storage" 0 (inr LifecycleTask.Completed))]
    [("status", "Print the state", tt)] (fun _ _ v => (Some (inr handled), v)) nothing nothing nothing nothing 1
    (BuildDefaultCommonConfiguration "game") tt [] ∅ ["status 1"; "what"; " exit "; "status"] first_state failed_state eq_refl failed_reached Hin)).
Defined.

(** An application that counts its commands. *)
Definition counting_app : IApplication unit unit nat :=
  mkIApplication "count" tt (fun _ _ n => (true, n)) (fun call s => (completed, s)) (fun _ _ n => (Some (inr handled), S n)).
Definition counting_state : process unit nat :=
  mkProcess ({["exit" := CommandRegistry.mkCommandDefinition "Stop the application and exit the loader" exit_handler]}) true
    (mkRuntimeState false false false "") 0%nat (app_calls call_Load) main_waits [] [].

End ExampleLoader.
