(* ===== verification/Console.v ===== *)
(** * Console: what the commands of the applications have in common

    A command is a function of its arguments and of the services of its
    application, which answers with the lines it logs (their text without the names
    of the values, and the values); it may throw. *)

From Stdlib Require Import Ascii.
From S2P Require Import Prelude Text Base Discovery Storage Application Loader.

(** ** Answers *)

Inductive log_line : Type := log_info (text : string) (values : list string) | log_warn (text : string) (values : list string).

(** [None]: the command does not come back. *)
Abbreviation reply := (option (exn + list log_line)).
Definition info (text : string) (values : list string) : reply := Some (inr [log_info text values]).
Definition warn (text : string) (values : list string) : reply := Some (inr [log_warn text values]).

Definition show_bool (b : bool) : string := if b then "true" else "false".
Definition or_none (text : string) : string := if String.eqb text "" then "none" else text.

(** [arguments] from some index on. *)
Definition JoinArguments (arguments : list string) : string := String.concat " " arguments.

(** ** Commands *)

Section commands.
(** The services [C]; whether [RegisterServices] has set the pointers to them. *)
Context {C : Type}.
Variable services_registered : C -> bool.

(** [if (service == nullptr)]; [RegisterServices] sets all the pointers. *)
Definition registered (warning : string) (command : CommandArguments -> St C reply) (arguments : CommandArguments) : St C reply :=
  fun c => if services_registered c then command arguments c else (warn warning [], c).

Definition say (r : reply) : St C reply := fun c => (r, c).

(** [std::stoull] inside and outside of a [try] block. *)
Definition number_or (warning : string) (text : string) (k : Z -> St C reply) : St C reply :=
  match stoull text with Some n => k n | None => say (warn warning []) end.
Definition number (text : string) (k : Z -> St C reply) : St C reply :=
  match stoull text with Some n => k n | None => say (Some (inl (std_exception "stoull"))) end.

(** A result is logged: the message of a failure, or some values. *)
Definition report (r : Result) (failed text : string) (values : list string) : reply :=
  if negb (ok r) then warn failed [message r] else info text values.
Definition report_storage (r : StorageCommandResult) (failed text : string) (values : list string) : reply :=
  if negb (sc_ok r) then warn failed [sc_message r] else info text values.

(** What the loader sees of a command: every one of them returns [handled]. *)
Definition run_console (command : CommandArguments -> St C reply) : CommandArguments -> St C (option (exn + CommandExecutionStatus)) :=
  fun arguments c =>
    let '(r, c) := command arguments c in
    (match r with Some (inl e) => Some (inl e) | Some (inr _) => Some (inr handled) | None => None end, c).
End commands.

(** ** Texts *)

(** The bytes of a [std::string], and back. *)
Definition bytes_of_string (text : string) : ByteBuffer := (fun c => Z.of_N (N_of_ascii c)) <$> String.list_ascii_of_string text.
Definition string_of_bytes (bytes : ByteBuffer) : string := String.string_of_list_ascii ((fun b => ascii_of_N (Z.to_N b)) <$> bytes).

Lemma string_of_bytes_of_string text : string_of_bytes (bytes_of_string text) = text.
Proof.
  unfold string_of_bytes, bytes_of_string. rewrite <- (String.string_of_list_ascii_of_string text) at 2. f_equal.
  induction (String.list_ascii_of_string text) as [|c cs IH]; [done|]. cbn. by rewrite N2Z.id, ascii_N_embedding, IH.
Qed.

Definition event_name (type : MembershipEventType) : string :=
  match type with me_added => "added" | me_updated => "updated" | me_removed => "removed" end.

Definition process_values (p : ProcessRef) : list string :=
  [to_string (service_type (process_id p)); to_string (instance_id (process_id p)); to_string (incarnation_id p)].

Definition member_line (text : string) (m : ProcessDescriptor) : log_line :=
  log_info text
    [service_name m; to_string (service_type (process_id (Base.process m))); to_string (instance_id (process_id (Base.process m)));
     host (listen_endpoint m); to_string (port (listen_endpoint m))].

(** ** Automation: the function that a term applies, to unfold a command *)

Ltac head_of t := lazymatch t with ?f _ => head_of f | _ => t end.
