(* ===== verification/NodeStatus.v ===== *)
(** * NodeStatus: what the IPC services show of themselves

    The counters of the receiver hosts and the status snapshots of
    [common/ipc/ipc_node_service_base.cpp], [game/services/ipc_client_service.cpp],
    [gate/services/ipc_service.cpp] and [relay/services/ipc_service.cpp], with the
    lines in which the consoles log them. *)

From stdpp Require Import sorting.
From S2P Require Import Prelude Text Base Receiver Transport Link Discovery Routing IpcNode Application Loader Console.

(** ** Receiver hosts count what they accept *)

Record HostCounters : Type := mkHostCounters { mDispatchCount : Z; mLastPayloadType : string; mLastPlayerId : Z }.
#[export] Instance eta_host_counters : Eta HostCounters := fun s => mkHostCounters (mDispatchCount s) (mLastPayloadType s) (mLastPlayerId s).

Definition new_counters : HostCounters := mkHostCounters 0 "" 0.

Module CountingHosts.

Definition count_dispatch (e : Envelope) (s : HostCounters) : HostCounters :=
  s <| mDispatchCount := u64 (mDispatchCount s + 1) |> <| mLastPayloadType := payload_type_url e |>.

Definition ProcessDispatch {W : Type} (self : ProcessRef) (handler : option (ReceiverAddress -> Envelope -> St W Result))
    (target : ReceiverAddress) (e : Envelope) : St (HostCounters * W) Result :=
  fun '(s, w) =>
    if negb (rtype target =? rt_process) then (Failure "unsupported receiver type", (s, w))
    else if negb (key_hi target =? service_type (process_id self)) || negb (key_lo target =? instance_id (process_id self))
    then (Failure "process receiver target mismatch", (s, w))
    else
      let s := count_dispatch e s in
      match handler with
      | Some h => let '(r, w) := h target e w in (r, (s, w))
      | None => (Success, (s, w))
      end.

Definition PlayerDispatch (mPlayers : gset Z) (target : ReceiverAddress) (e : Envelope) : St HostCounters Result :=
  fun s =>
    if negb (rtype target =? rt_player) then (Failure "unsupported receiver type", s)
    else if negb (bool_decide (key_hi target ∈ mPlayers)) then (Failure "player receiver is not bound locally", s)
    else (Success, (count_dispatch e s) <| mLastPlayerId := key_hi target |>).

Definition ServiceDispatch (mServiceType : Z) (target : ReceiverAddress) (e : Envelope) : St HostCounters Result :=
  fun s =>
    if negb (rtype target =? rt_service) then (Failure "unsupported receiver type", s)
    else if negb (key_hi target =? mServiceType) then (Failure "service receiver target mismatch", s)
    else (Success, count_dispatch e s).

(** Counting changes nothing of what a host answers. *)
Lemma PlayerDispatch_answers mPlayers target e s : (PlayerDispatch mPlayers target e s).1 = Hosts.PlayerDispatch mPlayers target e.
Proof. unfold PlayerDispatch, Hosts.PlayerDispatch. by repeat case_match. Qed.

Lemma ServiceDispatch_answers mServiceType target e s : (ServiceDispatch mServiceType target e s).1 = Hosts.ServiceDispatch mServiceType target e.
Proof. unfold ServiceDispatch, Hosts.ServiceDispatch. by repeat case_match. Qed.

Lemma ProcessDispatch_answers {W : Type} self handler target e s (w : W) :
  let '(r, (_, w')) := ProcessDispatch self handler target e (s, w) in (r, w') = Hosts.ProcessDispatch self handler target e w.
Proof.
  unfold ProcessDispatch, Hosts.ProcessDispatch, ret. destruct (negb _); [done|]. destruct (_ || _); [done|]. destruct handler as [h|]; [|done].
  by destruct (h target e w).
Qed.

(** A player's messages are counted exactly when the player is bound here. *)
Lemma PlayerDispatch_counts mPlayers target e s :
  (PlayerDispatch mPlayers target e s).2 =
    if bool_decide (rtype target = rt_player /\ key_hi target ∈ mPlayers)
    then mkHostCounters (u64 (mDispatchCount s + 1)) (payload_type_url e) (key_hi target) else s.
Proof.
  unfold PlayerDispatch. destruct (Z.eqb_spec (rtype target) rt_player) as [E|E]; cbn [negb].
  - case_bool_decide as Hin; [rewrite bool_decide_eq_true_2 by done; done|rewrite bool_decide_eq_false_2 by naive_solver; done].
  - rewrite bool_decide_eq_false_2 by naive_solver. done.
Qed.
End CountingHosts.

(** ** Status snapshots *)

Record IpcNodeBaseStatusSnapshot : Type := mkBaseStatus {
  status_self : option ProcessDescriptor;
  transport_ready : bool;
  status_registered : bool;
  ipc_ready : bool;
  membership_degraded : bool;
  keepalive_running : bool;
  watch_running : bool;
  keepalive_failure_count : Z;
  discovery_recovery_success_count : Z;
  discovery_recovery_failure_count : Z;
  discovery_runtime : EtcdDiscoveryRuntimeStats;
  member_count : Z;
  auto_connect_targets : Z;
  auto_connect_success_count : Z;
  auto_connect_failure_count : Z;
  last_auto_connect_target : option ProcessRef;
  last_auto_connect_failure_target : option ProcessRef;
  last_auto_connect_failure_reason : string;
  status_last_error : string
}.

(** [GameIpcClientStatus] and [GateIpcStatus] are the base status with these fields;
    a gate has no host of players, whose counters stay at zero. *)
Record EndpointIpcStatus : Type := mkEndpointStatus {
  endpoint_base : IpcNodeBaseStatusSnapshot;
  send_reject_count : Z;
  last_send_reject_reason : string;
  relay_member_visible : bool;
  healthy_relay_link : bool;
  process_dispatch_count : Z;
  last_process_payload_type : string;
  player_dispatch_count : Z;
  last_player_id : Z;
  last_player_payload_type : string;
  local_service_dispatch_count : Z;
  last_payload_type : string
}.

Record RelayIpcStatus : Type := mkRelayStatus {
  relay_base : IpcNodeBaseStatusSnapshot;
  forward_failure_count : Z;
  last_forward_failure_reason : string;
  visible_game_members : Z;
  healthy_game_links : Z;
  forwarded_data_frame_count : Z
}.

Record GameLocalReceiverSnapshot : Type := mkLocalReceivers {
  process_receiver : option ProcessRef;
  service_receiver : ReceiverAddress;
  local_player_ids : list Z
}.

Section node.
Context {V T : Type} {be : IEtcdDiscoveryBackend V} {glaze : Glaze} {tra : ITransport T} {cc : Codec ControlMessage} {mo : MapOrder Z}.
Abbreviation node := (IpcNode.node V T).
Implicit Types n : node.

(** [mKeepAliveRunning]: whether the thread is within its loop. *)
Definition SnapshotBaseStatusLocked (mKeepAliveRunning : bool) n : IpcNodeBaseStatusSnapshot :=
  mkBaseStatus (IpcNode.mSelf n) (IpcNode.mTransportReady n) (IpcNode.mRegistered n) (IpcNode.mIpcReady n)
    (IpcNode.mTransportReady n && negb (IpcNode.mRegistered n) && negb (IpcNode.mIpcReady n))
    mKeepAliveRunning (EtcdDiscovery.WatchRunning (IpcNode.mDiscovery n))
    (IpcNode.mKeepAliveFailureCount n) (IpcNode.mDiscoveryRecoverySuccessCount n) (IpcNode.mDiscoveryRecoveryFailureCount n)
    (EtcdDiscovery.RuntimeStats (IpcNode.mDiscovery n)) (Z.of_nat (length (EtcdDiscovery.All (IpcNode.mDiscovery n))))
    (Z.of_nat (size (IpcNode.mAutoConnectAttempts n))) (IpcNode.mAutoConnectSuccessCount n) (IpcNode.mAutoConnectFailureCount n)
    (IpcNode.mLastAutoConnectTarget n) (IpcNode.mLastAutoConnectFailureTarget n) (IpcNode.mLastAutoConnectFailureReason n)
    (IpcNode.mLastError n).

(** [Snapshot] of a game and of a gate; the host of processes exists while the role's
    components do. *)
Definition EndpointSnapshot (mKeepAliveRunning : bool) (process_host : option HostCounters) (player_host service_host : HostCounters) n
    : EndpointIpcStatus :=
  mkEndpointStatus (SnapshotBaseStatusLocked mKeepAliveRunning n) (IpcNode.mSendRejectCount n) (IpcNode.mLastSendRejectReason n)
    (FirstPhaseIpcTopologyPolicy.HasMemberOfServiceType (EtcdDiscovery.All (IpcNode.mDiscovery n)) kRelayServiceType)
    (FirstPhaseIpcTopologyPolicy.HasHealthyLinkOfServiceType (IpcNode.HealthyLinks n) kRelayServiceType)
    (mDispatchCount (default new_counters process_host)) (mLastPayloadType (default new_counters process_host))
    (mDispatchCount player_host) (mLastPlayerId player_host) (mLastPayloadType player_host)
    (mDispatchCount service_host) (mLastPayloadType service_host).

Definition of_games (p : ProcessRef) : bool := service_type (process_id p) =? kGameServiceType.

Definition RelaySnapshot (mKeepAliveRunning : bool) n : RelayIpcStatus :=
  mkRelayStatus (SnapshotBaseStatusLocked mKeepAliveRunning n) (IpcNode.mForwardFailureCount n) (IpcNode.mLastForwardFailureReason n)
    (Z.of_nat (length (filter (fun m => of_games (Base.process m) = true) (EtcdDiscovery.All (IpcNode.mDiscovery n)))))
    (Z.of_nat (length (filter (fun link => of_games link = true) (IpcNode.HealthyLinks n))))
    (IpcNode.mForwardedDataFrameCount n).

Definition LocalReceivers (my_service_type : Z) n : GameLocalReceiverSnapshot :=
  mkLocalReceivers (Base.process <$> IpcNode.mSelf n) (IpcNode.LocalServiceReceiverAddress my_service_type)
    (merge_sort Z.le (elements (IpcNode.mBoundPlayers n))).

(** *** What a snapshot says *)

(** A node that can be reached is active or shows that it is degraded, never both; it
    is neither only before its transport is ready. *)
Lemma status_active_or_degraded r st configuration d running n :
  rtc (NodeSteps.node_step r st configuration) (NodeSteps.initial d) n ->
  let s := SnapshotBaseStatusLocked running n in
  (IpcNode.IsIpcActiveLocked n = true <-> transport_ready s = true /\ membership_degraded s = false) /\
  (membership_degraded s = true -> status_registered s = false /\ ipc_ready s = false).
Proof.
  intros Hr. destruct (node_flags_consistent r st configuration d n Hr) as [E Ht]. cbv zeta. simpl. unfold IpcNode.IsIpcActiveLocked. rewrite E.
  destruct (IpcNode.mRegistered n) eqn:Er; simpl.
  - destruct (Ht eq_refl) as [-> _]. done.
  - destruct (IpcNode.mTransportReady n); simpl; (split; [|done]); (split; [done|]); by intros [? ?].
Qed.

(** The receivers of a game are its bound players, in order and once each. *)
Lemma LocalReceivers_spec my_service_type n :
  let ids := local_player_ids (LocalReceivers my_service_type n) in
  Sorted Z.le ids /\ NoDup ids /\ forall p, p ∈ ids <-> p ∈ IpcNode.mBoundPlayers n.
Proof.
  cbv zeta. simpl. pose proof (merge_sort_Permutation Z.le (elements (IpcNode.mBoundPlayers n))) as Hp. split_and!.
  - apply Sorted_merge_sort. intros x y. unfold total. lia.
  - rewrite Hp. apply NoDup_elements.
  - intros p. by rewrite Hp, elem_of_elements.
Qed.
End node.

(** ** The lines of the consoles *)

Definition process_or_zero (p : option ProcessRef) : list string :=
  match p with Some p => [to_string (service_type (process_id p)); to_string (instance_id (process_id p))] | None => ["0"; "0"] end.

Definition self_values (s : IpcNodeBaseStatusSnapshot) : list string := process_or_zero (Base.process <$> status_self s).

Definition flag_values (s : IpcNodeBaseStatusSnapshot) : list string :=
  [show_bool (transport_ready s); show_bool (status_registered s); show_bool (ipc_ready s); show_bool (membership_degraded s);
   show_bool (keepalive_running s); show_bool (watch_running s); to_string (member_count s)].

Definition auto_connect_values (s : IpcNodeBaseStatusSnapshot) : list string :=
  [to_string (auto_connect_targets s); to_string (auto_connect_success_count s); to_string (auto_connect_failure_count s)] ++
  process_or_zero (last_auto_connect_target s) ++ process_or_zero (last_auto_connect_failure_target s) ++
  [or_none (last_auto_connect_failure_reason s)].

Definition recovery_values (s : IpcNodeBaseStatusSnapshot) : list string :=
  [to_string (keepalive_failure_count s); to_string (discovery_recovery_success_count s); to_string (discovery_recovery_failure_count s)].

Definition runtime_values (s : IpcNodeBaseStatusSnapshot) : list string :=
  let stats := discovery_runtime s in
  [to_string (watch_restart_count stats); to_string (watch_start_failure_count stats); to_string (watch_stream_closed_count stats);
   to_string (snapshot_refresh_failure_count stats)].

Definition relay_values (s : EndpointIpcStatus) : list string := [show_bool (relay_member_visible s); show_bool (healthy_relay_link s)].

Definition process_host_values (s : EndpointIpcStatus) : list string :=
  [to_string (process_dispatch_count s); or_none (last_process_payload_type s)].
Definition service_host_values (s : EndpointIpcStatus) : list string :=
  [to_string (local_service_dispatch_count s); or_none (last_payload_type s); or_none (status_last_error (endpoint_base s))].

Definition game_status_values (s : EndpointIpcStatus) : list string :=
  let base := endpoint_base s in
  self_values base ++ flag_values base ++ relay_values s ++ auto_connect_values base ++ process_host_values s ++
  [to_string (player_dispatch_count s); to_string (last_player_id s); or_none (last_player_payload_type s)] ++ service_host_values s.

Definition gate_status_values (s : EndpointIpcStatus) : list string :=
  let base := endpoint_base s in
  self_values base ++ flag_values base ++ relay_values s ++ auto_connect_values base ++ process_host_values s ++ service_host_values s.

Definition game_metrics_values (s : EndpointIpcStatus) : list string :=
  let base := endpoint_base s in
  recovery_values base ++ [to_string (send_reject_count s); or_none (last_send_reject_reason s)] ++ runtime_values base.

Definition game_link_values (s : RelayIpcStatus) : list string := [to_string (visible_game_members s); to_string (healthy_game_links s)].

Definition relay_status_values (s : RelayIpcStatus) : list string :=
  let base := relay_base s in
  self_values base ++ flag_values base ++ game_link_values s ++ auto_connect_values base ++
  [to_string (forwarded_data_frame_count s); or_none (status_last_error base)].

Definition relay_topology_values (s : RelayIpcStatus) : list string :=
  game_link_values s ++ auto_connect_values (relay_base s) ++ [to_string (forwarded_data_frame_count s)].

Definition relay_metrics_values (s : RelayIpcStatus) : list string :=
  let base := relay_base s in
  recovery_values base ++
  [to_string (forward_failure_count s); or_none (last_forward_failure_reason s); to_string (forwarded_data_frame_count s)] ++ runtime_values base.

(** A link with the role that its service type means. *)
Definition topology_link (text known other : string) (known_type : Z) (link : ProcessRef) : log_line :=
  log_info text (process_values link ++ [if service_type (process_id link) =? known_type then known else other]).
