(* ===== verification/GameConsole.v ===== *)
(** * GameConsole: the commands of [game/application.cpp]

    What the operator of a game can type, as functions of the services of the game. *)

From S2P Require Import Prelude Text Base Receiver Link Discovery IpcNode Redis Lease Storage Directory Repository Protocol Session Persistence GameLogin.
From S2P Require Import Application Config Loader Console NodeStatus.

(** ** What the commands ask of the IPC service besides [GameIpc] *)

Class ConsoleIpc (N : Type) : Type := {
  RefreshDiscovery : St N Result;
  DrainMembershipEvents : St N (list MembershipEvent);
  KeepAliveOnce : St N Result;
  Members : N -> list ProcessDescriptor;
  HealthyLinks : N -> list ProcessRef;
  ConnectToProcess : Z -> St N Result;
  SendLocalServiceMessage : string -> St N Result;
  SendProcessMessage : Z -> string -> St N Result;
  SendPlayerMessage : Z -> string -> St N Result;
  BroadcastServiceMessage : string -> bool -> St N Result;
  BindRemotePlayer : Z -> Z -> St N Result;
  IpcSnapshot : N -> EndpointIpcStatus;
  IpcLocalReceivers : N -> GameLocalReceiverSnapshot
}.

(** None of this changes which players are bound here. *)
Class ConsoleIpcLaw (N : Type) `{GameIpcLaw N} `{ConsoleIpc N} : Prop := {
  refresh_keeps n p : bound (RefreshDiscovery n).2 p <-> bound n p;
  drain_keeps n p : bound (DrainMembershipEvents n).2 p <-> bound n p;
  keepalive_keeps n p : bound (KeepAliveOnce n).2 p <-> bound n p;
  connect_keeps i n p : bound (ConnectToProcess i n).2 p <-> bound n p;
  send_local_keeps text n p : bound (SendLocalServiceMessage text n).2 p <-> bound n p;
  send_process_keeps i text n p : bound (SendProcessMessage i text n).2 p <-> bound n p;
  send_player_keeps q text n p : bound (SendPlayerMessage q text n).2 p <-> bound n p;
  broadcast_keeps text b n p : bound (BroadcastServiceMessage text b n).2 p <-> bound n p;
  bind_remote_keeps q i n p : bound (BindRemotePlayer q i n).2 p <-> bound n p
}.

(** ** The services of the application *)

(** [console_storage] is the service that the directory and the repository point to. *)
Record console (N W : Type) : Type := mkConsole {
  services_registered : bool;
  console_storage : StorageService.t;
  console_directory : PlayerDirectoryService.t;
  console_persistence : PlayerPersistenceService.t;
  console_game : game N W
}.
Arguments mkConsole {N W}. Arguments services_registered {N W}. Arguments console_storage {N W}. Arguments console_directory {N W}.
Arguments console_persistence {N W}. Arguments console_game {N W}.
#[export] Instance eta_console {N W} : Eta (console N W) := fun c =>
  mkConsole (services_registered c) (console_storage c) (console_directory c) (console_persistence c) (console_game c).

Section lifts.
Context {N W : Type}.
Implicit Types c : console N W.

Definition on_game {A : Type} (m : St (game N W) A) : St (console N W) A :=
  fun c => let '(a, g) := m (console_game c) in (a, c <| console_game := g |>).
Definition on_world {A : Type} (m : St W A) : St (console N W) A :=
  on_game (fun g => let '(a, w) := m (world g) in (a, g <| world := w |>)).
Definition on_directory {A : Type} (m : St (PlayerDirectoryService.t * W) A) : St (console N W) A :=
  fun c => let '(a, (d, w)) := m (console_directory c, world (console_game c)) in
    (a, c <| console_directory := d |> <| console_game := (console_game c) <| world := w |> |>).
Definition on_persistence {A : Type} (m : St (PlayerPersistenceService.t * game N W) A) : St (console N W) A :=
  fun c => let '(a, (s, g)) := m (console_persistence c, console_game c) in
    (a, c <| console_persistence := s |> <| console_game := g |>).

(** The storage service has changed: its users see the change. *)
Definition directory_on (storage : StorageService.t) (d : PlayerDirectoryService.t) : PlayerDirectoryService.t :=
  PlayerDirectoryService.mkPlayerDirectoryService (Some storage) (PlayerDirectoryService.mDatasetName d) (PlayerDirectoryService.mEntries d)
    (PlayerDirectoryService.mNextPlayerId d).
Definition repository_on (storage : StorageService.t) (r : PlayerRepository.t) : PlayerRepository.t :=
  PlayerRepository.mkPlayerRepository (Some storage) (PlayerRepository.mDatasetName r) (PlayerRepository.mPlayers r).
Definition set_storage (storage : StorageService.t) (c : console N W) : console N W :=
  c <| console_storage := storage |> <| console_directory := directory_on storage (console_directory c) |>
    <| console_game := (console_game c) <| repository := repository_on storage (repository (console_game c)) |> |>.
Definition on_storage {A : Type} (m : St (StorageService.t * W) A) : St (console N W) A :=
  fun c => let '(a, (s, w)) := m (console_storage c, world (console_game c)) in
    (a, set_storage s (c <| console_game := (console_game c) <| world := w |> |>)).

End lifts.

(** ** The commands *)

Section commands.
Context {N W : Type} `{Redis W} `{Maria W} `{PlayerDataCodec} `{GameIpc N} `{ConsoleIpc N} {mo : MapOrder Z} {ms : MapOrder string}.
Context `{MessageCodec PlayerProfilePush}.
(** The clock, which every command reads as one time, and the fuel of the loop of
    [ResolveOrCreate]. *)
Variable now : Z.
Variable fuel : nat.
Abbreviation command := (CommandArguments -> St (console N W) reply).
Abbreviation registered := (Console.registered services_registered).
Implicit Types (c : console N W) (arguments : CommandArguments).

Definition player_lease_status : command :=
  registered "player lease status: service not registered" (fun arguments =>
    match arguments with
    | [text] => number text (fun player_id c =>
        let local := PlayerLeaseService.PlayerSnapshot (lease (console_game c)) player_id in
        let '(owner, c) := on_game (on_lease (PlayerLeaseService.Lookup player_id)) c in
        let show (o : option PlayerLeaseOwner) : list string :=
          match o with
          | Some o => [to_string (game_service_type o); to_string (game_instance_id o); token o]
          | None => ["0"; "0"; "none"]
          end in
        (info "player lease status"
           ([to_string player_id; show_bool (ps_tracked local); to_string (game_service_type (ps_owner local));
             to_string (game_instance_id (ps_owner local)); (if ps_tracked local then token (ps_owner local) else "none");
             show_bool (bool_decide (is_Some owner))] ++ show owner), c))
    | _ => say (warn "usage: player_lease_status <player_id>" [])
    end).

Definition player_lease_service_status : command :=
  registered "player lease service status: service not registered" (fun _ c =>
    let snapshot := PlayerLeaseService.Snapshot (lease (console_game c)) in
    (info "player lease service status"
       [show_bool (Lease.running snapshot); to_string (Lease.tracked_player_count snapshot); to_string (renew_success_count snapshot);
        to_string (renew_failure_count snapshot); to_string (local_loss_count snapshot); to_string (release_success_count snapshot);
        to_string (release_failure_count snapshot); to_string (last_renew_ms snapshot); or_none (Lease.last_error snapshot)], c)).

Definition player_persistence_status : command :=
  registered "player persistence status: service not registered" (fun _ c =>
    let snapshot := PlayerPersistenceService.Snapshot (console_persistence c) in
    (info "player persistence status"
       [show_bool (running snapshot); to_string (scan_count snapshot); to_string (tracked_player_count snapshot);
        to_string (pending_initial_persist_count snapshot); to_string (created_without_maria_count snapshot);
        to_string (flush_attempt_count snapshot); to_string (flush_success_count snapshot); to_string (flush_failure_count snapshot);
        to_string (last_scan_ms snapshot); to_string (last_flush_player_id snapshot); to_string (snapshot_last_flush_ms snapshot);
        or_none (last_error snapshot)], c)).

Definition player_persistence_player_status : command :=
  registered "player persistence player status: service not registered" (fun arguments =>
    match arguments with
    | [text] => number text (fun player_id c =>
        let snapshot := PlayerPersistenceService.PlayerSnapshot (console_persistence c) (console_game c) player_id in
        (info "player persistence player status"
           [to_string player_id; show_bool (pp_tracked snapshot); show_bool (pp_repository_present snapshot);
            show_bool (pp_loaded snapshot); show_bool (pp_dirty snapshot); show_bool (pp_pending_initial_persist snapshot);
            show_bool (pp_created_without_maria snapshot); to_string (pp_flush_count snapshot); to_string (pp_last_dirty_ms snapshot);
            to_string (pp_last_flush_ms snapshot); to_string (pp_consecutive_failure_count snapshot);
            to_string (pp_next_retry_ms snapshot); to_string (pp_last_failure_ms snapshot); or_none (pp_last_error snapshot)], c))
    | _ => say (warn "usage: player_persistence_player_status <player_id>" [])
    end).

Definition player_persistence_flush_due : command :=
  registered "player persistence flush due: service not registered" (fun _ c =>
    let '(flushed, c) := on_persistence (PlayerPersistenceService.FlushDuePlayersOnce now) c in
    (info "player persistence flush due" [to_string flushed], c)).

Definition AllMariaTargetsReachable (snapshot : StorageService.StorageSnapshot) : bool :=
  let statuses := (entries (StorageService.snapshot_maria snapshot)).*2 in
  negb (bool_decide (statuses = [])) && forallb cs_reachable statuses.

Definition ProbeNow : St (console N W) StorageService.StorageSnapshot :=
  fun c => let '(_, c) := on_storage StorageService.RefreshConnections c in (StorageService.ProbeAll (console_storage c), c).

Definition status_line (text : string) (entry : string * ConnectionProbeStatus) : log_line :=
  let '(name, status) := entry in
  log_info text [name; or_none (cs_target status); show_bool (cs_reachable status); or_none (cs_error status)].

Definition player_persistence_recover_flush : command :=
  registered "player persistence recover flush: services not registered" (fun _ c =>
    let '(snapshot, c) := ProbeNow c in
    if AllMariaTargetsReachable snapshot then
      let '(reset, c) := on_persistence (fun '(s, g) => let '(n, s) := PlayerPersistenceService.ResetRetryStates s in (n, (s, g))) c in
      let '(flushed, c) := on_persistence (PlayerPersistenceService.FlushDuePlayersOnce now) c in
      (info "player persistence recover flush" ["true"; to_string reset; to_string flushed], c)
    else
      (Some (inr (log_info "player persistence recover flush" ["false"; "0"; "0"] ::
         ((fun '(name, status) => log_info "player persistence recover flush maria"
             [name; show_bool (cs_reachable status); or_none (cs_error status)]) <$> entries (StorageService.snapshot_maria snapshot)))), c)).

Definition player_runtime_status : command :=
  registered "player runtime status: service not registered" (fun arguments =>
    match arguments with
    | [text] => number text (fun player_id c =>
        let snapshot := PlayerRuntimeService.Snapshot (runtime (console_game c)) player_id in
        (info "player runtime status" [to_string player_id; show_bool (rt_present snapshot); to_string (rt_command_count snapshot)], c))
    | _ => say (warn "usage: player_runtime_status <player_id>" [])
    end).

Definition player_push_profile : command :=
  registered "player push profile: service not registered" (fun arguments =>
    match arguments with
    | [text] => number text (fun player_id c =>
        let '(result, c) := on_game (GamePlayerMessageService.PushProfileToPlayer player_id) c in
        (report result "player push profile failed" "player push profile" [to_string player_id], c))
    | _ => say (warn "usage: player_push_profile <player_id>" [])
    end).

Definition push_message (text id payload : string) : St (console N W) reply :=
  number text (fun player_id => number id (fun message_id c =>
    let '(result, c) := on_game (GamePlayerMessageService.PushToPlayer player_id (u32 message_id) (bytes_of_string payload)) c in
    (report result "player push failed" "player push" [to_string player_id; to_string (u32 message_id); payload], c))).

Definition player_push : command :=
  registered "player push: service not registered" (fun arguments =>
    match arguments with
    | [text; id] => push_message text id "server-push"
    | [text; id; payload] => push_message text id payload
    | _ => say (warn "usage: player_push <player_id> <message_id> [payload]" [])
    end).

Definition status : command := fun _ => say (info "game status" ["running"]).

(** *** The player directory *)

(** An entry of Redis that is no number makes [ResolveOrCreate] and [Lookup] throw. *)
Definition with_outcome {A : Type} (m : St (console N W) (outcome A)) (k : A -> St (console N W) reply) : St (console N W) reply :=
  fun c =>
    match m c with
    | (returned a, c) => k a c
    | (thrown, c) => (Some (inl (std_exception "stoull")), c)
    | (out_of_fuel, c) => (None, c)
    end.

Definition area_warning : string := "player directory: area_id must be an unsigned integer".

Definition player_directory_resolve : command :=
  registered "player directory: service not registered" (fun arguments =>
    match arguments with
    | [platform; account_id; area] => number_or area_warning area (fun area_id =>
        with_outcome (on_directory (PlayerDirectoryService.ResolveOrCreate fuel platform account_id (u32 area_id))) (fun result =>
          say (info "player directory resolve"
            [platform; account_id; to_string (u32 area_id); to_string (Directory.player_id result); show_bool (created result)])))
    | _ => say (warn "usage: player_directory_resolve <platform> <account_id> <area_id>" [])
    end).

Definition player_directory_lookup : command :=
  registered "player directory: service not registered" (fun arguments =>
    match arguments with
    | [platform; account_id; area] => number_or area_warning area (fun area_id =>
        with_outcome (on_directory (PlayerDirectoryService.Lookup platform account_id (u32 area_id))) (fun result =>
          say (match result with
               | None => info "player directory lookup: present=false" [platform; account_id; to_string (u32 area_id)]
               | Some player_id =>
                   info "player directory lookup: present=true" [platform; account_id; to_string (u32 area_id); to_string player_id]
               end)))
    | _ => say (warn "usage: player_directory_lookup <platform> <account_id> <area_id>" [])
    end).

Definition player_directory_counter : command :=
  registered "player directory: service not registered" (fun arguments =>
    match arguments with
    | [] => fun c =>
        let '(result, c) := on_directory PlayerDirectoryService.NextPlayerIdCounter c in
        (match result with
         | None => info "player directory counter: present=false" []
         | Some next => info "player directory counter: present=true" [to_string next]
         end, c)
    | _ => say (warn "usage: player_directory_counter" [])
    end).

(** *** Players *)

Definition session_values (session : option PlayerSessionRecord) : list string :=
  match session with
  | Some session =>
      ["true"; ToString (state session); to_string (gate_service_type session); to_string (gate_instance_id session);
       to_string (gate_session_id session); to_string (activate_count session); to_string (last_state_change_ms session);
       to_string (detach_deadline_ms session)]
  | None => ["false"; "none"; "0"; "0"; "0"; "0"; "0"; "0"]
  end.

Definition record_values (record : option PlayerRepositoryRecord) : list string :=
  match record with
  | Some record =>
      ["true"; show_bool (loaded record); show_bool (dirty record); show_bool (pending_initial_persist record);
       show_bool (created_without_maria record); to_string (load_count record); to_string (flush_count record);
       to_string (last_load_ms record); to_string (last_dirty_ms record); to_string (last_flush_ms record)]
  | None => ["false"; "false"; "false"; "false"; "false"; "0"; "0"; "0"; "0"; "0"]
  end.

Definition player_status : command :=
  registered "player status: services not registered" (fun arguments =>
    match arguments with
    | [text] => number_or "player status: player_id must be an unsigned integer" text (fun player_id c =>
        let session := PlayerSessionService.Snapshot (console_game c) player_id in
        let record := PlayerRepository.Snapshot (repository (console_game c)) player_id in
        (Some (inr (log_info "player status" ([to_string player_id] ++ session_values session ++ record_values record) ::
           match record with
           | Some record =>
               [log_info "player data"
                  [to_string (pd_player_id (data record)); pd_display_name (data record); to_string (pd_created_at_ms (data record));
                   to_string (pd_last_login_at_ms (data record)); to_string (pd_level (data record));
                   to_string (pd_experience (data record)); to_string (pd_login_count (data record))]]
           | None => []
           end)), c))
    | _ => say (warn "usage: player_status <player_id>" [])
    end).

Definition activate_warning : string := "player activate: arguments must be unsigned integers".

Definition activate (player_id gate_service_type gate_instance_id gate_session_id : Z) : St (console N W) reply :=
  fun c =>
    let '(result, c) := on_game (PlayerSessionService.ActivatePlayer now player_id gate_service_type gate_instance_id gate_session_id false) c in
    (report result "player activate failed" "player activate"
       [to_string player_id; to_string gate_service_type; to_string gate_instance_id; to_string gate_session_id; message result], c).

Definition player_activate : command :=
  registered "player activate: service not registered" (fun arguments =>
    match arguments with
    | [text] => number_or activate_warning text (fun player_id => activate player_id 0 0 0)
    | [text; type; instance; session] =>
        number_or activate_warning text (fun player_id =>
        number_or activate_warning type (fun gate_service_type =>
        number_or activate_warning instance (fun gate_instance_id =>
        number_or activate_warning session (fun gate_session_id =>
          activate player_id (u32 gate_service_type) (u32 gate_instance_id) gate_session_id))))
    | _ => say (warn "usage: player_activate <player_id> [gate_service_type gate_instance_id gate_session_id]" [])
    end).

Definition player_detach : command :=
  registered "player detach: service not registered" (fun arguments =>
    match arguments with
    | [text] => number_or "player detach: player_id must be an unsigned integer" text (fun player_id c =>
        let '(result, c) := on_game (PlayerSessionService.DetachPlayer now player_id) c in
        (report result "player detach failed" "player detach" [to_string player_id; message result], c))
    | _ => say (warn "usage: player_detach <player_id>" [])
    end).

Definition player_reconcile_lease_loss : command :=
  registered "player reconcile lease loss: service not registered" (fun _ c =>
    let '(reconciled, c) := on_game (PlayerSessionService.ReconcileLeaseLosses now) c in
    (info "player reconcile lease loss" [to_string reconciled], c)).

Definition player_release : command :=
  registered "player release: service not registered" (fun arguments =>
    match arguments with
    | [text] => number_or "player release: player_id must be an unsigned integer" text (fun player_id c =>
        let '(result, c) := on_game (PlayerSessionService.ReleasePlayer now player_id) c in
        if negb (ok result) then
          let session := PlayerSessionService.Snapshot (console_game c) player_id in
          let record := PlayerRepository.Snapshot (repository (console_game c)) player_id in
          (warn "player release failed"
             ([to_string player_id; message result; show_bool (bool_decide (is_Some session));
               match session with Some session => ToString (state session) | None => "none" end] ++
              match record with
              | Some record =>
                  ["true"; show_bool (loaded record); show_bool (dirty record); show_bool (pending_initial_persist record);
                   show_bool (created_without_maria record); to_string (flush_count record); to_string (last_dirty_ms record);
                   to_string (last_flush_ms record)]
              | None => ["false"; "false"; "false"; "false"; "false"; "0"; "0"; "0"]
              end), c)
        else (info "player release" [to_string player_id; message result], c))
    | _ => say (warn "usage: player_release <player_id>" [])
    end).

Definition player_touch_login : command :=
  registered "player touch login: repository not registered" (fun arguments =>
    match arguments with
    | [text] => number_or "player touch login: player_id must be an unsigned integer" text (fun player_id c =>
        let '(result, c) := on_game (on_players (PlayerRepository.TouchLogin now player_id)) c in
        (report result "player touch login failed" "player touch login" [to_string player_id], c))
    | _ => say (warn "usage: player_touch_login <player_id>" [])
    end).

Definition player_set_name : command :=
  registered "player set name: repository not registered" (fun arguments =>
    match arguments with
    | text :: ((_ :: _) as name) => number_or "player set name: player_id must be an unsigned integer" text (fun player_id c =>
        let display_name := JoinArguments name in
        let '(result, c) := on_game (on_players (PlayerRepository.SetDisplayName now player_id display_name)) c in
        (report result "player set name failed" "player set name" [to_string player_id; display_name], c))
    | _ => say (warn "usage: player_set_name <player_id> <display_name...>" [])
    end).

Definition player_flush : command :=
  registered "player flush: repository not registered" (fun arguments =>
    match arguments with
    | [text] => number_or "player flush: player_id must be an unsigned integer" text (fun player_id c =>
        let '(result, c) := on_game (on_repository (PlayerRepository.FlushPlayer now player_id)) c in
        (report result "player flush failed" "player flush" [to_string player_id], c))
    | _ => say (warn "usage: player_flush <player_id>" [])
    end).

Definition player_expire_detached : command :=
  registered "player expire detached: service not registered" (fun _ c =>
    let '(released, c) := on_game (PlayerSessionService.ExpireDetachedPlayers now) c in
    (info "player expire detached" [to_string released], c)).

(** *** Storage *)

Definition snapshot_lines (text redis maria : string) (snapshot : StorageService.StorageSnapshot) : list log_line :=
  log_info text
    [to_string (StorageService.dataset_count snapshot); to_string (Z.of_nat (size (StorageService.snapshot_redis snapshot)));
     to_string (Z.of_nat (size (StorageService.snapshot_maria snapshot)))] ::
  (status_line redis <$> entries (StorageService.snapshot_redis snapshot)) ++ (status_line maria <$> entries (StorageService.snapshot_maria snapshot)).

Definition dataset_line (entry : string * ResolvedDatasetConfiguration) : log_line :=
  let '(dataset_name, dataset) := entry in
  log_info "storage dataset"
    [dataset_name; redis_name dataset; maria_name dataset; redis_prefix dataset; full_redis_prefix dataset; table_prefix dataset;
     to_string (alive_time_seconds (timing dataset)); to_string (landing_time_seconds (timing dataset));
     to_string (landing_min_time_seconds (timing dataset))].

Definition storage_status : command :=
  registered "storage status: service not registered" (fun _ c =>
    let storage := console_storage c in
    (Some (inr (snapshot_lines "storage status" "storage redis" "storage maria" (StorageService.ProbeAll storage) ++
       (dataset_line <$> entries (StorageService.mConfiguration storage)))), c)).

Definition storage_probe : command :=
  registered "storage probe: service not registered" (fun _ c =>
    let '(snapshot, c) := ProbeNow c in
    (Some (inr (snapshot_lines "storage probe" "storage redis probe" "storage maria probe" snapshot)), c)).

Definition storage_disable_maria : command :=
  registered "storage disable maria: service not registered" (fun arguments =>
    match arguments with
    | [name] => fun c =>
        let '(disabled, c) := on_storage (StorageService.DisableMariaTarget name) c in
        (if negb disabled then warn "storage disable maria failed: unknown target" [name] else info "storage disable maria" [name], c)
    | _ => say (warn "usage: storage_disable_maria <name>" [])
    end).

Definition storage_enable_maria : command :=
  registered "storage enable maria: service not registered" (fun arguments =>
    match arguments with
    | [name] => fun c =>
        let '(enabled, c) :=
          on_storage (fun '(s, w) => let '(enabled, s) := StorageService.EnableMariaTarget name s in (enabled, (s, w))) c in
        (if negb enabled then warn "storage enable maria failed: target was not disabled" [name] else info "storage enable maria" [name], c)
    | _ => say (warn "usage: storage_enable_maria <name>" [])
    end).

Definition storage_dataset_init : command :=
  registered "storage dataset init: service not registered" (fun arguments =>
    match arguments with
    | [dataset] => fun c =>
        let '(result, c) := on_world (StorageService.EnsureMariaEntriesTable (console_storage c) dataset) c in
        (report_storage result "storage dataset init failed" "storage dataset init"
           [dataset; StorageService.BuildMariaEntriesTableName (console_storage c) dataset], c)
    | _ => say (warn "usage: storage_dataset_init <dataset>" [])
    end).

Definition storage_dataset_migrate_binary : command :=
  registered "storage dataset migrate binary: service not registered" (fun arguments =>
    match arguments with
    | [dataset] => fun c =>
        let '(result, c) := on_world (StorageService.MigrateMariaEntriesTableToBinary (console_storage c) dataset) c in
        (report_storage result "storage dataset migrate binary failed" "storage dataset migrate binary"
           [dataset; StorageService.BuildMariaEntriesTableName (console_storage c) dataset], c)
    | _ => say (warn "usage: storage_dataset_migrate_binary <dataset>" [])
    end).

Definition storage_dataset_put : command :=
  registered "storage dataset put: service not registered" (fun arguments =>
    match arguments with
    | dataset :: entry_key :: ((_ :: _) as value) => fun c =>
        let '(result, c) := on_world (StorageService.DatasetPut (console_storage c) dataset entry_key (JoinArguments value)) c in
        (report_storage result "storage dataset put failed" "storage dataset put" [dataset; entry_key; sc_message result], c)
    | _ => say (warn "usage: storage_dataset_put <dataset> <entry_key> <value...>" [])
    end).

Definition storage_dataset_get : command :=
  registered "storage dataset get: service not registered" (fun arguments =>
    match arguments with
    | [dataset; entry_key] => fun c =>
        let '((result, value), c) := on_world (StorageService.DatasetGet (console_storage c) dataset entry_key "") c in
        (report_storage result "storage dataset get failed" "storage dataset get" [dataset; entry_key; sc_message result; value], c)
    | _ => say (warn "usage: storage_dataset_get <dataset> <entry_key>" [])
    end).

Definition storage_dataset_del : command :=
  registered "storage dataset del: service not registered" (fun arguments =>
    match arguments with
    | [dataset; entry_key] => fun c =>
        let '(result, c) := on_world (StorageService.DatasetDelete (console_storage c) dataset entry_key) c in
        (report_storage result "storage dataset del failed" "storage dataset del" [dataset; entry_key; sc_message result], c)
    | _ => say (warn "usage: storage_dataset_del <dataset> <entry_key>" [])
    end).

Definition storage_redis_set : command :=
  registered "storage redis set: service not registered" (fun arguments =>
    match arguments with
    | dataset :: suffix :: ((_ :: _) as value) => fun c =>
        let '(result, c) := on_world (StorageService.RedisSet (console_storage c) dataset suffix (JoinArguments value)) c in
        (report_storage result "storage redis set failed" "storage redis set"
           [dataset; StorageService.BuildRedisKey (console_storage c) dataset suffix; sc_message result], c)
    | _ => say (warn "usage: storage_redis_set <dataset> <key_suffix> <value...>" [])
    end).

Definition storage_redis_get : command :=
  registered "storage redis get: service not registered" (fun arguments =>
    match arguments with
    | [dataset; suffix] => fun c =>
        let '((result, value), c) := on_world (StorageService.RedisGet (console_storage c) dataset suffix "") c in
        (report_storage result "storage redis get failed" "storage redis get"
           [dataset; StorageService.BuildRedisKey (console_storage c) dataset suffix; value], c)
    | _ => say (warn "usage: storage_redis_get <dataset> <key_suffix>" [])
    end).

Definition storage_redis_del : command :=
  registered "storage redis del: service not registered" (fun arguments =>
    match arguments with
    | [dataset; suffix] => fun c =>
        let '(result, c) := on_world (StorageService.RedisDelete (console_storage c) dataset suffix) c in
        (report_storage result "storage redis del failed" "storage redis del"
           [dataset; StorageService.BuildRedisKey (console_storage c) dataset suffix; sc_message result], c)
    | _ => say (warn "usage: storage_redis_del <dataset> <key_suffix>" [])
    end).

Definition storage_maria_exec : command :=
  registered "storage maria exec: service not registered" (fun arguments =>
    match arguments with
    | dataset :: ((_ :: _) as words) => fun c =>
        let sql := JoinArguments words in
        let '((result, summary), c) := on_world (StorageService.MariaExecute (console_storage c) dataset sql "") c in
        (report_storage result "storage maria exec failed" "storage maria exec" [dataset; sql; summary], c)
    | _ => say (warn "usage: storage_maria_exec <dataset> <sql...>" [])
    end).

(** *** IPC *)

Definition on_node {A : Type} (m : St N A) : St (console N W) A := on_game (on_ipc m).

Definition ipc_status : command :=
  registered "game ipc status: service not registered" (fun _ c =>
    (info "game ipc status" (game_status_values (IpcSnapshot (ipc (console_game c)))), c)).

Definition ipc_refresh : command :=
  registered "game ipc refresh: service not registered" (fun _ c =>
    let '(refresh_result, c) := on_node RefreshDiscovery c in
    if negb (ok refresh_result) then (warn "game ipc refresh failed" [message refresh_result], c)
    else
      let '(events, c) := on_node DrainMembershipEvents c in
      (Some (inr (log_info "game ipc refresh"
         [to_string (Z.of_nat (length (Members (ipc (console_game c))))); to_string (Z.of_nat (length events))] ::
         ((fun event => log_info "game ipc event" (event_name (me_type event) :: process_values (Base.process (me_process event)))) <$> events))), c)).

Definition ipc_keepalive : command :=
  registered "game ipc keepalive: service not registered" (fun _ c =>
    let '(keepalive_result, c) := on_node KeepAliveOnce c in
    (report keepalive_result "game ipc keepalive failed" "game ipc keepalive: ok" [], c)).

Definition ipc_members : command :=
  registered "game ipc members: service not registered" (fun _ c =>
    let members := Members (ipc (console_game c)) in
    (Some (inr (log_info "game ipc members" [to_string (Z.of_nat (length members))] ::
       (member_line "game ipc member" <$> members))), c)).

Definition ipc_receivers : command :=
  registered "game ipc receivers: service not registered" (fun _ c =>
    let receivers := IpcLocalReceivers (ipc (console_game c)) in
    (Some (inr (
       [log_info "game ipc receiver: type=process" (process_or_zero (process_receiver receivers));
        log_info "game ipc receiver: type=service" [to_string (key_hi (service_receiver receivers)); to_string (key_lo (service_receiver receivers))];
        log_info "game ipc receivers" [to_string (Z.of_nat (length (local_player_ids receivers)))]] ++
       ((fun player_id => log_info "game ipc receiver: type=player" [to_string player_id]) <$> local_player_ids receivers))), c)).

Definition ipc_topology : command :=
  registered "game ipc topology: service not registered" (fun _ c =>
    let status := IpcSnapshot (ipc (console_game c)) in
    let links := HealthyLinks (ipc (console_game c)) in
    (Some (inr (
       log_info "game ipc topology" (relay_values status ++ [to_string (Z.of_nat (length links))] ++ auto_connect_values (endpoint_base status)) ::
       (topology_link "game ipc topology link" "game" "relay" kGameServiceType <$> links))), c)).

Definition ipc_metrics : command :=
  registered "game ipc metrics: service not registered" (fun _ c =>
    (info "game ipc metrics" (game_metrics_values (IpcSnapshot (ipc (console_game c)))), c)).

Definition ipc_links : command :=
  registered "game ipc links: service not registered" (fun _ c =>
    let links := HealthyLinks (ipc (console_game c)) in
    (Some (inr (log_info "game ipc links" [to_string (Z.of_nat (length links))] ::
       ((fun link => log_info "game ipc link" (process_values link)) <$> links))), c)).

Definition ipc_connect : command :=
  registered "game ipc connect: service not registered" (fun arguments =>
    match arguments with
    | [text] => number text (fun instance_id c =>
        let '(connect_result, c) := on_node (ConnectToProcess (u32 instance_id)) c in
        (report connect_result "game ipc connect failed" "game ipc connect: ok" [], c))
    | _ => say (warn "usage: ipc_connect <instance_id>" [])
    end).

Definition ipc_send_local : command :=
  registered "game ipc local send: service not registered" (fun _ c =>
    let '(send_result, c) := on_node (SendLocalServiceMessage "local-service-ping") c in
    (report send_result "game ipc local send failed" "game ipc local send: ok" [], c)).

Definition send_process (text payload : string) : St (console N W) reply :=
  number text (fun instance_id c =>
    let '(send_result, c) := on_node (SendProcessMessage (u32 instance_id) payload) c in
    (report send_result "game ipc process send failed" "game ipc process send: ok" [], c)).

Definition ipc_send_process : command :=
  registered "game ipc process send: service not registered" (fun arguments =>
    match arguments with
    | [text] => send_process text "process-ping"
    | [text; payload] => send_process text payload
    | _ => say (warn "usage: ipc_send_process <instance_id> [value]" [])
    end).

Definition ipc_bind_player_local : command :=
  registered "game ipc bind player local: service not registered" (fun arguments =>
    match arguments with
    | [text] => number text (fun player_id c =>
        let '(bind_result, c) := on_node (BindLocalPlayer player_id) c in
        (report bind_result "game ipc bind player local failed" "game ipc bind player local: ok" [], c))
    | _ => say (warn "usage: ipc_bind_player_local <player_id>" [])
    end).

Definition ipc_bind_player_remote : command :=
  registered "game ipc bind player remote: service not registered" (fun arguments =>
    match arguments with
    | [text; instance] => number text (fun player_id => number instance (fun instance_id c =>
        let '(bind_result, c) := on_node (BindRemotePlayer player_id (u32 instance_id)) c in
        (report bind_result "game ipc bind player remote failed" "game ipc bind player remote: ok" [], c)))
    | _ => say (warn "usage: ipc_bind_player_remote <player_id> <instance_id>" [])
    end).

Definition send_player (text payload : string) : St (console N W) reply :=
  number text (fun player_id c =>
    let '(send_result, c) := on_node (SendPlayerMessage player_id payload) c in
    (report send_result "game ipc player send failed" "game ipc player send: ok" [], c)).

Definition ipc_send_player : command :=
  registered "game ipc player send: service not registered" (fun arguments =>
    match arguments with
    | [text] => send_player text "player-ping"
    | [text; payload] => send_player text payload
    | _ => say (warn "usage: ipc_send_player <player_id> [value]" [])
    end).

Definition broadcast (payload : string) (include_local : bool) : St (console N W) reply :=
  fun c =>
    let '(send_result, c) := on_node (BroadcastServiceMessage payload include_local) c in
    (report send_result "game ipc broadcast service failed" "game ipc broadcast service: ok" [], c).

Definition ipc_broadcast_service : command :=
  registered "game ipc broadcast service: service not registered" (fun arguments =>
    match arguments with
    | [] => broadcast "broadcast-ping" true
    | [payload] => broadcast payload true
    | [payload; include_local] => broadcast payload (negb (String.eqb include_local "0"))
    | _ => say (warn "usage: ipc_broadcast_service [value] [include_local]" [])
    end).

(** [RegisterRuntimeCommands] *)
Definition game_commands : list (string * string * command) :=
  [
   ("player_lease_status", "Show one player lease status: <player_id>", player_lease_status);
   ("player_lease_service_status", "Show player lease service status", player_lease_service_status);
   ("player_persistence_status", "Show player persistence scheduler status", player_persistence_status);
   ("player_persistence_player_status", "Show one player's persistence retry state: <player_id>", player_persistence_player_status);
   ("player_persistence_flush_due", "Run one immediate player persistence scan", player_persistence_flush_due);
   ("player_persistence_recover_flush", "Probe storage, clear persistence backoff if Maria is reachable, then flush due players", player_persistence_recover_flush);
   ("player_runtime_status", "Show one player runtime instance status: <player_id>", player_runtime_status);
   ("player_push_profile", "Push one typed profile message to the player's active gate session: <player_id>", player_push_profile);
   ("player_push", "Push one message to the player's active gate session: <player_id> <message_id> [payload]", player_push);
   ("status", "Show game runtime status", status);
   ("player_directory_resolve", "Resolve or create one player id for <platform> <account_id> <area_id>", player_directory_resolve);
   ("player_directory_lookup", "Lookup one player id for <platform> <account_id> <area_id> without creating", player_directory_lookup);
   ("player_directory_counter", "Show persisted player directory next-player-id counter", player_directory_counter);
   ("player_status", "Show one player session or repository status", player_status);
   ("player_activate", "Activate one player on this game process: <player_id> [gate_service_type gate_instance_id gate_session_id]", player_activate);
   ("player_detach", "Move one player to detached state: <player_id>", player_detach);
   ("player_reconcile_lease_loss", "Reconcile players that no longer hold a local lease", player_reconcile_lease_loss);
   ("player_release", "Release one player from this game process: <player_id>", player_release);
   ("player_touch_login", "Touch one player's login counters: <player_id>", player_touch_login);
   ("player_set_name", "Set one player's display name: <player_id> <display_name...>", player_set_name);
   ("player_flush", "Flush one loaded player into storage: <player_id>", player_flush);
   ("player_expire_detached", "Release all detached players past their deadline", player_expire_detached);
   ("storage_status", "Show resolved storage datasets and reachability", storage_status);
   ("storage_probe", "Probe resolved Redis and Maria targets again", storage_probe);
   ("storage_disable_maria", "Disable one Maria target locally: <name>", storage_disable_maria);
   ("storage_enable_maria", "Enable one Maria target locally: <name>", storage_enable_maria);
   ("storage_dataset_init", "Create the generic Maria entries table for a dataset without running schema migration", storage_dataset_init);
   ("storage_dataset_migrate_binary", "Migrate one generic Maria entries table to LONGBLOB: <dataset>", storage_dataset_migrate_binary);
   ("storage_dataset_put", "Write one generic dataset entry to Maria and Redis", storage_dataset_put);
   ("storage_dataset_get", "Read one generic dataset entry with Redis read-through", storage_dataset_get);
   ("storage_dataset_del", "Delete one generic dataset entry from Maria and Redis", storage_dataset_del);
   ("storage_redis_set", "Set one Redis string value through a dataset binding", storage_redis_set);
   ("storage_redis_get", "Get one Redis string value through a dataset binding", storage_redis_get);
   ("storage_redis_del", "Delete one Redis key through a dataset binding", storage_redis_del);
   ("storage_maria_exec", "Execute one Maria SQL statement through a dataset binding", storage_maria_exec);
   ("ipc_status", "Show game IPC bootstrap status", ipc_status);
   ("ipc_refresh", "Refresh game IPC discovery snapshot", ipc_refresh);
   ("ipc_keepalive", "Send one game IPC discovery lease keepalive", ipc_keepalive);
   ("ipc_members", "List game IPC discovery members", ipc_members);
   ("ipc_receivers", "List game local IPC receivers", ipc_receivers);
   ("ipc_topology", "Show game IPC topology and auto-connect state", ipc_topology);
   ("ipc_metrics", "Show game IPC runtime metrics", ipc_metrics);
   ("ipc_links", "List game IPC healthy direct links", ipc_links);
   ("ipc_connect", "Connect to another game process by instance id", ipc_connect);
   ("ipc_send_local", "Send one local IPC message to the game service receiver host", ipc_send_local);
   ("ipc_send_process", "Send one IPC process-targeted message to another game process", ipc_send_process);
   ("ipc_bind_player_local", "Bind a local player receiver to this game process", ipc_bind_player_local);
   ("ipc_bind_player_remote", "Bind a remote player receiver to another game process in the local directory", ipc_bind_player_remote);
   ("ipc_send_player", "Send one IPC player-targeted message", ipc_send_player);
   ("ipc_broadcast_service", "Broadcast one IPC service-targeted message to game instances", ipc_broadcast_service)
  ].

End commands.

(** ** Which tables the commands keep *)

Module ConsoleProofs.
Import PlayerSessionService SessionProofs.

Section console.
Context {N W : Type} `{Redis W} `{Maria W} `{PlayerDataCodec} {gi : GameIpc N} {gl : GameIpcLaw N} {ci : ConsoleIpc N} {cl : ConsoleIpcLaw N}.
Context {mo : MapOrder Z} {ms : MapOrder string} `{MessageCodec PlayerProfilePush}.
Implicit Types (c : console N W) (g : game N W).

Definition keeps {A : Type} (m : St (console N W) A) : Prop :=
  forall c, tables_agree (console_game c) -> tables_agree (console_game (m c).2).

Lemma keeps_say r : keeps (say (C := console N W) r).
Proof. by intros c Hc. Qed.

Lemma keeps_then {A B : Type} (m : St (console N W) A) (k : A -> St (console N W) B) :
  keeps m -> (forall a, keeps (k a)) -> keeps (fun c => let '(a, c) := m c in k a c).
Proof. intros Hm Hk c Hc. specialize (Hm c Hc). destruct (m c) as [a c']. by apply Hk. Qed.

Lemma keeps_registered warning h arguments : keeps (h arguments) -> keeps (Console.registered services_registered warning h arguments).
Proof. intros Hh c Hc. unfold Console.registered. destruct (services_registered c); [by apply Hh|done]. Qed.

Lemma keeps_number text (k : Z -> St (console N W) reply) : (forall n, keeps (k n)) -> keeps (number text k).
Proof. intros Hk. unfold number. destruct (Text.stoull text); [apply Hk|apply keeps_say]. Qed.

Lemma keeps_number_or warning text (k : Z -> St (console N W) reply) : (forall n, keeps (k n)) -> keeps (number_or warning text k).
Proof. intros Hk. unfold number_or. destruct (Text.stoull text); [apply Hk|apply keeps_say]. Qed.

Lemma keeps_outcome {A : Type} (m : St (console N W) (outcome A)) k : keeps m -> (forall a, keeps (k a)) -> keeps (with_outcome m k).
Proof. intros Hm Hk c Hc. unfold with_outcome. specialize (Hm c Hc). destruct (m c) as [[a| |] c']; [by apply Hk|done..]. Qed.

Lemma keeps_game {A : Type} (m : St (game N W) A) : (forall g, tables_agree g -> tables_agree (m g).2) -> keeps (on_game m).
Proof. intros Hm c Hc. unfold on_game. specialize (Hm _ Hc). by destruct (m (console_game c)). Qed.

(** An operation that is a step of the game. *)
Lemma keeps_step {A : Type} (m : St (game N W) A) : (forall g, game_step g (m g).2) -> keeps (on_game m).
Proof. intros Hm. apply keeps_game. intros g. by apply game_step_agree. Qed.

Lemma keeps_world {A : Type} (m : St W A) : keeps (on_world m).
Proof. apply keeps_game. intros g Hg. destruct (m (world g)) as [a w]. by apply (same_views_agree g). Qed.

Lemma keeps_directory {A : Type} (m : St (PlayerDirectoryService.t * W) A) : keeps (on_directory m).
Proof. intros c Hc. unfold on_directory. destruct (m _) as [a [d w]]. by apply (same_views_agree (console_game c)). Qed.

Lemma keeps_storage {A : Type} (m : St (StorageService.t * W) A) : keeps (on_storage m).
Proof. intros c Hc. unfold on_storage. destruct (m _) as [a [s w]]. by apply (same_views_agree (console_game c)). Qed.

Lemma keeps_node {A : Type} (m : St N A) : (forall n p, bound (m n).2 p <-> bound n p) -> keeps (on_node m).
Proof.
  intros Hm. apply keeps_game. intros g Hg. unfold on_ipc. specialize (Hm (ipc g)). destruct (m (ipc g)) as [a n].
  by apply (same_views_agree g).
Qed.

Lemma keeps_lookup p : keeps (on_game (on_lease (PlayerLeaseService.Lookup p))).
Proof.
  apply keeps_game. intros g Hg. unfold on_lease, PlayerLeaseService.Lookup. destruct (PlayerLeaseService.mRedis (lease g)) as [redis|].
  - destruct (redisCommand _ _ _) as [r w]. destruct r as [[]|]; by apply (same_views_agree g).
  - by apply (same_views_agree g).
Qed.

Lemma PushToPlayer_agree p id payload g : tables_agree g -> tables_agree (GamePlayerMessageService.PushToPlayer p id payload g).2.
Proof.
  intros Hg. unfold GamePlayerMessageService.PushToPlayer. destruct (Snapshot g p) as [session|]; [|done].
  destruct (_ || _); [done|]. destruct (negb _); [done|]. unfold on_ipc.
  match goal with |- context [SendProcessPayload ?target ?m (ipc g)] => pose proof (send_law target m (ipc g)) as Hs;
    destruct (SendProcessPayload target m (ipc g)) as [r n] end. by apply (same_views_agree g).
Qed.

Lemma PushProfile_agree p g : tables_agree g -> tables_agree (GamePlayerMessageService.PushProfileToPlayer p g).2.
Proof. intros Hg. unfold GamePlayerMessageService.PushProfileToPlayer. destruct (GamePlayerMessageService.BuildProfilePushPayload g p); [by apply PushToPlayer_agree|done]. Qed.

Lemma flush_one_agree now p scan s g : tables_agree g -> tables_agree (PlayerPersistenceService.flush_one now p scan (s, g)).2.2.
Proof.
  intros Hg. unfold PlayerPersistenceService.flush_one. destruct (PlayerRepository.Snapshot _ _) as [record|]; [|done].
  destruct (negb _); [done|]. destruct (negb _); [done|].
  pose proof (game_step_agree _ _ (gs_flush g now p) Hg) as Hf. destruct (on_repository _ g) as [r g1]. by destruct (negb (ok r)).
Qed.

Lemma flush_each_agree now players scan s g : tables_agree g -> tables_agree (PlayerPersistenceService.flush_each now players scan (s, g)).2.2.
Proof.
  revert scan s g. induction players as [|p players IH]; intros scan s g Hg; [done|]. cbn [PlayerPersistenceService.flush_each].
  pose proof (flush_one_agree now p scan s g Hg) as Hf. destruct (PlayerPersistenceService.flush_one _ _ _ _) as [scan' [s' g']]. by apply IH.
Qed.

Lemma keeps_flush_due now : keeps (on_persistence (PlayerPersistenceService.FlushDuePlayersOnce now)).
Proof.
  intros c Hc. unfold on_persistence, PlayerPersistenceService.FlushDuePlayersOnce.
  match goal with |- context [PlayerPersistenceService.flush_each now ?l ?scan (?s, ?g)] => pose proof (flush_each_agree now l scan s g Hc) as Hf;
    destruct (PlayerPersistenceService.flush_each now l scan (s, g)) as [scan' [s' g']] end. exact Hf.
Qed.

Lemma keeps_reset : keeps (on_persistence (fun '(s, g) => let '(n, s) := PlayerPersistenceService.ResetRetryStates s in (n, (s, g)))).
Proof. by intros c Hc. Qed.

Lemma keeps_probe : keeps ProbeNow.
Proof. intros c Hc. unfold ProbeNow. pose proof (keeps_storage StorageService.RefreshConnections c Hc) as Hs. by destruct (on_storage _ c). Qed.

Lemma keeps_reconcile now : keeps (on_game (ReconcileLeaseLosses now)).
Proof. apply keeps_game. intros g. apply Reconcile_agree. Qed.

Lemma keeps_push_message p id payload : keeps (on_game (GamePlayerMessageService.PushToPlayer p id payload)).
Proof. apply keeps_game. intros g. apply PushToPlayer_agree. Qed.

Lemma keeps_push_profile p : keeps (on_game (GamePlayerMessageService.PushProfileToPlayer p)).
Proof. apply keeps_game. intros g. apply PushProfile_agree. Qed.
End console.

Create HintDb console.
#[export] Hint Resolve keeps_say keeps_registered keeps_number keeps_number_or keeps_outcome keeps_world keeps_directory keeps_storage
  keeps_lookup keeps_flush_due keeps_reset keeps_probe keeps_reconcile keeps_push_message keeps_push_profile : console.
#[export] Hint Extern 3 (keeps (on_game _)) =>
  apply keeps_step; intros ?; first [apply gs_activate | apply gs_detach | apply gs_release | apply gs_expire | apply gs_flush | apply gs_login
    | apply gs_set_name] : console.
#[export] Hint Extern 3 (keeps (on_node _)) =>
  apply keeps_node; intros ? ?; first [apply refresh_keeps | apply drain_keeps | apply keepalive_keeps | apply connect_keeps
    | apply send_local_keeps | apply send_process_keeps | apply send_player_keeps | apply broadcast_keeps | apply bind_remote_keeps] : console.

(** One service call after the other. *)
Ltac keep :=
  repeat first
    [ progress cbn [snd]
    | assumption
    | match goal with
      | Hc : tables_agree (console_game ?c) |- context [match ?m ?c with pair _ _ => _ end] =>
          let Hk := fresh in
          assert (Hk : keeps m) by (solve [auto 2 with console]); specialize (Hk c Hc); destruct (m c); cbn [snd] in Hk
      | |- keeps (Console.registered _ _ _ _) => apply keeps_registered
      | |- keeps (number _ _) => apply keeps_number; intros ?
      | |- keeps (number_or _ _ _) => apply keeps_number_or; intros ?
      | |- keeps (with_outcome _ _) => apply keeps_outcome; [solve [auto 2 with console]|intros ?]
      | |- keeps (say _) => apply keeps_say
      | |- keeps (push_message _ _ _) => unfold push_message
      | |- keeps (activate _ _ _ _ _) => unfold activate
      | |- keeps (send_process _ _) => unfold send_process
      | |- keeps (send_player _ _) => unfold send_player
      | |- keeps (broadcast _ _) => unfold broadcast
      | |- keeps (match ?x with _ => _ end) => destruct x
      | |- keeps _ => intros ? ?
      | |- context [match ?x with _ => _ end] => destruct x
      end ].

Section commands.
Context {N W : Type} `{Redis W} `{Maria W} `{PlayerDataCodec} {gi : GameIpc N} {gl : GameIpcLaw N} {ci : ConsoleIpc N} {cl : ConsoleIpcLaw N}.
Context {mo : MapOrder Z} {ms : MapOrder string} `{MessageCodec PlayerProfilePush}.

Definition harmless (entry : string * string * (CommandArguments -> St (console N W) reply)) : Prop :=
  entry.1.1 <> "ipc_bind_player_local" -> forall arguments, keeps (entry.2 arguments).

Lemma commands_harmless now fuel : Forall harmless (game_commands now fuel).
Proof.
  unfold game_commands. repeat apply Forall_cons_2; [..|apply Forall_nil_2]; intros Hne arguments; cbn [snd];
    first [by destruct (Hne eq_refl)|match goal with |- keeps ?f => let h := head_of f in unfold h end; keep].
Qed.
End commands.

(** *** The node of a game as its console sees it *)

Section node.
Context {V T : Type} {be : IEtcdDiscoveryBackend V} {glaze : Glaze} {tra : ITransport T} {cc : Codec ControlMessage} {mo : MapOrder Z}.
Abbreviation node := (IpcNode.node V T).
Implicit Types n : node.
Variable my_service_type : Z.
(** The sends, which hand a message to the messenger. *)
Variable send_local : string -> St node Result.
Variable send_process send_player : Z -> string -> St node Result.
Variable send_broadcast : string -> bool -> St node Result.
(** The hosts' counters, and whether the keepalive thread runs. *)
Variables (mKeepAliveRunning : bool) (process_host : option HostCounters) (player_host service_host : HostCounters).

Definition node_ConnectToProcess (instance_id : Z) : St node Result :=
  fun n =>
    match IpcNode.FindDiscoveredMemberLocked n my_service_type instance_id true with
    | None => (Failure "target process not found in discovery snapshot", n)
    | Some m => IpcNode.ConnectDiscoveredMemberLocked m n
    end.

Definition node_console : ConsoleIpc node := {|
  RefreshDiscovery := IpcNode.RefreshDiscovery;
  DrainMembershipEvents := IpcNode.DrainMembershipEvents;
  KeepAliveOnce := IpcNode.KeepAliveOnce;
  Members := IpcNode.Members;
  HealthyLinks := IpcNode.HealthyLinks;
  ConnectToProcess := node_ConnectToProcess;
  SendLocalServiceMessage := send_local;
  SendProcessMessage := send_process;
  SendPlayerMessage := send_player;
  BroadcastServiceMessage := send_broadcast;
  BindRemotePlayer := IpcNode.BindRemotePlayer my_service_type;
  IpcSnapshot := EndpointSnapshot mKeepAliveRunning process_host player_host service_host;
  IpcLocalReceivers := LocalReceivers my_service_type
|}.

Abbreviation players n := (IpcNode.mBoundPlayers n).

Lemma players_foldl {A : Type} (f : node -> A -> node) l n : (forall n a, players (f n a) = players n) -> players (foldl f n l) = players n.
Proof. intros Hf. revert n. induction l as [|a l IH]; intros n; [done|]. simpl. by rewrite IH, Hf. Qed.

Lemma players_on_link op n : players (IpcNode.on_link op n) = players n.
Proof. unfold IpcNode.on_link. by destruct (IpcNode.mLinkManager n). Qed.

Lemma players_send_frame n f : players (IpcNode.send_frame n f) = players n.
Proof.
  unfold IpcNode.send_frame. destruct (IpcNode.mTransport n) as [tr|]; [|done]. destruct (tr_Send f tr) as [[r lost] tr'].
  rewrite players_foldl; [done|]. intros. apply players_on_link.
Qed.

Lemma players_Connect m n : players (IpcNode.ConnectDiscoveredMemberLocked m n).2 = players n.
Proof.
  unfold IpcNode.ConnectDiscoveredMemberLocked. destruct (IpcNode.mTransport n) as [tr|]; [|done].
  destruct (tr_Connect _ tr) as [[r [id|]] tr']; [|done]. simpl. unfold IpcNode.on_connection_event.
  case_match; [|done]. unfold IpcNode.FlushLinkFrames. repeat case_match; try (by rewrite players_on_link).
  rewrite players_foldl; [simpl; by rewrite players_on_link|]. apply players_send_frame.
Qed.

Lemma players_on_discovery {A : Type} (op : St (EtcdDiscovery.t V) A) n : players (IpcNode.on_discovery op n).2 = players n.
Proof. unfold IpcNode.on_discovery. by destruct (op (IpcNode.mDiscovery n)). Qed.

Context (local_law : forall text n, players (send_local text n).2 = players n).
Context (process_law : forall i text n, players (send_process i text n).2 = players n).
Context (player_law : forall p text n, players (send_player p text n).2 = players n).
Context (broadcast_law : forall text b n, players (send_broadcast text b n).2 = players n).
Variable send : ProcessId -> process_message -> St node Result.
Hypothesis send_keeps : forall target m n, players (send target m n).2 = players n.

Lemma node_console_law : @ConsoleIpcLaw node (node_ipc send) (node_ipc_law send send_keeps) node_console.
Proof.
  constructor; simpl.
  - intros n p. unfold IpcNode.RefreshDiscovery. pose proof (players_on_discovery EtcdDiscovery.RefreshSnapshot n) as Hp.
    destruct (IpcNode.on_discovery _ n) as [r n']. simpl in Hp. destruct (negb (ok r)); simpl; by rewrite Hp.
  - intros n p. assert (players (IpcNode.DrainMembershipEvents n).2 = players n) as E by apply players_on_discovery.
    by refine (eq_ind_r (fun S => p ∈ S <-> p ∈ players n) _ E).
  - intros n p. unfold IpcNode.KeepAliveOnce. pose proof (players_on_discovery EtcdDiscovery.KeepAliveOnce n) as Hp.
    destruct (IpcNode.on_discovery _ n) as [r n']. simpl in Hp. destruct (negb (ok r)); simpl; by rewrite Hp.
  - intros i n p. unfold node_ConnectToProcess. destruct (IpcNode.FindDiscoveredMemberLocked _ _ _ _); [by rewrite players_Connect|done].
  - intros text n p. by rewrite local_law.
  - intros i text n p. by rewrite process_law.
  - intros q text n p. by rewrite player_law.
  - intros text b n p. by rewrite broadcast_law.
  - intros q i n p. unfold IpcNode.BindRemotePlayer. destruct (IpcNode.mSelf n); [|done].
    destruct (find _ _); [|done]. by destruct (LocalReceiverDirectory.Bind _ _ _).
Qed.
End node.
End ConsoleProofs.

(** ** Properties *)

Section properties.
Import PlayerSessionService SessionProofs ConsoleProofs.
Context {N W : Type} {rd : Redis W} {mr : Maria W} {codec : PlayerDataCodec} {gi : GameIpc N} {gl : GameIpcLaw N} {ci : ConsoleIpc N} {cl : ConsoleIpcLaw N}.
Context {mo : MapOrder Z} {ms : MapOrder string} {push : MessageCodec PlayerProfilePush}.
Implicit Types (c : console N W) (g : game N W).

(** What happens in a game with an operator: steps of its services and threads, and
    commands, at any time. *)
Inductive console_step c : console N W -> Prop :=
| cs_game g : game_step (console_game c) g -> console_step c (c <| console_game := g |>)
| cs_command now fuel name description h arguments :
    (name, description, h) ∈ game_commands now fuel -> name <> "ipc_bind_player_local" -> console_step c (h arguments c).2.

Lemma console_step_agree c c' : console_step c c' -> tables_agree (console_game c) -> tables_agree (console_game c').
Proof.
  intros [g Hs|now fuel name description h arguments Hin Hne] Hc; [by eapply game_step_agree|].
  pose proof (commands_harmless now fuel) as Hall. rewrite Forall_forall in Hall. by apply (Hall _ Hin Hne arguments).
Qed.


(** [ipc_bind_player_local] makes the tables disagree for a player without a session. *)
Lemma bind_breaks_tables text p c :
  Text.stoull text = Some p -> services_registered c = true -> ok (BindLocalPlayer p (ipc (console_game c))).1 = true ->
  sessions (console_game c) !! p = None -> ~ tables_agree (console_game (ipc_bind_player_local [text] c).2).
Proof.
  intros Ht Hs Hok Hn Ha. specialize (Ha p). unfold ipc_bind_player_local, registered, number, on_node, on_game, on_ipc in Ha.
  rewrite Hs, Ht in Ha. pose proof (bind_law p (ipc (console_game c))) as Hb. destruct (BindLocalPlayer p _) as [r n].
  destruct Hb as [Hb _]. unfold view in Ha. simpl in Ha. destruct Ha as (_ & _ & _ & D & _). rewrite Hn in D.
  destruct (D (Hb (or_introl Hok))) as [x Hx]. done.
Qed.

(** *** Numbers that cannot be read *)

Definition numeric_commands : list string :=
  ["player_lease_status"; "player_persistence_player_status"; "player_runtime_status"; "player_push_profile";
   "ipc_connect"; "ipc_send_process"; "ipc_bind_player_local"; "ipc_send_player"].

Definition throws_on (word : string) (entry : string * string * (CommandArguments -> St (console N W) reply)) : Prop :=
  entry.1.1 ∈ numeric_commands -> forall c, services_registered c = true -> entry.2 [word] c = (Some (inl (std_exception "stoull")), c).

Lemma commands_throw now fuel word : Text.stoull word = None -> Forall (throws_on word) (game_commands now fuel).
Proof.
  intros Hw. unfold game_commands. repeat apply Forall_cons_2; [..|apply Forall_nil_2]; intros Hin c Hc; cbn [snd fst] in *;
    first [exfalso; revert Hin; refine (bool_decide_eq_false_1 _ _); vm_compute; reflexivity
          |match goal with |- ?f [word] c = _ => let h := head_of f in unfold h end;
           unfold Console.registered; rewrite Hc; cbv beta iota; unfold send_process, send_player, number; rewrite Hw; reflexivity].
Qed.

Variable name : string.
Variable configuration : Type.
Variable default_configuration : configuration.
Variable OnConfigure : CommonConfiguration -> configuration -> St (console N W) bool.
Abbreviation handler := (CommandArguments -> St (console N W) reply).
Abbreviation game_world := (commands handler * console N W)%type.
Variable services : list (option (IService game_world)).
Variable OnLoad OnStart OnStop OnUnload : stage game_world.
Variable now : Z.
Variables fuel task_fuel : nat.

(** The application of a game. *)
Definition game_application : IApplication configuration handler (ApplicationBase.t game_world * console N W) :=
  base_application name default_configuration OnConfigure services (game_commands now fuel) run_console OnLoad OnStart OnStop OnUnload task_fuel.

(** C40: an operator who mistypes a number ends the process: when a running game reads
    a line with one of these commands and a word that is no number, the exception
    leaves the loader, which terminates the process at once; neither stop nor unload
    is called, and nothing more happens. *)
Theorem mistyped_number_ends_process (p : process handler (ApplicationBase.t game_world * console N W)) line rest command word description h :
  process_main p = main_reads -> process_input p = line :: rest -> Text.words line = [command; word] ->
  command ∈ numeric_commands -> Text.stoull word = None -> services_registered (application p).2 = true ->
  (command, description, h) ∈ game_commands now fuel ->
  mCommandRegistry p !! command = Some (CommandRegistry.mkCommandDefinition description (application_handler h)) ->
  exists p', process_step game_application p p' /\ process_main p' = main_terminated /\ process_calls p' = process_calls p /\
    (application p').2 = (application p).2 /\ forall p'', ~ process_step game_application p' p''.
Proof.
  intros Em Ei Ew Hc Hs Hr Hin Hreg. pose proof (commands_throw now fuel word Hs) as Hall. rewrite Forall_forall in Hall.
  specialize (Hall _ Hin Hc). cbn [snd fst] in Hall. destruct (application p) as [base c] eqn:Ea.
  exists (p <| process_input := rest |> <| application := (base, c) |> <| process_main := main_terminated |>). split; [|split; [done|]].
  - apply step_main. unfold main_turn. rewrite Em, Ei. cbv zeta. unfold CommandRegistry.Execute. rewrite Ew.
    change (mCommandRegistry (p <| process_input := rest |>)) with (mCommandRegistry p). rewrite Hreg. unfold run_command. simpl. rewrite Ea. unfold run_console. by rewrite (Hall c Hr).
  - split; [done|]. split; [done|]. by intros p'' [Ht _|Hm].
Qed.
End properties.

(** ** A game with an operator *)

Module ExampleConsole.
Import PlayerSessionService SessionProofs ConsoleProofs ExampleServers ExampleRepository ExampleGame.

#[local] Existing Instance order_Z.
#[local] Existing Instance example_maria.
#[local] Existing Instance ExampleGame.redis_servers.
#[local] Existing Instance ExampleGame.game_ipc.
#[local] Existing Instance ExampleGame.game_ipc_law.
#[local] Existing Instance example_glaze.
#[local] Existing Instance example_transport.
#[local] Existing Instance closed_backend.
#[local] Instance console_control_codec : Codec ControlMessage := example_codec ControlMessage.
#[local] Instance console_order : MapOrder string := canonical_order string.
#[local] Instance console_push : MessageCodec PlayerProfilePush := {| SerializeMessage := fun _ => Some []; ParseMessage := fun _ => None |}.

Definition refuse (n : IpcNode.node unit unit) : Result * IpcNode.node unit unit := (Failure "ipc is not active", n).
#[local] Instance console_ipc : ConsoleIpc (IpcNode.node unit unit) :=
  node_console 10 (fun _ => refuse) (fun _ _ => refuse) (fun _ _ => refuse) (fun _ _ => refuse) true None new_counters new_counters.
#[local] Instance console_ipc_law : ConsoleIpcLaw (IpcNode.node unit unit) :=
  node_console_law 10 (fun _ => refuse) (fun _ _ => refuse) (fun _ _ => refuse) (fun _ _ => refuse) true None new_counters new_counters
    (fun _ _ => eq_refl) (fun _ _ _ => eq_refl) (fun _ _ _ => eq_refl) (fun _ _ _ => eq_refl) rejected_send (fun _ _ _ => eq_refl).

Definition first_console : console (IpcNode.node unit unit) servers :=
  mkConsole true (StorageService.mkStorageService ∅ ∅ ∅ ∅) (PlayerDirectoryService.create None "directory") (PlayerPersistenceService.create ∅) started.

(** The operator activates player 7 through gate session 5. *)
Definition activated_console : console (IpcNode.node unit unit) servers := (player_activate 1000 ["7"; "20"; "1"; "5"] first_console).2.

Lemma activate_is_command :
  ("player_activate", "Activate one player on this game process: <player_id> [gate_service_type gate_instance_id gate_session_id]",
   player_activate 1000) ∈ @game_commands (IpcNode.node unit unit) servers _ _ _ _ _ _ _ _ 1000 1.
Proof. unfold game_commands. do 14 apply list_elem_of_further. apply list_elem_of_here. Qed.

Lemma activated_console_reached : rtc console_step first_console activated_console.
Proof. apply rtc_once. exact (cs_command first_console 1000 1 _ _ _ ["7"; "20"; "1"; "5"] activate_is_command ltac:(done)). Qed.


(** A game at its prompt; the operator types a word in place of the player's number. *)
Abbreviation example_handler := (CommandArguments -> St (console (IpcNode.node unit unit) servers) reply).
Abbreviation example_state := (ApplicationBase.t (commands example_handler * console (IpcNode.node unit unit) servers) * console (IpcNode.node unit unit) servers)%type.
Definition prompt : process example_handler example_state :=
  mkProcess ({["player_push_profile" := CommandRegistry.mkCommandDefinition
      "Push one typed profile message to the player's active gate session: <player_id>" (application_handler player_push_profile)]})
    true (mkRuntimeState true false false "") (ApplicationBase.create, first_console) app_waits main_reads ["player_push_profile alice"]
    [(call_Load, true); (call_Start, true)].

Lemma push_profile_is_command :
  ("player_push_profile", "Push one typed profile message to the player's active gate session: <player_id>", player_push_profile)
    ∈ @game_commands (IpcNode.node unit unit) servers _ _ _ _ _ _ _ _ 1000 1.
Proof. unfold game_commands. do 7 apply list_elem_of_further. apply list_elem_of_here. Qed.

Lemma mistyped_number_ends_process_witness :
  exists p', process_step (game_application "game" unit tt (fun _ _ c => (true, c)) [] (ret (inr LifecycleTask.Completed))
      (ret (inr LifecycleTask.Completed)) (ret (inr LifecycleTask.Completed)) (ret (inr LifecycleTask.Completed)) 1000 1 1) prompt p' /\
    process_main p' = main_terminated /\ process_calls p' = [(call_Load, true); (call_Start, true)].
Proof.
  destruct (mistyped_number_ends_process "game" unit tt (fun _ _ c => (true, c)) [] (ret (inr LifecycleTask.Completed))
    (ret (inr LifecycleTask.Completed)) (ret (inr LifecycleTask.Completed)) (ret (inr LifecycleTask.Completed)) 1000 1 1
    prompt "player_push_profile alice" [] "player_push_profile" "alice"
    "Push one typed profile message to the player's active gate session: <player_id>" player_push_profile)
    as (p' & Hs & Em & Ec & _); try reflexivity.
  - apply (bool_decide_eq_true_1 _). by vm_compute.
  - apply push_profile_is_command.
  - by exists p'.
Defined.
End ExampleConsole.
