(* ===== verification/GateConsole.v ===== *)
(** * GateConsole: the commands of [gate/application.cpp] and [relay/application.cpp]

    What the operator of a gate or of a relay can type.  Every number that a gate
    reads is read within a [try] block. *)

From S2P Require Import Prelude Text Base Link Discovery IpcNode Redis Account Storage Protocol GateTables Connection Client Gate.
From S2P Require Import Application Config Loader Console NodeStatus.
From S2P Require GateLogin.

(** ** The gate *)

(** The pointers of the application are set together; [gate] holds the services. *)
Record gate_console (N W S : Type) : Type := mkGateConsole { gate_registered : bool; console_gate : gate N W S }.
Arguments mkGateConsole {N W S}. Arguments gate_registered {N W S}. Arguments console_gate {N W S}.
#[export] Instance eta_gate_console {N W S} : Eta (gate_console N W S) := fun c => mkGateConsole (gate_registered c) (console_gate c).

(** The number of an enumerator, as the snapshot keeps it. *)
Definition result_code_number (code : ResultCode) : Z :=
  match code with
  | RESULT_CODE_UNSPECIFIED => 0 | RESULT_CODE_OK => 1 | RESULT_CODE_INVALID_ARGUMENT => 2 | RESULT_CODE_UNAUTHORIZED => 3
  | RESULT_CODE_PLAYER_NOT_FOUND => 4 | RESULT_CODE_PLAYER_HELD_BY_OTHER_GAME => 5 | RESULT_CODE_SESSION_EXPIRED => 6
  | RESULT_CODE_ROUTE_MISMATCH => 7 | RESULT_CODE_INTERNAL => 8
  end.

(** The commands by name. *)
Inductive gate_command : Type :=
| cmd_status
| cmd_connection_status
| cmd_connection_accept
| cmd_connection_close
| cmd_session_status
| cmd_session_open
| cmd_session_activate
| cmd_route_bind
| cmd_route_status
| cmd_login_validate
| cmd_login_request
| cmd_login_response_status
| cmd_ipc_status.

(** [GateIpcService::Snapshot] *)
Class GateStatus (N : Type) : Type := GateSnapshot : N -> EndpointIpcStatus.
Definition node_gate_status {V T} `{IEtcdDiscoveryBackend V} {mo : MapOrder Z} (mKeepAliveRunning : bool) (process_host : option HostCounters) (service_host : HostCounters)
  : GateStatus (IpcNode.node V T) := EndpointSnapshot mKeepAliveRunning process_host new_counters service_host.

Section gate.
Context {N W S : Type} `{ProcessSender N} `{GateStatus N} `{Redis W} `{Sockets S} `{ClientCodecs} {mo : MapOrder Z}.
Variable now : Z.
Abbreviation command := (CommandArguments -> St (gate_console N W S) reply).
Abbreviation registered := (Console.registered gate_registered).
Implicit Types c : gate_console N W S.

Definition on_gate {A : Type} (m : St (gate N W S) A) : St (gate_console N W S) A :=
  fun c => let '(a, g) := m (console_gate c) in (a, c <| console_gate := g |>).

(** A service call whose result is logged. *)
Definition reported (m : St (gate N W S) Result) (failed text : string) (values : list string) : St (gate_console N W S) reply :=
  fun c => let '(r, c) := on_gate m c in (report r failed text values, c).

Definition status : command := fun _ => say (info "gate status" ["running"]).

Definition connection_status : command :=
  registered "gate connection status: service not registered" (fun arguments =>
    match arguments with
    | [text] => number_or "gate connection status: connection_id must be an unsigned integer" text (fun connection_id c =>
        (info "gate connection status"
          (to_string connection_id ::
           match GateConnectionService.Snapshot (connections (console_gate c)) connection_id with
           | Some record =>
               ["true"; GateConnectionService.ToString (conn_state record); remote_endpoint record; to_string (last_recv_time_ms record);
                to_string (last_send_time_ms record); to_string (heartbeat_deadline_ms record)]
           | None => ["false"; "none"; "none"; "0"; "0"; "0"]
           end), c))
    | _ => say (warn "usage: connection_status <connection_id>" [])
    end).

Definition accept_connection (text remote_endpoint : string) : St (gate_console N W S) reply :=
  number_or "gate connection accept: connection_id must be an unsigned integer" text (fun connection_id =>
    reported (on_table (GateConnectionService.Accept now connection_id remote_endpoint))
      "gate connection accept failed" "gate connection accept" [to_string connection_id; remote_endpoint]).

Definition connection_accept : command :=
  registered "gate connection accept: service not registered" (fun arguments =>
    match arguments with
    | [text] => accept_connection text "127.0.0.1:0"
    | [text; remote_endpoint] => accept_connection text remote_endpoint
    | _ => say (warn "usage: connection_accept <connection_id> [remote_endpoint]" [])
    end).

(** [Close] runs the handler of disconnections. *)
Definition connection_close : command :=
  registered "gate connection close: services not registered" (fun arguments =>
    match arguments with
    | [text] => number_or "gate connection close: connection_id must be an unsigned integer" text (fun connection_id =>
        reported (CloseConnection now connection_id) "gate connection close failed" "gate connection close" [to_string connection_id])
    | _ => say (warn "usage: connection_close <connection_id>" [])
    end).

Definition session_status : command :=
  registered "gate session status: service not registered" (fun arguments =>
    match arguments with
    | [text] => number_or "gate session status: gate_session_id must be an unsigned integer" text (fun gate_session_id c =>
        (info "gate session status"
          (to_string gate_session_id ::
           match GateSessionService.Snapshot (sessions (console_gate c)) gate_session_id with
           | Some record =>
               ["true"; GateSessionService.ToString (ses_state record); to_string (ses_connection_id record); ses_account_id record;
                to_string (ses_player_id record); to_string (ses_game_service_type record); to_string (ses_game_instance_id record);
                to_string (ses_login_version record); to_string (ses_session_epoch record); to_string (ses_last_active_time_ms record)]
           | None => ["false"; "none"; "0"; "none"; "0"; "0"; "0"; "0"; "0"; "0"]
           end), c))
    | _ => say (warn "usage: session_status <gate_session_id>" [])
    end).

Definition session_open : command :=
  registered "gate session open: service not registered" (fun arguments =>
    match arguments with
    | [session; connection] =>
        number_or "gate session open: arguments must be unsigned integers" session (fun gate_session_id =>
        number_or "gate session open: arguments must be unsigned integers" connection (fun connection_id =>
          reported (on_sessions (GateSessionService.OpenAnonymous now gate_session_id connection_id))
            "gate session open failed" "gate session open" [to_string gate_session_id; to_string connection_id]))
    | _ => say (warn "usage: session_open <gate_session_id> <connection_id>" [])
    end).

Definition session_activate : command :=
  registered "gate session activate: service not registered" (fun arguments =>
    let warning := "gate session activate: numeric arguments must be unsigned integers" in
    match arguments with
    | [session; account_id; player; type; instance] =>
        number_or warning session (fun gate_session_id => number_or warning player (fun player_id =>
        number_or warning type (fun game_service_type => number_or warning instance (fun game_instance_id =>
          reported (on_sessions (GateSessionService.Activate now gate_session_id account_id player_id (u32 game_service_type) (u32 game_instance_id)))
            "gate session activate failed" "gate session activate"
            [to_string gate_session_id; account_id; to_string player_id; to_string (u32 game_service_type); to_string (u32 game_instance_id)]))))
    | _ => say (warn "usage: session_activate <gate_session_id> <account_id> <player_id> <game_service_type> <game_instance_id>" [])
    end).

Definition route_bind : command :=
  registered "gate route bind: service not registered" (fun arguments =>
    let warning := "gate route bind: arguments must be unsigned integers" in
    match arguments with
    | [player; type; instance; session] =>
        number_or warning player (fun player_id => number_or warning type (fun game_service_type =>
        number_or warning instance (fun game_instance_id => number_or warning session (fun gate_session_id =>
          reported (on_routes (GateRoutingService.BindPlayer now player_id (u32 game_service_type) (u32 game_instance_id) gate_session_id))
            "gate route bind failed" "gate route bind"
            [to_string player_id; to_string (u32 game_service_type); to_string (u32 game_instance_id); to_string gate_session_id]))))
    | _ => say (warn "usage: route_bind <player_id> <game_service_type> <game_instance_id> <gate_session_id>" [])
    end).

Definition route_status : command :=
  registered "gate route status: service not registered" (fun arguments =>
    match arguments with
    | [text] => number_or "gate route status: player_id must be an unsigned integer" text (fun player_id c =>
        (info "gate route status"
          (to_string player_id ::
           match GateRoutingService.Snapshot (routes (console_gate c)) player_id with
           | Some route =>
               ["true"; to_string (rt_game_service_type route); to_string (rt_game_instance_id route); to_string (rt_gate_session_id route);
                to_string (rt_last_update_ms route)]
           | None => ["false"; "0"; "0"; "0"; "0"]
           end), c))
    | _ => say (warn "usage: route_status <player_id>" [])
    end).

Definition login_validate : command :=
  registered "gate login validate: service not registered" (fun arguments =>
    match arguments with
    | [platform; account_id; credential] =>
        let result := GateAuthService.Validate platform account_id credential in
        say (info "gate login validate" [show_bool (auth_ok result); auth_account_id result; auth_message result])
    | _ => say (warn "usage: login_validate <platform> <account_id> <credential>" [])
    end).

(** The login is requested for the connection 0, which no client has. *)
Definition login_request : command :=
  registered "gate login request: service not registered" (fun arguments =>
    let warning := "gate login request: numeric arguments must be unsigned integers" in
    match arguments with
    | [instance; session; platform; account_id; area] =>
        number_or warning instance (fun game_instance_id => number_or warning session (fun gate_session_id =>
        number_or warning area (fun area_id =>
          reported (RequestLogin (u32 game_instance_id) 0 gate_session_id platform account_id (u32 area_id))
            "gate login request failed" "gate login request"
            [to_string (u32 game_instance_id); to_string gate_session_id; account_id; to_string (u32 area_id)])))
    | _ => say (warn "usage: login_request <game_instance_id> <gate_session_id> <platform> <account_id> <area_id>" [])
    end).

Definition login_response_status : command :=
  registered "gate login response status: service not registered" (fun _ c =>
    let snapshot := mLoginSnapshot (login (console_gate c)) in
    (info "gate login response status"
       [to_string (last_request_id snapshot); to_string (Gate.last_player_id snapshot); to_string (result_code_number (last_result_code snapshot));
        to_string (last_game_service_type snapshot); to_string (last_game_instance_id snapshot); show_bool (last_is_reconnect snapshot);
        or_none (last_error_message snapshot)], c)).

Definition ipc_status : command :=
  registered "gate ipc status: service not registered" (fun _ c =>
    (info "gate ipc status" (gate_status_values (GateSnapshot (ipc (console_gate c)))), c)).

(** [RegisterRuntimeCommands] *)
Definition gate_commands : list (string * string * gate_command) :=
  [
   ("status", "Show gate runtime status", cmd_status);
   ("connection_status", "Show one gate connection state: <connection_id>", cmd_connection_status);
   ("connection_accept", "Simulate accepting one connection: <connection_id> [remote_endpoint]", cmd_connection_accept);
   ("connection_close", "Simulate closing one connection: <connection_id>", cmd_connection_close);
   ("session_status", "Show one gate session state: <gate_session_id>", cmd_session_status);
   ("session_open", "Open one anonymous session: <gate_session_id> <connection_id>", cmd_session_open);
   ("session_activate", "Activate one session: <gate_session_id> <account_id> <player_id> <game_service_type> <game_instance_id>", cmd_session_activate);
   ("route_bind", "Bind one player route: <player_id> <game_service_type> <game_instance_id> <gate_session_id>", cmd_route_bind);
   ("route_status", "Show one player route: <player_id>", cmd_route_status);
   ("login_validate", "Validate one simulated login: <platform> <account_id> <credential>", cmd_login_validate);
   ("login_request", "Send one simulated login request to game: <game_instance_id> <gate_session_id> <platform> <account_id> <area_id>", cmd_login_request);
   ("login_response_status", "Show last received simulated login response", cmd_login_response_status);
   ("ipc_status", "Show gate IPC runtime status", cmd_ipc_status)
  ].

Definition run_gate_command (symbol : gate_command) : command :=
  match symbol with
  | cmd_status => status
  | cmd_connection_status => connection_status
  | cmd_connection_accept => connection_accept
  | cmd_connection_close => connection_close
  | cmd_session_status => session_status
  | cmd_session_open => session_open
  | cmd_session_activate => session_activate
  | cmd_route_bind => route_bind
  | cmd_route_status => route_status
  | cmd_login_validate => login_validate
  | cmd_login_request => login_request
  | cmd_login_response_status => login_response_status
  | cmd_ipc_status => ipc_status
  end.
End gate.

(** ** The relay *)

Record relay_console (V T : Type) : Type := mkRelayConsole { relay_registered : bool; console_node : IpcNode.node V T }.
Arguments mkRelayConsole {V T}. Arguments relay_registered {V T}. Arguments console_node {V T}.
#[export] Instance eta_relay_console {V T} : Eta (relay_console V T) := fun c => mkRelayConsole (relay_registered c) (console_node c).

Section relay.
Context {V T : Type} {be : IEtcdDiscoveryBackend V} {glaze : Glaze} {tra : ITransport T} {cc : Codec ControlMessage} {mo : MapOrder Z}.
Abbreviation command := (CommandArguments -> St (relay_console V T) reply).
Abbreviation registered := (Console.registered relay_registered).
Implicit Types c : relay_console V T.

Definition on_relay {A : Type} (m : St (IpcNode.node V T) A) : St (relay_console V T) A :=
  fun c => let '(a, n) := m (console_node c) in (a, c <| console_node := n |>).

(** Whether the keepalive thread runs. *)
Variable mKeepAliveRunning : bool.

Definition relay_ipc_status : command :=
  registered "relay ipc status: service not registered" (fun _ c =>
    (info "relay ipc status" (relay_status_values (RelaySnapshot mKeepAliveRunning (console_node c))), c)).

Definition relay_ipc_topology : command :=
  registered "relay ipc topology: service not registered" (fun _ c =>
    (Some (inr (
       log_info "relay ipc topology" (relay_topology_values (RelaySnapshot mKeepAliveRunning (console_node c))) ::
       (topology_link "relay ipc topology link" "relay" "game" kRelayServiceType <$> IpcNode.HealthyLinks (console_node c)))), c)).

Definition relay_ipc_metrics : command :=
  registered "relay ipc metrics: service not registered" (fun _ c =>
    (info "relay ipc metrics" (relay_metrics_values (RelaySnapshot mKeepAliveRunning (console_node c))), c)).

Definition relay_ipc_refresh : command :=
  registered "relay ipc refresh: service not registered" (fun _ c =>
    let '(refresh_result, c) := on_relay IpcNode.RefreshDiscovery c in
    if negb (ok refresh_result) then (warn "relay ipc refresh failed" [message refresh_result], c)
    else
      let '(events, c) := on_relay IpcNode.DrainMembershipEvents c in
      (Some (inr (log_info "relay ipc refresh"
         [to_string (Z.of_nat (length (IpcNode.Members (console_node c)))); to_string (Z.of_nat (length events))] ::
         ((fun event => log_info "relay ipc event" (event_name (me_type event) :: process_values (Base.process (me_process event)))) <$> events))), c)).

Definition relay_ipc_keepalive : command :=
  registered "relay ipc keepalive: service not registered" (fun _ c =>
    let '(keepalive_result, c) := on_relay IpcNode.KeepAliveOnce c in
    (report keepalive_result "relay ipc keepalive failed" "relay ipc keepalive: ok" [], c)).

Definition relay_ipc_members : command :=
  registered "relay ipc members: service not registered" (fun _ c =>
    let members := IpcNode.Members (console_node c) in
    (Some (inr (log_info "relay ipc members" [to_string (Z.of_nat (length members))] :: (member_line "relay ipc member" <$> members))), c)).

Definition relay_ipc_links : command :=
  registered "relay ipc links: service not registered" (fun _ c =>
    let links := IpcNode.HealthyLinks (console_node c) in
    (Some (inr (log_info "relay ipc links" [to_string (Z.of_nat (length links))] ::
       ((fun link => log_info "relay ipc link" (process_values link)) <$> links))), c)).

Definition relay_ipc_connect : command :=
  registered "relay ipc connect: service not registered" (fun arguments =>
    match arguments with
    | [type; instance] => number type (fun service_type => number instance (fun instance_id c =>
        let '(connect_result, c) := on_relay (IpcNode.ConnectToMember (u32 service_type) (u32 instance_id)) c in
        (report connect_result "relay ipc connect failed" "relay ipc connect: ok" [], c)))
    | _ => say (warn "usage: ipc_connect <service_type> <instance_id>" [])
    end).

(** [RegisterRuntimeCommands] *)
Definition relay_commands : list (string * string * command) :=
  [
   ("ipc_status", "Show relay IPC bootstrap status", relay_ipc_status);
   ("ipc_refresh", "Refresh relay IPC discovery snapshot", relay_ipc_refresh);
   ("ipc_keepalive", "Send one relay IPC discovery lease keepalive", relay_ipc_keepalive);
   ("ipc_members", "List relay IPC discovery members", relay_ipc_members);
   ("ipc_topology", "Show relay IPC topology and auto-connect state", relay_ipc_topology);
   ("ipc_metrics", "Show relay IPC runtime metrics", relay_ipc_metrics);
   ("ipc_links", "List relay IPC healthy direct links", relay_ipc_links);
   ("ipc_connect", "Connect relay to another process by service_type and instance_id", relay_ipc_connect)
  ].
End relay.

(** ** Every command of a gate answers *)

Module GateConsoleProofs.
Import LoaderProofs.

Section gate.
Context {N W S : Type} `{ProcessSender N} `{GateStatus N} `{Redis W} `{Sockets S} `{ClientCodecs} {mo : MapOrder Z}.

Definition answers (m : St (gate_console N W S) reply) : Prop := forall c, exists lines c', m c = (Some (inr lines), c').

Lemma answers_say lines : answers (say (Some (inr lines))).
Proof. intros c. by exists lines, c. Qed.

Lemma answers_warn warning values : answers (say (warn warning values)).
Proof. apply answers_say. Qed.

Lemma answers_info text values : answers (say (info text values)).
Proof. apply answers_say. Qed.

Lemma answers_registered warning command arguments :
  answers (command arguments) -> answers (Console.registered gate_registered warning command arguments).
Proof. intros Hc c. unfold Console.registered. destruct (gate_registered c); [apply Hc|by eexists _, c]. Qed.

Lemma answers_number_or warning text (k : Z -> St (gate_console N W S) reply) : (forall n, answers (k n)) -> answers (number_or warning text k).
Proof. intros Hk. unfold number_or. destruct (stoull text); [apply Hk|apply answers_warn]. Qed.

Lemma answers_reported m failed text values : answers (reported m failed text values).
Proof. intros c. unfold reported, report. destruct (on_gate m c) as [r c']. destruct (negb (ok r)); by eexists _, c'. Qed.

Lemma answers_value text (values : gate_console N W S -> list string) : answers (fun c => (info text (values c), c)).
Proof. intros c. by eexists _, c. Qed.

Lemma run_gate_command_answers now symbol arguments : answers (run_gate_command now symbol arguments).
Proof.
  destruct symbol; unfold run_gate_command;
    match goal with |- answers ?f => let h := head_of f in unfold h end; cbv zeta;
    repeat first
      [ apply answers_say | apply answers_warn | apply answers_info | apply answers_reported | apply answers_value
      | apply answers_registered | apply answers_number_or; intros ?
      | match goal with |- answers (match ?x with _ => _ end) => destruct x end
      | unfold accept_connection ].
Qed.
End gate.
End GateConsoleProofs.

(** ** Properties *)

Section properties.
Import LoaderProofs GateConsoleProofs.
Context {N W S : Type} {ns : ProcessSender N} {gs : GateStatus N} {rd : Redis W} {sk : Sockets S} {codecs : ClientCodecs} {mo : MapOrder Z}.
Variable configuration : Type.
Variable default_configuration : configuration.
Variable OnConfigure : CommonConfiguration -> configuration -> St (gate_console N W S) bool.
Abbreviation gate_world := (commands gate_command * gate_console N W S)%type.
Variable services : list (option (IService gate_world)).
Variable OnLoad OnStart OnStop OnUnload : stage gate_world.
Variable now : Z.
Variable task_fuel : nat.

(** The application of a gate. *)
Definition gate_application : IApplication configuration gate_command (ApplicationBase.t gate_world * gate_console N W S) :=
  base_application "gate" default_configuration OnConfigure services gate_commands (fun symbol => run_console (run_gate_command now symbol))
    OnLoad OnStart OnStop OnUnload task_fuel.

Lemma gate_orderly : orderly gate_application.
Proof.
  intros symbol arguments [s c]. simpl. unfold run_console.
  destruct (run_gate_command_answers now symbol arguments c) as (lines & c' & ->). by exists handled, (s, c').
Qed.

End properties.

(** ** A gate with an operator *)

Module ExampleGateConsole.
Import LoaderProofs ExampleLoader Connection.ExampleSockets GateLogin.ExampleGate.

#[local] Existing Instance order_Z.
#[local] Existing Instance GateLogin.ExampleGate.example_codecs.
#[local] Existing Instance GateLogin.ExampleGate.outbox_sender.
#[local] Existing Instance GateLogin.ExampleGate.example_redis_kv.

(** The node of the example has nothing to show. *)
Definition nothing_shown : EndpointIpcStatus :=
  mkEndpointStatus
    (mkBaseStatus None false false false false false false 0 0 0 (mkStats 0 0 0 0) 0 0 0 0 None None "" "")
    0 "" false false 0 "" 0 0 "" 0 "".
#[local] Instance outbox_status : GateStatus outbox := fun _ => nothing_shown.

Abbreviation example_console := (gate_console outbox kv net).
Definition no_hook : stage (commands gate_command * example_console) := ret (inr LifecycleTask.Completed).
Definition example_gate : IApplication unit gate_command (ApplicationBase.t (commands gate_command * example_console) * example_console) :=
  gate_application unit tt (fun _ _ c => (true, c)) [] no_hook no_hook no_hook no_hook 1000 1.

Definition typed : list string := ["connection_status alice"; "session_open 5 1"; "ping"; "session_status 5"; "exit"].
Definition gate_process : process gate_command (ApplicationBase.t (commands gate_command * example_console) * example_console) :=
  mkProcess ({["exit" := CommandRegistry.mkCommandDefinition "Stop the application and exit the loader" exit_handler]}) true
    (mkRuntimeState false false false "") (ApplicationBase.create, mkGateConsole true (gate_with [] ∅)) (app_calls call_Load) main_waits typed [].
Definition gate_turns : list bool := [true; true; true; false; false; false; false; false; false; true; true; true; false].
Definition gate_left : process gate_command (ApplicationBase.t (commands gate_command * example_console) * example_console) :=
  default gate_process (run_turns example_gate gate_turns gate_process).

Lemma gate_left_reached : rtc (process_step example_gate) gate_process gate_left.
Proof. apply (run_turns_rtc example_gate gate_turns). by vm_compute. Qed.

End ExampleGateConsole.
