(* ===== verification/SimClient.v ===== *)
(** * SimClient: the services of the simulation client

    [sim_client/services]: the client that operators and tests drive against a gate.
    Its connection has a thread of its own that reads frames.  The code of the
    commands runs on another thread; where that code lets the reader in (it takes a
    lock, or waits), a schedule says how many steps the reader does, so that a
    statement about all schedules is one about all interleavings.  The clock is one
    time within an operation. *)

From S2P Require Import Prelude Text Base Transport Repository Protocol Connection Client Console.

(** ** What the generated code and the socket library add *)

(** The messages within the messages of players. *)
Class PlayerCodecs : Type := {
  #[global] codec_echo_request :: MessageCodec PlayerEchoRequest;
  #[global] codec_echo_response :: MessageCodec PlayerEchoResponse;
  #[global] codec_rename_request :: MessageCodec RenamePlayerRequest;
  #[global] codec_rename_response :: MessageCodec RenamePlayerResponse;
  #[global] codec_profile_push :: MessageCodec PlayerProfilePush
}.

(** [socket], [inet_pton] and [connect]. *)
Class ClientSockets (S : Type) : Type := {
  sock_socket : St S Z;
  inet_pton : string -> bool;
  sock_connect : Z -> string -> Z -> St S bool
}.

Class ClientSocketsLaw (S : Type) `{SocketsLaw S} `{ClientSockets S} : Prop := {
  socket_law s : let '(fd, s') := sock_socket s in
    if 0 <=? fd then fd ∉ open_fds s /\ open_fds s' = {[fd]} ∪ open_fds s else open_fds s' = open_fds s;
  connect_law fd host port s : open_fds (sock_connect fd host port s).2 = open_fds s
}.

Definition error_number (code : ErrorCode) : Z :=
  match code with
  | ERROR_CODE_UNSPECIFIED => 0 | ERROR_CODE_OK => 1 | ERROR_CODE_INVALID_REQUEST => 2 | ERROR_CODE_UNAUTHORIZED => 3
  | ERROR_CODE_INTERNAL => 4
  end.

(** ** [application.h] *)

Record SimClientConfiguration : Type := mkSimClientConfiguration {
  gate_host : string;
  gate_port : Z;
  default_platform : string;
  default_account_id : string;
  default_client_version : Z;
  default_channel : string
}.
#[export] Instance eta_sim_configuration : Eta SimClientConfiguration := fun c =>
  mkSimClientConfiguration (gate_host c) (gate_port c) (default_platform c) (default_account_id c) (default_client_version c) (default_channel c).

Definition default_sim_configuration : SimClientConfiguration := mkSimClientConfiguration "127.0.0.1" 9000 "dev" "sim-account-1" 1 "sim".

(** ** [protocol_service.cpp] *)

Record SimClientProtocolFrame : Type := mkSimClientProtocolFrame { frame_message_id : Z; frame_payload : ByteBuffer }.

Record ProtocolEncodeResult : Type := mkProtocolEncodeResult { enc_ok : bool; enc_message_id : Z; encoded_size : Z; enc_message : string }.

(** A [std::string] that a message of a player fills is kept as its bytes. *)
Record SimClientProtocolSnapshot : Type := mkSimClientProtocolSnapshot {
  encoded_login_bytes : Z;
  encoded_heartbeat_bytes : Z;
  received_login_response_bytes : Z;
  configured_platform : string;
  configured_account_id : string;
  configured_channel : string;
  configured_client_version : Z;
  last_login_player_id : Z;
  last_login_ok : bool;
  last_login_error_code : Z;
  last_login_error_message : string;
  last_kick_reason : string;
  encoded_player_message_bytes : Z;
  last_player_response_message_id : Z;
  last_player_response_error_code : Z;
  last_player_response_error_message : string;
  last_player_response_payload : ByteBuffer;
  last_echo_text : string;
  last_rename_display_name : string;
  last_push_message_id : Z;
  last_push_payload : ByteBuffer;
  last_profile_push_display_name : string
}.
#[export] Instance eta_protocol_snapshot : Eta SimClientProtocolSnapshot := fun s =>
  mkSimClientProtocolSnapshot (encoded_login_bytes s) (encoded_heartbeat_bytes s) (received_login_response_bytes s) (configured_platform s)
    (configured_account_id s) (configured_channel s) (configured_client_version s) (last_login_player_id s) (last_login_ok s)
    (last_login_error_code s) (last_login_error_message s) (last_kick_reason s) (encoded_player_message_bytes s)
    (last_player_response_message_id s) (last_player_response_error_code s) (last_player_response_error_message s)
    (last_player_response_payload s) (last_echo_text s) (last_rename_display_name s) (last_push_message_id s) (last_push_payload s)
    (last_profile_push_display_name s).

Record protocol_service : Type := mkProtocolService { mConfiguration : SimClientConfiguration; protocol_snapshot : SimClientProtocolSnapshot }.
#[export] Instance eta_protocol_service : Eta protocol_service := fun s => mkProtocolService (mConfiguration s) (protocol_snapshot s).

Module ProtocolService.
Section service.
Context `{ClientCodecs} `{PlayerCodecs}.
Implicit Types s : protocol_service.

Definition create (configuration : SimClientConfiguration) : protocol_service :=
  mkProtocolService configuration
    (mkSimClientProtocolSnapshot 0 0 0 (default_platform configuration) (default_account_id configuration) (default_channel configuration)
       (default_client_version configuration) 0 false 0 "" "" 0 0 0 "" [] "" "" 0 [] "").

Definition SetAccountId (account_id : string) : St protocol_service Result :=
  fun s =>
    if String.eqb account_id "" then (Failure "account_id must not be empty", s)
    else
      (Success, s <| mConfiguration := (mConfiguration s) <| default_account_id := account_id |> |>
                  <| protocol_snapshot := (protocol_snapshot s) <| configured_account_id := account_id |> |>).

(** What is configured stays. *)
Definition ResetRuntimeState : St protocol_service Result :=
  fun s =>
    let c := protocol_snapshot s in
    (Success, s <| protocol_snapshot :=
       mkSimClientProtocolSnapshot 0 0 0 (configured_platform c) (configured_account_id c) (configured_channel c) (configured_client_version c)
         0 false 0 "" "" 0 0 0 "" [] "" "" 0 [] "" |>).

Definition login_request (configuration : SimClientConfiguration) : LoginRequest :=
  mkLoginRequest (mkRequestHeader MESSAGE_ID_LOGIN_REQUEST 1 1) (default_platform configuration) (default_account_id configuration) "sim-token"
    (default_client_version configuration) (default_channel configuration).

Definition heartbeat_request : HeartbeatRequest := mkHeartbeatRequest (mkRequestHeader MESSAGE_ID_HEARTBEAT_REQUEST 2 2).

(** [SerializeToString], whose failure has a text; [count] records the size. *)
Definition encode (payload : option ByteBuffer) (message_id : Z) (failed : string)
    (count : Z -> SimClientProtocolSnapshot -> SimClientProtocolSnapshot) : St protocol_service ProtocolEncodeResult :=
  fun s =>
    match payload with
    | None => (mkProtocolEncodeResult false 0 0 failed, s)
    | Some payload =>
        let size := Z.of_nat (length payload) in
        (mkProtocolEncodeResult true message_id size "OK", s <| protocol_snapshot := count size (protocol_snapshot s) |>)
    end.

Definition EncodeDefaultLogin : St protocol_service ProtocolEncodeResult :=
  fun s => encode (SerializeMessage (login_request (mConfiguration s))) MESSAGE_ID_LOGIN_REQUEST "failed to serialize login request"
    (fun n c => c <| encoded_login_bytes := n |>) s.

Definition EncodeHeartbeat : St protocol_service ProtocolEncodeResult :=
  encode (SerializeMessage heartbeat_request) MESSAGE_ID_HEARTBEAT_REQUEST "failed to serialize heartbeat request"
    (fun n c => c <| encoded_heartbeat_bytes := n |>).

Definition BuildTypedPlayerFrame {M : Type} `{MessageCodec M} (message_id : Z) (payload_message : M) : option SimClientProtocolFrame :=
  match SerializeMessage payload_message with
  | None => None
  | Some inner_payload =>
      match SerializeMessage (mkPlayerMessageRequest (mkRequestHeader message_id 3 3) inner_payload) with
      | None => None
      | Some payload => Some (mkSimClientProtocolFrame MESSAGE_ID_PLAYER_MESSAGE_REQUEST payload)
      end
  end.

Definition echo_frame (text : string) : option SimClientProtocolFrame :=
  BuildTypedPlayerFrame MESSAGE_ID_PLAYER_ECHO_REQUEST (mkPlayerEchoRequest text).
Definition rename_frame (display_name : string) : option SimClientProtocolFrame :=
  BuildTypedPlayerFrame MESSAGE_ID_PLAYER_RENAME_REQUEST (mkRenamePlayerRequest display_name).

Definition encode_player_frame (frame : option SimClientProtocolFrame) (failed : string) : St protocol_service ProtocolEncodeResult :=
  encode (frame_payload <$> frame) MESSAGE_ID_PLAYER_MESSAGE_REQUEST failed (fun n c => c <| encoded_player_message_bytes := n |>).

Definition EncodeEchoRequest (text : string) : St protocol_service ProtocolEncodeResult :=
  encode_player_frame (echo_frame text) "failed to serialize echo request".
Definition EncodeRenameRequest (display_name : string) : St protocol_service ProtocolEncodeResult :=
  encode_player_frame (rename_frame display_name) "failed to serialize rename player request".
Definition EncodePlayerMessage (payload : string) : St protocol_service ProtocolEncodeResult := EncodeEchoRequest payload.

(** Every [Build] encodes for the counters first. *)
Definition build (encoded : St protocol_service ProtocolEncodeResult) (frame : protocol_service -> option SimClientProtocolFrame)
    : St protocol_service (option SimClientProtocolFrame) :=
  fun s => let '(encoded, s) := encoded s in if negb (enc_ok encoded) then (None, s) else (frame s, s).

Definition BuildDefaultLoginFrame : St protocol_service (option SimClientProtocolFrame) :=
  build EncodeDefaultLogin (fun s => mkSimClientProtocolFrame MESSAGE_ID_LOGIN_REQUEST <$> SerializeMessage (login_request (mConfiguration s))).
Definition BuildHeartbeatFrame : St protocol_service (option SimClientProtocolFrame) :=
  build EncodeHeartbeat (fun _ => mkSimClientProtocolFrame MESSAGE_ID_HEARTBEAT_REQUEST <$> SerializeMessage heartbeat_request).
Definition BuildEchoFrame (text : string) : St protocol_service (option SimClientProtocolFrame) :=
  build (EncodeEchoRequest text) (fun _ => echo_frame text).
Definition BuildRenameFrame (display_name : string) : St protocol_service (option SimClientProtocolFrame) :=
  build (EncodeRenameRequest display_name) (fun _ => rename_frame display_name).
Definition BuildPlayerMessageFrame (payload : string) : St protocol_service (option SimClientProtocolFrame) := BuildEchoFrame payload.

(** *** What comes from the gate *)

Definition record (f : SimClientProtocolSnapshot -> SimClientProtocolSnapshot) s : protocol_service :=
  s <| protocol_snapshot := f (protocol_snapshot s) |>.

Definition login_response (payload : ByteBuffer) : St protocol_service Result :=
  fun s =>
    match ParseMessage payload : option LoginResponse with
    | None => (Failure "failed to parse LoginResponse", s)
    | Some response =>
        let header := cr_header response in
        (Success, record (fun c => c <| received_login_response_bytes := Z.of_nat (length payload) |>
           <| last_login_player_id := cr_player_id response |> <| last_login_ok := bool_decide (rh_error_code header = ERROR_CODE_OK) |>
           <| last_login_error_code := error_number (rh_error_code header) |> <| last_login_error_message := rh_error_message header |>) s)
    end.

Definition player_response (payload : ByteBuffer) : St protocol_service Result :=
  fun s =>
    match ParseMessage payload : option PlayerMessageResponse with
    | None => (Failure "failed to parse PlayerMessageResponse", s)
    | Some response =>
        let header := mr_header response in
        let s := record (fun c => c <| last_player_response_message_id := rh_message_id header |>
          <| last_player_response_error_code := error_number (rh_error_code header) |>
          <| last_player_response_error_message := rh_error_message header |> <| last_player_response_payload := mr_payload response |>) s in
        if rh_message_id header =? MESSAGE_ID_PLAYER_ECHO_REQUEST then
          match ParseMessage (mr_payload response) : option PlayerEchoResponse with
          | None => (Failure "failed to parse PlayerEchoResponse", s)
          | Some echo =>
              (Success, record (fun c => c <| last_echo_text := er_text echo |> <| last_player_response_payload := bytes_of_string (er_text echo) |>) s)
          end
        else if rh_message_id header =? MESSAGE_ID_PLAYER_RENAME_REQUEST then
          match ParseMessage (mr_payload response) : option RenamePlayerResponse with
          | None => (Failure "failed to parse RenamePlayerResponse", s)
          | Some rename =>
              (Success, record (fun c => c <| last_rename_display_name := rr_display_name rename |>
                 <| last_player_response_payload := bytes_of_string (rr_display_name rename) |>) s)
          end
        else (Success, s)
    end.

Definition player_push (payload : ByteBuffer) : St protocol_service Result :=
  fun s =>
    match ParseMessage payload : option PlayerPushMessage with
    | None => (Failure "failed to parse PlayerPushMessage", s)
    | Some push =>
        let s := record (fun c => c <| last_push_message_id := pp_message_id push |> <| last_push_payload := pp_payload push |>) s in
        if pp_message_id push =? MESSAGE_ID_PLAYER_PROFILE_PUSH then
          match ParseMessage (pp_payload push) : option PlayerProfilePush with
          | None => (Failure "failed to parse PlayerProfilePush", s)
          | Some profile =>
              (Success, record (fun c => c <| last_profile_push_display_name := pp_display_name profile |>
                 <| last_push_payload := bytes_of_string (pp_display_name profile) |>) s)
          end
        else (Success, s)
    end.

Definition HandleFrame (message_id : Z) (payload : ByteBuffer) : St protocol_service Result :=
  if message_id =? MESSAGE_ID_LOGIN_RESPONSE then login_response payload
  else if message_id =? MESSAGE_ID_HEARTBEAT_RESPONSE then
    ret (match ParseMessage payload : option HeartbeatResponse with
         | None => Failure "failed to parse HeartbeatResponse"
         | Some _ => Success
         end)
  else if message_id =? MESSAGE_ID_KICK_NOTIFICATION then
    match ParseMessage payload : option KickNotification with
    | None => ret (Failure "failed to parse KickNotification")
    | Some notification => fun s => (Success, record (fun c => c <| last_kick_reason := kn_reason notification |>) s)
    end
  else if message_id =? MESSAGE_ID_PLAYER_MESSAGE_RESPONSE then player_response payload
  else if message_id =? MESSAGE_ID_PLAYER_PUSH then player_push payload
  else ret (Failure "unsupported message_id").
End service.
End ProtocolService.

(** ** [connection_service.cpp] *)

Record SimClientConnectionSnapshot : Type := mkSimClientConnectionSnapshot {
  snap_host : string;
  snap_port : Z;
  connected : bool;
  connect_attempts : Z;
  disconnect_count : Z;
  last_connect_ms : Z;
  last_disconnect_ms : Z;
  sent_frame_count : Z;
  received_frame_count : Z
}.
#[export] Instance eta_sim_connection_snapshot : Eta SimClientConnectionSnapshot := fun s =>
  mkSimClientConnectionSnapshot (snap_host s) (snap_port s) (connected s) (connect_attempts s) (disconnect_count s) (last_connect_ms s)
    (last_disconnect_ms s) (sent_frame_count s) (received_frame_count s).

(** [mReaderThread]: whether there is a thread to join. *)
Record connection_service : Type := mkConnectionService {
  mSnapshot : SimClientConnectionSnapshot;
  mSocketFd : Z;
  mReaderThread : bool
}.
#[export] Instance eta_sim_connection : Eta connection_service := fun s => mkConnectionService (mSnapshot s) (mSocketFd s) (mReaderThread s).

(** Where the thread of [ReaderLoop] stands; every step holds a lock or reads a frame. *)
Inductive reader_pc : Type :=
| reader_none
| reader_looks
| reader_reads (fd : Z)
| reader_counts (message_id : Z) (payload : ByteBuffer)
| reader_handles (message_id : Z) (payload : ByteBuffer)
| reader_leaves
| reader_done.
#[export] Instance reader_pc_eq_dec : EqDecision reader_pc.
Proof. solve_decision. Defined.

(** ** The client as a whole *)

Record SimClientScenarioSnapshot : Type := mkSimClientScenarioSnapshot { last_scenario : string; run_count : Z }.

Record sim_client (S : Type) : Type := mkSimClient {
  client_registered : bool;
  connection : connection_service;
  protocol : protocol_service;
  scenario : SimClientScenarioSnapshot;
  sockets : S;
  reader : reader_pc;
  schedule : list nat
}.
Arguments mkSimClient {S}. Arguments client_registered {S}. Arguments connection {S}. Arguments protocol {S}. Arguments scenario {S}.
Arguments sockets {S}. Arguments reader {S}. Arguments schedule {S}.
#[export] Instance eta_sim_client {S} : Eta (sim_client S) := fun c =>
  mkSimClient (client_registered c) (connection c) (protocol c) (scenario c) (sockets c) (reader c) (schedule c).

Section client.
Context {S : Type} `{Sockets S} `{ClientSockets S} `{ClientCodecs} `{PlayerCodecs} {mo : MapOrder Z}.
Variable NowMs : Z.
Implicit Types c : sim_client S.

Definition on_protocol {A : Type} (m : St protocol_service A) : St (sim_client S) A :=
  fun c => let '(a, s) := m (protocol c) in (a, c <| protocol := s |>).
Definition on_sockets {A : Type} (m : St S A) : St (sim_client S) A :=
  fun c => let '(a, k) := m (sockets c) in (a, c <| sockets := k |>).
Definition set_connection (f : connection_service -> connection_service) c : sim_client S := c <| connection := f (connection c) |>.
Definition set_snapshot (f : SimClientConnectionSnapshot -> SimClientConnectionSnapshot) c : sim_client S :=
  set_connection (fun s => s <| mSnapshot := f (mSnapshot s) |>) c.

(** The handler that the application sets. *)
Definition mMessageHandler (message_id : Z) (payload : ByteBuffer) c : sim_client S :=
  (on_protocol (ProtocolService.HandleFrame message_id payload) c).2.

(** The two functions are those of the gate, word for word. *)
Definition ReadExact : Z -> nat -> St S (bool * ByteBuffer) := GateConnectionService.ReadExact.
Definition WriteExact : Z -> ByteBuffer -> St S bool := GateConnectionService.WriteExact.

(** What a turn of [ReaderLoop] reads: [None] ends it. *)
Definition read_frame (fd : Z) : St S (option (Z * ByteBuffer)) :=
  fun k =>
    let '((done, header), k) := ReadExact fd 8 k in
    if negb done then (None, k)
    else
      let size := of_le_bytes (drop 4 header) in
      let '((done, payload), k) := if 0 <? size then ReadExact fd (Z.to_nat size) k else ((true, []), k) in
      if negb done then (None, k) else (Some (of_le_bytes (take 4 header), payload), k).

Definition count_disconnect (s : SimClientConnectionSnapshot) : SimClientConnectionSnapshot :=
  s <| disconnect_count := u64 (disconnect_count s + 1) |> <| connected := false |> <| last_disconnect_ms := NowMs |>.

(** One step of [ReaderLoop]. *)
Definition reader_turn c : sim_client S :=
  match reader c with
  | reader_none | reader_done => c
  | reader_looks =>
      let fd := mSocketFd (connection c) in
      c <| reader := if fd <? 0 then reader_done else reader_reads fd |>
  | reader_reads fd =>
      let '(message, c) := on_sockets (read_frame fd) c in
      c <| reader := match message with Some (message_id, payload) => reader_counts message_id payload | None => reader_leaves end |>
  | reader_counts message_id payload =>
      (set_snapshot (fun s => s <| received_frame_count := u64 (received_frame_count s + 1) |>) c) <| reader := reader_handles message_id payload |>
  | reader_handles message_id payload => (mMessageHandler message_id payload c) <| reader := reader_looks |>
  | reader_leaves =>
      let fd := mSocketFd (connection c) in
      let '(_, c) := when (0 <=? fd) (on_sockets (sock_close fd)) c in
      (set_snapshot count_disconnect (set_connection (fun s => s <| mSocketFd := if 0 <=? fd then -1 else fd |>) c)) <| reader := reader_done |>
  end.

(** The reader runs as far as the schedule lets it. *)
Definition others : St (sim_client S) unit :=
  fun c =>
    match schedule c with
    | [] => (tt, c)
    | turns :: rest => (tt, Nat.iter turns reader_turn (c <| schedule := rest |>))
    end.

(** [join] comes back when the reader has ended.  Four steps are enough for a reader
    whose socket is closed. *)
Fixpoint join_reader (fuel : nat) c : option (sim_client S) :=
  match reader c, fuel with
  | (reader_none | reader_done), _ => Some (c <| reader := reader_none |>)
  | _, O => None
  | _, Datatypes.S fuel => join_reader fuel (reader_turn c)
  end.

Definition join (joinable : bool) : St (sim_client S) (option unit) :=
  fun c => if joinable then match join_reader 4 c with Some c => (Some tt, c) | None => (None, c) end else (Some tt, c).

(** Operations of the client that may not come back. *)
Definition call {A B : Type} (m : St (sim_client S) (option A)) (k : A -> St (sim_client S) (option B)) : St (sim_client S) (option B) :=
  fun c => match m c with (Some a, c) => k a c | (None, c) => (None, c) end.
Definition done {A : Type} (a : A) : St (sim_client S) (option A) := ret (Some a).
Definition plain {A : Type} (m : St (sim_client S) A) : St (sim_client S) (option A) := a <- m ;; done a.

(** The part of [Disconnect] and of [Stop] after the lock. *)
Definition close_and_join {A : Type} (socket_fd : Z) (joinable : bool) (result : A) : St (sim_client S) (option A) :=
  others;;;
  when (0 <=? socket_fd) (on_sockets (sock_close socket_fd));;;
  call (join joinable) (fun _ => done result).

Definition Stop : St (sim_client S) (option unit) :=
  others;;;
  fun c =>
    let s := connection c in
    let c := set_snapshot (fun n => n <| connected := false |>) (set_connection (fun s => s <| mSocketFd := -1 |> <| mReaderThread := false |>) c) in
    close_and_join (mSocketFd s) (mReaderThread s) tt c.

Definition open_socket : St (sim_client S) Result :=
  fun c =>
    let snapshot := mSnapshot (connection c) in
    let '(socket_fd, c) := on_sockets sock_socket c in
    if socket_fd <? 0 then (Failure "failed to create socket", c)
    else if negb (inet_pton (snap_host snapshot)) then
      let '(_, c) := on_sockets (sock_close socket_fd) c in (Failure "failed to parse gate host", c)
    else
      let '(done, c) := on_sockets (sock_connect socket_fd (snap_host snapshot) (u16 (snap_port snapshot))) c in
      if negb done then let '(_, c) := on_sockets (sock_close socket_fd) c in (Failure "failed to connect to gate", c)
      else
        let c := set_snapshot (fun n => n <| connected := true |> <| last_connect_ms := NowMs |>)
          (set_connection (fun s => s <| mSocketFd := socket_fd |> <| mReaderThread := true |>) c) in
        (Success, c <| reader := reader_looks |>).

Definition Connect : St (sim_client S) (option Result) :=
  others;;;
  fun c =>
    let c := set_snapshot (fun n => n <| connect_attempts := u64 (connect_attempts n + 1) |>) c in
    if 0 <=? mSocketFd (connection c) then (Some (Failure "socket already connected"), c)
    else
      let stale_reader := mReaderThread (connection c) in
      call (join stale_reader) (fun _ => plain open_socket) (set_connection (fun s => s <| mReaderThread := false |>) c).

Definition Disconnect : St (sim_client S) (option Result) :=
  others;;;
  fun c =>
    let s := connection c in
    if mSocketFd s <? 0 then (Some (Failure "socket is not connected"), c)
    else
      close_and_join (mSocketFd s) (mReaderThread s) Success
        (set_snapshot count_disconnect (set_connection (fun s => s <| mSocketFd := -1 |> <| mReaderThread := false |>) c)).

Definition SendFrame (message_id : Z) (payload : ByteBuffer) : St (sim_client S) Result :=
  others;;;
  fun c =>
    let fd := mSocketFd (connection c) in
    if fd <? 0 then (Failure "socket is not connected", c)
    else
      let '(sent, c) := on_sockets (WriteExact fd (gate_header_bytes message_id payload)) c in
      if negb sent then (Failure "failed to send frame header", c)
      else
        let '(sent, c) := match payload with [] => (true, c) | _ => on_sockets (WriteExact fd payload) c end in
        if negb sent then (Failure "failed to send frame payload", c)
        else (Success, set_snapshot (fun n => n <| sent_frame_count := u64 (sent_frame_count n + 1) |>) c).

(** ** [scenario_service.cpp] *)

(** [if (const auto r = m; !r.ok && r.message != tolerated) return r;] *)
Definition must (m : St (sim_client S) (option Result)) (tolerated : option string) (k : St (sim_client S) (option Result))
    : St (sim_client S) (option Result) :=
  call m (fun r => if negb (ok r) && negb (bool_decide (tolerated = Some (message r))) then done r else k).

Definition connect_first (k : St (sim_client S) (option Result)) : St (sim_client S) (option Result) :=
  must Connect (Some "socket already connected") k.

(** A frame is built and sent. *)
Definition send_built (frame : St protocol_service (option SimClientProtocolFrame)) (failed : string) (k : St (sim_client S) (option Result))
    : St (sim_client S) (option Result) :=
  frame <- on_protocol frame ;;
  match frame with
  | None => done (Failure failed)
  | Some frame => must (plain (SendFrame (frame_message_id frame) (frame_payload frame))) None k
  end.

Definition build_login_failed : string := "failed to build login frame".
Definition build_relogin_failed : string := "failed to build relogin frame".
Definition build_message_failed : string := "failed to build player message frame".
Definition login_frame := ProtocolService.BuildDefaultLoginFrame.

(** The branch of [Run] for a scenario, up to the lock. *)
Definition run_scenario (scenario_name : string) : St (sim_client S) (option Result) :=
  let finished := done Success in
  if String.eqb scenario_name "connect_only" then must Connect None finished
  else if String.eqb scenario_name "login_smoke" then
    connect_first
      (send_built login_frame build_login_failed
      (send_built ProtocolService.BuildHeartbeatFrame "failed to build heartbeat frame" finished))
  else if String.eqb scenario_name "reconnect_after_disconnect" then
    connect_first
      (must (plain (on_protocol ProtocolService.ResetRuntimeState)) None
      (send_built login_frame build_login_failed
      (must Disconnect None
      (must Connect None
      (send_built login_frame build_relogin_failed finished)))))
  else if String.eqb scenario_name "recover_after_kick" then
    must Disconnect (Some "socket is not connected")
      (must Connect None
      (send_built login_frame build_relogin_failed finished))
  else if String.eqb scenario_name "login_then_echo" then
    connect_first
      (send_built login_frame build_login_failed
      (send_built (ProtocolService.BuildEchoFrame "scenario-login-echo") build_message_failed finished))
  else if String.eqb scenario_name "player_echo" then
    connect_first (send_built (ProtocolService.BuildEchoFrame "sim-player-ping") build_message_failed finished)
  else if String.eqb scenario_name "player_rename" then
    connect_first (send_built (ProtocolService.BuildRenameFrame "sim-player-renamed") "failed to build rename player frame" finished)
  else done (Failure "unsupported scenario").

Definition record_run (scenario_name : string) c : sim_client S :=
  c <| scenario := mkSimClientScenarioSnapshot scenario_name (u64 (run_count (scenario c) + 1)) |>.

(** An argument is an account to use. *)
Definition Run (scenario_name argument : string) : St (sim_client S) (option Result) :=
  let rest := must (run_scenario scenario_name) None (fun c => (Some Success, record_run scenario_name c)) in
  if String.eqb argument "" then rest
  else must (plain (on_protocol (ProtocolService.SetAccountId argument))) None rest.
End client.

(** ** Sockets and the reader *)

Module ClientProofs.

(** Where a reader of the socket [fd] may stand. *)
Definition busy (fd : Z) (pc : reader_pc) : Prop :=
  match pc with reader_none | reader_done => False | reader_reads fd' => fd' = fd | _ => True end.

Section sockets.
Context {S : Type} {sk : Sockets S} {sl : SocketsLaw S} {cs : ClientSockets S} {csl : ClientSocketsLaw S}.
Context {codecs : ClientCodecs} {players : PlayerCodecs} {mo : MapOrder Z}.
Variable NowMs : Z.
Variable own : gset Z.
Implicit Types c : sim_client S.

(** The process has the descriptors [own] of others, and the socket of a connection;
    a connection has one reader, and without one the reader has ended. *)
Record client_inv c : Prop := mkClientInv {
  inv_connected : connected (mSnapshot (connection c)) = (0 <=? mSocketFd (connection c));
  inv_fds : open_fds (sockets c) = if 0 <=? mSocketFd (connection c) then {[mSocketFd (connection c)]} ∪ own else own;
  inv_fresh : 0 <= mSocketFd (connection c) -> mSocketFd (connection c) ∉ own;
  inv_reader : if 0 <=? mSocketFd (connection c) then mReaderThread (connection c) = true /\ busy (mSocketFd (connection c)) (reader c)
               else reader c = if mReaderThread (connection c) then reader_done else reader_none
}.

(** While [Disconnect] or [Stop] waits: the reader may go on with the socket [fd],
    which it no longer finds in the service. *)
Record leaving (fd : Z) (fds : gset Z) c : Prop := mkLeaving {
  lv_fd : mSocketFd (connection c) = -1;
  lv_connected : connected (mSnapshot (connection c)) = false;
  lv_joined : mReaderThread (connection c) = false;
  lv_fds : open_fds (sockets c) = fds;
  lv_reader : busy fd (reader c) \/ reader c = reader_done \/ reader c = reader_none
}.

Lemma read_frame_fds fd k :
  open_fds (read_frame fd k).2 = open_fds k /\ (fd ∉ open_fds k -> (read_frame fd k).1 = None).
Proof.
  change (read_frame fd k) with (GateConnectionService.read_message fd k). pose proof (ConnectionProofs.read_message_fds fd k) as Hr.
  by destruct (GateConnectionService.read_message fd k).
Qed.

(** What a step of the reader does to the service and to the sockets. *)
Lemma reader_turn_cases c :
  reader c = reader_leaves \/
  (connected (mSnapshot (connection (reader_turn NowMs c))) = connected (mSnapshot (connection c)) /\
   mSocketFd (connection (reader_turn NowMs c)) = mSocketFd (connection c) /\ mReaderThread (connection (reader_turn NowMs c)) = mReaderThread (connection c) /\
   open_fds (sockets (reader_turn NowMs c)) = open_fds (sockets c) /\
   (reader c = reader_none \/ reader c = reader_done -> reader (reader_turn NowMs c) = reader c) /\
   forall fd, busy fd (reader c) -> mSocketFd (connection c) = fd \/ mSocketFd (connection c) < 0 ->
     busy fd (reader (reader_turn NowMs c)) \/ mSocketFd (connection c) < 0 /\ reader (reader_turn NowMs c) = reader_done).
Proof.
  unfold reader_turn. destruct (reader c) as [| |fd|id payload|id payload| |] eqn:Er; [| | | | |by left|]; right.
  - split_and!; [done..|by rewrite Er|]. intros fd [].
  - cbv zeta. destruct (Z.ltb_spec (mSocketFd (connection c)) 0); simpl; split_and!; try done; [by intros [? | ?]|auto|by intros [? | ?]|].
    intros fd _ [<-|?]; [by left|lia].
  - unfold on_sockets. destruct (read_frame_fds fd (sockets c)) as [E _]. destruct (read_frame fd (sockets c)) as [[[id payload]|] k]; simpl in *;
      (split_and!; [done..|by intros [? | ?]|by left]).
  - simpl. split_and!; [done..|by intros [? | ?]|by left].
  - unfold mMessageHandler, on_protocol. destruct (ProtocolService.HandleFrame id payload (protocol c)). simpl.
    split_and!; [done..|by intros [? | ?]|by left].
  - split_and!; [done..|by rewrite Er|]. intros fd [].
Qed.

Lemma reader_turn_leaves c :
  reader c = reader_leaves ->
  connected (mSnapshot (connection (reader_turn NowMs c))) = false /\ reader (reader_turn NowMs c) = reader_done /\
  mReaderThread (connection (reader_turn NowMs c)) = mReaderThread (connection c) /\
  (if 0 <=? mSocketFd (connection c)
   then mSocketFd (connection (reader_turn NowMs c)) = -1 /\ open_fds (sockets (reader_turn NowMs c)) = open_fds (sockets c) ∖ {[mSocketFd (connection c)]}
   else mSocketFd (connection (reader_turn NowMs c)) = mSocketFd (connection c) /\ open_fds (sockets (reader_turn NowMs c)) = open_fds (sockets c)).
Proof.
  intros Er. unfold reader_turn. rewrite Er. cbv zeta. unfold on_sockets.
  pose proof (close_law (mSocketFd (connection c)) (sockets c)) as Hc. destruct (sock_close (mSocketFd (connection c)) (sockets c)) as [u k] eqn:Ek. simpl in Hc.
  destruct (0 <=? mSocketFd (connection c)); unfold when, ret; [rewrite Ek|]; simpl; auto.
Qed.

Lemma reader_turn_inv c : client_inv c -> client_inv (reader_turn NowMs c).
Proof.
  intros [I1 I2 I3 I4]. destruct (reader_turn_cases c) as [El|(E1 & E2 & E3 & E4 & Hn & Hb)].
  - destruct (reader_turn_leaves c El) as (E1 & E2 & E3 & E4). rewrite El in I4. destruct (Z.leb_spec 0 (mSocketFd (connection c))) as [Hge|Hlt].
    + destruct E4 as [E4 E5], I4 as [Ej _]. split; rewrite ?E1, ?E2, ?E3, ?E4, ?E5; [done| |done|by rewrite Ej].
      rewrite I2. simpl. specialize (I3 Hge). set_solver.
    + by destruct (mReaderThread (connection c)).
  - split; rewrite ?E1, ?E2, ?E3, ?E4; [done..|]. destruct (Z.leb_spec 0 (mSocketFd (connection c))) as [Hge|Hlt].
    + destruct I4 as [Ej I4]. split; [done|]. destruct (Hb _ I4 ltac:(by left)) as [?|[? _]]; [done|lia].
    + rewrite Hn; [done|]. rewrite I4. destruct (mReaderThread (connection c)); auto.
Qed.

Lemma reader_turn_leaving fd fds c : leaving fd fds c -> leaving fd fds (reader_turn NowMs c).
Proof.
  intros [L1 L2 L3 L4 L5]. destruct (reader_turn_cases c) as [El|(E1 & E2 & E3 & E4 & Hn & Hb)].
  - destruct (reader_turn_leaves c El) as (E1 & E2 & E3 & E4). rewrite L1 in E4. destruct E4 as [E4 E5].
    split; [done|done|congruence|congruence|]. right. by left.
  - split; rewrite ?E1, ?E2, ?E3, ?E4; [done..|]. destruct L5 as [L5|L5].
    + destruct (Hb fd L5 ltac:(right; lia)) as [?|[_ ?]]; auto.
    + rewrite Hn by tauto. by right.
Qed.

Lemma turns_inv n c : client_inv c -> client_inv (Nat.iter n (reader_turn NowMs) c).
Proof. intros Hc. induction n as [|n IH]; [done|]. simpl. by apply reader_turn_inv. Qed.

Lemma turns_leaving fd fds n c : leaving fd fds c -> leaving fd fds (Nat.iter n (reader_turn NowMs) c).
Proof. intros Hc. induction n as [|n IH]; [done|]. simpl. by apply reader_turn_leaving. Qed.

Lemma others_inv c : client_inv c -> client_inv (others NowMs c).2.
Proof. intros Hc. unfold others. destruct (schedule c) as [|n rest]; [done|]. apply turns_inv. by destruct Hc. Qed.

Lemma others_leaving fd fds c : leaving fd fds c -> leaving fd fds (others NowMs c).2.
Proof. intros Hc. unfold others. destruct (schedule c) as [|n rest]; [done|]. apply turns_leaving. by destruct Hc. Qed.

(** A reader whose socket is closed ends: so many steps are left. *)
Definition steps_left (pc : reader_pc) : nat :=
  match pc with
  | reader_none | reader_done => 0
  | reader_looks | reader_leaves => 1
  | reader_reads _ | reader_handles _ _ => 2
  | reader_counts _ _ => 3
  end.

Lemma steps_left_turn fd fds c :
  leaving fd fds c -> fd ∉ fds -> (steps_left (reader (reader_turn NowMs c)) <= pred (steps_left (reader c)))%nat.
Proof.
  intros [L1 L2 L3 L4 L5] Hfd. unfold reader_turn. destruct (reader c) as [| |fd'|id payload|id payload| |] eqn:Er; simpl.
  - by rewrite Er.
  - by rewrite L1.
  - destruct L5 as [L5|[?|?]]; [|done..]. simpl in L5. subst fd'. unfold on_sockets. destruct (read_frame_fds fd (sockets c)) as [_ Hn].
    rewrite L4 in Hn. specialize (Hn Hfd). destruct (read_frame fd (sockets c)) as [m k]. simpl in Hn. subst m. simpl. lia.
  - lia.
  - unfold mMessageHandler, on_protocol. by destruct (ProtocolService.HandleFrame id payload (protocol c)).
  - unfold when. destruct (0 <=? mSocketFd (connection c)); [|done]. unfold on_sockets. by destruct (sock_close _ (sockets c)).
  - by rewrite Er.
Qed.

Lemma join_reader_ends n fd fds c :
  leaving fd fds c -> fd ∉ fds -> (steps_left (reader c) <= n)%nat ->
  exists c', join_reader NowMs n c = Some c' /\ leaving fd fds c' /\ reader c' = reader_none.
Proof.
  intros Hl Hfd. revert c Hl. induction n as [|n IH]; intros c Hl Hn.
  - exists (c <| reader := reader_none |>). split; [|split; [|done]].
    + simpl. destruct (reader c); simpl in Hn; (done || lia).
    + destruct Hl as [L1 L2 L3 L4 L5]. split; [done..|]. right. by right.
  - assert (join_reader NowMs (Datatypes.S n) c = match reader c with reader_none | reader_done => Some (c <| reader := reader_none |>)
      | _ => join_reader NowMs n (reader_turn NowMs c) end) as -> by (simpl; by destruct (reader c)).
    pose proof (steps_left_turn fd fds c Hl Hfd) as Hs. pose proof (IH _ (reader_turn_leaving fd fds c Hl)) as Hj.
    destruct (reader c) eqn:Er; try (apply Hj; simpl in *; lia);
      (exists (c <| reader := reader_none |>); split; [done|split; [|done]]; destruct Hl as [L1 L2 L3 L4 L5]; split; [done..|]; right; by right).
Qed.

(** *** Operations that come back and keep the invariant *)

Definition safe {A : Type} (m : St (sim_client S) (option A)) : Prop :=
  forall c, client_inv c -> exists a c', m c = (Some a, c') /\ client_inv c'.

Lemma safe_done {A : Type} (a : A) : safe (done a).
Proof. intros c Hc. by exists a, c. Qed.

Lemma safe_call {A B : Type} (m : St (sim_client S) (option A)) (k : A -> St (sim_client S) (option B)) :
  safe m -> (forall a, safe (k a)) -> safe (call m k).
Proof. intros Hm Hk c Hc. destruct (Hm c Hc) as (a & c' & E & Hc'). unfold call. rewrite E. by apply Hk. Qed.

Lemma safe_plain {A : Type} (m : St (sim_client S) A) : (forall c, client_inv c -> client_inv (m c).2) -> safe (plain m).
Proof. intros Hm c Hc. specialize (Hm c Hc). unfold plain, bind, done, ret. destruct (m c) as [a c']. by exists a, c'. Qed.

Lemma safe_bind {A B : Type} (m : St (sim_client S) A) (k : A -> St (sim_client S) (option B)) :
  (forall c, client_inv c -> client_inv (m c).2) -> (forall a, safe (k a)) -> safe (bind m k).
Proof. intros Hm Hk c Hc. specialize (Hm c Hc). unfold bind. destruct (m c) as [a c']. by apply Hk. Qed.

Lemma on_protocol_inv {A : Type} (m : St protocol_service A) c : client_inv c -> client_inv (on_protocol m c).2.
Proof. intros [I1 I2 I3 I4]. unfold on_protocol. by destruct (m (protocol c)). Qed.

(** What the two ends of a connection have in common: from the lock to the join. *)
Lemma close_and_join_safe {A : Type} fd joinable (result : A) c :
  (if 0 <=? fd then fd ∉ own /\ joinable = true /\ leaving fd ({[fd]} ∪ own) c
   else leaving fd own c /\ reader c = if joinable then reader_done else reader_none) ->
  exists c', close_and_join NowMs fd joinable result c = (Some result, c') /\ client_inv c'.
Proof.
  intros Hc. unfold close_and_join, bind. assert (forall fds c', leaving fd fds c' -> reader c' = reader_none -> fds = own -> client_inv c') as Hend.
  { intros fds c' [L1 L2 L3 L4 _] Hr ->. split; rewrite ?L1; [done..|]. by rewrite L3. }
  destruct (Z.leb_spec 0 fd) as [Hge|Hlt].
  - destruct Hc as (Hfd & -> & Hc). apply others_leaving in Hc. destruct (others NowMs c) as [[] c1]. simpl in Hc.
    unfold when, on_sockets. pose proof (close_law fd (sockets c1)) as Hk. destruct (sock_close fd (sockets c1)) as [[] k]. simpl in Hk.
    unfold call, join. destruct (join_reader_ends 4 fd own (c1 <| sockets := k |>)) as (c' & -> & Hl & Hr); [|done|simpl; destruct (reader c1); simpl; lia|].
    + destruct Hc as [L1 L2 L3 L4 L5]. split; [done..| |done]. simpl. rewrite Hk, L4. set_solver.
    + exists c'. split; [done|]. by apply (Hend own).
  - destruct Hc as [Hl Hr]. assert (forall n c', leaving fd own c' -> reader c' = (if joinable then reader_done else reader_none) ->
      leaving fd own (Nat.iter n (reader_turn NowMs) c') /\ reader (Nat.iter n (reader_turn NowMs) c') = if joinable then reader_done else reader_none) as Hn.
    { intros n c' L Er. split; [by apply turns_leaving|]. induction n as [|n IH]; [done|]. simpl. unfold reader_turn at 1. rewrite IH. by destruct joinable. }
    assert (leaving fd own (others NowMs c).2 /\ reader (others NowMs c).2 = if joinable then reader_done else reader_none) as [Hl1 Hr1].
    { unfold others. destruct (schedule c) as [|n rest]; [done|]. apply Hn; [by destruct Hl|done]. }
    destruct (others NowMs c) as [[] c1]. simpl in Hl1, Hr1. unfold when, ret, call, join. destruct joinable.
    + cbn [join_reader]. rewrite Hr1. eexists. split; [done|]. apply (Hend own); [|done|done]. destruct Hl1 as [L1 L2 L3 L4 L5].
      split; [done..|]. right. by right.
    + exists c1. split; [done|]. by apply (Hend own).
Qed.

(** The service forgets its socket. *)
Lemma forget_socket (f : SimClientConnectionSnapshot -> SimClientConnectionSnapshot) c :
  (forall s, connected (f s) = false) -> client_inv c ->
  let fd := mSocketFd (connection c) in let joinable := mReaderThread (connection c) in
  let c1 := set_snapshot f (set_connection (fun s => s <| mSocketFd := -1 |> <| mReaderThread := false |>) c) in
  if 0 <=? fd then fd ∉ own /\ joinable = true /\ leaving fd ({[fd]} ∪ own) c1
  else leaving fd own c1 /\ reader c1 = if joinable then reader_done else reader_none.
Proof.
  intros Hf [I1 I2 I3 I4]. cbv zeta. destruct (Z.leb_spec 0 (mSocketFd (connection c))) as [Hge|Hlt].
  - destruct I4 as [Ej Hb]. split; [by apply I3|]. split; [done|]. split; [done|apply Hf|done|done|by left].
  - split; [|done]. split; [done|apply Hf|done|done|]. simpl. rewrite I4. destruct (mReaderThread (connection c)); auto.
Qed.

Lemma Stop_safe : safe (Stop NowMs).
Proof.
  intros c Hc. apply others_inv in Hc. unfold Stop, bind at 1. destruct (others NowMs c) as [[] c1]. simpl in Hc.
  destruct (close_and_join_safe _ _ tt _ (forget_socket (fun n => n <| connected := false |>) c1 ltac:(done) Hc)) as (c2 & E & Hc2).
  by exists tt, c2.
Qed.

Lemma Disconnect_safe : safe (Disconnect NowMs).
Proof.
  intros c Hc. apply others_inv in Hc. unfold Disconnect, bind at 1. destruct (others NowMs c) as [[] c1]. simpl in Hc. cbv zeta.
  destruct (mSocketFd (connection c1) <? 0); [by eexists _, c1|].
  destruct (close_and_join_safe _ _ Success _ (forget_socket (count_disconnect NowMs) c1 ltac:(done) Hc)) as (c2 & E & Hc2).
  by exists Success, c2.
Qed.

Lemma open_socket_inv c :
  client_inv c -> mSocketFd (connection c) < 0 -> reader c = reader_none -> mReaderThread (connection c) = false ->
  client_inv (open_socket NowMs c).2.
Proof.
  intros Hc Hfd Hr Hj. assert (open_fds (sockets c) = own) as Ho by (rewrite (inv_fds _ Hc); by replace (0 <=? mSocketFd (connection c)) with false by lia).
  assert (forall k, open_fds k = own -> client_inv (c <| sockets := k |>)) as Hk.
  { intros k Ek. destruct Hc as [I1 I2 I3 I4]. split; simpl; [done| |done..]. rewrite Ek. by replace (0 <=? mSocketFd (connection c)) with false by lia. }
  unfold open_socket. cbv zeta. unfold on_sockets at 1. pose proof (socket_law (sockets c)) as Hs. destruct (sock_socket (sockets c)) as [fd k].
  destruct (Z.leb_spec 0 fd) as [Hge|Hlt]; [replace (fd <? 0) with false by lia|replace (fd <? 0) with true by lia; apply Hk; congruence].
  destruct Hs as [Hnew Hs]. assert (forall k', open_fds k' = open_fds k -> open_fds (sock_close fd k').2 = own) as Hclose.
  { intros k' Ek. rewrite close_law, Ek, Hs, Ho. set_solver. }
  destruct (negb (inet_pton (snap_host (mSnapshot (connection c))))).
  { unfold on_sockets. specialize (Hclose k eq_refl). simpl. destruct (sock_close fd k) as [[] k1]. by apply Hk. }
  unfold on_sockets. simpl. pose proof (connect_law fd (snap_host (mSnapshot (connection c))) (u16 (snap_port (mSnapshot (connection c)))) k) as Hco.
  destruct (sock_connect _ _ _ k) as [[] k1]; simpl in *.
  - replace (0 <=? fd) with true by lia. split; simpl; [lia| |by rewrite <- Ho|]; replace (0 <=? fd) with true by lia; [congruence|done].
  - specialize (Hclose k1 Hco). destruct (sock_close fd k1) as [[] k2]. by apply Hk.
Qed.

Lemma Connect_safe : safe (Connect NowMs).
Proof.
  intros c Hc. apply others_inv in Hc. unfold Connect, bind at 1. destruct (others NowMs c) as [[] c1]. simpl in Hc. cbv zeta.
  set (c2 := set_snapshot _ c1). assert (client_inv c2) as Hc2 by (by destruct Hc). clearbody c2. clear c1 Hc.
  destruct (Z.leb_spec 0 (mSocketFd (connection c2))) as [Hge|Hlt]; [by eexists _, c2|].
  set (stale := mReaderThread (connection c2)). set (c3 := set_connection _ c2).
  assert (exists c4, join NowMs stale c3 = (Some tt, c4) /\ client_inv c4 /\ connection c4 = connection c3 /\ reader c4 = reader_none) as (c4 & E & Hc4 & Ec & Er).
  { destruct Hc2 as [I1 I2 I3 I4]. replace (0 <=? mSocketFd (connection c2)) with false in I1, I2, I4 by lia. unfold join, stale.
    assert (forall r, r = reader_none -> client_inv (c3 <| reader := r |>)) as Hn
      by (intros r ->; split; simpl; replace (0 <=? mSocketFd (connection c2)) with false by lia; [done..|lia|done]).
    destruct (mReaderThread (connection c2)).
    - cbn [join_reader]. change (reader c3) with (reader c2). rewrite I4. eexists. split; [done|]. split; [by apply Hn|done].
    - exists c3. split; [done|]. split; [|by split]. specialize (Hn (reader c3) I4). by destruct Hn. }
  unfold call. rewrite E. assert (client_inv (open_socket NowMs c4).2) as Ho by (apply open_socket_inv; [done|by rewrite Ec|done|by rewrite Ec]).
  unfold plain, bind, done, ret. destruct (open_socket NowMs c4) as [r c5]. by exists r, c5.
Qed.

Lemma on_sockets_inv {A : Type} (m : St S A) c : open_fds (m (sockets c)).2 = open_fds (sockets c) -> client_inv c -> client_inv (on_sockets m c).2.
Proof. intros Hm [I1 I2 I3 I4]. unfold on_sockets. destruct (m (sockets c)) as [a k]. simpl in Hm. split; simpl; [done|by rewrite Hm|done..]. Qed.

Lemma SendFrame_inv id payload c : client_inv c -> client_inv (SendFrame NowMs id payload c).2.
Proof.
  intros Hc. apply others_inv in Hc. unfold SendFrame, bind. destruct (others NowMs c) as [[] c1]. simpl in Hc. cbv zeta.
  assert (forall bytes c, client_inv c -> client_inv (on_sockets (WriteExact (mSocketFd (connection c1)) bytes) c).2) as Hw
    by (intros bytes c0; apply on_sockets_inv, ConnectionProofs.WriteExact_loop_fds).
  destruct (mSocketFd (connection c1) <? 0); [done|]. specialize (Hw (gate_header_bytes id payload) c1 Hc) as H1.
  destruct (on_sockets _ c1) as [[] c2]; [|done]. cbn [negb]. simpl in H1. destruct payload as [|b payload]; [by destruct H1|].
  specialize (Hw (b :: payload) c2 H1). destruct (on_sockets _ c2) as [[] c3]; [|done]. by destruct Hw.
Qed.

Lemma safe_must m tolerated k : safe m -> safe k -> safe (must m tolerated k).
Proof. intros Hm Hk. apply safe_call; [done|]. intros r. by destruct (_ && _); [apply safe_done|]. Qed.

Lemma safe_send id payload : safe (plain (SendFrame NowMs id payload)).
Proof. apply safe_plain. intros c. apply SendFrame_inv. Qed.

Lemma safe_send_built frame failed k : safe k -> safe (send_built NowMs frame failed k).
Proof.
  intros Hk. apply safe_bind; [intros c; apply on_protocol_inv|]. intros [f|]; [|apply safe_done]. apply safe_must; [apply safe_send|done].
Qed.

Lemma safe_on_protocol {A : Type} (m : St protocol_service A) : safe (plain (on_protocol m)).
Proof. apply safe_plain. intros c. apply on_protocol_inv. Qed.

End sockets.

#[export] Hint Resolve safe_done safe_must safe_send safe_send_built safe_on_protocol Connect_safe Disconnect_safe Stop_safe : client.

Section scenarios.
Context {S : Type} {sk : Sockets S} {sl : SocketsLaw S} {cs : ClientSockets S} {csl : ClientSocketsLaw S}.
Context {codecs : ClientCodecs} {players : PlayerCodecs} {mo : MapOrder Z}.
Variable NowMs : Z.
Variable own : gset Z.

Lemma run_scenario_safe name : safe own (run_scenario NowMs name).
Proof.
  unfold run_scenario, connect_first. cbv zeta. repeat (case_match; [eauto 20 with client|]). eauto with client.
Qed.

Lemma Run_safe name argument : safe own (Run NowMs name argument).
Proof.
  unfold Run. cbv zeta. assert (safe own (must (run_scenario NowMs name) None (fun c => (Some Success, record_run name c)))) as Hr.
  { apply safe_must; [apply run_scenario_safe|]. intros c Hc. exists Success, (record_run name c). split; [done|]. by destruct Hc. }
  destruct (String.eqb argument ""); eauto with client.
Qed.
End scenarios.

(** *** Counting what is sent *)

Definition sent {S} (c : sim_client S) : Z := sent_frame_count (mSnapshot (connection c)).
Definition untouched {S} (c c' : sim_client S) : Prop := sent c' = sent c /\ scenario c' = scenario c.

Section counting.
Context {S : Type} {sk : Sockets S} {cs : ClientSockets S} {codecs : ClientCodecs} {players : PlayerCodecs} {mo : MapOrder Z}.
Variable NowMs : Z.
Implicit Types c : sim_client S.

Lemma counts_trans c1 c2 c3 : untouched c1 c2 -> untouched c2 c3 -> untouched c1 c3.
Proof. unfold untouched. intuition congruence. Qed.

Lemma on_protocol_untouched {A : Type} (m : St protocol_service A) c : untouched c (on_protocol m c).2.
Proof. unfold on_protocol. by destruct (m (protocol c)). Qed.

Lemma on_sockets_untouched {A : Type} (m : St S A) c : untouched c (on_sockets m c).2.
Proof. unfold on_sockets. by destruct (m (sockets c)). Qed.

Lemma reader_turn_untouched c : untouched c (reader_turn NowMs c).
Proof.
  unfold reader_turn. destruct (reader c) as [| |fd|id payload|id payload| |]; try done; cbv zeta.
  - pose proof (on_sockets_untouched (read_frame fd) c) as Hu. by destruct (on_sockets (read_frame fd) c).
  - unfold mMessageHandler. apply (on_protocol_untouched (ProtocolService.HandleFrame id payload) c).
  - unfold when. destruct (0 <=? _); [|done]. pose proof (on_sockets_untouched (sock_close (mSocketFd (connection c))) c) as Hu.
    by destruct (on_sockets (sock_close _) c).
Qed.

Lemma others_untouched c : untouched c (others NowMs c).2.
Proof.
  unfold others. destruct (schedule c) as [|n rest]; [done|]. apply (counts_trans _ (c <| schedule := rest |>)); [done|].
  generalize (c <| schedule := rest |>). intros c0. induction n as [|n IH]; [done|]. eapply counts_trans; [exact IH|]. apply reader_turn_untouched.
Qed.

Lemma join_reader_untouched n c c' : join_reader NowMs n c = Some c' -> untouched c c'.
Proof.
  revert c. induction n as [|n IH]; intros c; simpl; destruct (reader c); try done; try (by intros [= <-]);
    intros Hj; apply IH in Hj; (eapply counts_trans; [apply reader_turn_untouched|exact Hj]).
Qed.

Lemma join_untouched joinable c : untouched c (join NowMs joinable c).2.
Proof.
  unfold join. destruct joinable; [|done]. destruct (join_reader NowMs 4 c) as [c'|] eqn:E; [|done]. by eapply join_reader_untouched.
Qed.

Lemma close_and_join_untouched {A : Type} fd joinable (result : A) c : untouched c (close_and_join NowMs fd joinable result c).2.
Proof.
  unfold close_and_join, bind. pose proof (others_untouched c) as H1. destruct (others NowMs c) as [[] c1]. simpl in H1.
  assert (untouched c1 (when (0 <=? fd) (on_sockets (sock_close fd)) c1).2) as H2
    by (unfold when; destruct (0 <=? fd); [apply on_sockets_untouched|done]).
  destruct (when _ _ c1) as [[] c2]. simpl in H2. unfold call. pose proof (join_untouched joinable c2) as H3.
  destruct (join NowMs joinable c2) as [[[]|] c3]; simpl in *; (eapply counts_trans; [exact H1|]; eapply counts_trans; [exact H2|exact H3]).
Qed.

Lemma open_socket_untouched c : untouched c (open_socket NowMs c).2.
Proof.
  unfold open_socket. cbv zeta. pose proof (on_sockets_untouched sock_socket c) as H1. destruct (on_sockets sock_socket c) as [fd c1]. simpl in H1.
  destruct (fd <? 0); [done|]. destruct (negb _).
  - pose proof (on_sockets_untouched (sock_close fd) c1) as H2. destruct (on_sockets _ c1) as [[] c2]. by apply (counts_trans _ c1).
  - pose proof (on_sockets_untouched (sock_connect fd (snap_host (mSnapshot (connection c))) (u16 (snap_port (mSnapshot (connection c))))) c1) as H2.
    destruct (on_sockets (sock_connect _ _ _) c1) as [[] c2]; simpl in *; [by apply (counts_trans _ c1)|].
    pose proof (on_sockets_untouched (sock_close fd) c2) as H3. destruct (on_sockets _ c2) as [[] c3].
    by apply (counts_trans _ c1), (counts_trans _ c2).
Qed.

Lemma Connect_untouched c : untouched c (Connect NowMs c).2.
Proof.
  unfold Connect, bind. pose proof (others_untouched c) as H1. destruct (others NowMs c) as [[] c1]. simpl in H1. cbv zeta.
  apply (counts_trans _ c1); [done|]. destruct (0 <=? _); [done|]. set (c2 := set_connection _ _).
  assert (untouched c1 c2) as H2 by done. clearbody c2. unfold call, plain, bind, done, ret.
  pose proof (join_untouched (mReaderThread (connection (set_snapshot (fun n => n <| connect_attempts := u64 (connect_attempts n + 1) |>) c1))) c2) as H3.
  destruct (join _ _ c2) as [[[]|] c3]; simpl in *; [|by apply (counts_trans _ c2)].
  pose proof (open_socket_untouched c3) as H4. destruct (open_socket NowMs c3) as [r c4].
  by apply (counts_trans _ c2), (counts_trans _ c3).
Qed.

Lemma Disconnect_untouched c : untouched c (Disconnect NowMs c).2.
Proof.
  unfold Disconnect, bind. pose proof (others_untouched c) as H1. destruct (others NowMs c) as [[] c1]. simpl in H1. cbv zeta.
  destruct (_ <? 0); [done|]. apply (counts_trans _ c1); [done|]. eapply counts_trans; [|apply close_and_join_untouched]. done.
Qed.

(** *** How many frames an operation sends when it succeeds *)

Definition sends (n : Z) (m : St (sim_client S) (option Result)) : Prop :=
  forall c r c', m c = (Some r, c') -> scenario c' = scenario c /\ (ok r = true -> u64 (sent c') = u64 (sent c + n)).
Definition sends_nothing (m : St (sim_client S) (option Result)) : Prop := forall c, untouched c (m c).2.

Lemma sends_done r : sends 0 (done r).
Proof. intros c r' c' [= <- <-]. by rewrite Z.add_0_r. Qed.

Lemma sends_must n n' m tolerated k : sends n m -> (tolerated = None \/ sends_nothing m /\ n = 0) -> sends n' k -> sends (n + n') (must m tolerated k).
Proof.
  intros Hm Ht Hk c r c'. unfold must, call. destruct (m c) as [[r1|] c1] eqn:E1; [|done]. destruct (Hm c r1 c1 E1) as [Hs Ho].
  destruct (negb (ok r1) && negb (bool_decide (tolerated = Some (message r1)))) eqn:Er.
  { intros [= <- <-]. split; [done|]. intros Eo. by rewrite Eo in Er. }
  intros E2. destruct (Hk c1 r c' E2) as [Hs' Ho']. split; [congruence|]. intros Hr. rewrite (Ho' Hr).
  assert (u64 (sent c1) = u64 (sent c + n)) as E.
  { destruct Ht as [->|[Hn ->]]; [apply Ho; by destruct (ok r1)|]. specialize (Hn c). rewrite E1 in Hn. destruct Hn as [Hn _]. simpl in Hn. by rewrite Hn, Z.add_0_r. }
  unfold u64 in *. rewrite <- Zplus_mod_idemp_l, E, Zplus_mod_idemp_l. f_equal. lia.
Qed.

Lemma sends_nothing_0 m : sends_nothing m -> sends 0 m.
Proof. intros Hm c r c' E. specialize (Hm c). rewrite E in Hm. destruct Hm as [Hs Hc]. simpl in *. by rewrite Hs, Z.add_0_r. Qed.

Lemma SendFrame_sends id payload : sends 1 (plain (SendFrame NowMs id payload)).
Proof.
  intros c r c'. unfold plain, SendFrame, bind, done, ret. pose proof (others_untouched c) as [H1 H1']. destruct (others NowMs c) as [[] c1]. simpl in H1, H1'.
  cbv zeta. destruct (_ <? 0); [by intros [= <- <-]|].
  pose proof (on_sockets_untouched (WriteExact (mSocketFd (connection c1)) (gate_header_bytes id payload)) c1) as [H2 H2'].
  destruct (on_sockets _ c1) as [[] c2]; simpl in H2, H2'; cbn [negb]; [|intros [= <- <-]; split; [congruence|done]].
  assert (untouched c2 (match payload with [] => (true, c2) | _ => on_sockets (WriteExact (mSocketFd (connection c1)) payload) c2 end).2) as [H3 H3']
    by (destruct payload; [done|apply on_sockets_untouched]).
  destruct (match payload with [] => _ | _ => _ end) as [[] c3]; simpl in H3, H3'; cbn [negb]; intros [= <- <-]; (split; [simpl; congruence|]); [|done].
  intros _. unfold sent in *. simpl. unfold u64. rewrite Zmod_mod. congruence.
Qed.

Lemma sends_built n frame failed k : sends n k -> sends (1 + n) (send_built NowMs frame failed k).
Proof.
  intros Hk c r c'. unfold send_built, bind. pose proof (on_protocol_untouched frame c) as [H1 H1']. destruct (on_protocol frame c) as [[f|] c1]; simpl in H1, H1'.
  - rewrite <- H1, <- H1'. apply sends_must; [apply SendFrame_sends|by left|done].
  - intros [= <- <-]. by split.
Qed.

Lemma sends_connect n k : sends n k -> sends (0 + n) (connect_first NowMs k).
Proof.
  intros Hk. assert (sends_nothing (Connect NowMs)) as Hc by exact Connect_untouched.
  apply sends_must; [by apply sends_nothing_0|by right|done].
Qed.

(** The frames of a scenario. *)
Definition scenario_frames : list (string * Z) :=
  [("connect_only", 0); ("login_smoke", 2); ("reconnect_after_disconnect", 2); ("recover_after_kick", 1); ("login_then_echo", 2);
   ("player_echo", 1); ("player_rename", 1)].

Lemma run_scenario_sends name n : (name, n) ∈ scenario_frames -> sends n (run_scenario NowMs name).
Proof.
  assert (sends_nothing (Connect NowMs)) as Hc by exact Connect_untouched.
  assert (sends_nothing (Disconnect NowMs)) as Hd by exact Disconnect_untouched.
  assert (sends 0 (plain (on_protocol ProtocolService.ResetRuntimeState))) as Hp.
  { apply sends_nothing_0. intros c. apply (on_protocol_untouched ProtocolService.ResetRuntimeState c). }
  apply sends_nothing_0 in Hc as Hc0. apply sends_nothing_0 in Hd as Hd0.
  unfold scenario_frames. rewrite !elem_of_cons, elem_of_nil. intros Hn. unfold run_scenario. cbv zeta.
  destruct Hn as [[= -> ->]|[[= -> ->]|[[= -> ->]|[[= -> ->]|[[= -> ->]|[[= -> ->]|[[= -> ->]|[]]]]]]]]; cbn [String.eqb Ascii.eqb Bool.eqb].
  - apply (sends_must 0 0); auto using sends_done.
  - apply (sends_connect 2), (sends_built 1), (sends_built 0), sends_done.
  - apply (sends_connect 2), (sends_must 0 2); [done|by left|]. apply (sends_built 1), (sends_must 0 1); [done|by left|].
    apply (sends_must 0 1); [done|by left|]. apply (sends_built 0), sends_done.
  - apply (sends_must 0 1); [done|by right|]. apply (sends_must 0 1); [done|by left|]. apply (sends_built 0), sends_done.
  - apply (sends_connect 2), (sends_built 1), (sends_built 0), sends_done.
  - apply (sends_connect 1), (sends_built 0), sends_done.
  - apply (sends_connect 1), (sends_built 0), sends_done.
Qed.

Lemma run_scenario_unsupported name : name ∉ scenario_frames.*1 -> run_scenario NowMs name = done (Failure "unsupported scenario").
Proof.
  unfold scenario_frames. cbn [fmap list_fmap fst]. rewrite !not_elem_of_cons. intros (? & ? & ? & ? & ? & ? & ? & _). unfold run_scenario.
  cbv zeta. by rewrite !(proj2 (String.eqb_neq name _)).
Qed.
End counting.
End ClientProofs.

(** ** Properties *)

Section properties.
Import ClientProofs.
Context {S : Type} {sk : Sockets S} {cs : ClientSockets S} {codecs : ClientCodecs} {players : PlayerCodecs} {mo : MapOrder Z}.
Variable NowMs : Z.
Implicit Types c : sim_client S.

(** A scenario that succeeds has sent exactly its frames, is one of the seven, and
    is recorded; one that fails is not recorded, whatever the reader does meanwhile. *)
Theorem scenario_counts scenario_name argument c r c' :
  Run NowMs scenario_name argument c = (Some r, c') ->
  if ok r
  then exists n, (scenario_name, n) ∈ scenario_frames /\ u64 (sent c') = u64 (sent c + n) /\
       scenario c' = mkSimClientScenarioSnapshot scenario_name (u64 (run_count (scenario c) + 1))
  else scenario c' = scenario c.
Proof.
  assert (forall c r c', must (run_scenario NowMs scenario_name) None (fun c => (Some Success, record_run scenario_name c)) c = (Some r, c') ->
    if ok r then exists n, (scenario_name, n) ∈ scenario_frames /\ u64 (sent c') = u64 (sent c + n) /\
       scenario c' = mkSimClientScenarioSnapshot scenario_name (u64 (run_count (scenario c) + 1))
    else scenario c' = scenario c) as Hrun.
  { intros c0 r0 c0'. unfold must, call. destruct (run_scenario NowMs scenario_name c0) as [[r1|] c1] eqn:E1; [|done].
    destruct (decide (scenario_name ∈ scenario_frames.*1)) as [Hin|Hout].
    - apply list_elem_of_fmap in Hin as ([name n] & E & Hin). simpl in E. subst name.
      destruct (run_scenario_sends NowMs scenario_name n Hin c0 r1 c1 E1) as [Hs Ho]. destruct (ok r1) eqn:Er; cbn [negb andb bool_decide].
      + intros [= <- <-]. simpl. exists n. split; [done|]. by rewrite Hs, <- Ho.
      + rewrite bool_decide_eq_false_2 by done. intros [= <- <-]. by rewrite Er.
    - rewrite run_scenario_unsupported in E1 by done. injection E1 as <- <-. by intros [= <- <-]. }
  unfold Run. cbv zeta. destruct (String.eqb argument ""); [apply Hrun|]. unfold must at 1, call, plain, bind, done, ret.
  pose proof (on_protocol_untouched (ProtocolService.SetAccountId argument) c) as [H1 H1'].
  destruct (on_protocol (ProtocolService.SetAccountId argument) c) as [r1 c1]. simpl in H1, H1'.
  destruct (_ && _) eqn:Er; [|rewrite <- H1, <- H1'; apply Hrun]. intros [= <- <-]. apply andb_true_iff in Er as [Er _].
  destruct (ok r1); [done|exact H1'].
Qed.
End properties.

(** ** What the gate reads of a client *)

Inductive client_request : Type := asks_login | asks_heartbeat | asks_echo (text : string) | asks_rename (display_name : string).

Section understanding.
Import ClientProofs.
Context {S : Type} {sk : Sockets S} {st : StreamLaw S} {cs : ClientSockets S} {codecs : ClientCodecs} {players : PlayerCodecs} {mo : MapOrder Z}.
Context (fits_login : LoginRequest -> Prop) (fits_heartbeat : HeartbeatRequest -> Prop) (fits_message : PlayerMessageRequest -> Prop).
Context (fits_echo : PlayerEchoRequest -> Prop) (fits_rename : RenamePlayerRequest -> Prop).
Context {login_law : MessageCodecLaw LoginRequest fits_login} {heartbeat_law : MessageCodecLaw HeartbeatRequest fits_heartbeat}.
Context {message_law : MessageCodecLaw PlayerMessageRequest fits_message}.
Context {echo_law : MessageCodecLaw PlayerEchoRequest fits_echo} {rename_law : MessageCodecLaw RenamePlayerRequest fits_rename}.
Variable NowMs : Z.
Implicit Types (c : sim_client S) (s : protocol_service) (request : client_request).

Definition frame_of request : St protocol_service (option SimClientProtocolFrame) :=
  match request with
  | asks_login => ProtocolService.BuildDefaultLoginFrame
  | asks_heartbeat => ProtocolService.BuildHeartbeatFrame
  | asks_echo text => ProtocolService.BuildEchoFrame text
  | asks_rename display_name => ProtocolService.BuildRenameFrame display_name
  end.

(** A message of a player within its frame. *)
Definition player_message {M : Type} `{MessageCodec M} (message_id : Z) (m : M) (frame_id : Z) (payload : ByteBuffer) : Prop :=
  frame_id = MESSAGE_ID_PLAYER_MESSAGE_REQUEST /\
  exists message : PlayerMessageRequest, ParseMessage payload = Some message /\ qh_message_id (mq_header message) = message_id /\
    ParseMessage (mq_payload message) = Some m.

(** What a frame says to one who reads it with the same generated code. *)
Definition says s request (frame_id : Z) (payload : ByteBuffer) : Prop :=
  match request with
  | asks_login => frame_id = MESSAGE_ID_LOGIN_REQUEST /\ ParseMessage payload = Some (ProtocolService.login_request (mConfiguration s))
  | asks_heartbeat => frame_id = MESSAGE_ID_HEARTBEAT_REQUEST /\ ParseMessage payload = Some ProtocolService.heartbeat_request
  | asks_echo text => player_message MESSAGE_ID_PLAYER_ECHO_REQUEST (mkPlayerEchoRequest text) frame_id payload
  | asks_rename display_name => player_message MESSAGE_ID_PLAYER_RENAME_REQUEST (mkRenamePlayerRequest display_name) frame_id payload
  end.

(** The messages of a request are not too long for the generated code. *)
Definition fits_player {M : Type} `{MessageCodec M} (fits : M -> Prop) (message_id : Z) (m : M) : Prop :=
  fits m /\ forall inner, SerializeMessage m = Some inner -> fits_message (mkPlayerMessageRequest (mkRequestHeader message_id 3 3) inner).
Definition fits_request s request : Prop :=
  match request with
  | asks_login => fits_login (ProtocolService.login_request (mConfiguration s))
  | asks_heartbeat => fits_heartbeat ProtocolService.heartbeat_request
  | asks_echo text => fits_player fits_echo MESSAGE_ID_PLAYER_ECHO_REQUEST (mkPlayerEchoRequest text)
  | asks_rename display_name => fits_player fits_rename MESSAGE_ID_PLAYER_RENAME_REQUEST (mkRenamePlayerRequest display_name)
  end.

Lemma player_frame_says {M : Type} `{MessageCodec M} (fits : M -> Prop) `{!MessageCodecLaw M fits} message_id (m : M) :
  fits_player fits message_id m ->
  exists frame, ProtocolService.BuildTypedPlayerFrame message_id m = Some frame /\
    player_message message_id m (frame_message_id frame) (frame_payload frame).
Proof.
  intros [Hm Hf]. destruct (parse_serialized m Hm) as (inner & Ei & Ep). unfold ProtocolService.BuildTypedPlayerFrame. rewrite Ei.
  destruct (parse_serialized _ (Hf inner Ei)) as (payload & -> & Eq). eexists. split; [done|]. split; [done|]. by eexists.
Qed.

(** A request that fits is built, and its frame says what was asked. *)
Lemma frame_of_says s request :
  fits_request s request -> exists frame s', frame_of request s = (Some frame, s') /\ says s request (frame_message_id frame) (frame_payload frame).
Proof.
  destruct request as [| |text|display_name]; intros Hf; simpl in Hf |- *.
  - destruct (parse_serialized _ Hf) as (bytes & Es & Ep). unfold ProtocolService.BuildDefaultLoginFrame, ProtocolService.build, ProtocolService.EncodeDefaultLogin, ProtocolService.encode.
    rewrite Es. simpl. rewrite Es. by eexists _, _.
  - destruct (parse_serialized _ Hf) as (bytes & Es & Ep). unfold ProtocolService.BuildHeartbeatFrame, ProtocolService.build, ProtocolService.EncodeHeartbeat, ProtocolService.encode.
    rewrite Es. simpl. by eexists _, _.
  - destruct (player_frame_says fits_echo _ _ Hf) as (frame & Ef & Hs). unfold ProtocolService.BuildEchoFrame, ProtocolService.build, ProtocolService.EncodeEchoRequest,
      ProtocolService.encode_player_frame, ProtocolService.encode, ProtocolService.echo_frame. rewrite Ef. simpl. by eexists _, _.
  - destruct (player_frame_says fits_rename _ _ Hf) as (frame & Ef & Hs). unfold ProtocolService.BuildRenameFrame, ProtocolService.build, ProtocolService.EncodeRenameRequest,
      ProtocolService.encode_player_frame, ProtocolService.encode, ProtocolService.rename_frame. rewrite Ef. simpl. by eexists _, _.
Qed.

Lemma on_sockets_write fd bytes c :
  let '(sent, c') := on_sockets (WriteExact fd bytes) c in sent = true -> outgoing (sockets c') fd = outgoing (sockets c) fd ++ bytes.
Proof.
  unfold on_sockets. pose proof (ConnectionProofs.WriteExact_loop_bytes (length bytes) fd bytes (sockets c)) as Hw.
  change (WriteExact fd bytes (sockets c)) with (GateConnectionService.WriteExact_loop (length bytes) fd bytes (sockets c)).
  by destruct (GateConnectionService.WriteExact_loop _ _ _ _).
Qed.

Lemma SendFrame_bytes id payload c :
  let c1 := (others NowMs c).2 in let fd := mSocketFd (connection c1) in
  let '(r, c') := SendFrame NowMs id payload c in
  ok r = true -> outgoing (sockets c') fd = outgoing (sockets c1) fd ++ gate_header_bytes id payload ++ payload.
Proof.
  unfold SendFrame, bind. destruct (others NowMs c) as [[] c1]. cbv zeta. cbn [snd].
  destruct (mSocketFd (connection c1) <? 0); [done|].
  pose proof (on_sockets_write (mSocketFd (connection c1)) (gate_header_bytes id payload) c1) as H1. destruct (on_sockets _ c1) as [[] c2]; [|done].
  specialize (H1 eq_refl). cbn [negb]. destruct payload as [|b payload]; [intros _; by rewrite app_nil_r|].
  pose proof (on_sockets_write (mSocketFd (connection c1)) (b :: payload) c2) as H2. destruct (on_sockets _ c2) as [[] c3]; [|done].
  specialize (H2 eq_refl). cbn [negb]. intros _. simpl sockets. by rewrite H2, H1, <- app_assoc.
Qed.

(** C36: what a client asks for is what the gate gets: the frame of a login, a heartbeat
    or a message of the player is built, and once it has been sent without an error,
    the gate reads it from its socket, in whatever pieces the bytes arrive, with the
    account that is configured, the text or the name, and reads nothing past it. *)
Theorem client_requests_understood s request c :
  fits_request s request ->
  exists frame s', frame_of request s = (Some frame, s') /\
    (in_u32 (Z.of_nat (length (frame_payload frame))) ->
     let c1 := (others NowMs c).2 in let fd := mSocketFd (connection c1) in
     let '(r, c') := SendFrame NowMs (frame_message_id frame) (frame_payload frame) c in
     ok r = true ->
     exists bytes, outgoing (sockets c') fd = outgoing (sockets c1) fd ++ bytes /\
       forall k socket_fd rest, healthy (incoming k socket_fd) -> concat (incoming k socket_fd) = bytes ++ rest ->
         let '(message, k') := GateConnectionService.read_message socket_fd k in
         (exists id payload, message = Some (id, payload) /\ says s request id payload) /\ concat (incoming k' socket_fd) = rest).
Proof.
  intros Hf. destruct (frame_of_says s request Hf) as (frame & s' & Ef & Hs). exists frame, s'. split; [done|]. intros Hlen. cbv zeta.
  pose proof (SendFrame_bytes (frame_message_id frame) (frame_payload frame) c) as Hb. cbv zeta in Hb.
  destruct (SendFrame NowMs _ _ c) as [r c']. intros Hok. eexists. split; [by apply Hb|]. intros k socket_fd rest Hh Hc. rewrite <- app_assoc in Hc.
  assert (in_u32 (frame_message_id frame)) as Hid.
  { destruct request; simpl in Hs; destruct Hs as [-> _]; by split. }
  pose proof (ConnectionProofs.read_message_spec socket_fd _ _ rest k Hid Hlen Hh Hc) as Hr.
  destruct (GateConnectionService.read_message socket_fd k) as [message k']. destruct Hr as (-> & Hrest & _). split; [|done]. by eexists _, _.
Qed.
End understanding.

(** ** What the client shows of the gate's answers *)

Section answers.
Import ClientProofs.
Context {S : Type} {sk : Sockets S} {st : StreamLaw S} {cs : ClientSockets S} {codecs : ClientCodecs} {players : PlayerCodecs} {mo : MapOrder Z}.
Variable NowMs : Z.
Implicit Types c : sim_client S.

(** A frame that has arrived is handled in three steps of the reader. *)
Lemma reader_handles_frame fd id payload rest c :
  reader c = reader_reads fd -> in_u32 id -> in_u32 (Z.of_nat (length payload)) -> healthy (incoming (sockets c) fd) ->
  concat (incoming (sockets c) fd) = gate_header_bytes id payload ++ payload ++ rest ->
  let c' := Nat.iter 3 (reader_turn NowMs) c in
  protocol c' = (ProtocolService.HandleFrame id payload (protocol c)).2 /\ reader c' = reader_looks /\
  received_frame_count (mSnapshot (connection c')) = u64 (received_frame_count (mSnapshot (connection c)) + 1) /\
  concat (incoming (sockets c') fd) = rest /\ healthy (incoming (sockets c') fd).
Proof.
  intros Er Hid Hlen Hh Hc. pose proof (ConnectionProofs.read_message_spec fd id payload rest (sockets c) Hid Hlen Hh Hc) as Hr.
  set (turn := reader_turn NowMs). change (Nat.iter 3 turn c) with (turn (turn (turn c))).
  assert (reader (turn c) = reader_counts id payload /\ connection (turn c) = connection c /\ protocol (turn c) = protocol c /\
    concat (incoming (sockets (turn c)) fd) = rest /\ healthy (incoming (sockets (turn c)) fd)) as H1.
  { unfold turn, reader_turn. rewrite Er. unfold on_sockets. change (read_frame fd (sockets c)) with (GateConnectionService.read_message fd (sockets c)).
    destruct (GateConnectionService.read_message fd (sockets c)) as [message k]. by destruct Hr as (-> & Hrest & Hh'). }
  destruct H1 as (R1 & C1 & P1 & B1 & J1). set (c1 := turn c) in *. clearbody c1. rewrite <- C1, <- P1.
  assert (reader (turn c1) = reader_handles id payload /\ protocol (turn c1) = protocol c1 /\ sockets (turn c1) = sockets c1 /\
    received_frame_count (mSnapshot (connection (turn c1))) = u64 (received_frame_count (mSnapshot (connection c1)) + 1)) as H2
    by (unfold turn, reader_turn; by rewrite R1).
  destruct H2 as (R2 & P2 & S2 & N2). rewrite <- P2, <- N2. rewrite <- S2 in B1, J1. set (c2 := turn c1) in *. clearbody c2.
  unfold turn, reader_turn. rewrite R2. unfold mMessageHandler, on_protocol. by destruct (ProtocolService.HandleFrame id payload (protocol c2)).
Qed.

(** What an answer of the gate makes the client show. *)
Inductive gate_answer : Type :=
| answers_login (response : LoginResponse)
| answers_echo (header : ResponseHeader) (echo : PlayerEchoResponse)
| answers_rename (header : ResponseHeader) (rename : RenamePlayerResponse)
| kicks (reason : string)
| pushes_profile (profile : PlayerProfilePush).

(** The frame of an answer: its id, and the bytes that are read as the answer. *)
Definition carries (answer : gate_answer) (id : Z) (payload : ByteBuffer) : Prop :=
  match answer with
  | answers_login response => id = MESSAGE_ID_LOGIN_RESPONSE /\ ParseMessage payload = Some response
  | answers_echo header echo => id = MESSAGE_ID_PLAYER_MESSAGE_RESPONSE /\ rh_message_id header = MESSAGE_ID_PLAYER_ECHO_REQUEST /\
      exists inner, ParseMessage payload = Some (mkPlayerMessageResponse header inner) /\ ParseMessage inner = Some echo
  | answers_rename header rename => id = MESSAGE_ID_PLAYER_MESSAGE_RESPONSE /\ rh_message_id header = MESSAGE_ID_PLAYER_RENAME_REQUEST /\
      exists inner, ParseMessage payload = Some (mkPlayerMessageResponse header inner) /\ ParseMessage inner = Some rename
  | kicks reason => id = MESSAGE_ID_KICK_NOTIFICATION /\ ParseMessage payload = Some (mkKickNotification reason)
  | pushes_profile profile => id = MESSAGE_ID_PLAYER_PUSH /\
      exists inner, ParseMessage payload = Some (mkPlayerPushMessage MESSAGE_ID_PLAYER_PROFILE_PUSH inner) /\ ParseMessage inner = Some profile
  end.

Definition shows (s : SimClientProtocolSnapshot) (answer : gate_answer) : Prop :=
  match answer with
  | answers_login response => last_login_player_id s = cr_player_id response /\
      last_login_ok s = bool_decide (rh_error_code (cr_header response) = ERROR_CODE_OK) /\
      last_login_error_message s = rh_error_message (cr_header response)
  | answers_echo header echo => last_echo_text s = er_text echo /\ last_player_response_payload s = bytes_of_string (er_text echo) /\
      last_player_response_error_code s = error_number (rh_error_code header)
  | answers_rename header rename => last_rename_display_name s = rr_display_name rename /\
      last_player_response_payload s = bytes_of_string (rr_display_name rename) /\ last_player_response_error_code s = error_number (rh_error_code header)
  | kicks reason => last_kick_reason s = reason
  | pushes_profile profile => last_profile_push_display_name s = pp_display_name profile /\ last_push_message_id s = MESSAGE_ID_PLAYER_PROFILE_PUSH
  end.

(** An account that is configured and what it shows of other answers stays. *)
Definition configured (s : SimClientProtocolSnapshot) : string * string * string * Z :=
  (configured_platform s, configured_account_id s, configured_channel s, configured_client_version s).

Lemma HandleFrame_shows answer id payload s :
  carries answer id payload ->
  shows (protocol_snapshot (ProtocolService.HandleFrame id payload s).2) answer /\
  configured (protocol_snapshot (ProtocolService.HandleFrame id payload s).2) = configured (protocol_snapshot s).
Proof.
  destruct answer; simpl; unfold ProtocolService.HandleFrame.
  - intros [-> E]. simpl. unfold ProtocolService.login_response. by rewrite E.
  - intros (-> & Eh & inner & E & Ei). simpl. unfold ProtocolService.player_response. rewrite E. cbv zeta. cbn [mr_header mr_payload]. rewrite Eh. simpl. by rewrite Ei.
  - intros (-> & Eh & inner & E & Ei). simpl. unfold ProtocolService.player_response. rewrite E. cbv zeta. cbn [mr_header mr_payload]. rewrite Eh. simpl. by rewrite Ei.
  - intros [-> E]. simpl. by rewrite E.
  - intros (-> & inner & E & Ei). simpl. unfold ProtocolService.player_push. rewrite E. cbv zeta. cbn [pp_message_id pp_payload]. simpl. by rewrite Ei.
Qed.

(** An answer of the gate that arrives at a client is shown by it after three steps
    of its reader: who is logged in or why not, what was echoed, the new name, why it
    was kicked, the profile that was pushed; the frame is counted, the bytes behind
    it are left, and the account that is configured stays. *)
Theorem gate_answers_shown answer fd id payload rest c :
  carries answer id payload -> reader c = reader_reads fd -> in_u32 (Z.of_nat (length payload)) -> healthy (incoming (sockets c) fd) ->
  concat (incoming (sockets c) fd) = gate_header_bytes id payload ++ payload ++ rest ->
  let c' := Nat.iter 3 (reader_turn NowMs) c in
  shows (protocol_snapshot (protocol c')) answer /\ configured (protocol_snapshot (protocol c')) = configured (protocol_snapshot (protocol c)) /\
  received_frame_count (mSnapshot (connection c')) = u64 (received_frame_count (mSnapshot (connection c)) + 1) /\
  concat (incoming (sockets c') fd) = rest /\ reader c' = reader_looks.
Proof.
  intros Hc Er Hlen Hh Hb. assert (in_u32 id) as Hid by (destruct answer; simpl in Hc; destruct Hc as [-> _]; by split).
  destruct (reader_handles_frame fd id payload rest c Er Hid Hlen Hh Hb) as (Ep & El & En & Erest & _). cbv zeta. rewrite Ep.
  destruct (HandleFrame_shows answer id payload (protocol c) Hc) as [Hs Hk]. done.
Qed.

(** *** A disconnection is counted twice *)

Lemma join_waiting {sl : SocketsLaw S} fd c :
  reader c = reader_reads fd -> fd ∉ open_fds (sockets c) ->
  exists c', join NowMs true c = (Some tt, c') /\
    disconnect_count (mSnapshot (connection c')) = u64 (disconnect_count (mSnapshot (connection c)) + 1).
Proof.
  intros Er Hfd. unfold join.
  assert (forall n c, reader c = reader_reads fd \/ reader c = reader_leaves -> join_reader NowMs (Datatypes.S n) c = join_reader NowMs n (reader_turn NowMs c)) as Hj
    by (intros n c0 [E|E]; simpl; by rewrite E).
  rewrite (Hj 3%nat) by auto. destruct (read_frame_fds fd (sockets c)) as [_ Hn]. specialize (Hn Hfd).
  assert (reader (reader_turn NowMs c) = reader_leaves /\ connection (reader_turn NowMs c) = connection c) as [R1 <-]
    by (unfold reader_turn; rewrite Er; unfold on_sockets; destruct (read_frame fd (sockets c)) as [m k]; simpl in Hn; by subst m).
  set (c1 := reader_turn NowMs c) in *. clearbody c1. rewrite (Hj 2%nat) by auto.
  assert (reader (reader_turn NowMs c1) = reader_done /\
    disconnect_count (mSnapshot (connection (reader_turn NowMs c1))) = u64 (disconnect_count (mSnapshot (connection c1)) + 1)) as [R2 <-].
  { unfold reader_turn. rewrite R1. cbv zeta. unfold when. destruct (0 <=? _); [|done]. unfold on_sockets. by destruct (sock_close _ _). }
  set (c2 := reader_turn NowMs c1) in *. clearbody c2. cbn [join_reader]. rewrite R2. by eexists.
Qed.

(** The reader that waits for a frame is woken up by [Disconnect] and counts the same
    disconnection again. *)
Lemma disconnect_counts_twice {sl : SocketsLaw S} own fd c :
  client_inv own c -> schedule c = [] -> reader c = reader_reads fd ->
  exists c', Disconnect NowMs c = (Some Success, c') /\
    disconnect_count (mSnapshot (connection c')) = u64 (u64 (disconnect_count (mSnapshot (connection c)) + 1) + 1).
Proof.
  intros [I1 I2 I3 I4] Es Er. unfold Disconnect, bind, others. rewrite Es. cbv zeta.
  destruct (Z.leb_spec 0 (mSocketFd (connection c))) as [Hge|Hlt]; [|rewrite Er in I4; by destruct (mReaderThread (connection c))].
  destruct I4 as [Ej Hb]. rewrite Er in Hb. simpl in Hb. subst fd. replace (mSocketFd (connection c) <? 0) with false by lia.
  set (fd := mSocketFd (connection c)) in *. set (c1 := set_snapshot _ _).
  assert (reader c1 = reader_reads fd /\ schedule c1 = [] /\ sockets c1 = sockets c /\
    disconnect_count (mSnapshot (connection c1)) = u64 (disconnect_count (mSnapshot (connection c)) + 1)) as (Er1 & Es1 & _ & <-) by done.
  clearbody c1. unfold close_and_join, bind, others. rewrite Es1. replace (0 <=? fd) with true by lia. unfold when, on_sockets.
  pose proof (close_law fd (sockets c1)) as Hk. destruct (sock_close fd (sockets c1)) as [[] k]. simpl in Hk. rewrite Ej. unfold call.
  destruct (join_waiting fd (c1 <| sockets := k |>)) as (c' & -> & En); [done|simpl; rewrite Hk; set_solver|]. by exists c'.
Qed.
End answers.
