(* ===== verification/SimConsole.v ===== *)
(** * SimConsole: the commands of [sim_client/application.cpp]

    What an operator of the simulation client can type, and that it always answers. *)

From S2P Require Import Prelude Text Base Transport Repository Protocol Connection Client.
From S2P Require Import Application Config Loader Console SimClient.

Section commands.
Context {S : Type} `{Sockets S} `{ClientSockets S} `{ClientCodecs} `{PlayerCodecs} {mo : MapOrder Z}.
Variable NowMs : Z.
Abbreviation command := (CommandArguments -> St (sim_client S) reply).
Abbreviation registered := (Console.registered client_registered).
Implicit Types c : sim_client S.

(** A call whose result is logged, unless it does not come back. *)
Definition logged (m : St (sim_client S) (option Result)) (failed text : string) (values : list string) : St (sim_client S) reply :=
  fun c => match m c with (Some r, c) => (report r failed text values, c) | (None, c) => (None, c) end.

Definition status : command :=
  registered "sim_client status: services not registered" (fun _ c =>
    let connection := mSnapshot (connection c) in
    let protocol := protocol_snapshot (protocol c) in
    (info "sim_client status"
       [snap_host connection; to_string (snap_port connection); show_bool (connected connection); to_string (connect_attempts connection);
        to_string (disconnect_count connection); to_string (last_connect_ms connection); to_string (last_disconnect_ms connection);
        to_string (sent_frame_count connection); to_string (received_frame_count connection);
        or_none (configured_platform protocol); or_none (configured_account_id protocol); or_none (configured_channel protocol);
        to_string (configured_client_version protocol); to_string (encoded_login_bytes protocol); to_string (encoded_heartbeat_bytes protocol);
        to_string (encoded_player_message_bytes protocol); to_string (received_login_response_bytes protocol);
        to_string (last_login_player_id protocol); show_bool (last_login_ok protocol); to_string (last_login_error_code protocol);
        or_none (last_login_error_message protocol); or_none (last_kick_reason protocol);
        to_string (last_player_response_message_id protocol); to_string (last_player_response_error_code protocol);
        or_none (last_player_response_error_message protocol); or_none (string_of_bytes (last_player_response_payload protocol));
        or_none (last_echo_text protocol); or_none (last_rename_display_name protocol); to_string (last_push_message_id protocol);
        or_none (string_of_bytes (last_push_payload protocol)); or_none (last_profile_push_display_name protocol);
        or_none (last_scenario (scenario c)); to_string (run_count (scenario c))], c)).

Definition use_account : command :=
  registered "sim_client use_account: service not registered" (fun arguments =>
    match arguments with
    | [account_id] => logged (plain (on_protocol (ProtocolService.SetAccountId account_id))) "sim_client use_account failed" "sim_client use_account" [account_id]
    | _ => say (warn "usage: use_account <account_id>" [])
    end).

Definition reset_status : command :=
  registered "sim_client reset_status: service not registered" (fun _ =>
    logged (plain (on_protocol ProtocolService.ResetRuntimeState)) "sim_client reset_status failed" "sim_client reset_status: ok" []).

Definition connect : command :=
  registered "sim_client connect: service not registered" (fun _ =>
    logged (Connect NowMs) "sim_client connect failed" "sim_client connect: connected" []).

Definition disconnect : command :=
  registered "sim_client disconnect: service not registered" (fun _ =>
    logged (Disconnect NowMs) "sim_client disconnect failed" "sim_client disconnect: disconnected" []).

(** A frame is built and sent. *)
Definition send_command (frame : St protocol_service (option SimClientProtocolFrame)) (failed text : string) (values : list string)
    : St (sim_client S) reply :=
  frame <- on_protocol frame ;;
  match frame with
  | None => say (warn failed ["failed to build frame"])
  | Some frame => logged (plain (SendFrame NowMs (frame_message_id frame) (frame_payload frame))) failed text values
  end.

Definition login : command :=
  registered "sim_client login: services not registered" (fun arguments =>
    let failed := "sim_client login failed" in
    let send := send_command ProtocolService.BuildDefaultLoginFrame failed "sim_client login: sent" [] in
    match arguments with
    | [] => send
    | [account_id] =>
        set_account <- on_protocol (ProtocolService.SetAccountId account_id) ;;
        if negb (ok set_account) then say (warn failed [message set_account]) else send
    | _ => say (warn "usage: login [account_id]" [])
    end).

Definition heartbeat : command :=
  registered "sim_client heartbeat: services not registered" (fun _ =>
    send_command ProtocolService.BuildHeartbeatFrame "sim_client heartbeat failed" "sim_client heartbeat: sent" []).

Definition encode_command (encoded : St protocol_service ProtocolEncodeResult) (failed text : string) : St (sim_client S) reply :=
  result <- on_protocol encoded ;;
  say (if negb (enc_ok result) then warn failed [enc_message result]
       else info text [to_string (encoded_size result); to_string (enc_message_id result)]).

Definition login_encode : command :=
  registered "sim_client login_encode: service not registered" (fun _ =>
    encode_command ProtocolService.EncodeDefaultLogin "sim_client login_encode failed" "sim_client login_encode").

Definition heartbeat_encode : command :=
  registered "sim_client heartbeat_encode: service not registered" (fun _ =>
    encode_command ProtocolService.EncodeHeartbeat "sim_client heartbeat_encode failed" "sim_client heartbeat_encode").

Definition player_echo : command :=
  registered "sim_client player_echo: services not registered" (fun arguments =>
    let text := default "sim-player-ping" (head arguments) in
    send_command (ProtocolService.BuildEchoFrame text) "sim_client player_echo failed" "sim_client player_echo" [text]).

Definition player_rename : command :=
  registered "sim_client player_rename: services not registered" (fun arguments =>
    let display_name := default "sim-player-renamed" (head arguments) in
    send_command (ProtocolService.BuildRenameFrame display_name) "sim_client player_rename failed" "sim_client player_rename" [display_name]).

Definition scenario_usage : string :=
  "usage: scenario_run <connect_only|login_smoke|player_echo|player_rename|reconnect_after_disconnect|recover_after_kick|login_then_echo> [account_id]".

Definition scenario_run : command :=
  registered "sim_client scenario_run: service not registered" (fun arguments =>
    let run name account_id := logged (Run NowMs name account_id) "sim_client scenario_run failed" "sim_client scenario_run" [name] in
    match arguments with
    | [name] => run name ""
    | [name; account_id] => run name account_id
    | _ => say (warn scenario_usage [])
    end).

(** [RegisterRuntimeCommands] *)
Definition sim_commands : list (string * string * command) :=
  [
   ("status", "Show sim_client runtime status", status);
   ("use_account", "Switch the default account id used by login commands: <account_id>", use_account);
   ("reset_status", "Clear sim_client protocol runtime observations", reset_status);
   ("connect", "Connect to gate over TCP", connect);
   ("disconnect", "Disconnect from gate", disconnect);
   ("login", "Send one login request to gate: [account_id]", login);
   ("heartbeat", "Send one heartbeat request to gate", heartbeat);
   ("login_encode", "Encode one login request using client protobuf", login_encode);
   ("heartbeat_encode", "Encode one heartbeat request using client protobuf", heartbeat_encode);
   ("player_echo", "Send one typed echo message to gate/game: [text]", player_echo);
   ("player_rename", "Send one typed rename message to gate/game: [display_name]", player_rename);
   ("scenario_run", "Run one named simulated scenario", scenario_run)
  ].

(** [RegisterServices]: no thread runs yet. *)
Definition register_services (configuration : SimClientConfiguration) (k : S) : sim_client S :=
  mkSimClient true
    (mkConnectionService (mkSimClientConnectionSnapshot (gate_host configuration) (gate_port configuration) false 0 0 0 0 0 0) (-1) false)
    (ProtocolService.create configuration) (mkSimClientScenarioSnapshot "" 0) k reader_none [].
End commands.

(** ** Every command answers *)

Module SimConsoleProofs.
Import ClientProofs.

Section console.
Context {S : Type} {sk : Sockets S} {sl : SocketsLaw S} {cs : ClientSockets S} {csl : ClientSocketsLaw S}.
Context {codecs : ClientCodecs} {players : PlayerCodecs} {mo : MapOrder Z}.
Variable NowMs : Z.
Variable own : gset Z.
Implicit Types c : sim_client S.

(** The command comes back without an exception and keeps the invariant. *)
Definition replies (m : St (sim_client S) reply) : Prop :=
  forall c, client_inv own c -> exists lines c', m c = (Some (inr lines), c') /\ client_inv own c'.

Lemma replies_say lines : replies (say (Some (inr lines))).
Proof. intros c Hc. by exists lines, c. Qed.

Lemma replies_warn text values : replies (say (warn text values)).
Proof. apply replies_say. Qed.

Lemma replies_registered warning command arguments :
  replies (command arguments) -> replies (Console.registered client_registered warning command arguments).
Proof. intros Hr c Hc. unfold Console.registered. destruct (client_registered c); [by apply Hr|by eexists _, c]. Qed.

Lemma replies_logged m failed text values : safe own m -> replies (logged m failed text values).
Proof.
  intros Hm c Hc. destruct (Hm c Hc) as (r & c' & E & Hc'). unfold logged, report. rewrite E. destruct (negb (ok r)); by eexists _, c'.
Qed.

Lemma replies_bind {A : Type} (m : St protocol_service A) (k : A -> St (sim_client S) reply) :
  (forall a, replies (k a)) -> replies (bind (on_protocol m) k).
Proof.
  intros Hk c Hc. pose proof (on_protocol_inv own m c Hc) as Hp. unfold bind. destruct (on_protocol m c) as [a c']. by apply Hk.
Qed.

Lemma replies_send_command frame failed text values : replies (send_command NowMs frame failed text values).
Proof. apply replies_bind. intros [f|]; [apply replies_logged, safe_send|apply replies_say]. Qed.

Lemma replies_encode_command encoded failed text : replies (encode_command encoded failed text).
Proof. apply replies_bind. intros r. destruct (negb (enc_ok r)); apply replies_say. Qed.

Lemma sim_commands_reply : Forall (fun entry => forall arguments, replies (entry.2 arguments)) (sim_commands NowMs).
Proof.
  unfold sim_commands. repeat apply Forall_cons_2; [..|apply Forall_nil_2]; intros arguments; cbn [snd];
    match goal with |- replies ?f => let h := head_of f in unfold h end; apply replies_registered; cbv zeta;
    repeat first
      [ apply replies_warn | apply replies_send_command | apply replies_encode_command
      | apply replies_logged; first [apply safe_on_protocol|apply Connect_safe|apply Disconnect_safe|apply Run_safe]
      | apply replies_bind; intros ? | match goal with |- replies (match ?x with _ => _ end) => destruct x end ].
  intros c Hc. by eexists _, c.
Qed.

Lemma register_services_inv configuration k : open_fds k = own -> client_inv own (register_services configuration k).
Proof. by split. Qed.
End console.
End SimConsoleProofs.

(** ** Properties *)

Section properties.
Import ClientProofs SimConsoleProofs.
Context {S : Type} {sk : Sockets S} {sl : SocketsLaw S} {cs : ClientSockets S} {csl : ClientSocketsLaw S}.
Context {codecs : ClientCodecs} {players : PlayerCodecs} {mo : MapOrder Z}.
Implicit Types c : sim_client S.

(** What happens to a client: commands, which the reader may interrupt as a schedule
    says, steps of the reader between them, the stop of the service, and whatever the
    network does, which opens and closes nothing here. *)
Inductive client_step c : sim_client S -> Prop :=
| cl_schedule turns : client_step c (c <| schedule := turns |>)
| cl_command now name description h arguments : (name, description, h) ∈ sim_commands now -> client_step c (h arguments c).2
| cl_reader now : client_step c (reader_turn now c)
| cl_stop now : client_step c (Stop now c).2
| cl_network k : open_fds k = open_fds (sockets c) -> client_step c (c <| sockets := k |>).

Lemma client_step_inv own c c' : client_step c c' -> client_inv own c -> client_inv own c'.
Proof.
  intros [turns|now name description h arguments Hin|now|now|k Hk] Hc.
  - by destruct Hc.
  - pose proof (sim_commands_reply now own) as Hall. rewrite Forall_forall in Hall. destruct (Hall _ Hin arguments c Hc) as (lines & c1 & E & Hc1).
    cbn [snd] in E. by rewrite E.
  - by apply reader_turn_inv.
  - destruct (Stop_safe now own c Hc) as (a & c1 & E & Hc1). by rewrite E.
  - destruct Hc as [I1 I2 I3 I4]. split; simpl; [done|by rewrite Hk|done..].
Qed.

End properties.

(** ** A client in memory *)

Module ExampleClient.
Import ClientProofs Connection.ExampleSockets.

#[local] Existing Instance order_Z.

(** A connection is made when someone waits in the backlog; what that side has sent is
    there to be read. *)
#[local] Instance net_client_sockets : ClientSockets net := {|
  sock_socket := fun k => match new_fd k with Some fd => (fd, k <| net_open := {[fd]} ∪ net_open k |> <| net_next := fd + 1 |>) | None => (-1, k) end;
  inet_pton := fun host => negb (String.eqb host "");
  sock_connect := fun fd _ _ k =>
    match net_backlog k with
    | (_, stream) :: rest => (true, k <| net_in := <[fd := stream]> (net_in k) |> <| net_backlog := rest |>)
    | [] => (false, k)
    end
|}.

#[local] Instance net_client_sockets_law : ClientSocketsLaw net.
Proof.
  split.
  - intros k. simpl. destruct (new_fd k) as [fd|] eqn:E; [|done]. apply new_fd_spec in E as [E1 E2]. by replace (0 <=? fd) with true by lia.
  - intros fd host port k. simpl. by destruct (net_backlog k) as [|[[? ?] ?] ?].
Qed.

(** Texts are their bytes; the header of a message of a player is three numbers; of the
    other messages one value each can be written. *)
Definition text_codec {M : Type} (text : M -> string) (make : string -> M) : MessageCodec M :=
  {| SerializeMessage := fun m => Some (bytes_of_string (text m)); ParseMessage := fun bytes => Some (make (string_of_bytes bytes)) |}.
Definition one_codec {M : Type} (m : M) : MessageCodec M :=
  {| SerializeMessage := fun _ => Some [1]; ParseMessage := fun _ => Some m |}.
Definition request_codec : MessageCodec PlayerMessageRequest :=
  {| SerializeMessage := fun m =>
       let h := mq_header m in Some (le_bytes 4 (qh_message_id h) ++ le_bytes 4 (qh_sequence h) ++ le_bytes 4 (qh_timestamp_ms h) ++ mq_payload m);
     ParseMessage := fun bytes =>
       Some (mkPlayerMessageRequest (mkRequestHeader (of_le_bytes (take 4 bytes)) (of_le_bytes (take 4 (drop 4 bytes))) (of_le_bytes (take 4 (drop 8 bytes))))
               (drop 12 bytes)) |}.
Definition no_header : ResponseHeader := mkResponseHeader 0 1 ERROR_CODE_OK "".

#[local] Instance client_codecs : ClientCodecs := {|
  codec_login_request := one_codec (ProtocolService.login_request default_sim_configuration);
  codec_heartbeat_request := one_codec ProtocolService.heartbeat_request;
  codec_message_request := request_codec;
  codec_login_response := one_codec (mkLoginResponse no_header 100001 [] false);
  codec_heartbeat_response := one_codec (mkHeartbeatResponse no_header 0);
  codec_kick_notification := text_codec kn_reason mkKickNotification;
  codec_message_response := one_codec (mkPlayerMessageResponse no_header []);
  codec_push := one_codec (mkPlayerPushMessage 0 [])
|}.
#[local] Instance player_codecs : PlayerCodecs := {|
  codec_echo_request := text_codec eq_text mkPlayerEchoRequest;
  codec_echo_response := one_codec (mkPlayerEchoResponse 0 "" "" 0);
  codec_rename_request := text_codec nq_display_name mkRenamePlayerRequest;
  codec_rename_response := one_codec (mkRenamePlayerResponse 0 "");
  codec_profile_push := one_codec (mkPlayerProfilePush 0 "" 0 0)
|}.

Definition fits_header (m : PlayerMessageRequest) : Prop :=
  in_u32 (qh_message_id (mq_header m)) /\ in_u32 (qh_sequence (mq_header m)) /\ in_u32 (qh_timestamp_ms (mq_header m)).

#[local] Instance login_written : MessageCodecLaw LoginRequest (fun m => m = ProtocolService.login_request default_sim_configuration).
Proof. intros m ->. by eexists. Qed.
#[local] Instance heartbeat_written : MessageCodecLaw HeartbeatRequest (fun m => m = ProtocolService.heartbeat_request).
Proof. intros m ->. by eexists. Qed.
#[local] Instance echo_written : MessageCodecLaw PlayerEchoRequest (fun _ => True).
Proof. intros [text] _. eexists. split; [done|]. simpl. by rewrite string_of_bytes_of_string. Qed.
#[local] Instance rename_written : MessageCodecLaw RenamePlayerRequest (fun _ => True).
Proof. intros [text] _. eexists. split; [done|]. simpl. by rewrite string_of_bytes_of_string. Qed.

#[local] Instance request_written : MessageCodecLaw PlayerMessageRequest fits_header.
Proof.
  intros [[id sequence timestamp] payload] (Hid & Hse & Hti). simpl in Hid, Hse, Hti. eexists. split; [done|].
  change (Some (mkPlayerMessageRequest (mkRequestHeader (of_le_bytes (le_bytes 4 id)) (of_le_bytes (le_bytes 4 sequence)) (of_le_bytes (le_bytes 4 timestamp)))
    payload) = Some (mkPlayerMessageRequest (mkRequestHeader id sequence timestamp) payload)).
  by rewrite !of_le_bytes_4.
Qed.

(** The descriptors 3 and 4 are those of others; a gate listens. *)
Definition network (stream : Stream) : net := mkNet {[3; 4]} ∅ ∅ [("127.0.0.1", 9000, stream)] 5.
Definition first_client (stream : Stream) : sim_client net := register_services default_sim_configuration (network stream).
Definition connected_client (stream : Stream) : sim_client net := (connect 1000 [] (first_client stream)).2.

(** The reader takes its first steps within the scenario. *)
Definition smoked : option Result * sim_client net := Run 1000 "login_smoke" "" ((first_client []) <| schedule := [0; 1; 1]%nat |>).

Lemma scenario_counts_witness : sent smoked.2 = 2 /\ scenario smoked.2 = mkSimClientScenarioSnapshot "login_smoke" 1.
Proof.
  assert (smoked = (Some Success, smoked.2)) as E by by vm_compute.
  pose proof (scenario_counts 1000 "login_smoke" "" ((first_client []) <| schedule := [0; 1; 1]%nat |>) Success smoked.2 E) as Hs.
  simpl in Hs. destruct Hs as (n & Hin & Hn & Hrun). split; [by vm_compute|]. rewrite Hrun. by vm_compute.
Defined.

(** A client asks for an echo; the gate reads it from its socket 6 in pieces. *)
Definition echo_frame_bytes : ByteBuffer := [185; 11; 0; 0; 14; 0; 0; 0; 29; 12; 0; 0; 3; 0; 0; 0; 3; 0; 0; 0; 104; 105].
Definition gate_side : net := mkNet {[6]} {[6 := [take 5 echo_frame_bytes; drop 5 echo_frame_bytes ++ [1; 2]]]} ∅ [] 7.

Definition echo_built : SimClientProtocolFrame := mkSimClientProtocolFrame 3001 (drop 8 echo_frame_bytes).
Definition echo_sent : Result * sim_client net := SendFrame 1000 (frame_message_id echo_built) (frame_payload echo_built) (connected_client []).

Lemma client_requests_understood_witness :
  exists id payload, (GateConnectionService.read_message 6 gate_side).1 = Some (id, payload) /\
    says (ProtocolService.create default_sim_configuration) (asks_echo "hi") id payload.
Proof.
  destruct (client_requests_understood (fun m => m = ProtocolService.login_request default_sim_configuration)
    (fun m => m = ProtocolService.heartbeat_request) fits_header (fun _ => True) (fun _ => True) 1000
    (ProtocolService.create default_sim_configuration) (asks_echo "hi") (connected_client [])) as (frame & s' & Ef & Hs).
  { split; [done|]. intros inner _. by repeat split. }
  assert (frame = echo_built) as ->.
  { assert (Some frame = (frame_of (asks_echo "hi") (ProtocolService.create default_sim_configuration)).1) as Eb by (by rewrite Ef). by injection Eb. }
  specialize (Hs ltac:(by split)). cbv zeta in Hs. assert (echo_sent = (Success, echo_sent.2)) as Es by by vm_compute.
  change (SendFrame 1000 (frame_message_id echo_built) (frame_payload echo_built) (connected_client [])) with echo_sent in Hs.
  rewrite Es in Hs. destruct (Hs eq_refl) as (bytes & Hb & Hread).
  assert (bytes = echo_frame_bytes) as ->.
  { apply (app_inv_head (outgoing (sockets (others 1000 (connected_client [])).2) (mSocketFd (connection (others 1000 (connected_client [])).2)))).
    rewrite <- Hb. by vm_compute. }
  specialize (Hread gate_side 6 [1; 2] ltac:(by repeat constructor) ltac:(by vm_compute)).
  destruct (GateConnectionService.read_message 6 gate_side) as [message k']. destruct Hread as [(id & payload & -> & Hsays) _]. by exists id, payload.
Defined.

(** The gate kicks a client whose reader waits on its socket 5. *)
Definition kick_frame : ByteBuffer := [211; 7; 0; 0; 4; 0; 0; 0; 98; 117; 115; 121].
Definition kicked_client : sim_client net := reader_turn 1000 (connected_client [take 3 kick_frame; drop 3 kick_frame]).

Lemma gate_answers_shown_witness : last_kick_reason (protocol_snapshot (protocol (Nat.iter 3 (reader_turn 1000) kicked_client))) = "busy".
Proof.
  apply (gate_answers_shown 1000 (kicks "busy") 5 2003 [98; 117; 115; 121] [] kicked_client);
    [by split|by vm_compute|by split|by vm_compute; repeat constructor|by vm_compute].
Defined.

(** The client is connected and its reader waits; the operator disconnects. *)
Lemma client_reached : rtc client_step (first_client [[1]]) (reader_turn 1000 (connected_client [[1]])).
Proof.
  eapply rtc_l; [|eapply rtc_l; [|apply rtc_refl]].
  - apply (cl_command _ 1000 "connect" "Connect to gate over TCP" (connect 1000) []). unfold sim_commands.
    do 3 apply list_elem_of_further. apply list_elem_of_here.
  - apply cl_reader.
Qed.

End ExampleClient.
